(* ===== verification/_CoqProject ===== *)
-Q . S2P
Prelude.v
GoBytes.v
SlotCodec.v
HeaderCodec.v
SlottedPage.v
PageLayout.v
PageInsert.v
PageSplit.v
LeafNodeCodec.v
LeafNodeSpec.v
InternalNodeCodec.v
InternalNodeSpec.v
InternalRouting.v
MetadataCodec.v
LRUReplacer.v
DiskManager.v
HashMap.v
OSBufferedDisk.v
DiskAllocator.v
BufferPool.v
AlignedBuffer.v
BufferPoolSpec.v
Guards.v
PageStore.v
PoolSession.v
NodeAccess.v
BPlusTree.v
Recovery.v
NodeSpec.v
TreeSpec.v
TreeSearch.v
Iterator.v
TreeDelete.v
TreeInsert.v
TreeSplit.v
RecoverySpec.v
CrashSafety.v
CrashRuns.v
RedoSplit.v
TreePromote.v
TreeInsertSplit.v
TreeRootSplit.v
TreeMap.v
TreeTermination.v
ServerCodec.v
Server.v
ServerSpec.v
ServerRuns.v
ServerLinear.v
Main.v
Session.v
Engine.v
PoolRuns.v
ReadRuns.v
PoolSamples.v
TreeSamples.v
RecoverySamples.v
ServerSamples.v
MainSamples.v
ReadSamples.v
SpaceSamples.v
EngineSamples.v
