(* ===== verification/Prelude.v ===== *)
(** * CambiumDB: a verification development

    CambiumDB is a key-value store: a TCP server in front of a B+ tree whose
    nodes are 4096-byte slotted pages, cached by a buffer pool over one file,
    with a write-ahead log for recovery.  This library models the Go code under
    src/ and proves what makes it correct, and where it is not, which inputs
    show it.

    ** The parts, and where they are

    Pages (src/pagecodec)
    - [SlotCodec], [HeaderCodec]: slot_codec.go and header_codec.go, field by
      field, checksum included.
    - [SlottedPage]: the routines that leaf_node_codec.go and
      internal_node_codec.go both have, over the class [NodeElement];
      [LeafNodeCodec] and [InternalNodeCodec] hold the rest, with the source's
      names.  [PageLayout], [PageInsert] and [PageSplit] prove the shared lemmas
      from the laws [NodeElementLaws]; [LeafNodeSpec], [InternalNodeSpec] and
      [InternalRouting] state what the codecs promise: a leaf is a finite map, an
      internal node routes a key to one of its children.
    - [MetadataCodec]: metadata_codec.go.

    Storage (src/bufferpoolmanager)
    - [LRUReplacer]: lru_replacer.go, against the class [Replacer].
    - [DiskManager]: direct_io_disk_manager.go over a model of a file;
      [DiskAllocator] is page allocation as the layers above see it.
    - [OSBufferedDisk]: os_buffered_disk_manager.go, which nothing constructs.
    - [BufferPool], [BufferPoolSpec]: simple_buffer_pool_manager.go;
      [AlignedBuffer]: aligned_buffer_allocation.go and the memory of the frames;
      [Guards]: write_guard.go and read_guard.go; [PoolRuns]: guards of many
      goroutines, interleaved at every critical section.
    - [PageStore]: the interface [BufferPoolManager] of the source as a class,
      and the class [PageStoreLaws] of what the tree relies on; [PoolSession]
      proves these laws of the pool over any replacer and disk that keep theirs.

    The tree (src/bplustree)
    - [NodeAccess]: the readers, writers and cursors, and the monad in which the
      tree's code is written: state, panics, waiting for ever, returned errors
      and [defer].
    - [BPlusTree]: b_plus_tree.go; [Iterator]: iterative_cursor.go and
      b_plus_tree_iterator.go; [HashMap]: hashmap.go.
    - [NodeSpec], [TreeSpec]: symbolic execution, and the abstract tree
      [tree_at], a finite map on a set of pages; [TreeSearch], [TreeDelete],
      [TreeInsert], [TreeSplit], [TreePromote], [TreeInsertSplit],
      [TreeRootSplit], [TreeMap]: the operations against it;
      [TreeTermination]: the traversals end; [ReadRuns]: lookups of many
      goroutines, interleaved at every critical section.

    Recovery and the engine (src/storageengine)
    - [Recovery]: wal_recovery.go; [RecoverySpec], [CrashSafety], [CrashRuns],
      [RedoSplit]: what it restores.
    - [Engine]: storage_engine.go.

    The server (src/server, src/main.go)
    - [ServerCodec]: request_decoder.go and response_encoder.go; [Server]:
      server.go; [ServerSpec], [ServerRuns]: what it promises to a client, and
      the goroutines of all clients; [ServerLinear]: the clients share one map.
    - [Main]: main.go, before and after [server.Run]; [Session]: the whole of it.

    [PoolSamples], [TreeSamples], [RecoverySamples], [ServerSamples],
    [MainSamples], [ReadSamples], [SpaceSamples] and [EngineSamples] hold concrete
    databases: every theorem with hypotheses is applied to one, and the bugs that
    need a whole run are shown on one by computation.  [GoBytes] models Go's byte slices and the routines of
    its standard library; this file holds the notations, tactics and hints.

    ** How the code is represented

    - A w-bit integer is a [Z] with its wrap-around written out ([u16],
      [u32], [u64]).
    - A panic is [None]: an index or slice out of range, a nil pointer, the call
      of a nil function.  A page is exactly its 4096 bytes: a slice past its end
      is a panic, though the buffers of the frames are longer and Go, which checks
      the capacity, might read the bytes behind the page.
    - A returned error is a value of the type [error]; log and debug output is
      left out, but a call that only prints and can panic is kept.
    - A slice of a page aliases it: writes through it are writes to the page
      ([View] in [GoBytes]).  The metadata record that the disk manager, the tree
      and the engine share through a pointer is one record of the state.
    - Each critical section is one atomic step.  Where a path leaves a mutex
      locked, or locks it twice, the mutex is part of the state and waiting for
      it is the outcome [Blocked].  Insertions and deletions hold the tree's mutex
      exclusively, so each is one step.  Lookups share it: [BPlusTree_Get] is one
      that runs alone, and [get_step] cuts it at the locks of the pool and of the
      pages and lets others run in between; [Get_alone] shows that the two agree.
      The other interleavings are those of clients in [server_step], where a
      request, a lookup too, is one step, and of guards in [pool_step].
    - The order of a [range] over a map is a parameter, any permutation.
    - The operating system: a system call fails when the file's list of faults
      says so; a failed write leaves the file as it was.  After a crash a page
      is the version before or after the step in progress ([crashed]), or one of
      all its versions in a history ([crashed_among]).
    - A connection is a stream of bytes, what the peer does after them, and the
      failures of writes to come ([Conn]).
    - Outside the repository, as parameters: opening a file, locking memory (class
      [Memory] in [AlignedBuffer]), the addresses that Go's allocator returns, and
      the log package (class [WAL], with [log_reliable], that it takes every
      record, where a theorem needs it; its iterator is a list of records).

    ** What is proved

    - Codecs: every operation of a leaf and of an internal node refines the map
      or routing function it stands for, on each branch, compaction, deletion
      and refusal included, as long as no value was shortened in place, after
      which the code's count of garbage is wrong ([garbage_counted_twice]); the
      metadata page, the elements in a log record and the requests come back as
      they were encoded.
    - Storage: a fetch returns the page whatever was evicted for it, with its
      bounds and its errors; a flush makes every page durable; allocation gives
      out fresh pages; closing and opening keeps everything; the replacer is a
      queue in least-recently-used order; every frame has an aligned page of
      memory of its own.  However guards interleave, an exclusive one is alone on
      its page, and a page that is held neither moves nor changes under its
      holder.
    - Tree: [Get], [Insert] and [Delete] are lookup, insertion and deletion of a
      finite map, for any height, through leaf splits and root splits
      ([TreeMap.insert_ready] says when); they end; any number of [Get]s that
      overlap return what one alone would, unless the pool has too few frames for
      all of them, when one of them panics ([concurrent_gets_panic]).
    - Recovery redoes the committed operations in order and ignores the rest, as
      long as those of one tree do not overlap in the log; an
      insertion into a leaf that needs no compaction survives a crash at any moment, and so does a history
      of insertions, each page being in any of its versions; redoing a leaf split
      rebuilds both halves whichever pages had reached the disk.
    - Engine, server and main: the server is linearizable, all clients being
      answered as by one finite map in every interleaving of their requests and
      however these are cut into pieces, as long as the tree can take what they
      put; the flags and connections are consistent; a
      shutdown drains; when no client is in a request at the shutdown, what clients
      were told is there after the restart, however the goroutines end; a restart
      of the engine keeps every tree.
    - Errors: theorems about runs in which the code loses data, panics, fails to
      recover or never returns, each at the line that causes it.

    ** Bounds

    Traversals take fuel, one unit per level, and what a run does that has used it
    up is a parameter ([OutOfFuel]), unlike a panic.  [tree_operations_terminate]
    shows that with height plus one the result depends neither on the fuel nor on
    that parameter, so that no run gets there, and every theorem about an operation
    asks for no more; lookups that overlap take at most seven steps per level.  An
    operation of the tree needs a frame for each level and two more
    for splits.  Splitting asks that elements have at most 500 bytes, about an
    eighth of a page: above that the split index can run past the end, which is
    the panic of [leaf_split_past_end_panics].  Page ids stay below 2^51, where
    file offsets fit in 63 bits.

    ** Not modelled

    - direct_io_linux.go, direct_io_mac.go: wrappers of system calls without a
      caller.
    - The log package, external.
    - Code in comments, and functions that only print.
    - Splits of internal nodes are modelled, and shown to lose keys in
      [internal_root_split_loses_keys], so that no theorem claims them right.
    - Writes to disk that are torn within a page. *)

From Stdlib Require Export ZArith Lia Sorting.Sorted.
From stdpp Require Export base tactics list numbers option.

#[global] Open Scope Z_scope.

(** ** Panics

    A Go function that can panic (index or slice bounds out of range, nil
    dereference) is modelled as a function into [option]: [None] is the panic,
    which ends the computation, so that [mbind] of [option] is exactly Go's
    sequencing.  Errors that the code returns as values are values of their
    own types, never [None]. *)

Declare Scope go_scope.
Delimit Scope go_scope with go.
#[global] Open Scope go_scope.

Notation "'assert!' b ; k" := (if b then k else None)
  (at level 100, b at level 99, k at level 200, right associativity,
   format "'assert!'  b ; '/' k") : go_scope.

(** ** Fixed-width integers: a [w]-bit unsigned integer is a [Z] in
    [[0, 2^w)], and each arithmetic operation of the code is followed by the
    conversion that wraps it. *)

Definition u16 (z : Z) : Z := z mod 65536.
Definition u32 (z : Z) : Z := z mod 4294967296.
Definition u64 (z : Z) : Z := z mod 18446744073709551616.

Lemma u16_id z : 0 <= z < 65536 -> u16 z = z.
Proof. apply Z.mod_small. Qed.

Lemma u32_id z : 0 <= z < 4294967296 -> u32 z = z.
Proof. apply Z.mod_small. Qed.

Lemma u64_id z : 0 <= z < 18446744073709551616 -> u64 z = z.
Proof. apply Z.mod_small. Qed.

Lemma u16_range z : 0 <= u16 z < 65536.
Proof. apply Z.mod_pos_bound; lia. Qed.

Lemma u64_range z : 0 <= u64 z < 18446744073709551616.
Proof. apply Z.mod_pos_bound; lia. Qed.

(** ** Lists *)

(** Length of a list as the Go [int] that [len] returns. *)
Definition len {A} (l : list A) : Z := Z.of_nat (length l).

Lemma len_nonneg {A} (l : list A) : 0 <= len l.
Proof. unfold len. lia. Qed.

Lemma len_app {A} (l k : list A) : len (l ++ k) = len l + len k.
Proof. unfold len. rewrite length_app. lia. Qed.

Lemma len_cons {A} (x : A) l : len (x :: l) = 1 + len l.
Proof. unfold len. simpl. lia. Qed.

Lemma len_nil {A} : len (@nil A) = 0.
Proof. reflexivity. Qed.

Lemma len_fmap {A B} (f : A -> B) l : len (f <$> l) = len l.
Proof. unfold len. by rewrite length_fmap. Qed.

Lemma len_replicate {A} n (x : A) : len (replicate n x) = Z.of_nat n.
Proof. unfold len. by rewrite length_replicate. Qed.

Lemma to_nat_len {A} (l : list A) : Z.to_nat (len l) = length l.
Proof. apply Nat2Z.id. Qed.

Create Rewrite HintDb len.
#[export] Hint Rewrite @len_app @len_cons @len_nil @len_fmap @len_replicate : len.

(** Solves the bounds side conditions that reading and writing inside a page
    leaves behind. *)
Ltac solve_len :=
  autorewrite with len in *;
  repeat match goal with
  | |- context [len ?l] =>
      lazymatch goal with
      | H : 0 <= len l |- _ => fail
      | _ => pose proof (len_nonneg l)
      end
  | _ : context [len ?l] |- _ =>
      lazymatch goal with
      | H : 0 <= len l |- _ => fail
      | _ => pose proof (len_nonneg l)
      end
  end; lia.

(** Discharges the bounds checks of [assert!] by arithmetic. *)
Ltac go_assert :=
  repeat match goal with
  | |- context [if ?b then _ else None] => replace b with true by (symmetry; solve_len)
  end.

Lemma length_omap_le {A B} (f : A -> option B) l : (length (omap f l) <= length l)%nat.
Proof. induction l as [|x l IH]; cbn; [done|]. destruct (f x); cbn; lia. Qed.

(** Total size of a list under a measure. *)
Definition sum_with {A} (f : A -> Z) (l : list A) : Z := foldr (fun x a => f x + a) 0 l.

Lemma sum_with_cons {A} (f : A -> Z) x l : sum_with f (x :: l) = f x + sum_with f l.
Proof. reflexivity. Qed.

Lemma sum_with_app {A} (f : A -> Z) l k : sum_with f (l ++ k) = sum_with f l + sum_with f k.
Proof. induction l; simpl; lia. Qed.

Lemma sum_with_nonneg {A} (f : A -> Z) l : (forall x, 0 <= f x) -> 0 <= sum_with f l.
Proof. intros Hf. induction l as [|x l IH]; simpl; [lia|]. specialize (Hf x). lia. Qed.

Lemma sum_with_lower {A} (f : A -> Z) c l : (forall x, c <= f x) -> c * len l <= sum_with f l.
Proof. intros Hf. induction l as [|x l IH]; [unfold len, sum_with; cbn; lia|]. rewrite len_cons, sum_with_cons. specialize (Hf x). lia. Qed.

Lemma sum_with_take_S {A} (f : A -> Z) l n x : l !! n = Some x -> sum_with f (take (S n) l) = sum_with f (take n l) + f x.
Proof. intros Hx. rewrite (take_S_r _ _ _ Hx), sum_with_app. unfold sum_with at 2. cbn. lia. Qed.

Lemma StronglySorted_app_inv {A} (R : A -> A -> Prop) l1 l2 :
  StronglySorted R (l1 ++ l2) ->
  StronglySorted R l1 /\ StronglySorted R l2 /\
  (forall x y, x ∈ l1 -> y ∈ l2 -> R x y).
Proof.
  induction l1 as [|a l1 IH]; simpl; intros Hs.
  - split; [constructor|split; [done|]]. intros ? ? Hx; inversion Hx.
  - inversion Hs as [|? ? Hs' Hf]; subst. apply Forall_app in Hf as [Hf1 Hf2].
    destruct (IH Hs') as (? & ? & Hc). split_and!; [by constructor|done|].
    intros x y [->|Hx]%elem_of_cons Hy; [|by apply Hc].
    rewrite list.Forall_forall in Hf2. by apply Hf2.
Qed.

Lemma StronglySorted_app_intro {A} (R : A -> A -> Prop) l1 l2 :
  StronglySorted R l1 -> StronglySorted R l2 ->
  (forall x y, x ∈ l1 -> y ∈ l2 -> R x y) -> StronglySorted R (l1 ++ l2).
Proof.
  induction l1 as [|a l1 IH]; simpl; intros Hs1 Hs2 Hc; [done|].
  inversion Hs1 as [|? ? Hs' Hf]; subst. constructor.
  - apply IH; [done..|]. intros. apply Hc; [by right|done].
  - apply Forall_app; split; [done|]. apply list.Forall_forall.
    intros y Hy. apply Hc; [by left|done].
Qed.

#[global] Arguments len : simpl never.
#[global] Arguments sum_with : simpl never.
