(* ===== verification/GoBytes.v ===== *)
(** * Go's byte slices and the standard-library routines the code uses on them

    Bytes, little-endian integers ([encoding/binary]), byte-slice comparison
    ([bytes.Compare]), CRC-32 ([hash/crc32]), and reading and writing inside a
    buffer through sub-slices that alias it. *)

From Stdlib Require Export Strings.Byte.
From S2P Require Export Prelude.

Abbreviation byte := Byte.byte.

(** ** Bytes *)

Definition byte_to_Z (b : byte) : Z := Z.of_N (Byte.to_N b).

Definition byte_of_Z (z : Z) : byte :=
  match Byte.of_N (Z.to_N (z mod 256)) with Some b => b | None => x00 end.

#[export] Instance byte_eq_decision : EqDecision byte.
Proof. intros x y. apply Byte.byte_eq_dec. Defined.

Lemma byte_to_Z_range b : 0 <= byte_to_Z b < 256.
Proof. unfold byte_to_Z. pose proof (Byte.to_N_bounded b). lia. Qed.

Lemma byte_to_of_Z z : byte_to_Z (byte_of_Z z) = z mod 256.
Proof.
  unfold byte_to_Z, byte_of_Z. pose proof (Z.mod_pos_bound z 256 ltac:(lia)) as Hb.
  destruct (Byte.of_N _) as [b|] eqn:E.
  - apply Byte.to_of_N in E. rewrite E. lia.
  - apply Byte.of_N_None_iff in E. lia.
Qed.

Lemma byte_of_to_Z b : byte_of_Z (byte_to_Z b) = b.
Proof.
  unfold byte_of_Z. rewrite Z.mod_small by apply byte_to_Z_range.
  unfold byte_to_Z. rewrite N2Z.id, Byte.of_to_N. done.
Qed.

Lemma byte_to_Z_inj a b : byte_to_Z a = byte_to_Z b -> a = b.
Proof. intros H. rewrite <- (byte_of_to_Z a), <- (byte_of_to_Z b). by rewrite H. Qed.

(** ** Little-endian integers *)

(** [n] bytes of [v], least significant first: [PutUint16], [PutUint32],
    [PutUint64] and their [Append] forms. *)
Fixpoint le (n : nat) (v : Z) : list byte :=
  match n with
  | O => []
  | S n => byte_of_Z v :: le n (Z.shiftr v 8)
  end.

(** [binary.LittleEndian.Uint16/32/64] on exactly the bytes they read. *)
Fixpoint unle (bs : list byte) : Z :=
  match bs with
  | [] => 0
  | b :: bs => byte_to_Z b + 256 * unle bs
  end.

Lemma length_le n v : length (le n v) = n.
Proof. revert v; induction n; intros; simpl; auto. Qed.

Lemma len_le n v : len (le n v) = Z.of_nat n.
Proof. unfold len. by rewrite length_le. Qed.
#[export] Hint Rewrite @len_le : len.

Lemma unle_le n v : unle (le n v) = v mod 256 ^ Z.of_nat n.
Proof.
  revert v; induction n as [|n IH]; intros v; cbn [le unle].
  - rewrite Z.mod_1_r. done.
  - rewrite IH, byte_to_of_Z, Z.shiftr_div_pow2 by lia.
    change (2 ^ 8) with 256.
    rewrite Nat2Z.inj_succ, Z.pow_succ_r by lia.
    rewrite Z.rem_mul_r by lia. lia.
Qed.

Lemma unle_range bs : 0 <= unle bs < 256 ^ len bs.
Proof.
  induction bs as [|b bs IH]; cbn [unle]; [done|].
  pose proof (byte_to_Z_range b). rewrite len_cons, Z.add_comm, Z.pow_add_r by solve_len. lia.
Qed.

Lemma le_unle bs : le (length bs) (unle bs) = bs.
Proof.
  induction bs as [|b bs IH]; [done|]. cbn [length le unle].
  pose proof (byte_to_Z_range b). f_equal.
  - apply byte_to_Z_inj. rewrite byte_to_of_Z, Z.mul_comm, Z.mod_add by lia. apply Z.mod_small. lia.
  - replace (Z.shiftr (byte_to_Z b + 256 * unle bs) 8) with (unle bs); [done|].
    rewrite Z.shiftr_div_pow2 by lia. change (2 ^ 8) with 256.
    rewrite Z.mul_comm, Z.div_add, Z.div_small; lia.
Qed.

(** ** [bytes.Compare] *)

Fixpoint bytesCompare (a b : list byte) : Z :=
  match a, b with
  | [], [] => 0
  | [], _ :: _ => -1
  | _ :: _, [] => 1
  | x :: a, y :: b =>
      if byte_to_Z x <? byte_to_Z y then -1
      else if byte_to_Z y <? byte_to_Z x then 1
      else bytesCompare a b
  end.

(** Keys are ordered by [bytes.Compare]. *)
Definition key_lt (a b : list byte) : Prop := bytesCompare a b = -1.
Definition key_le (a b : list byte) : Prop := bytesCompare a b <> 1.

Lemma bytesCompare_cases a b :
  bytesCompare a b = -1 \/ bytesCompare a b = 0 \/ bytesCompare a b = 1.
Proof.
  revert b; induction a as [|x a IH]; intros [|y b]; simpl; auto.
  repeat case_match; auto.
Qed.

Lemma bytesCompare_refl a : bytesCompare a a = 0.
Proof. induction a; simpl; [done|]. by rewrite Z.ltb_irrefl. Qed.

Lemma bytesCompare_eq a b : bytesCompare a b = 0 <-> a = b.
Proof.
  split; [|intros ->; apply bytesCompare_refl].
  revert b; induction a as [|x a IH]; intros [|y b]; simpl; try done.
  destruct (Z.ltb_spec (byte_to_Z x) (byte_to_Z y)); [done|].
  destruct (Z.ltb_spec (byte_to_Z y) (byte_to_Z x)); [done|].
  intros Hc. f_equal; [|by apply IH]. apply byte_to_Z_inj. lia.
Qed.

Lemma bytesCompare_sym a b : bytesCompare b a = - bytesCompare a b.
Proof.
  revert b; induction a as [|x a IH]; intros [|y b]; simpl; try done.
  destruct (Z.ltb_spec (byte_to_Z x) (byte_to_Z y)), (Z.ltb_spec (byte_to_Z y) (byte_to_Z x));
    try done; lia.
Qed.

Lemma key_lt_trans a b c : key_lt a b -> key_lt b c -> key_lt a c.
Proof.
  unfold key_lt. revert b c; induction a as [|x a IH]; intros [|y b] [|z c]; simpl; try done.
  destruct (Z.ltb_spec (byte_to_Z x) (byte_to_Z y)), (Z.ltb_spec (byte_to_Z y) (byte_to_Z z)),
    (Z.ltb_spec (byte_to_Z x) (byte_to_Z z)), (Z.ltb_spec (byte_to_Z y) (byte_to_Z x)),
    (Z.ltb_spec (byte_to_Z z) (byte_to_Z y)), (Z.ltb_spec (byte_to_Z z) (byte_to_Z x));
    try done; try lia. eauto.
Qed.

Lemma key_lt_irrefl a : ~ key_lt a a.
Proof. unfold key_lt. by rewrite bytesCompare_refl. Qed.

Lemma key_le_lt_or_eq a b : key_le a b <-> key_lt a b \/ a = b.
Proof.
  unfold key_le, key_lt. rewrite <- bytesCompare_eq. pose proof (bytesCompare_cases a b). lia.
Qed.

Lemma key_lt_le a b : key_lt a b -> key_le a b.
Proof. rewrite key_le_lt_or_eq. auto. Qed.

Lemma key_le_refl a : key_le a a.
Proof. rewrite key_le_lt_or_eq. auto. Qed.

Lemma key_le_trans a b c : key_le a b -> key_le b c -> key_le a c.
Proof.
  rewrite !key_le_lt_or_eq. intros [?| ->] [?| ->]; eauto using key_lt_trans.
Qed.

Lemma key_le_lt_trans a b c : key_le a b -> key_lt b c -> key_lt a c.
Proof. rewrite key_le_lt_or_eq. intros [?| ->] ?; eauto using key_lt_trans. Qed.

Lemma key_lt_le_trans a b c : key_lt a b -> key_le b c -> key_lt a c.
Proof. rewrite key_le_lt_or_eq. intros ? [?| <-]; eauto using key_lt_trans. Qed.

Lemma key_gt_lt a b : bytesCompare a b = 1 <-> key_lt b a.
Proof. unfold key_lt. rewrite (bytesCompare_sym a b). lia. Qed.

Lemma key_not_le a b : ~ key_le a b <-> key_lt b a.
Proof. rewrite <- key_gt_lt. unfold key_le. lia. Qed.

#[export] Instance key_lt_decision a b : Decision (key_lt a b).
Proof. unfold key_lt. apply _. Defined.
#[export] Instance key_le_decision a b : Decision (key_le a b).
Proof. unfold key_le. apply _. Defined.

Create HintDb keys discriminated.
#[export] Hint Resolve key_lt_trans key_le_trans key_le_lt_trans key_lt_le_trans
  key_lt_le key_le_refl : keys.

(** ** [crc32.ChecksumIEEE] *)

(** The reflected CRC-32 with polynomial 0xEDB88320, bit by bit. *)
Fixpoint crc32_bits (n : nat) (c : Z) : Z :=
  match n with
  | O => c
  | S n => crc32_bits n
             (if Z.odd c then Z.lxor (Z.shiftr c 1) 0xEDB88320 else Z.shiftr c 1)
  end.

Definition crc32_byte (c : Z) (b : byte) : Z := crc32_bits 8 (Z.lxor c (byte_to_Z b)).

Definition crc32_ChecksumIEEE (data : list byte) : Z :=
  Z.lxor (foldl crc32_byte 0xFFFFFFFF data) 0xFFFFFFFF.

(** The check value of the CRC-32/ISO-HDLC catalogue entry: "123456789". *)
Example crc32_check :
  crc32_ChecksumIEEE [x31; x32; x33; x34; x35; x36; x37; x38; x39] = 0xCBF43926.
Proof. vm_compute. reflexivity. Qed.

(** ** Buffers and sub-slices

    A buffer is the list of its bytes.  A sub-slice [b[lo:hi]] that the code
    only reads is the list of the bytes it covers; one it writes through is a
    [view], the part of the buffer it aliases, so that a write through the view
    is a write to the buffer. *)

Definition sub {A} (p : list A) (off n : Z) : list A :=
  take (Z.to_nat n) (drop (Z.to_nat off) p).

Definition write (p : list byte) (off : Z) (bs : list byte) : list byte :=
  take (Z.to_nat off) p ++ bs ++ drop (Z.to_nat off + length bs) p.

Record view := View { v_off : Z; v_len : Z }.

(** [b[lo:hi]], read.  Go lets [hi] go up to the capacity; here a page ends at
    its length, so a slice past the end of a page is a panic where Go might read
    the bytes behind it. *)
Definition slice {A} (b : list A) (lo hi : Z) : option (list A) :=
  assert! (0 <=? lo) && (lo <=? hi) && (hi <=? len b);
  Some (sub b lo (hi - lo)).

(** [b[lo:hi]], as an alias of [b]. *)
Definition slice_view (b : list byte) (lo hi : Z) : option view :=
  assert! (0 <=? lo) && (lo <=? hi) && (hi <=? len b);
  Some (View lo (hi - lo)).

Definition view_bytes (b : list byte) (v : view) : list byte := sub b (v_off v) (v_len v).

(** [b[i]] *)
Definition index {A} (b : list A) (i : Z) : option A :=
  assert! 0 <=? i; b !! Z.to_nat i.

(** [binary.LittleEndian.Uint16/32/64(b[off:])] with [n] = 2, 4, 8. *)
Definition readUint (n : nat) (b : list byte) (off : Z) : option Z :=
  assert! (0 <=? off) && (off + Z.of_nat n <=? len b);
  Some (unle (sub b off (Z.of_nat n))).

(** [binary.LittleEndian.PutUint16/32/64(v[off:], x)] for a view [v] of [p]. *)
Definition putUint (n : nat) (p : list byte) (v : view) (off x : Z) : option (list byte) :=
  assert! (0 <=? off) && (off + Z.of_nat n <=? v_len v);
  Some (write p (v_off v + off) (le n x)).

(** [v[off] = x] for a view [v] of [p]. *)
Definition putByte (p : list byte) (v : view) (off : Z) (x : byte) : option (list byte) :=
  assert! (0 <=? off) && (off <? v_len v);
  Some (write p (v_off v + off) [x]).

(** [copy(v[off:], src)] for a view [v] of [p]: [copy] stops at the shorter of
    the two slices. *)
Definition copyInto (p : list byte) (v : view) (off : Z) (src : list byte) : option (list byte) :=
  assert! (0 <=? off) && (off <=? v_len v);
  Some (write p (v_off v + off) (take (Z.to_nat (v_len v - off)) src)).

(** [p] holds the bytes [bs] at offset [off]. *)
Definition holds (p : list byte) (off : Z) (bs : list byte) : Prop :=
  0 <= off /\ off + len bs <= len p /\ sub p off (len bs) = bs.

Lemma len_sub {A} (p : list A) off n : 0 <= off -> 0 <= n -> off + n <= len p -> len (sub p off n) = n.
Proof. unfold sub, len. rewrite length_take, length_drop. lia. Qed.

Lemma lookup_sub {A} (p : list A) off n i :
  sub p off n !! i = if decide (i < Z.to_nat n)%nat then p !! (Z.to_nat off + i)%nat else None.
Proof.
  unfold sub. case_decide.
  - by rewrite lookup_take_lt, lookup_drop.
  - apply lookup_take_ge. lia.
Qed.

Lemma length_write p off bs :
  0 <= off -> off + len bs <= len p -> length (write p off bs) = length p.
Proof. unfold write, len. rewrite !length_app, length_take, length_drop. lia. Qed.

Lemma len_write p off bs : 0 <= off -> off + len bs <= len p -> len (write p off bs) = len p.
Proof. intros. unfold len. by rewrite length_write. Qed.

Lemma lookup_write p off bs i :
  0 <= off -> off + len bs <= len p ->
  write p off bs !! i =
    if decide (Z.to_nat off <= i < Z.to_nat off + length bs)%nat
    then bs !! (i - Z.to_nat off)%nat else p !! i.
Proof.
  intros Ho Hl. unfold write, len in *.
  assert (length (take (Z.to_nat off) p) = Z.to_nat off) as Ht by (rewrite length_take; lia).
  case_decide.
  - rewrite lookup_app_r, Ht by lia. by rewrite lookup_app_l by lia.
  - destruct (decide (i < Z.to_nat off)%nat).
    + by rewrite lookup_app_l, lookup_take_lt by lia.
    + rewrite lookup_app_r, Ht, lookup_app_r, lookup_drop by lia. f_equal. lia.
Qed.

(** Reading what was not written. *)
Lemma sub_write_other p off bs o n :
  0 <= off -> off + len bs <= len p -> 0 <= o ->
  o + n <= off \/ off + len bs <= o ->
  sub (write p off bs) o n = sub p o n.
Proof.
  intros. apply list_eq. intros i. rewrite !lookup_sub. case_decide; [|done].
  rewrite lookup_write by done. case_decide; [|done]. unfold len in *. lia.
Qed.

Lemma sub_sub {A} (p : list A) off n o m :
  0 <= off -> 0 <= o -> o + m <= n -> sub (sub p off n) o m = sub p (off + o) m.
Proof.
  intros. apply list_eq. intros i. rewrite !lookup_sub.
  do 2 (case_decide; [|done || lia]). f_equal. lia.
Qed.

Lemma sub_all {A} (p : list A) : sub p 0 (len p) = p.
Proof. unfold sub, len. rewrite Nat2Z.id. change (Z.to_nat 0) with 0%nat. rewrite drop_0. by apply take_ge. Qed.

Lemma holds_lookup p off bs :
  holds p off bs <->
  0 <= off /\ off + len bs <= len p /\
  (forall i, (i < length bs)%nat -> p !! (Z.to_nat off + i)%nat = bs !! i).
Proof.
  unfold holds. split; intros (Ho & Hl & Hs); split_and!; try done.
  - intros i Hi. rewrite <- Hs, lookup_sub. unfold len. rewrite decide_True by lia. done.
  - apply list_eq. intros i. rewrite lookup_sub. unfold len. case_decide.
    + apply Hs. lia.
    + symmetry. apply lookup_ge_None. lia.
Qed.

Lemma holds_write_same p off bs :
  0 <= off -> off + len bs <= len p -> holds (write p off bs) off bs.
Proof.
  intros. apply holds_lookup. split_and!; [done|by rewrite len_write|].
  intros i Hi. rewrite lookup_write, decide_True by (done || lia). f_equal. lia.
Qed.

Lemma holds_write_other p off bs o cs :
  holds p o cs -> 0 <= off -> off + len bs <= len p ->
  o + len cs <= off \/ off + len bs <= o -> holds (write p off bs) o cs.
Proof.
  intros (Ho & Hl & Hs) Hoff Hlen Hd. split_and!; [done|by rewrite len_write|].
  by rewrite sub_write_other.
Qed.

Lemma holds_app p off a b : holds p off (a ++ b) <-> holds p off a /\ holds p (off + len a) b.
Proof.
  rewrite !holds_lookup, len_app. split.
  - intros (Ho & Hl & Hs). pose proof (len_nonneg a). pose proof (len_nonneg b).
    rewrite length_app in Hs. split_and!; try lia; intros i Hi.
    + rewrite Hs by lia. by apply lookup_app_l.
    + specialize (Hs (length a + i)%nat ltac:(lia)). rewrite lookup_app_r in Hs by lia.
      replace (length a + i - length a)%nat with i in Hs by lia. rewrite <- Hs. f_equal.
      unfold len. lia.
  - intros ((Ho & Hl & Ha) & (Ho' & Hl' & Hb)). split_and!; [lia..|].
    intros i Hi. rewrite length_app in Hi. destruct (decide (i < length a)%nat).
    + rewrite lookup_app_l by done. by apply Ha.
    + rewrite lookup_app_r by lia. rewrite <- Hb by lia. f_equal. unfold len. lia.
Qed.

Lemma holds_sub_eq p q off bs :
  len p = len q -> sub p off (len bs) = sub q off (len bs) -> holds p off bs -> holds q off bs.
Proof. unfold holds. intros -> ->. done. Qed.

Lemma holds_self p off n : 0 <= off -> 0 <= n -> off + n <= len p -> holds p off (sub p off n).
Proof. intros. unfold holds. rewrite len_sub by done. auto. Qed.

Lemma holds_slice p off bs : holds p off bs -> slice p off (off + len bs) = Some bs.
Proof.
  intros (Ho & Hl & Hs). unfold slice. pose proof (len_nonneg bs).
  rewrite (proj2 (Z.leb_le _ _) Ho), (proj2 (Z.leb_le off _)), (proj2 (Z.leb_le _ _) Hl) by lia.
  simpl. do 2 f_equal. rewrite <- Hs at 2. f_equal. lia.
Qed.

(** A slice that starts with bytes known to be there. *)
Lemma holds_slice_prefix p off bs n :
  holds p off bs -> len bs <= n -> off + n <= len p ->
  exists rest, slice p off (off + n) = Some (bs ++ rest) /\ len (bs ++ rest) = n.
Proof.
  intros Hh Hn Hl. pose proof Hh as (Ho & ? & Hs). pose proof (len_nonneg bs).
  assert (holds p off (sub p off n)) as Hh' by (apply holds_self; lia).
  exists (sub p (off + len bs) (n - len bs)).
  assert (sub p off n = bs ++ sub p (off + len bs) (n - len bs)) as Hsplit.
  { rewrite <- Hs at 1. apply list_eq. intros i. rewrite lookup_sub. unfold len in *.
    destruct (decide (i < length bs)%nat).
    - rewrite decide_True by lia. rewrite lookup_app_l by (unfold sub; rewrite length_take, length_drop; lia).
      rewrite lookup_sub, decide_True by lia. done.
    - assert (length (sub p off (Z.of_nat (length bs))) = length bs) as Hlen by (by rewrite Hs).
      rewrite lookup_app_r, Hlen, lookup_sub by lia.
      do 2 case_decide; try lia; [|done]. f_equal. lia. }
  rewrite <- Hsplit. split; [|apply len_sub; lia].
  pose proof (holds_slice _ _ _ Hh') as Hsl. rewrite len_sub in Hsl by lia. done.
Qed.

Lemma readUint_holds n p off v : holds p off (le n v) -> readUint n p off = Some (v mod 256 ^ Z.of_nat n).
Proof.
  intros (Ho & Hl & Hs). unfold readUint. rewrite len_le in *.
  rewrite (proj2 (Z.leb_le _ _) Ho), (proj2 (Z.leb_le _ _) Hl). simpl. by rewrite Hs, unle_le.
Qed.

Lemma holds_middle pre bs rest off : off = len pre -> holds (pre ++ bs ++ rest) off bs.
Proof.
  intros ->. apply holds_lookup. split_and!; [apply len_nonneg|solve_len|].
  intros i Hi. unfold len. rewrite Nat2Z.id, lookup_app_r, lookup_app_l by lia. f_equal. lia.
Qed.

Lemma readUint_middle n pre v rest off :
  off = len pre -> readUint n (pre ++ le n v ++ rest) off = Some (v mod 256 ^ Z.of_nat n).
Proof. intros. by apply readUint_holds, holds_middle. Qed.

Lemma readUint_head n v rest : readUint n (le n v ++ rest) 0 = Some (v mod 256 ^ Z.of_nat n).
Proof. by apply (readUint_middle n []). Qed.

Lemma readUint_last n pre v off :
  off = len pre -> readUint n (pre ++ le n v) off = Some (v mod 256 ^ Z.of_nat n).
Proof. intros. rewrite <- (app_nil_r (le n v)). by apply readUint_middle. Qed.

Lemma slice_middle (pre bs rest : list byte) lo hi :
  lo = len pre -> hi = len pre + len bs -> slice (pre ++ bs ++ rest) lo hi = Some bs.
Proof. intros -> ->. by apply holds_slice, holds_middle. Qed.

Lemma slice_eq {A} (p : list A) lo hi :
  0 <= lo -> lo <= hi -> hi <= len p -> slice p lo hi = Some (sub p lo (hi - lo)).
Proof. intros. unfold slice. by go_assert. Qed.

Lemma slice_view_eq p lo hi :
  0 <= lo -> lo <= hi -> hi <= len p -> slice_view p lo hi = Some (View lo (hi - lo)).
Proof. intros. unfold slice_view. by go_assert. Qed.

Lemma putUint_eq n p v off x :
  0 <= off -> off + Z.of_nat n <= v_len v -> putUint n p v off x = Some (write p (v_off v + off) (le n x)).
Proof. intros H1 H2. unfold putUint. by rewrite (proj2 (Z.leb_le _ _) H1), (proj2 (Z.leb_le _ _) H2). Qed.

#[global] Arguments le : simpl never.
#[global] Arguments sub : simpl never.
#[global] Arguments write : simpl never.
#[global] Arguments slice : simpl never.
#[global] Arguments slice_view : simpl never.
#[global] Arguments index : simpl never.
#[global] Arguments readUint : simpl never.
#[global] Arguments putUint : simpl never.
#[global] Arguments putByte : simpl never.
#[global] Arguments copyInto : simpl never.
#[global] Arguments Z.add : simpl nomatch.
#[global] Arguments Z.sub : simpl nomatch.
#[global] Arguments Z.mul : simpl nomatch.
