(* ===== verification/SlotCodec.v ===== *)
(** * Slots (src/pagecodec/slot_codec.go)

    A slot is four bytes in the slot region that follows the page header: the
    size of an element and the offset of its first byte in the data region. *)

From S2P Require Export GoBytes.

Record Slot := mkSlot { elementSize : Z; elementPointer : Z }.

#[export] Instance Slot_eq_decision : EqDecision Slot.
Proof. solve_decision. Defined.

Record SlotConfig := mkSlotConfig {
  elementPointerOffset : Z;
  elementSizeOffset : Z;
  slotSize : Z;
  deletedElementPointerVal : Z
}.

Definition defaultSlotConfig : SlotConfig :=
  {| elementSizeOffset := 0; elementPointerOffset := 2;
     slotSize := 4; deletedElementPointerVal := 0xFFFF |}.

Definition getSlotSize : Z := slotSize defaultSlotConfig.
Definition getDeletedElementPointerVal : Z := deletedElementPointerVal defaultSlotConfig.

Definition decodeSlot (slotBytes : list byte) : option Slot :=
  s ← readUint 2 slotBytes (elementSizeOffset defaultSlotConfig);
  q ← readUint 2 slotBytes (elementPointerOffset defaultSlotConfig);
  Some (mkSlot s q).

Definition encodeSlot (slot : Slot) : list byte :=
  le 2 (elementSize slot) ++ le 2 (elementPointer slot).

Definition setElementPointer (page : list byte) (slotBytes : view) (p : Z) : option (list byte) :=
  putUint 2 page slotBytes (elementPointerOffset defaultSlotConfig) p.

Definition setElementSize (page : list byte) (slotBytes : view) (s : Z) : option (list byte) :=
  putUint 2 page slotBytes (elementSizeOffset defaultSlotConfig) s.

Definition isElementDeleted (slot : Slot) : bool :=
  elementPointer slot =? deletedElementPointerVal defaultSlotConfig.

(** Returns the page with the slot written at [freeSpaceBegin], and the
    updated [freeSpaceBegin]. *)
Definition appendSlot (page : list byte) (freeSpaceBegin : Z) (slot : Slot)
    : option (list byte * Z) :=
  let slotBytes := encodeSlot slot in
  v ← slice_view page freeSpaceBegin (len page);
  page ← copyInto page v 0 slotBytes;
  Some (page, u16 (freeSpaceBegin + 4)).

(** ** Well-formed slots and their round trip *)

Definition slot_ok (s : Slot) : Prop :=
  0 <= elementSize s < 65536 /\ 0 <= elementPointer s < 65536.

Lemma len_encodeSlot s : len (encodeSlot s) = 4.
Proof. reflexivity. Qed.
#[export] Hint Rewrite len_encodeSlot : len.

Lemma decodeSlot_holds p off s :
  slot_ok s -> holds p off (encodeSlot s) ->
  slice p off (off + 4) ≫= decodeSlot = Some s.
Proof.
  intros [Hs Hp] Hh. pose proof (holds_slice _ _ _ Hh) as Hsl. rewrite len_encodeSlot in Hsl.
  rewrite Hsl. destruct s as [sz ptr]; cbn in *. unfold decodeSlot, encodeSlot; cbn.
  rewrite readUint_head. cbn.
  rewrite readUint_last by done. cbn.
  by rewrite !Z.mod_small by done.
Qed.

(** An appended slot is written in place when it fits in the page. *)
Lemma appendSlot_eq page fsb slot :
  0 <= fsb -> fsb + 4 <= len page -> fsb + 4 < 65536 ->
  appendSlot page fsb slot = Some (write page fsb (encodeSlot slot), fsb + 4).
Proof.
  intros H1 H2 H3. unfold appendSlot, slice_view, copyInto. go_assert.
  cbn [mbind option_bind v_len v_off]. go_assert. cbn [mbind option_bind].
  rewrite u16_id, Z.add_0_r by lia. rewrite take_ge; [done|].
  pose proof (len_encodeSlot slot). unfold len in *. lia.
Qed.

#[global] Arguments decodeSlot : simpl never.
#[global] Arguments encodeSlot : simpl never.
#[global] Arguments isElementDeleted : simpl never.
#[global] Arguments appendSlot : simpl never.
#[global] Arguments setElementPointer : simpl never.
#[global] Arguments setElementSize : simpl never.
