(* ===== verification/HeaderCodec.v ===== *)
(** * The page header (src/pagecodec/header_codec.go)

    Thirty-two bytes at the start of every node page: checksum, node type,
    "page filled" flag, slot count, the bounds of the free-space region, the
    garbage counter, the next leaf of the chain and the page's LSN. *)

From S2P Require Export SlotCodec.

Record Header := mkHeader {
  crc : Z;
  isLeafNode : bool;
  isPageFilled : bool;
  numSlots : Z;
  freeSpaceBegin : Z;
  freeSpaceEnd : Z;
  garbageSize : Z;
  nextLeafNodePageId : Z;
  LSN : Z
}.

Record HeaderConfig := mkHeaderConfig {
  crcOffset : Z;
  nodeTypeOffset : Z;
  isPageFilledOffset : Z;
  numSlotsOffset : Z;
  garbageSizeOffset : Z;
  freeSpaceBeginOffset : Z;
  freeSpaceEndOffset : Z;
  nextLeafNodePageIdOffset : Z;
  LSNOffset : Z;
  headerSize : Z;
  pageFilledType : byte;
  pageEmptyType : byte;
  leafNodeType : byte;
  internalNodeType : byte
}.

Definition defaultHeaderConfig : HeaderConfig := {|
  crcOffset := 0;
  nodeTypeOffset := 4;
  isPageFilledOffset := 5;
  numSlotsOffset := 6;
  freeSpaceBeginOffset := 8;
  freeSpaceEndOffset := 10;
  garbageSizeOffset := 12;
  nextLeafNodePageIdOffset := 16;
  LSNOffset := 24;
  headerSize := 32;
  pageFilledType := x01;
  pageEmptyType := x00;
  leafNodeType := x00;
  internalNodeType := x01
|}.

Abbreviation cfg := defaultHeaderConfig.

Definition getHeaderSize : Z := headerSize cfg.

(** [page[:headerSize]], the alias through which the setters write. *)
Definition headerView (page : list byte) : option view := slice_view page 0 getHeaderSize.

(** A page whose "filled" byte is zero decodes to the header of an empty leaf,
    whatever else its header bytes are; [isPageFilled] and [LSN] are never
    decoded and keep their zero values. *)
Definition decodePageHeader (headerBytes : list byte) : option Header :=
  f ← index headerBytes (isPageFilledOffset cfg);
  if decide (f = pageEmptyType cfg) then
    Some (mkHeader 0 true false 0 (u16 (headerSize cfg)) 4096 0 0 0)
  else
    c ← readUint 4 headerBytes (crcOffset cfg);
    t ← index headerBytes (nodeTypeOffset cfg);
    n ← readUint 2 headerBytes (numSlotsOffset cfg);
    b ← readUint 2 headerBytes (freeSpaceBeginOffset cfg);
    e ← readUint 2 headerBytes (freeSpaceEndOffset cfg);
    g ← readUint 2 headerBytes (garbageSizeOffset cfg);
    x ← readUint 8 headerBytes (nextLeafNodePageIdOffset cfg);
    Some (mkHeader c (bool_decide (t = leafNodeType cfg)) false n b e g x 0).

Definition setCRC (page : list byte) (hb : view) (crc : Z) : option (list byte) :=
  putUint 4 page hb (crcOffset cfg) crc.

Definition SetNodeType (page : list byte) (hb : view) (isLeaf : bool) : option (list byte) :=
  putByte page hb (nodeTypeOffset cfg)
    (if isLeaf then leafNodeType cfg else internalNodeType cfg).

Definition SetIsPageFilled (page : list byte) (hb : view) (filled : bool) : option (list byte) :=
  putByte page hb (isPageFilledOffset cfg)
    (if filled then pageFilledType cfg else pageEmptyType cfg).

Definition setNumSlots (page : list byte) (hb : view) (n : Z) : option (list byte) :=
  putUint 2 page hb (numSlotsOffset cfg) (u16 n).

Definition setGarbageSize (page : list byte) (hb : view) (g : Z) : option (list byte) :=
  putUint 2 page hb (garbageSizeOffset cfg) g.

Definition setFreeSpaceBegin (page : list byte) (hb : view) (b : Z) : option (list byte) :=
  putUint 2 page hb (freeSpaceBeginOffset cfg) b.

Definition setFreeSpaceEnd (page : list byte) (hb : view) (e : Z) : option (list byte) :=
  putUint 2 page hb (freeSpaceEndOffset cfg) e.

Definition setNextLeafNodePageId (page : list byte) (hb : view) (x : Z) : option (list byte) :=
  putUint 8 page hb (nextLeafNodePageIdOffset cfg) x.

Definition getNextLeafNodePageId (headerBytes : list byte) : option Z :=
  readUint 8 headerBytes (nextLeafNodePageIdOffset cfg).

Definition setLSN (page : list byte) (hb : view) (x : Z) : option (list byte) :=
  putUint 8 page hb (LSNOffset cfg) x.

Definition getLSN (headerBytes : list byte) : option Z := readUint 8 headerBytes (LSNOffset cfg).

Definition generateCRC (data : list byte) : Z := crc32_ChecksumIEEE data.

Definition CheckCRC (data : list byte) (crc : Z) : bool := crc32_ChecksumIEEE data =? crc.

Definition updateCRC (page : list byte) : option (list byte) :=
  data ← slice page 4 (len page);
  header ← headerView page;
  setCRC page header (generateCRC data).

Definition IsLeafNode (page : list byte) : option bool :=
  headerBytes ← slice page 0 (headerSize cfg);
  header ← decodePageHeader headerBytes;
  Some (isLeafNode header).

(** Both operands of the comparison are [uint16]. *)
Definition isAdequate (page : list byte) (spaceRequired : Z) : option bool :=
  header ← decodePageHeader page;
  let freeSpace := u16 (freeSpaceEnd header - freeSpaceBegin header) in
  Some (u16 spaceRequired <=? freeSpace).

Definition shouldCompact (page : list byte) (size : Z) : option bool :=
  header ← decodePageHeader page;
  Some (size <=? garbageSize header).

Definition getTotalDataRegionSize (slots : list Slot) : Z :=
  foldl (fun size slot => u16 (size + elementSize slot)) 0 slots.

(** ** Total reading of a field *)

(** The [n]-byte field at offset [off]. *)
Definition fld (n : nat) (p : list byte) (off : Z) : Z := unle (sub p off (Z.of_nat n)).

Lemma fld_readUint n p off :
  0 <= off -> off + Z.of_nat n <= len p -> readUint n p off = Some (fld n p off).
Proof. intros. unfold readUint. by go_assert. Qed.

Lemma fld_range n p off :
  0 <= off -> off + Z.of_nat n <= len p -> 0 <= fld n p off < 256 ^ Z.of_nat n.
Proof.
  intros. unfold fld. pose proof (unle_range (sub p off (Z.of_nat n))) as Hr.
  by rewrite len_sub in Hr by lia.
Qed.

Lemma fld_holds n p off v : holds p off (le n v) -> 0 <= v < 256 ^ Z.of_nat n -> fld n p off = v.
Proof.
  intros (? & ? & Hs) Hv. unfold fld. rewrite len_le in Hs. rewrite Hs, unle_le. by apply Z.mod_small.
Qed.

Lemma fld_write_same n p off v :
  0 <= off -> off + Z.of_nat n <= len p -> 0 <= v < 256 ^ Z.of_nat n ->
  fld n (write p off (le n v)) off = v.
Proof. intros. apply fld_holds; [|done]. apply holds_write_same; solve_len. Qed.

Lemma fld_write_other n p off bs o :
  0 <= off -> off + len bs <= len p -> 0 <= o ->
  o + Z.of_nat n <= off \/ off + len bs <= o ->
  fld n (write p off bs) o = fld n p o.
Proof. intros. unfold fld. by rewrite sub_write_other. Qed.

Lemma fld_byte p off : 0 <= off < len p -> exists b, index p off = Some b /\ fld 1 p off = byte_to_Z b.
Proof.
  intros H. unfold index. go_assert.
  destruct (lookup_lt_is_Some_2 p (Z.to_nat off)) as [b Hb]; [unfold len in *; lia|].
  exists b. split; [done|]. unfold fld.
  assert (sub p off (Z.of_nat 1) = [b]) as ->.
  { unfold sub. simpl. rewrite (drop_S _ _ _ Hb). done. }
  simpl. lia.
Qed.

Lemma index_lt {A} (p : list A) off b : index p off = Some b -> 0 <= off < len p.
Proof.
  unfold index. destruct (Z.leb_spec 0 off); [|done]. intros Hl%lookup_lt_Some. unfold len. lia.
Qed.

(** The header a page decodes to, as a total function of its first 32 bytes. *)
Definition header_of (p : list byte) : Header :=
  if fld 1 p 5 =? 0 then mkHeader 0 true false 0 32 4096 0 0 0
  else mkHeader (fld 4 p 0) (fld 1 p 4 =? 0) false (fld 2 p 6) (fld 2 p 8) (fld 2 p 10)
         (fld 2 p 12) (fld 8 p 16) 0.

Lemma byte_to_Z_0 b : byte_to_Z b = 0 <-> b = x00.
Proof. split; [|by intros ->]. intros H. by apply byte_to_Z_inj. Qed.

Lemma decodePageHeader_eq p : 32 <= len p -> decodePageHeader p = Some (header_of p).
Proof.
  intros Hl. unfold decodePageHeader, header_of; cbn [defaultHeaderConfig isPageFilledOffset
    crcOffset nodeTypeOffset numSlotsOffset freeSpaceBeginOffset freeSpaceEndOffset
    garbageSizeOffset nextLeafNodePageIdOffset pageEmptyType leafNodeType headerSize].
  destruct (fld_byte p 5) as (b & Hb & ->); [lia|]. rewrite Hb; cbn [mbind option_bind].
  case_decide as Hd; [by subst|].
  destruct (Z.eqb_spec (byte_to_Z b) 0) as [?%byte_to_Z_0|_]; [done|].
  rewrite !fld_readUint by lia; cbn [mbind option_bind].
  destruct (fld_byte p 4) as (t & Ht & ->); [lia|]. rewrite Ht; cbn [mbind option_bind].
  repeat f_equal. destruct (Z.eqb_spec (byte_to_Z t) 0) as [Hz%byte_to_Z_0|Hz].
  - by rewrite bool_decide_eq_true_2.
  - rewrite bool_decide_eq_false_2; [done|]. by rewrite <- byte_to_Z_0.
Qed.

Lemma fld_sub n p m off :
  0 <= off -> off + Z.of_nat n <= m -> fld n (sub p 0 m) off = fld n p off.
Proof. intros. unfold fld. rewrite sub_sub by lia. done. Qed.

Lemma header_of_sub p : 32 <= len p -> header_of (sub p 0 32) = header_of p.
Proof. intros. unfold header_of. rewrite !fld_sub by (simpl; lia). done. Qed.

(** Every caller either passes the page or its first 32 bytes. *)
Lemma slice_header (p : list byte) : 32 <= len p -> slice p 0 32 = Some (sub p 0 32).
Proof. intros. unfold slice. by go_assert. Qed.

Lemma decodePageHeader_slice p :
  32 <= len p -> slice p 0 32 ≫= decodePageHeader = Some (header_of p).
Proof.
  intros. rewrite slice_header by done; cbn [mbind option_bind].
  rewrite decodePageHeader_eq by (rewrite len_sub; lia). by rewrite header_of_sub.
Qed.

Lemma headerView_eq p : 32 <= len p -> headerView p = Some (View 0 32).
Proof. intros. unfold headerView, slice_view, getHeaderSize. cbn [headerSize cfg]. by go_assert. Qed.

#[global] Arguments fld : simpl never.
#[global] Arguments decodePageHeader : simpl never.
#[global] Arguments header_of : simpl never.
#[global] Arguments headerView : simpl never.
#[global] Arguments setCRC : simpl never.
#[global] Arguments SetNodeType : simpl never.
#[global] Arguments SetIsPageFilled : simpl never.
#[global] Arguments setNumSlots : simpl never.
#[global] Arguments setGarbageSize : simpl never.
#[global] Arguments setFreeSpaceBegin : simpl never.
#[global] Arguments setFreeSpaceEnd : simpl never.
#[global] Arguments setNextLeafNodePageId : simpl never.
#[global] Arguments setLSN : simpl never.
#[global] Arguments updateCRC : simpl never.
#[global] Arguments isAdequate : simpl never.
#[global] Arguments shouldCompact : simpl never.

(** ** Writing into a page of 4096 bytes *)

Definition PAGE_SIZE : Z := 4096.

Lemma page_write_len p off bs :
  len p = 4096 -> 0 <= off -> off + len bs <= 4096 -> len (write p off bs) = 4096.
Proof. intros. rewrite len_write; lia. Qed.

(** Proves [len p = 4096] for a page written to in bounds. *)
Ltac page_len :=
  first [ assumption | apply page_write_len; [page_len | lia | solve_len] ].

Lemma page_fld_same n p off v :
  len p = 4096 -> 0 <= off -> off + Z.of_nat n <= 4096 -> 0 <= v < 256 ^ Z.of_nat n ->
  fld n (write p off (le n v)) off = v.
Proof. intros. apply fld_write_same; lia. Qed.

Lemma page_fld_byte p off b :
  len p = 4096 -> 0 <= off < 4096 -> fld 1 (write p off [b]) off = byte_to_Z b.
Proof.
  intros. change [b] with ([b]). assert ([b] = le 1 (byte_to_Z b)) as ->.
  { unfold le. by rewrite byte_of_to_Z. }
  apply page_fld_same; [done|lia..|]. apply byte_to_Z_range.
Qed.

Lemma page_fld_other n p off bs o :
  len p = 4096 -> 0 <= off -> off + len bs <= 4096 -> 0 <= o ->
  o + Z.of_nat n <= off \/ off + len bs <= o -> fld n (write p off bs) o = fld n p o.
Proof. intros. apply fld_write_other; lia. Qed.

Lemma page_sub_other p off bs o n :
  len p = 4096 -> 0 <= off -> off + len bs <= 4096 -> 0 <= o ->
  o + n <= off \/ off + len bs <= o -> sub (write p off bs) o n = sub p o n.
Proof. intros. apply sub_write_other; lia. Qed.

Lemma page_holds_same p off bs :
  len p = 4096 -> 0 <= off -> off + len bs <= 4096 -> holds (write p off bs) off bs.
Proof. intros. apply holds_write_same; lia. Qed.

Lemma page_holds_other p off bs o cs :
  holds p o cs -> len p = 4096 -> 0 <= off -> off + len bs <= 4096 ->
  o + len cs <= off \/ off + len bs <= o -> holds (write p off bs) o cs.
Proof. intros. apply holds_write_other; (done || lia). Qed.

(** Reads a header field of a page through any number of writes. *)
Ltac page_side := first [ page_len | lia | solve_len | (simpl; lia) | (simpl; solve_len) ].
Ltac page_fld :=
  repeat first
    [ rewrite page_fld_same by page_side
    | rewrite page_fld_byte by page_side
    | rewrite page_fld_other by page_side ].

(** The setters, on the header of a page. *)
Section setters.
Context (p : list byte).

Lemma setNumSlots_eq n : setNumSlots p (View 0 32) n = Some (write p 6 (le 2 (u16 n))).
Proof. reflexivity. Qed.
Lemma setGarbageSize_eq g : setGarbageSize p (View 0 32) g = Some (write p 12 (le 2 g)).
Proof. reflexivity. Qed.
Lemma setFreeSpaceBegin_eq b : setFreeSpaceBegin p (View 0 32) b = Some (write p 8 (le 2 b)).
Proof. reflexivity. Qed.
Lemma setFreeSpaceEnd_eq b : setFreeSpaceEnd p (View 0 32) b = Some (write p 10 (le 2 b)).
Proof. reflexivity. Qed.
Lemma SetIsPageFilled_eq : SetIsPageFilled p (View 0 32) true = Some (write p 5 [x01]).
Proof. reflexivity. Qed.
Lemma SetNodeType_eq b :
  SetNodeType p (View 0 32) b = Some (write p 4 [if b then x00 else x01]).
Proof. by destruct b. Qed.
Lemma setNextLeafNodePageId_eq x : setNextLeafNodePageId p (View 0 32) x = Some (write p 16 (le 8 x)).
Proof. reflexivity. Qed.
Lemma setLSN_eq x : setLSN p (View 0 32) x = Some (write p 24 (le 8 x)).
Proof. reflexivity. Qed.

Lemma updateCRC_eq :
  len p = 4096 ->
  updateCRC p = Some (write p 0 (le 4 (generateCRC (sub p 4 4092)))).
Proof.
  intros Hl. unfold updateCRC, slice. rewrite Hl. cbn. rewrite headerView_eq by lia. reflexivity.
Qed.

End setters.

Create Rewrite HintDb setters.
#[export] Hint Rewrite setNumSlots_eq setGarbageSize_eq setFreeSpaceBegin_eq setFreeSpaceEnd_eq
  SetIsPageFilled_eq SetNodeType_eq setNextLeafNodePageId_eq setLSN_eq : setters.

(** ** Checksums *)

(** The stored checksum is the one of the bytes after it. *)
Definition crc_valid (p : list byte) : Prop := CheckCRC (sub p 4 4092) (fld 4 p 0) = true.

Lemma lxor_range a b n : 0 <= n -> 0 <= a < 2 ^ n -> 0 <= b < 2 ^ n -> 0 <= Z.lxor a b < 2 ^ n.
Proof.
  intros Hn Ha Hb. split; [apply Z.lxor_nonneg; lia|].
  destruct (Z.eq_dec (Z.lxor a b) 0) as [->|Hne]; [lia|].
  assert (0 <= Z.lxor a b) by (apply Z.lxor_nonneg; lia).
  apply Z.log2_lt_pow2; [lia|]. eapply Z.le_lt_trans; [apply Z.log2_lxor; lia|].
  assert (forall x, 0 <= x < 2 ^ n -> Z.log2 x < n \/ x = 0) as Hlog.
  { intros x Hx. destruct (Z.eq_dec x 0); [by right|]. left. apply Z.log2_lt_pow2; lia. }
  pose proof (Z.log2_nonneg a). pose proof (Z.log2_nonneg b).
  destruct (Hlog a Ha) as [?| ->], (Hlog b Hb) as [?| ->]; [lia| | |done];
    change (Z.log2 0) with 0; lia.
Qed.

Lemma shiftr1_range a n : 0 <= a < 2 ^ n -> 0 <= Z.shiftr a 1 < 2 ^ n.
Proof.
  intros. rewrite Z.shiftr_div_pow2 by lia. change (2 ^ 1) with 2.
  split; [apply Z.div_pos; lia|]. apply Z.div_lt_upper_bound; lia.
Qed.

Lemma crc32_bits_range n c : 0 <= c < 2 ^ 32 -> 0 <= crc32_bits n c < 2 ^ 32.
Proof.
  revert c; induction n as [|n IH]; intros c Hc; [done|]. cbn [crc32_bits]. apply IH.
  destruct (Z.odd c); [apply lxor_range; [lia| |lia]|]; by apply shiftr1_range.
Qed.

Lemma crc32_byte_range c b : 0 <= c < 2 ^ 32 -> 0 <= crc32_byte c b < 2 ^ 32.
Proof.
  intros. apply crc32_bits_range, lxor_range; [lia|done|]. pose proof (byte_to_Z_range b). lia.
Qed.

Lemma crc32_range data : 0 <= crc32_ChecksumIEEE data < 2 ^ 32.
Proof.
  unfold crc32_ChecksumIEEE. apply lxor_range; [lia| |lia].
  assert (forall l c, 0 <= c < 2 ^ 32 -> 0 <= foldl crc32_byte c l < 2 ^ 32) as H.
  { induction l as [|b l IH]; intros c Hc; [done|]. cbn. by apply IH, crc32_byte_range. }
  apply H. lia.
Qed.

(** Recomputing the checksum makes it valid and touches nothing else. *)
Lemma updateCRC_valid p :
  len p = 4096 -> crc_valid (write p 0 (le 4 (generateCRC (sub p 4 4092)))).
Proof.
  intros Hl. unfold crc_valid, CheckCRC, generateCRC.
  rewrite page_sub_other by page_side. apply Z.eqb_eq.
  rewrite page_fld_same; [done|done|lia|simpl; lia|apply crc32_range].
Qed.
