(* ===== verification/SlottedPage.v ===== *)
(** * Slotted pages (src/pagecodec/leaf_node_codec.go, internal_node_codec.go)

    The two node codecs share their slotted-page routines: the source has them
    twice, identical but for the element type.  They are modelled here once,
    over the interface [NodeElement] that the two element types implement
    ([LeafNodeCodec], [InternalNodeCodec]); the routines that differ are in the
    files of the two codecs. *)

From S2P Require Export HeaderCodec.

(** ** The element interface *)

Class NodeElement (E : Type) := {
  elt_encode : E -> list byte;
  elt_decode : list byte -> option E;
  elt_key : E -> list byte;
  (** [appendElement(page, freeSpaceEnd, element)]: the page and the updated
      [freeSpaceEnd]. *)
  elt_append : list byte -> Z -> E -> option (list byte * Z)
}.

Section operations.
Context {E : Type} `{!NodeElement E}.

(** The body of the [for range int(header.numSlots)] loop of
    [getAllSlotsAndElements], [n] iterations from [pointer] on. *)
Fixpoint getAll_loop (page : list byte) (n : nat) (pointer : Z)
    : option (list Slot * list E) :=
  match n with
  | O => Some ([], [])
  | S n =>
      slotBytes ← slice page pointer (pointer + getSlotSize);
      slot ← decodeSlot slotBytes;
      if isElementDeleted slot then getAll_loop page n (pointer + 4)
      else
        elementBytes ← slice page (elementPointer slot)
                         (u16 (elementPointer slot + elementSize slot));
        element ← elt_decode elementBytes;
        '(slots, elements) ← getAll_loop page n (pointer + 4);
        Some (slot :: slots, element :: elements)
  end.

(** Skips deleted elements. *)
Definition getAllSlotsAndElements (page : list byte) : option (list Slot * list E) :=
  header ← decodePageHeader page;
  getAll_loop page (Z.to_nat (numSlots header)) getHeaderSize.

Fixpoint putAll_loop (page : list byte) (fsb fse : Z) (slots : list Slot) (elements : list E)
    : option (list byte * Z * Z) :=
  match slots with
  | [] => Some (page, fsb, fse)
  | slot :: slots =>
      match elements with
      | [] => None
      | element :: elements =>
          '(page, fse) ← elt_append page fse element;
          let slot := mkSlot (elementSize slot) fse in
          '(page, fsb) ← appendSlot page fsb slot;
          putAll_loop page fsb fse slots elements
      end
  end.

(** Rewrites the page with these slots and elements only. *)
Definition PutAllSlotsAndElements (page : list byte) (slots : list Slot) (elements : list E)
    : option (list byte) :=
  '(page, fsb, fse) ← putAll_loop page (u16 getHeaderSize) (u16 4096) slots elements;
  hb ← headerView page;
  page ← setNumSlots page hb (len slots);
  page ← setGarbageSize page hb 0;
  page ← setFreeSpaceBegin page hb fsb;
  page ← setFreeSpaceEnd page hb fse;
  SetIsPageFilled page hb true.

Definition compact (page : list byte) : option (list byte) :=
  '(slots, elements) ← getAllSlotsAndElements page;
  PutAllSlotsAndElements page slots elements.

(** A nil slice. *)
Definition nil_view : view := View 0 0.

Fixpoint linearSearch_loop (page key : list byte) (n : nat) (pointer : Z)
    : option (view * view * Z) :=
  match n with
  | O => Some (nil_view, nil_view, -1)
  | S n =>
      currSlotBytes ← slice_view page pointer (pointer + getSlotSize);
      currSlot ← decodeSlot (view_bytes page currSlotBytes);
      if isElementDeleted currSlot then linearSearch_loop page key n (pointer + 4)
      else
        currElementBytes ← slice_view page (elementPointer currSlot)
                             (u16 (elementPointer currSlot + elementSize currSlot));
        currElement ← elt_decode (view_bytes page currElementBytes);
        let result := bytesCompare (elt_key currElement) key in
        if result =? 0 then Some (currSlotBytes, currElementBytes, result)
        else if result =? 1 then Some (currSlotBytes, currElementBytes, result)
        else linearSearch_loop page key n (pointer + 4)
  end.

(** Result 0: the slot and element of the key; 1: those of the first greater
    key; -1: neither. *)
Definition linearSearch (page key : list byte) : option (view * view * Z) :=
  headerBytes ← slice page 0 getHeaderSize;
  header ← decodePageHeader headerBytes;
  linearSearch_loop page key (Z.to_nat (numSlots header)) getHeaderSize.

Definition DeleteElement (page key : list byte) : option (list byte * bool) :=
  '(slotBytes, elementBytes, found) ← linearSearch page key;
  if negb (found =? 0) then Some (page, false)
  else
    page ← setElementPointer page slotBytes getDeletedElementPointerVal;
    hb ← headerView page;
    header ← decodePageHeader (view_bytes page hb);
    page ← setGarbageSize page hb
             (u16 (garbageSize header + u16 (v_len elementBytes + getSlotSize)));
    page ← updateCRC page;
    Some (page, true).

(** The loop of [FindSplitNodeIndex], over the slots from [index] on. *)
Fixpoint splitIndex_loop (slots : list Slot) (total left index : Z) : Z :=
  match slots with
  | [] => index
  | slot :: slots =>
      if left <=? total / 2
      then splitIndex_loop slots total (u16 (left + elementSize slot)) (index + 1)
      else index
  end.

Definition FindSplitNodeIndex (leftNode : list byte) : option Z :=
  '(slots, _) ← getAllSlotsAndElements leftNode;
  Some (splitIndex_loop slots (getTotalDataRegionSize slots) 0 0).

(** [EncodeAllElements], the payload of a split record in the log. *)
Definition EncodeAllElements (page : list byte) : option (Z * list byte) :=
  '(_, elements) ← getAllSlotsAndElements page;
  let data := concat ((fun e => le 2 (u16 (len (elt_encode e))) ++ elt_encode e) <$> elements) in
  Some (len elements, le 2 (u16 (len elements)) ++ data).

Fixpoint decodeAll_loop (payload : list byte) (n : nat) (pointer : Z)
    : option (list Slot * list E) :=
  match n with
  | O => Some ([], [])
  | S n =>
      size ← readUint 2 payload pointer;
      let pointer := pointer + 2 in
      elementBytes ← slice payload pointer (pointer + size);
      element ← elt_decode elementBytes;
      '(slots, elements) ← decodeAll_loop payload n (pointer + size);
      Some (mkSlot size 0 :: slots, element :: elements)
  end.

Definition DecodeAllSlotsAndElements (payload : list byte) : option (list Slot * list E) :=
  n ← readUint 2 payload 0;
  decodeAll_loop payload (Z.to_nat n) 2.

(** The loop that [InsertSlot] writes the shifted slots back with. *)
Fixpoint appendSlots (page : list byte) (fsb : Z) (slots : list Slot) : option (list byte * Z) :=
  match slots with
  | [] => Some (page, fsb)
  | slot :: slots =>
      '(page, fsb) ← appendSlot page fsb slot;
      appendSlots page fsb slots
  end.

(** The scan of [InsertSlot]: the existing slots that follow the new one, that
    is every live slot with a greater key, and every deleted slot after the
    first of those. *)
Fixpoint insertSlot_loop (page key : list byte) (n : nat) (pointer : Z) (greaterFound : bool)
    : option (list Slot) :=
  match n with
  | O => Some []
  | S n =>
      slotBytes ← slice page pointer (pointer + getSlotSize);
      existingSlot ← decodeSlot slotBytes;
      if negb (isElementDeleted existingSlot) then
        elementBytes ← slice page (elementPointer existingSlot)
                         (u16 (elementPointer existingSlot + elementSize existingSlot));
        existingElement ← elt_decode elementBytes;
        if bytesCompare (elt_key existingElement) key =? 1 then
          rest ← insertSlot_loop page key n (pointer + getSlotSize) true;
          Some (existingSlot :: rest)
        else insertSlot_loop page key n (pointer + getSlotSize) greaterFound
      else
        if greaterFound then
          rest ← insertSlot_loop page key n (pointer + getSlotSize) greaterFound;
          Some (existingSlot :: rest)
        else insertSlot_loop page key n (pointer + getSlotSize) greaterFound
  end.

(** The opening of [InsertElement]: the page to insert into and its header,
    after compaction when the free space does not suffice but the garbage
    counter says compaction will; [None] when the insertion is refused. *)
Definition ensureRoom (page : list byte) (spaceRequired : Z)
    : option (option (list byte * Header)) :=
  headerBytes ← slice page 0 getHeaderSize;
  header ← decodePageHeader headerBytes;
  adequate ← isAdequate page spaceRequired;
  if negb adequate then
    should ← shouldCompact page spaceRequired;
    if negb should then Some None
    else
      page ← compact page;
      headerBytes ← slice page 0 getHeaderSize;
      header ← decodePageHeader headerBytes;
      Some (Some (page, header))
  else Some (Some (page, header)).

(** The body the two [HasEnoughSpaceToInsertElement] methods share: it compacts
    the page when that makes the difference. *)
Definition hasEnoughSpace (page : list byte) (totalSpaceRequired : Z)
    : option (list byte * bool) :=
  adequate ← isAdequate page totalSpaceRequired;
  if negb adequate then
    should ← shouldCompact page totalSpaceRequired;
    if negb should then Some (page, false)
    else
      page ← compact page;
      Some (page, true)
  else Some (page, true).

(** The closing header updates of [InsertElement] and the deferred checksum. *)
Definition finishInsert (page : list byte) (header : Header) (fse fsb : Z) : option (list byte) :=
  hb ← headerView page;
  page ← setFreeSpaceEnd page hb fse;
  page ← setFreeSpaceBegin page hb fsb;
  page ← setNumSlots page hb (numSlots header + 1);
  page ← SetIsPageFilled page hb true;
  updateCRC page.

(** The page's LSN and next-leaf link, through [page[:headerSize]]. *)
Definition SetLSN (page : list byte) (x : Z) : option (list byte) :=
  hb ← headerView page; setLSN page hb x.
Definition GetLSN (page : list byte) : option Z :=
  headerBytes ← slice page 0 getHeaderSize; getLSN headerBytes.

End operations.
