(* ===== verification/PageLayout.v ===== *)
(** * The slotted-page invariant and the lemmas of the shared routines

    [page_rep p es fse g] says that the bytes [p] are a node page whose slot
    region describes the entries [es], whose data region starts at [fse] and
    whose garbage counter is [g].  Everything the node codecs promise is stated
    as a relation between the entries before and after. *)

From S2P Require Export SlottedPage.

Definition elt_size {E} `{!NodeElement E} (e : E) : Z := len (elt_encode e).

(** What a node element type promises to the slotted-page routines. *)
Class NodeElementLaws (E : Type) `{!NodeElement E} := {
  elt_ok : E -> Prop;
  elt_size_bound e : elt_ok e -> 0 < elt_size e < 65535;
  elt_decode_encode e rest : elt_ok e -> elt_decode (elt_encode e ++ rest) = Some e;
  elt_append_eq page fse e :
    elt_size e <= fse -> fse <= len page -> fse < 65536 -> elt_ok e ->
    elt_append page fse e =
      Some (write page (fse - elt_size e) (elt_encode e), fse - elt_size e)
}.

(** ** Entries *)

(** What a slot stands for: an element stored at [ptr] in a region of [size]
    bytes, or a deleted one. *)
Inductive entry (E : Type) :=
| Live (ptr size : Z) (e : E)
| Dead (size : Z).
#[global] Arguments Live {E} _ _ _.
#[global] Arguments Dead {E} _.

Section layout.
Context {E : Type} `{NL : NodeElementLaws E}.
Implicit Types (p : list byte) (e : E) (x y : entry E) (es : list (entry E)).

Definition slot_of x : Slot :=
  match x with
  | Live ptr size _ => mkSlot size ptr
  | Dead size => mkSlot size 0xFFFF
  end.

Definition entry_elt x : option E := match x with Live _ _ e => Some e | Dead _ => None end.

(** The elements of a page in slot order, deleted ones skipped. *)
Definition lives es : list E := omap entry_elt es.

Definition live_slots es : list Slot :=
  omap (fun x => match x with Live _ _ _ => Some (slot_of x) | Dead _ => None end) es.

Definition dead_count es : Z := sum_with (fun x => match x with Live _ _ _ => 0 | Dead _ => 1 end) es.

Definition slot_bytes es : list byte := concat ((fun x => encodeSlot (slot_of x)) <$> es).

Definition entry_ok p (fse : Z) x : Prop :=
  match x with
  | Live ptr size e =>
      fse <= ptr /\ ptr + size <= 4096 /\ elt_size e <= size /\
      holds p ptr (elt_encode e) /\ elt_ok e
  | Dead size => 0 <= size < 65536
  end.

(** No two elements share a byte. *)
Definition apart x y : Prop :=
  match x, y with
  | Live p1 s1 _, Live p2 s2 _ => p1 + s1 <= p2 \/ p2 + s2 <= p1
  | _, _ => True
  end.

(** The slot's size field is the element's encoded size, with no slack left
    by an in-place update. *)
Definition tight x : Prop := match x with Live _ size e => size = elt_size e | Dead _ => True end.

(** The header fields of a page with [ns] slots: either the page is filled and
    they are stored, or it is not and it is an empty page. *)
Definition hdr p (ns fse g : Z) : Prop :=
  fld 2 p 12 = g /\
  (fld 1 p 5 <> 0 /\ fld 2 p 6 = ns /\ fld 2 p 8 = 32 + 4 * ns /\ fld 2 p 10 = fse \/
   fld 1 p 5 = 0 /\ ns = 0 /\ fse = 4096 /\ g = 0).

Record page_rep p es (fse g : Z) : Prop := {
  rep_len : len p = 4096;
  rep_hdr : hdr p (len es) fse g;
  rep_slots : holds p 32 (slot_bytes es);
  rep_room : 32 + 4 * len es <= fse <= 4096;
  rep_entries : Forall (entry_ok p fse) es;
  rep_apart : StronglySorted apart es;
  rep_garbage : sum_with elt_size (lives es) + g = 4096 - fse + 4 * dead_count es
}.

(** The header fields the slotted-page routines leave alone: node type, next
    leaf, LSN. *)
Definition meta p : Z * Z * Z := (fld 1 p 4, fld 8 p 16, fld 8 p 24).

(** ** Arithmetic of entries *)

Lemma len_slot_bytes es : len (slot_bytes es) = 4 * len es.
Proof.
  unfold slot_bytes. induction es as [|x es IH]; [done|].
  cbn [fmap list_fmap concat]. rewrite len_app, len_encodeSlot, IH, len_cons. lia.
Qed.

Lemma slot_bytes_app es es' : slot_bytes (es ++ es') = slot_bytes es ++ slot_bytes es'.
Proof. unfold slot_bytes. by rewrite fmap_app, concat_app. Qed.

Lemma lives_app es es' : lives (es ++ es') = lives es ++ lives es'.
Proof. unfold lives. apply omap_app. Qed.

Lemma live_slots_app es es' : live_slots (es ++ es') = live_slots es ++ live_slots es'.
Proof. unfold live_slots. apply omap_app. Qed.

Lemma dead_count_app es es' : dead_count (es ++ es') = dead_count es + dead_count es'.
Proof. apply sum_with_app. Qed.

Lemma dead_count_nonneg es : 0 <= dead_count es.
Proof. apply sum_with_nonneg. intros []; lia. Qed.

Lemma lives_cons x es :
  lives (x :: es) = match x with Live _ _ e => e :: lives es | Dead _ => lives es end.
Proof. by destruct x. Qed.

Lemma live_slots_cons x es :
  live_slots (x :: es) =
    match x with Live _ _ _ => slot_of x :: live_slots es | Dead _ => live_slots es end.
Proof. by destruct x. Qed.

Lemma dead_count_cons x es :
  dead_count (x :: es) = (match x with Live _ _ _ => 0 | Dead _ => 1 end) + dead_count es.
Proof. done. Qed.

Lemma len_lives es : len (lives es) = len es - dead_count es.
Proof.
  induction es as [|x es IH]; [done|]. rewrite lives_cons, dead_count_cons.
  destruct x; rewrite ?len_cons in *; lia.
Qed.

Lemma len_live_slots es : len (live_slots es) = len (lives es).
Proof.
  induction es as [|x es IH]; [done|]. rewrite lives_cons, live_slots_cons.
  destruct x; rewrite ?len_cons in *; lia.
Qed.

Lemma elt_size_nonneg e : 0 <= elt_size e.
Proof. apply len_nonneg. Qed.

Lemma sum_sizes_nonneg (l : list E) : 0 <= sum_with elt_size l.
Proof. apply sum_with_nonneg, elt_size_nonneg. Qed.

Lemma apart_sym x y : apart x y -> apart y x.
Proof. destruct x, y; simpl; tauto. Qed.

(** ** The invariant under writes outside the data region *)

Lemma entry_ok_slot p fse x : 0 <= fse -> entry_ok p fse x -> slot_ok (slot_of x).
Proof.
  unfold slot_ok. destruct x as [ptr size e|size]; cbn; [|lia].
  intros ? (? & ? & ? & ? & ?). pose proof (elt_size_nonneg e). lia.
Qed.

Lemma entry_ok_write p fse x off bs :
  entry_ok p fse x -> len p = 4096 -> 0 <= off -> off + len bs <= fse -> fse <= 4096 ->
  entry_ok (write p off bs) fse x.
Proof.
  destruct x as [ptr size e|size]; [|done]. intros (? & ? & ? & Hh & ?) ? ? ? ?.
  split_and!; try done. apply holds_write_other; [done|lia..].
Qed.

Lemma entry_ok_mono p fse fse' x : entry_ok p fse x -> fse' <= fse -> entry_ok p fse' x.
Proof. destruct x; [|done]. cbn. intros (? & ? & ? & ?) ?. split_and!; (done || lia || tauto). Qed.

Lemma entries_write p fse es off bs :
  Forall (entry_ok p fse) es -> len p = 4096 -> 0 <= off -> off + len bs <= fse -> fse <= 4096 ->
  Forall (entry_ok (write p off bs) fse) es.
Proof. intros He ? ? ? ?. eapply list.Forall_impl; [exact He|]. intros x ?. by apply entry_ok_write. Qed.

Lemma entries_mono p fse fse' es :
  Forall (entry_ok p fse) es -> fse' <= fse -> Forall (entry_ok p fse') es.
Proof. intros He ?. eapply list.Forall_impl; [exact He|]. intros x ?. by eapply entry_ok_mono. Qed.

(** ** Reading the page back *)

Lemma hdr_header p ns fse g :
  hdr p ns fse g ->
  numSlots (header_of p) = ns /\ freeSpaceBegin (header_of p) = 32 + 4 * ns /\
  freeSpaceEnd (header_of p) = fse /\ garbageSize (header_of p) = g.
Proof.
  intros [Hg [(Hf & Hn & Hb & He)|(Hf & -> & -> & ->)]]; unfold header_of.
  - apply Z.eqb_neq in Hf. rewrite Hf. cbn. auto.
  - apply Z.eqb_eq in Hf. rewrite Hf. cbn. auto.
Qed.

Lemma decodeSlot_entry p pointer fse x rest :
  0 <= fse -> entry_ok p fse x -> holds p pointer (encodeSlot (slot_of x) ++ rest) ->
  slice p pointer (pointer + 4) ≫= decodeSlot = Some (slot_of x).
Proof. intros ? ? [Hh _]%holds_app. eapply decodeSlot_holds; [by eapply entry_ok_slot|done]. Qed.

(** The element behind a live slot. *)
Lemma decode_element p fse ptr size e :
  0 <= fse -> len p = 4096 -> entry_ok p fse (Live ptr size e) ->
  slice p ptr (u16 (ptr + size)) ≫= elt_decode = Some e.
Proof.
  intros ? ? (? & ? & ? & Hh & Hok). pose proof (elt_size_nonneg e).
  rewrite u16_id by lia.
  destruct (holds_slice_prefix p ptr (elt_encode e) size) as (rest & Hs & _);
    [done|unfold elt_size in *; lia|lia|].
  rewrite Hs. cbn. by apply elt_decode_encode.
Qed.

Lemma isElementDeleted_live p fse ptr size e :
  0 <= fse -> entry_ok p fse (Live ptr size e) -> isElementDeleted (mkSlot size ptr) = false.
Proof.
  intros ? (? & ? & ? & ?). pose proof (elt_size_nonneg e). unfold isElementDeleted; cbn.
  apply Z.eqb_neq. lia.
Qed.

Lemma getAll_loop_spec p fse es pointer :
  0 <= fse -> len p = 4096 -> Forall (entry_ok p fse) es -> holds p pointer (slot_bytes es) ->
  getAll_loop p (length es) pointer = Some (live_slots es, lives es).
Proof.
  intros Hfse Hlen. revert pointer. induction es as [|x es IH]; intros pointer He Hh; [done|].
  inversion He as [|? ? Hx He']; subst. cbn [length getAll_loop].
  pose proof (decodeSlot_entry p pointer fse x (slot_bytes es) Hfse Hx Hh) as Hd.
  apply holds_app in Hh as [_ Hh]. rewrite len_encodeSlot in Hh. specialize (IH _ He' Hh).
  change getSlotSize with 4. destruct (slice p pointer (pointer + 4)) as [sb|]; [|done].
  cbn in Hd |- *. rewrite Hd. cbn. destruct x as [ptr size e|size].
  - cbn [slot_of elementPointer elementSize]. rewrite (isElementDeleted_live p fse ptr size e) by done.
    pose proof (decode_element p fse ptr size e Hfse Hlen Hx) as Hde.
    cbn. destruct (slice p ptr (u16 (ptr + size))) as [eb|]; [|done]. cbn in Hde |- *.
    rewrite Hde. cbn. by rewrite IH.
  - cbn. by rewrite IH.
Qed.

Lemma getAll_spec p es fse g :
  page_rep p es fse g -> getAllSlotsAndElements p = Some (live_slots es, lives es).
Proof.
  intros [Hlen Hhdr Hslots Hroom He Ha Hg]. unfold getAllSlotsAndElements.
  rewrite decodePageHeader_eq by lia. cbn.
  destruct (hdr_header _ _ _ _ Hhdr) as (-> & _). unfold len. rewrite Nat2Z.id.
  pose proof (len_nonneg es). eapply getAll_loop_spec; [|done..]. lia.
Qed.

(** ** Rewriting the page: [PutAllSlotsAndElements] *)

(** The entries of elements stored one below the other from [fse] down. *)
Fixpoint stack (fse : Z) (l : list E) : list (entry E) :=
  match l with
  | [] => []
  | e :: l => Live (fse - elt_size e) (elt_size e) e :: stack (fse - elt_size e) l
  end.

Lemma lives_stack fse l : lives (stack fse l) = l.
Proof. revert fse; induction l as [|e l IH]; intros; [done|]. cbn. f_equal. apply IH. Qed.

Lemma len_stack fse l : len (stack fse l) = len l.
Proof. revert fse; induction l as [|e l IH]; intros; [done|]. cbn. by rewrite !len_cons, IH. Qed.

Lemma dead_count_stack fse l : dead_count (stack fse l) = 0.
Proof. revert fse; induction l as [|e l IH]; intros; [done|]. cbn. by rewrite dead_count_cons, IH. Qed.

Lemma stack_below fse l x :
  x ∈ stack fse l -> match x with Live ptr size _ => ptr + size <= fse | Dead _ => False end.
Proof.
  revert fse; induction l as [|e l IH]; intros fse; cbn; [by intros ?%elem_of_nil|].
  intros [->|Hx]%elem_of_cons; [lia|]. specialize (IH _ Hx). pose proof (elt_size_nonneg e).
  destruct x; [lia|done].
Qed.

Lemma stack_apart fse l : StronglySorted apart (stack fse l).
Proof.
  revert fse; induction l as [|e l IH]; intros fse; cbn; constructor; [done|].
  apply list.Forall_forall. intros x Hx%stack_below. destruct x; cbn; [by right|done].
Qed.

Lemma stack_tight fse l : Forall tight (stack fse l).
Proof. revert fse; induction l as [|e l IH]; intros; constructor; done. Qed.

Definition sizes_match (ss : list Slot) (l : list E) : Prop :=
  Forall2 (fun s e => elementSize s = elt_size e) ss l.

Lemma putAll_loop_spec l : forall p fsb fse ss,
  len p = 4096 -> sizes_match ss l -> Forall elt_ok l ->
  0 <= fsb -> fsb + 4 * len l <= fse - sum_with elt_size l -> fse <= 4096 ->
  exists p',
    putAll_loop p fsb fse ss l = Some (p', fsb + 4 * len l, fse - sum_with elt_size l) /\
    len p' = 4096 /\ holds p' fsb (slot_bytes (stack fse l)) /\
    Forall (entry_ok p' (fse - sum_with elt_size l)) (stack fse l) /\
    (forall o n, 0 <= o -> o + n <= fsb \/ fse <= o -> sub p' o n = sub p o n).
Proof.
  induction l as [|e l IH]; intros p fsb fse ss Hlen Hm Hok H0 Hfit Hfse;
    inversion Hm as [|s ? ss' ? Hs Hm']; subst; clear Hm.
  { change (sum_with elt_size []) with 0 in *. rewrite (@len_nil E) in *.
    exists p. cbn. rewrite Z.add_0_r, Z.sub_0_r. split_and!; try done.
    unfold holds. rewrite (@len_nil byte). split_and!; [lia|lia|reflexivity]. }
  inversion Hok as [|? ? Hoke Hok']; subst. rewrite sum_with_cons, len_cons in *. pose proof (elt_size_nonneg e). pose proof (sum_sizes_nonneg l).
  pose proof (len_nonneg l). pose proof (elt_size_bound e Hoke).
  cbn [putAll_loop]. rewrite elt_append_eq by (done || lia). cbn [mbind option_bind].
  set (p1 := write p (fse - elt_size e) (elt_encode e)).
  assert (len p1 = 4096) as Hl1 by (apply page_write_len; [done|lia|unfold elt_size; lia]).
  rewrite appendSlot_eq by lia. cbn [mbind option_bind].
  set (sl := mkSlot _ _). set (p2 := write p1 fsb (encodeSlot sl)).
  assert (len p2 = 4096) as Hl2 by page_len.
  destruct (IH p2 (fsb + 4) (fse - elt_size e) ss') as (p' & Heq & Hl' & Hh & He & Hf);
    [done|done|done|lia..|].
  exists p'. split; [rewrite Heq; f_equal; f_equal; [f_equal; lia|lia]|]. split; [done|].
  assert (holds p2 fsb (encodeSlot sl)) as Hsl by (apply page_holds_same; [done|lia|solve_len]).
  assert (holds p2 (fse - elt_size e) (elt_encode e)) as Hel.
  { apply page_holds_other; [apply page_holds_same|..]; try done; try lia; try solve_len;
      unfold elt_size; lia. }
  assert (fse - (elt_size e + sum_with elt_size l) = fse - elt_size e - sum_with elt_size l) as -> by lia.
  split_and!.
  - cbn [stack]. change (slot_bytes (?x :: ?es)) with (encodeSlot (slot_of x) ++ slot_bytes es).
    apply holds_app. split; [|by rewrite len_encodeSlot].
    eapply holds_sub_eq; [|symmetry; apply Hf|]; [by rewrite Hl'|lia|rewrite len_encodeSlot; lia|].
    cbn [slot_of]. unfold sl in Hsl. by rewrite Hs in Hsl.
  - cbn [stack]. constructor; [|done]. split_and!; [lia..| |done].
    eapply holds_sub_eq; [|symmetry; apply Hf|]; [by rewrite Hl'|lia|lia|done].
  - intros o n Ho Hd. rewrite Hf by lia. unfold p2, p1.
    unfold elt_size in *. rewrite page_sub_other by page_side. by rewrite page_sub_other by page_side.
Qed.

Lemma holds_meta p q :
  len p = len q -> 32 <= len p -> sub p 4 1 = sub q 4 1 -> sub p 14 18 = sub q 14 18 -> meta p = meta q.
Proof.
  intros Hl Hl32 H1 H2. unfold meta, fld.
  change (Z.of_nat 1) with 1. change (Z.of_nat 8) with 8. rewrite H1.
  assert (forall o, 14 <= o <= 24 -> sub p o 8 = sub q o 8) as Hs.
  { intros o Ho. replace o with (14 + (o - 14)) by lia.
    rewrite <- !(sub_sub _ 14 18) by lia. by rewrite H2. }
  by rewrite (Hs 16), (Hs 24).
Qed.

(** The page written from scratch represents exactly these elements, has no
    garbage, and keeps its node type, next-leaf link and LSN. *)
Lemma PutAll_spec p ss l :
  len p = 4096 -> sizes_match ss l -> Forall elt_ok l ->
  32 + 4 * len l + sum_with elt_size l <= 4096 ->
  exists p', PutAllSlotsAndElements p ss l = Some p' /\
    page_rep p' (stack 4096 l) (4096 - sum_with elt_size l) 0 /\ meta p' = meta p.
Proof.
  intros Hlen Hm Hok Hfit. unfold PutAllSlotsAndElements. change (u16 getHeaderSize) with 32.
  change (u16 4096) with 4096. pose proof (sum_sizes_nonneg l). pose proof (len_nonneg l).
  destruct (putAll_loop_spec l p 32 4096 ss) as (q & -> & Hq & Hh & He & Hf); try (done || lia).
  cbn [mbind option_bind]. rewrite headerView_eq by lia. cbn [mbind option_bind].
  autorewrite with setters. cbn [mbind option_bind].
  autorewrite with setters. cbn [mbind option_bind].
  autorewrite with setters. cbn [mbind option_bind].
  autorewrite with setters. cbn [mbind option_bind].
  autorewrite with setters.
  assert (len ss = len l) as -> by (unfold len; by rewrite (Forall2_length Hm)).
  rewrite u16_id by lia.
  eexists. split; [done|]. split.
  - constructor.
    + page_len.
    + unfold hdr. split; [by page_fld|]. left. rewrite len_stack. page_fld.
      split_and!; (done || lia).
    + by repeat (apply page_holds_other; [|page_side..]).
    + rewrite len_stack. lia.
    + repeat (apply entries_write; [|page_side..]). done.
    + apply stack_apart.
    + rewrite lives_stack, dead_count_stack. lia.
  - unfold meta. page_fld. unfold fld. by rewrite !Hf by (simpl; lia).
Qed.

End layout.

#[export] Hint Rewrite @len_slot_bytes @len_stack : len.
