(* ===== verification/PageInsert.v ===== *)
(** * Insertion, search and deletion on slotted pages

    The lemmas behind the codecs' [InsertElement], [FindValue],
    [DeleteElement] and [SplitNode]: how the entries of a page change when a
    slot is inserted in key order, when the page is compacted first, and when a
    slot is marked deleted. *)

From S2P Require Export PageLayout.

Section insertion.
Context {E : Type} `{NL : NodeElementLaws E}.
Implicit Types (p : list byte) (e : E) (x y : entry E) (es : list (entry E)).

(** ** Key order *)

Definition elt_le (a b : E) : Prop := key_le (elt_key a) (elt_key b).

(** Elements in ascending key order; equal keys are possible. *)
Definition sorted_elts (l : list E) : Prop := StronglySorted elt_le l.

(** The reference definition of an insertion: before the first greater key. *)
Fixpoint insert_elt e (l : list E) : list E :=
  match l with
  | [] => [e]
  | a :: l' => if bytesCompare (elt_key a) (elt_key e) =? 1 then e :: l else a :: insert_elt e l'
  end.

Definition greater (k : list byte) x : bool :=
  match x with Live _ _ e => bytesCompare (elt_key e) k =? 1 | Dead _ => false end.

(** The entries before and from the first one with a greater key. *)
Fixpoint before (k : list byte) es : list (entry E) :=
  match es with [] => [] | x :: es => if greater k x then [] else x :: before k es end.
Fixpoint after (k : list byte) es : list (entry E) :=
  match es with [] => [] | x :: es' => if greater k x then es else after k es' end.

Lemma before_after k es : before k es ++ after k es = es.
Proof. induction es as [|x es IH]; cbn; [done|]. destruct (greater k x); [done|]. cbn. by rewrite IH. Qed.

Lemma before_le k es e : e ∈ lives (before k es) -> key_le (elt_key e) k.
Proof.
  induction es as [|x es IH]; cbn [before]; [by intros ?%elem_of_nil|].
  destruct (greater k x) eqn:G; [by intros ?%elem_of_nil|]. rewrite lives_cons.
  destruct x as [ptr size a|]; [|done]. intros [->|?]%elem_of_cons; [|auto].
  cbn in G. unfold key_le. lia.
Qed.

Lemma after_gt k es e : sorted_elts (lives es) -> e ∈ lives (after k es) -> key_lt k (elt_key e).
Proof.
  induction es as [|x es IH]; cbn [after]; [by intros ? ?%elem_of_nil|].
  rewrite lives_cons. destruct x as [ptr size a|size]; [|done].
  intros Hs. inversion Hs as [|? ? Hs' Hf]; subst. cbn [greater].
  destruct (Z.eqb_spec (bytesCompare (elt_key a) k) 1) as [Hg|]; [|by apply IH].
  rewrite lives_cons. apply key_gt_lt in Hg. intros [->|Hin]%elem_of_cons; [done|].
  rewrite list.Forall_forall in Hf. specialize (Hf e Hin). unfold elt_le in Hf. eauto with keys.
Qed.

Lemma lives_insert k es ptr size e :
  k = elt_key e ->
  lives (before k es ++ Live ptr size e :: after k es) = insert_elt e (lives es).
Proof.
  intros ->. induction es as [|x es IH]; cbn [before after]; [done|].
  destruct x as [ptr' size' a|size']; cbn [greater]; rewrite (lives_cons _ es).
  - cbn [insert_elt]. destruct (Z.eqb_spec (bytesCompare (elt_key a) (elt_key e)) 1) as [Hg|Hg]; [done|].
    cbn [app]. rewrite lives_cons. by rewrite IH.
  - cbn [app]. by rewrite lives_cons, IH.
Qed.

Lemma insert_elt_elem e l a : a ∈ insert_elt e l <-> a = e \/ a ∈ l.
Proof.
  induction l as [|b l IH]; cbn; [rewrite elem_of_cons; done|].
  case_match; rewrite !elem_of_cons; [tauto|]. rewrite IH. tauto.
Qed.

Lemma insert_elt_sorted e l : sorted_elts l -> sorted_elts (insert_elt e l).
Proof.
  unfold sorted_elts, elt_le. induction l as [|a l IH]; cbn; intros Hs; [by repeat constructor|].
  inversion Hs as [|? ? Hs' Hf]; subst. rewrite list.Forall_forall in Hf.
  destruct (Z.eqb_spec (bytesCompare (elt_key a) (elt_key e)) 1) as [Hg%key_gt_lt|Hg].
  - constructor; [done|]. apply list.Forall_forall. intros b [->|Hb]%elem_of_cons; eauto with keys.
  - constructor; [by apply IH|]. apply list.Forall_forall.
    intros b [->|Hb]%insert_elt_elem; [exact Hg|by apply Hf].
Qed.

Lemma insert_elt_sum e l : sum_with elt_size (insert_elt e l) = elt_size e + sum_with elt_size l.
Proof. induction l as [|a l IH]; cbn; [done|]. case_match; rewrite !sum_with_cons; [done|]. rewrite IH. lia. Qed.

(** ** The scan of [InsertSlot] *)

Lemma insertSlot_loop_found p fse k es pointer :
  0 <= fse -> len p = 4096 -> Forall (entry_ok p fse) es -> holds p pointer (slot_bytes es) ->
  (forall e, e ∈ lives es -> key_lt k (elt_key e)) ->
  insertSlot_loop p k (length es) pointer true = Some (slot_of <$> es).
Proof.
  intros Hfse Hlen. revert pointer. induction es as [|x es IH]; intros pointer He Hh Hk; [done|].
  inversion He as [|? ? Hx He']; subst. cbn [length insertSlot_loop].
  pose proof (decodeSlot_entry p pointer fse x (slot_bytes es) Hfse Hx Hh) as Hd.
  apply holds_app in Hh as [_ Hh]. rewrite len_encodeSlot in Hh. change getSlotSize with 4.
  destruct (slice p pointer (pointer + 4)) as [sb|]; [|done].
  cbn in Hd |- *. rewrite Hd. cbn. rewrite lives_cons in Hk. destruct x as [ptr size e|size].
  - cbn [slot_of elementPointer elementSize]. rewrite (isElementDeleted_live p fse ptr size e) by done.
    pose proof (decode_element p fse ptr size e Hfse Hlen Hx) as Hde. cbn.
    destruct (slice p ptr (u16 (ptr + size))) as [eb|]; [|done]. cbn in Hde |- *. rewrite Hde. cbn.
    rewrite (proj2 (Z.eqb_eq _ _)); [|apply key_gt_lt, Hk; by left].
    rewrite IH; [done..|]. intros e' ?. apply Hk. by right.
  - cbn. by rewrite IH.
Qed.

Lemma insertSlot_loop_spec p fse k es pointer :
  0 <= fse -> len p = 4096 -> Forall (entry_ok p fse) es -> holds p pointer (slot_bytes es) ->
  sorted_elts (lives es) ->
  insertSlot_loop p k (length es) pointer false = Some (slot_of <$> after k es).
Proof.
  intros Hfse Hlen. revert pointer. induction es as [|x es IH]; intros pointer He Hh Hs; [done|].
  pose proof (after_gt k (x :: es)) as Hgt. specialize (fun e => Hgt e Hs).
  inversion He as [|? ? Hx He']; subst. cbn [length insertSlot_loop after] in *.
  pose proof (decodeSlot_entry p pointer fse x (slot_bytes es) Hfse Hx Hh) as Hd.
  apply holds_app in Hh as [_ Hh]. rewrite len_encodeSlot in Hh. change getSlotSize with 4.
  destruct (slice p pointer (pointer + 4)) as [sb|]; [|done].
  cbn in Hd |- *. rewrite Hd. cbn. rewrite lives_cons in Hs. destruct x as [ptr size e|size].
  - cbn [slot_of elementPointer elementSize greater] in *.
    rewrite (isElementDeleted_live p fse ptr size e) by done.
    pose proof (decode_element p fse ptr size e Hfse Hlen Hx) as Hde. cbn.
    destruct (slice p ptr (u16 (ptr + size))) as [eb|]; [|done]. cbn in Hde |- *. rewrite Hde. cbn.
    inversion Hs as [|? ? Hs' _]; subst.
    destruct (bytesCompare (elt_key e) k =? 1); [|by apply IH].
    erewrite insertSlot_loop_found; [done..|]. intros e' He2. apply Hgt. rewrite lives_cons. by right.
  - cbn. by apply IH.
Qed.

(** ** Writing the slots back *)

Lemma write_write_app p off a b :
  0 <= off -> off + len a + len b <= len p ->
  write (write p off a) (off + len a) b = write p off (a ++ b).
Proof.
  intros H0 Hl. apply list_eq. intros i. pose proof (len_nonneg a). pose proof (len_nonneg b).
  rewrite lookup_write by (rewrite ?len_write; lia). rewrite lookup_write by lia.
  rewrite lookup_write by solve_len. rewrite length_app. unfold len in *.
  repeat case_decide; try lia; try done.
  - rewrite lookup_app_r by lia. f_equal. lia.
  - by rewrite lookup_app_l by lia.
Qed.

Lemma appendSlots_spec ss : forall p fsb,
  0 <= fsb -> fsb + 4 * len ss <= len p -> len p < 65536 ->
  appendSlots p fsb ss = Some (write p fsb (concat (encodeSlot <$> ss)), fsb + 4 * len ss).
Proof.
  induction ss as [|s ss IH]; intros p fsb H0 Hl Hp; cbn [appendSlots].
  - rewrite (@len_nil Slot). do 2 f_equal; [|lia]. unfold write. cbn.
    by rewrite Nat.add_0_r, take_drop.
  - rewrite len_cons in *. pose proof (len_nonneg ss).
    rewrite appendSlot_eq by lia. cbn [mbind option_bind].
    assert (len (concat (encodeSlot <$> ss)) = 4 * len ss) as Hc.
    { clear. induction ss as [|s ss IH]; [done|]. cbn. rewrite len_app, IH, len_encodeSlot, len_cons. lia. }
    rewrite IH by (rewrite ?len_write; solve_len). do 2 f_equal; [|lia].
    rewrite <- (len_encodeSlot s), write_write_app by (rewrite ?len_encodeSlot; lia). done.
Qed.

Lemma slots_concat es : concat (encodeSlot <$> (slot_of <$> es)) = slot_bytes es.
Proof. unfold slot_bytes. by rewrite <- list_fmap_compose. Qed.

(** ** Inserting an entry *)

(** The part of the invariant that does not depend on the header fields. *)
Record page_body p es (fse : Z) : Prop := {
  body_len : len p = 4096;
  body_slots : holds p 32 (slot_bytes es);
  body_entries : Forall (entry_ok p fse) es;
  body_apart : StronglySorted apart es
}.

Lemma apart_insert es1 es2 x :
  StronglySorted apart (es1 ++ es2) -> (forall y, y ∈ es1 ++ es2 -> apart x y) ->
  StronglySorted apart (es1 ++ x :: es2).
Proof.
  intros (H1 & H2 & Hc)%StronglySorted_app_inv Hx. apply StronglySorted_app_intro; [done| |].
  - constructor; [done|]. apply list.Forall_forall. intros y Hy. apply Hx, elem_of_app. by right.
  - intros y z Hy [->|Hz]%elem_of_cons; [|by apply Hc].
    apply apart_sym, Hx, elem_of_app. by left.
Qed.

(** Appending the element's bytes below the data region and shifting the slots
    behind the new one. *)
Lemma body_insert p es1 es2 fse g e :
  page_rep p (es1 ++ es2) fse g -> elt_ok e ->
  32 + 4 * len (es1 ++ es2) + 4 + elt_size e <= fse ->
  let x := Live (fse - elt_size e) (elt_size e) e in
  let p1 := write p (fse - elt_size e) (elt_encode e) in
  page_body (write p1 (32 + 4 * len es1) (slot_bytes (x :: es2))) (es1 ++ x :: es2) (fse - elt_size e).
Proof.
  intros [Hlen Hhdr Hslots Hroom He Ha Hg] Hok Hfit x p1.
  pose proof (elt_size_nonneg e). pose proof (elt_size_bound e Hok).
  pose proof (len_nonneg es1). pose proof (len_nonneg es2). rewrite len_app in *.
  assert (len p1 = 4096) as Hl1 by (apply page_write_len; [done|lia|unfold elt_size; lia]).
  assert (len (slot_bytes (x :: es2)) = 4 * (1 + len es2)) as Hsb by (by rewrite len_slot_bytes, len_cons).
  rewrite slot_bytes_app, holds_app, len_slot_bytes in Hslots. destruct Hslots as [Hs1 Hs2].
  constructor.
  - apply page_write_len; [done|lia|lia].
  - rewrite slot_bytes_app, holds_app, len_slot_bytes. split.
    + do 2 (apply page_holds_other; [|done|lia|unfold elt_size in *; lia
        |left; rewrite len_slot_bytes; unfold elt_size in *; lia]). done.
    + apply page_holds_same; [done|lia..].
  - apply entries_write; [|done|lia..].
    assert (Forall (entry_ok p1 fse) (es1 ++ es2)) as He1.
    { eapply list.Forall_impl; [exact He|]. intros [ptr size a|size]; [|done].
      intros (? & ? & ? & Hh & ?). split_and!; try done.
      apply page_holds_other; try done; unfold elt_size in *; lia. }
    apply (entries_mono _ _ (fse - elt_size e)) in He1; [|lia].
    apply Forall_app in He1 as [He1 He2]. apply Forall_app. split; [done|]. constructor; [|done].
    split_and!; [lia..| |done]. apply page_holds_same; [done|lia|unfold elt_size; lia].
  - apply apart_insert; [done|]. intros [ptr size a|size] Hy; [|done].
    rewrite list.Forall_forall in He. destruct (He _ Hy) as (? & ?). cbn. lia.
Qed.

(** Appending an element's bytes leaves the header, the slots and the other
    elements as they are. *)
Lemma append_keeps p es fse g e :
  page_rep p es fse g -> 32 + 4 * len es + elt_size e <= fse ->
  let p1 := write p (fse - elt_size e) (elt_encode e) in
  len p1 = 4096 /\ Forall (entry_ok p1 fse) es /\ holds p1 32 (slot_bytes es) /\
  sub p1 0 32 = sub p 0 32 /\ header_of p1 = header_of p.
Proof.
  intros [Hlen Hhdr Hslots Hroom He Ha Hg] Hfit p1. pose proof (elt_size_nonneg e). pose proof (len_nonneg es).
  assert (len p1 = 4096) as Hl1 by (apply page_write_len; unfold elt_size in *; (done || lia)).
  assert (sub p1 0 32 = sub p 0 32) as Hh by (apply page_sub_other; unfold elt_size in *; (done || lia)).
  split_and!; try done.
  - eapply list.Forall_impl; [exact He|]. intros [ptr size a|size]; [|done].
    intros (? & ? & ? & ? & ?). split_and!; try done.
    apply page_holds_other; try done; unfold elt_size in *; lia.
  - apply page_holds_other; rewrite ?len_slot_bytes; try done; unfold elt_size in *; lia.
  - rewrite <- (header_of_sub p1), <- (header_of_sub p) by lia. by rewrite Hh.
Qed.

Lemma rep_finish p es fse g :
  page_body p es fse -> 32 + 4 * len es <= fse <= 4096 -> fld 2 p 12 = g ->
  sum_with elt_size (lives es) + g = 4096 - fse + 4 * dead_count es ->
  page_rep (write (write (write (write p 10 (le 2 fse)) 8 (le 2 (32 + 4 * len es))) 6 (le 2 (len es))) 5 [x01])
    es fse g.
Proof.
  intros [Hlen Hs He Ha] Hroom Hg Hacc. pose proof (len_nonneg es). constructor; try done.
  - page_len.
  - split; [by page_fld|]. left. page_fld. by split_and!.
  - by repeat (apply page_holds_other; [|page_side..]).
  - by repeat (apply entries_write; [|page_side..]).
Qed.

(** Recomputing the checksum keeps the representation. *)
Lemma rep_write_crc p es fse g c :
  page_rep p es fse g -> page_rep (write p 0 (le 4 c)) es fse g /\ meta (write p 0 (le 4 c)) = meta p.
Proof.
  intros [Hlen [Hg Hhdr] Hslots Hroom He Ha Hacc]. pose proof (len_nonneg es). split.
  - constructor; try done; [page_len|split; page_fld; [done|]|by apply page_holds_other; [|page_side..]
      |by apply entries_write; [|page_side..]]. by page_fld.
  - unfold meta. by page_fld.
Qed.

Lemma rep_updateCRC p es fse g :
  page_rep p es fse g ->
  exists p', updateCRC p = Some p' /\ page_rep p' es fse g /\ meta p' = meta p /\ crc_valid p'.
Proof.
  intros Hr. rewrite updateCRC_eq by apply Hr. eexists. split; [done|].
  destruct (rep_write_crc _ _ _ _ (generateCRC (sub p 4 4092)) Hr). split_and!; [done..|].
  apply updateCRC_valid, Hr.
Qed.

(** The closing header updates turn the body with its new entry into a page. *)
Lemma finishInsert_spec p es fse g h :
  page_body p es fse -> 32 + 4 * len es <= fse <= 4096 -> fld 2 p 12 = g ->
  sum_with elt_size (lives es) + g = 4096 - fse + 4 * dead_count es ->
  numSlots h + 1 = len es ->
  exists p', finishInsert p h fse (32 + 4 * len es) = Some p' /\
    page_rep p' es fse g /\ meta p' = meta p /\ crc_valid p'.
Proof.
  intros Hb Hroom Hg Hacc Hn. pose proof (body_len _ _ _ Hb) as Hlen. pose proof (len_nonneg es).
  unfold finishInsert. rewrite headerView_eq by lia. cbn [mbind option_bind].
  do 4 (autorewrite with setters; cbn [mbind option_bind]).
  rewrite Hn, u16_id by lia.
  destruct (rep_updateCRC _ _ _ _ (rep_finish p es fse g Hb Hroom Hg Hacc)) as (p' & Heq & Hr & Hm & Hc).
  exists p'. split_and!; try done. rewrite Hm. unfold meta. by page_fld.
Qed.

(** ** Room *)

Lemma isAdequate_spec p es fse g need :
  page_rep p es fse g -> 0 <= need < 65536 ->
  isAdequate p need = Some (need <=? fse - (32 + 4 * len es)).
Proof.
  intros [Hlen Hhdr ? Hroom ? ? ?] Hneed. unfold isAdequate.
  rewrite decodePageHeader_eq by lia. cbn. destruct (hdr_header _ _ _ _ Hhdr) as (_ & -> & -> & _).
  pose proof (len_nonneg es). rewrite !u16_id by lia. done.
Qed.

Lemma shouldCompact_spec p es fse g need :
  page_rep p es fse g -> shouldCompact p need = Some (need <=? g).
Proof.
  intros [Hlen Hhdr ? ? ? ? ?]. unfold shouldCompact. rewrite decodePageHeader_eq by lia.
  cbn. by destruct (hdr_header _ _ _ _ Hhdr) as (_ & _ & _ & ->).
Qed.

Lemma tight_sizes_match es : Forall tight es -> sizes_match (live_slots es) (lives es).
Proof.
  unfold sizes_match. induction 1 as [|x es Hx He IH]; [constructor|].
  rewrite lives_cons, live_slots_cons. destruct x; [|done]. constructor; [exact Hx|done].
Qed.

Lemma entries_elt_ok p fse es : Forall (entry_ok p fse) es -> Forall elt_ok (lives es).
Proof.
  induction 1 as [|x es Hx He IH]; [constructor|]. rewrite lives_cons.
  destruct x; [constructor; [apply Hx|done]|done].
Qed.

(** Compaction keeps the elements, drops the garbage and turns all of it into
    free space. *)
Lemma compact_spec p es fse g :
  page_rep p es fse g -> Forall tight es ->
  exists p' fse', compact p = Some p' /\ page_rep p' (stack 4096 (lives es)) fse' 0 /\
    meta p' = meta p /\ fse' - (32 + 4 * len (lives es)) = fse - (32 + 4 * len es) + g.
Proof.
  intros Hr Ht. pose proof Hr as [Hlen [_ Hhdr] Hslots Hroom He Ha Hacc]. unfold compact.
  rewrite (getAll_spec _ _ _ _ Hr). cbn.
  pose proof (len_lives es). pose proof (dead_count_nonneg es).
  assert (0 <= g). { pose proof (rep_hdr _ _ _ _ Hr) as [<- _]. apply fld_range; simpl; lia. }
  destruct (PutAll_spec p (live_slots es) (lives es)) as (p' & -> & Hr' & Hm);
    [done|by apply tight_sizes_match|by eapply entries_elt_ok|lia|].
  eexists _, _. split; [done|]. split_and!; [done..|lia].
Qed.

(** Free space and garbage of the page after room was made for [need] bytes. *)
Definition room_after (need free g : Z) : Z * Z := if need <=? free then (free, g) else (free + g, 0).

Definition free_space es (fse : Z) : Z := fse - (32 + 4 * len es).

(** The page [InsertElement] goes on with: the same elements, enough room. *)
Lemma ensureRoom_spec p es fse g need :
  page_rep p es fse g -> Forall tight es -> 0 <= need < 65536 ->
  if decide (need <= free_space es fse \/ need <= g) then
    exists p' es' fse' g', ensureRoom p need = Some (Some (p', header_of p')) /\
      page_rep p' es' fse' g' /\ Forall tight es' /\ lives es' = lives es /\
      meta p' = meta p /\ (free_space es' fse', g') = room_after need (free_space es fse) g
  else ensureRoom p need = Some None.
Proof.
  intros Hr Ht Hneed. unfold ensureRoom, room_after, free_space. change getHeaderSize with 32.
  pose proof (rep_len _ _ _ _ Hr) as Hlen.
  rewrite slice_header by lia. cbn [mbind option_bind].
  rewrite decodePageHeader_eq by (rewrite len_sub; lia). rewrite header_of_sub by lia.
  cbn [mbind option_bind]. rewrite (isAdequate_spec _ _ _ _ _ Hr Hneed). cbn [mbind option_bind].
  rewrite (shouldCompact_spec _ _ _ _ _ Hr). cbn [mbind option_bind].
  destruct (Z.leb_spec need (fse - (32 + 4 * len es))) as [Hle|Hlt]; cbn [negb].
  { rewrite decide_True by auto. by exists p, es, fse, g. }
  destruct (Z.leb_spec need g) as [Hg|Hg]; cbn [negb]; [|rewrite decide_False by lia; done].
  rewrite decide_True by auto.
  destruct (compact_spec _ _ _ _ Hr Ht) as (p' & fse' & -> & Hr' & Hm & Hfree).
  cbn [mbind option_bind]. pose proof (rep_len _ _ _ _ Hr') as Hlen'.
  rewrite slice_header by lia. cbn [mbind option_bind].
  rewrite decodePageHeader_eq by (rewrite len_sub; lia). rewrite header_of_sub by lia.
  eexists _, _, _, _. split; [done|]. split_and!; [done|apply stack_tight|apply lives_stack|done|].
  rewrite len_stack. f_equal. lia.
Qed.

Lemma hasEnoughSpace_spec p es fse g need :
  page_rep p es fse g -> Forall tight es -> 0 <= need < 65536 ->
  exists p' es' fse' g', hasEnoughSpace p need =
      Some (p', bool_decide (need <= free_space es fse \/ need <= g)) /\
    page_rep p' es' fse' g' /\ Forall tight es' /\ lives es' = lives es /\ meta p' = meta p /\
    (free_space es' fse', g') =
      if decide (need <= free_space es fse \/ need <= g)
      then room_after need (free_space es fse) g else (free_space es fse, g).
Proof.
  intros Hr Ht Hneed. unfold hasEnoughSpace, room_after, free_space.
  rewrite (isAdequate_spec _ _ _ _ _ Hr Hneed).
  cbn [mbind option_bind]. rewrite (shouldCompact_spec _ _ _ _ _ Hr). cbn [mbind option_bind].
  destruct (Z.leb_spec need (fse - (32 + 4 * len es))) as [Hle|Hlt]; cbn [negb].
  { rewrite bool_decide_eq_true_2, decide_True by auto. by exists p, es, fse, g. }
  destruct (Z.leb_spec need g) as [Hg|Hg]; cbn [negb].
  - destruct (compact_spec _ _ _ _ Hr Ht) as (p' & fse' & -> & Hr' & Hm & Hfree).
    cbn [mbind option_bind]. rewrite bool_decide_eq_true_2, decide_True by auto.
    eexists _, _, _, _. split; [done|]. split_and!; [done|apply stack_tight|apply lives_stack|done|].
    rewrite len_stack. f_equal. lia.
  - rewrite bool_decide_eq_false_2, decide_False by lia. by exists p, es, fse, g.
Qed.

(** ** Search *)

(** What [linearSearch] found: where the scan stopped. *)
Inductive search_result (k : list byte) es : view * view * Z -> Prop :=
| Search_stop es1 ptr size e es2 :
    es = es1 ++ Live ptr size e :: es2 ->
    (forall a, a ∈ lives es1 -> key_lt (elt_key a) k) -> key_le k (elt_key e) ->
    search_result k es (View (32 + 4 * len es1) 4, View ptr size, bytesCompare (elt_key e) k)
| Search_end :
    (forall a, a ∈ lives es -> key_lt (elt_key a) k) ->
    search_result k es (nil_view, nil_view, -1).

Lemma linearSearch_loop_spec p fse k pre es :
  0 <= fse -> len p = 4096 -> Forall (entry_ok p fse) es ->
  holds p (32 + 4 * len pre) (slot_bytes es) ->
  (forall a, a ∈ lives pre -> key_lt (elt_key a) k) ->
  exists r, linearSearch_loop p k (length es) (32 + 4 * len pre) = Some r /\ search_result k (pre ++ es) r.
Proof.
  intros Hfse Hlen. revert pre. induction es as [|x es IH]; intros pre He Hh Hpre.
  { eexists. split; [done|]. rewrite app_nil_r. by constructor. }
  inversion He as [|? ? Hx He']; subst. cbn [length linearSearch_loop].
  pose proof (decodeSlot_entry p _ fse x (slot_bytes es) Hfse Hx Hh) as Hd.
  apply holds_app in Hh as [Hh1 Hh]. destruct Hh1 as (? & Hb & _). rewrite len_encodeSlot in Hh, Hb.
  change getSlotSize with 4. pose proof (len_nonneg pre). pose proof (len_nonneg (slot_bytes es)).
  rewrite slice_view_eq by (destruct Hh as (? & ? & ?); lia). cbn [mbind option_bind].
  rewrite slice_eq in Hd by (destruct Hh as (? & ? & ?); lia).
  cbn [mbind option_bind] in Hd. change (view_bytes p (View ?a ?b)) with (sub p a b). rewrite Hd.
  cbn [mbind option_bind].
  replace (32 + 4 * len pre + 4 - (32 + 4 * len pre)) with 4 by lia.
  assert (forall r, (forall a, a ∈ lives [x] -> key_lt (elt_key a) k) ->
    (linearSearch_loop p k (length es) (32 + 4 * len pre + 4) = Some r <->
     linearSearch_loop p k (length es) (32 + 4 * len (pre ++ [x])) = Some r)) as Hstep.
  { intros. rewrite len_app. change (len [x]) with 1. by replace (32 + 4 * (len pre + 1)) with (32 + 4 * len pre + 4) by lia. }
  assert ((forall a, a ∈ lives [x] -> key_lt (elt_key a) k) ->
    exists r, linearSearch_loop p k (length es) (32 + 4 * len pre + 4) = Some r /\
      search_result k (pre ++ x :: es) r) as Hnext.
  { intros Hx'. destruct (IH (pre ++ [x])) as (r & Hr & Hsr); [done| |..].
    - rewrite len_app. change (len [x]) with 1. by replace (32 + 4 * (len pre + 1)) with (32 + 4 * len pre + 4) by lia.
    - intros a. rewrite lives_app, elem_of_app. intros []; auto.
    - exists r. rewrite Hstep by done. by rewrite <- app_assoc in Hsr. }
  clear Hstep IH. destruct x as [ptr size e|size].
  - cbn [slot_of elementPointer elementSize]. rewrite (isElementDeleted_live p fse ptr size e) by done.
    pose proof (decode_element p fse ptr size e Hfse Hlen Hx) as Hde.
    pose proof Hx as (? & ? & ? & ? & ?). pose proof (elt_size_nonneg e).
    rewrite u16_id in * by lia. rewrite slice_view_eq by lia. rewrite slice_eq in Hde by lia.
    cbn [mbind option_bind] in Hde |- *. change (view_bytes p (View ?a ?b)) with (sub p a b). rewrite Hde.
    cbn [mbind option_bind].
    replace (ptr + size - ptr) with size by lia.
    destruct (Z.eqb_spec (bytesCompare (elt_key e) k) 0) as [Hz|Hz];
      [|destruct (Z.eqb_spec (bytesCompare (elt_key e) k) 1) as [Ho|Ho]].
    + eexists. split; [done|]. eapply Search_stop; [done|done|].
      apply bytesCompare_eq in Hz as ->. apply key_le_refl.
    + eexists. split; [done|]. eapply Search_stop; [done|done|]. by apply key_lt_le, key_gt_lt.
    + apply Hnext. intros a [->|[]%elem_of_nil]%elem_of_cons. unfold key_lt.
      pose proof (bytesCompare_cases (elt_key e) k). lia.
  - apply Hnext. intros a []%elem_of_nil.
Qed.

Lemma linearSearch_spec p es fse g k :
  page_rep p es fse g -> exists r, linearSearch p k = Some r /\ search_result k es r.
Proof.
  intros [Hlen Hhdr Hslots Hroom He Ha Hg]. unfold linearSearch. change getHeaderSize with 32.
  rewrite slice_header by lia. cbn [mbind option_bind].
  rewrite decodePageHeader_eq by (rewrite len_sub; lia). rewrite header_of_sub by lia.
  cbn [mbind option_bind]. destruct (hdr_header _ _ _ _ Hhdr) as (-> & _).
  unfold len. rewrite Nat2Z.id. pose proof (len_nonneg es).
  apply (linearSearch_loop_spec p fse k [] es); try done; [lia|]. intros a []%elem_of_nil.
Qed.

(** On a sorted page the scan finds the key exactly when it is there. *)
Lemma search_found k es r :
  sorted_elts (lives es) -> search_result k es r ->
  (r.2 = 0 <-> exists a, a ∈ lives es /\ elt_key a = k).
Proof.
  intros Hs Hr. destruct Hr as [es1 ptr size e es2 -> Hlt Hle|Hlt]; cbn.
  - rewrite bytesCompare_eq. rewrite lives_app, lives_cons in *. split.
    + intros <-. exists e. split; [|done]. apply elem_of_app. right. by left.
    + intros (a & [Hin|[->|Hin]%elem_of_cons]%elem_of_app & <-); [|done|].
      * exfalso. by eapply key_lt_irrefl, Hlt.
      * apply StronglySorted_app_inv in Hs as (_ & Hs & _). inversion Hs as [|? ? _ Hf]; subst.
        rewrite list.Forall_forall in Hf. specialize (Hf a Hin). unfold elt_le in Hf.
        apply key_le_lt_or_eq in Hf as [Hf|Hf]; [|done]. exfalso.
        eapply key_lt_irrefl, key_lt_le_trans; done.
  - split; [done|]. intros (a & Hin & <-). exfalso. by eapply key_lt_irrefl, Hlt.
Qed.

(** ** Deletion *)

(** Replacing a slot's pointer field. *)
Lemma slot_bytes_pointer p es1 x es2 size v :
  len p = 4096 -> slot_of x = mkSlot size (elementPointer (slot_of x)) ->
  holds p 32 (slot_bytes (es1 ++ x :: es2)) ->
  forall y, slot_of y = mkSlot size v ->
  holds (write p (32 + 4 * len es1 + 2) (le 2 v)) 32 (slot_bytes (es1 ++ y :: es2)).
Proof.
  intros Hlen Hx Hh y Hy. rewrite slot_bytes_app in *. rewrite holds_app in *.
  rewrite len_slot_bytes in *. change (slot_bytes (?x :: ?es)) with (encodeSlot (slot_of x) ++ slot_bytes es) in *.
  rewrite !holds_app in *. rewrite !len_encodeSlot in *. pose proof (len_nonneg es1).
  destruct Hh as (H1 & H2 & H3). pose proof H3 as (_ & Hb & _). pose proof (len_nonneg (slot_bytes es2)).
  split; [|split].
  - apply page_holds_other; try done; solve_len || (rewrite len_slot_bytes; solve_len).
  - rewrite Hy. rewrite Hx in H2. unfold encodeSlot in *. cbn [elementSize elementPointer] in *.
    rewrite holds_app in *. rewrite !len_le in *. change (Z.of_nat 2) with 2 in *. split.
    + apply page_holds_other; [apply H2|page_side..].
    + apply page_holds_same; page_side.
  - apply page_holds_other; page_side || done.
Qed.

Lemma rep_delete p es1 ptr size e es2 fse g :
  page_rep p (es1 ++ Live ptr size e :: es2) fse g -> size = elt_size e ->
  page_rep (write (write p (32 + 4 * len es1 + 2) (le 2 0xFFFF)) 12 (le 2 (g + (size + 4))))
    (es1 ++ Dead size :: es2) fse (g + (size + 4)).
Proof.
  intros [Hlen [Hg Hhdr] Hslots Hroom He Ha Hacc] Ht.
  apply Forall_app in He as [He1 He2]. inversion He2 as [|? ? Hx He2']; subst.
  pose proof (elt_size_nonneg e). destruct Hx as (? & ? & ? & ? & ?).
  rewrite !len_app, !len_cons in *. pose proof (len_nonneg es1). pose proof (len_nonneg es2).
  rewrite lives_app, lives_cons, sum_with_app, sum_with_cons, dead_count_app, dead_count_cons in Hacc.
  pose proof (sum_sizes_nonneg (lives es1)). pose proof (sum_sizes_nonneg (lives es2)).
  assert (0 <= fld 2 p 12) by (apply fld_range; simpl; lia).
  assert (dead_count es1 <= len es1) by (pose proof (len_lives es1); pose proof (len_nonneg (lives es1)); lia).
  assert (dead_count es2 <= len es2) by (pose proof (len_lives es2); pose proof (len_nonneg (lives es2)); lia).
  constructor.
  - page_len.
  - rewrite len_app, len_cons. split; [by page_fld|]. destruct Hhdr as [(? & ? & ? & ?)|(? & ? & ?)]; [left|lia].
    page_fld. split_and!; (done || lia).
  - apply page_holds_other; [|page_side..]. by apply (slot_bytes_pointer p es1 (Live ptr (elt_size e) e) es2 (elt_size e)).
  - rewrite len_app, len_cons. lia.
  - do 2 (apply entries_write; [|page_side..]). apply Forall_app. split; [done|]. constructor; [|done].
    cbn. pose proof (elt_size_bound e). lia.
  - apply StronglySorted_app_inv in Ha as (Ha1 & Ha2 & Hc). inversion Ha2; subst.
    apply StronglySorted_app_intro; [done| |].
    + constructor; [done|]. apply list.Forall_forall. by intros [].
    + intros x y Hx [->|Hy]%elem_of_cons; [by destruct x|].
      apply Hc; [done|by right].
  - rewrite lives_app, lives_cons, sum_with_app, dead_count_app, dead_count_cons. lia.
Qed.

(** The reference definition of a deletion: the first element with the key. *)
Fixpoint remove_elt (k : list byte) (l : list E) : list E :=
  match l with
  | [] => []
  | a :: l => if bytesCompare (elt_key a) k =? 0 then l else a :: remove_elt k l
  end.

Lemma remove_elt_stop k l1 e l2 :
  (forall a, a ∈ l1 -> key_lt (elt_key a) k) -> elt_key e = k ->
  remove_elt k (l1 ++ e :: l2) = l1 ++ l2.
Proof.
  intros Hlt <-. induction l1 as [|a l1 IH]; cbn.
  - by rewrite bytesCompare_refl.
  - assert (key_lt (elt_key a) (elt_key e)) as Ha by (apply Hlt; by left).
    unfold key_lt in Ha. rewrite Ha. cbn. rewrite IH; [done|]. intros b ?. apply Hlt. by right.
Qed.

Lemma DeleteElement_absent p es fse g k :
  page_rep p es fse g -> sorted_elts (lives es) ->
  (forall a, a ∈ lives es -> elt_key a <> k) -> DeleteElement p k = Some (p, false).
Proof.
  intros Hr Hs Hno. destruct (linearSearch_spec _ _ _ _ k Hr) as ([[sv ev] f] & Hls & Hsr).
  unfold DeleteElement. rewrite Hls. cbn [mbind option_bind].
  destruct (Z.eqb_spec f 0) as [->|]; [|done]. exfalso.
  destruct (proj1 (search_found _ _ _ Hs Hsr) eq_refl) as (a & Ha & Hk). by eapply Hno.
Qed.

Lemma DeleteElement_present p es fse g k :
  page_rep p es fse g -> Forall tight es -> sorted_elts (lives es) ->
  (exists a, a ∈ lives es /\ elt_key a = k) ->
  exists p' es' g', DeleteElement p k = Some (p', true) /\ page_rep p' es' fse g' /\
    Forall tight es' /\ lives es' = remove_elt k (lives es) /\ meta p' = meta p /\ crc_valid p' /\
    len es' = len es.
Proof.
  intros Hr Ht Hs Hex. destruct (linearSearch_spec _ _ _ _ k Hr) as ([[sv ev] f] & Hls & Hsr).
  pose proof (proj2 (search_found _ _ _ Hs Hsr) Hex) as Hf. cbn in Hf. subst f.
  inversion Hsr as [es1 ptr size e es2 Hes Hlt Hle Hv|]; subst sv ev es.
  assert (elt_key e = k) as Hk by (by apply bytesCompare_eq).
  apply Forall_app in Ht as [Ht1 Ht2]. inversion Ht2 as [|? ? Htx Ht2']; subst.
  pose proof (rep_delete _ _ _ _ _ _ _ _ Hr Htx) as Hd.
  pose proof (rep_len _ _ _ _ Hr) as Hlen. pose proof (rep_room _ _ _ _ Hr) as Hroom.
  rewrite len_app, len_cons in Hroom. pose proof (len_nonneg es1). pose proof (len_nonneg es2).
  unfold DeleteElement. rewrite Hls. cbn [mbind option_bind]. rewrite Z.eqb_refl. cbn [negb].
  unfold setElementPointer. cbn [defaultSlotConfig elementPointerOffset].
  rewrite putUint_eq by (simpl; lia). cbn [mbind option_bind v_off v_len].
  set (p1 := write p _ _) in *. assert (len p1 = 4096) as Hl1 by page_len.
  rewrite headerView_eq by lia. cbn [mbind option_bind]. change (view_bytes p1 (View 0 32)) with (sub p1 0 32).
  rewrite decodePageHeader_eq by (rewrite len_sub; lia). rewrite header_of_sub by lia. cbn [mbind option_bind].
  assert (garbageSize (header_of p1) = g) as ->.
  { pose proof (rep_hdr _ _ _ _ Hr) as [Hg [(Hfl & _)|(_ & Hz & _)]]; [|rewrite len_app, len_cons in Hz; lia].
    unfold header_of, p1. rewrite !page_fld_other by page_side. apply Z.eqb_neq in Hfl. by rewrite Hfl. }
  pose proof (rep_hdr _ _ _ _ Hd) as [Hgf _].
  autorewrite with setters. cbn [mbind option_bind].
  destruct (rep_updateCRC _ _ _ _ Hd) as (p' & Heq & Hr' & Hm & Hc).
  assert (0 <= size /\ 0 <= g /\ g + (size + 4) < 65536) as (? & ? & ?).
  { pose proof (elt_size_nonneg e). cbn in Htx.
    assert (0 <= g) by (pose proof (rep_hdr _ _ _ _ Hr) as [<- _]; apply fld_range; simpl; lia).
    split_and!; [lia..|]. rewrite <- Hgf.
    apply fld_range; [lia|]. by rewrite (rep_len _ _ _ _ Hd). }
  change getSlotSize with 4. rewrite (u16_id (size + 4)), (u16_id (g + (size + 4))) by lia. rewrite Heq. cbn [mbind option_bind].
  eexists _, _, _. split; [done|]. split_and!; [done| | | |done|].
  - apply Forall_app. split; [done|]. by constructor.
  - rewrite !lives_app, !lives_cons. by rewrite remove_elt_stop.
  - rewrite Hm. unfold meta, p1. by page_fld.
  - by rewrite !len_app, !len_cons.
Qed.

(** ** The split point *)

Lemma splitIndex_bounds ss total left i :
  i <= splitIndex_loop ss total left i <= i + len ss.
Proof.
  revert left i; induction ss as [|s ss IH]; intros left i; cbn [splitIndex_loop].
  - rewrite (@len_nil Slot). lia.
  - rewrite len_cons. pose proof (len_nonneg ss). case_match; [|lia].
    specialize (IH (u16 (left + elementSize s)) (i + 1)). lia.
Qed.

(** The split leaves more than half of the data on the left, unless it leaves
    everything there. *)
Lemma splitIndex_prefix ss total left i :
  Forall (fun s => 0 <= elementSize s) ss -> 0 <= left ->
  left + sum_with elementSize ss < 65536 ->
  let r := splitIndex_loop ss total left i in
  r < i + len ss -> total / 2 < left + sum_with elementSize (take (Z.to_nat (r - i)) ss).
Proof.
  intros Hpos. revert left i. induction Hpos as [|s ss Hs Hpos IH]; intros left i Hl Hsum r Hr; subst r.
  { cbn in Hr. rewrite (@len_nil Slot) in Hr. lia. }
  cbn [splitIndex_loop] in *. rewrite sum_with_cons, len_cons in *.
  assert (0 <= sum_with elementSize ss) by (clear -Hpos; induction Hpos; rewrite ?sum_with_cons; [done|lia]).
  destruct (Z.leb_spec left (total / 2)).
  - rewrite u16_id in * by lia.
    pose proof (splitIndex_bounds ss total (left + elementSize s) (i + 1)) as Hb.
    specialize (IH (left + elementSize s) (i + 1)). cbn zeta in IH.
    set (r := splitIndex_loop ss total (left + elementSize s) (i + 1)) in *.
    replace (Z.to_nat (r - i)) with (S (Z.to_nat (r - (i + 1)))) by lia.
    cbn [take]. rewrite sum_with_cons. lia.
  - replace (Z.to_nat (i - i)) with 0%nat by lia. cbn [take].
    change (sum_with elementSize []) with 0. lia.
Qed.

(** The split is the first point that does so. *)
Lemma splitIndex_minimal ss total left i :
  Forall (fun s => 0 <= elementSize s) ss -> 0 <= left ->
  left + sum_with elementSize ss < 65536 ->
  let r := splitIndex_loop ss total left i in
  i < r -> left + sum_with elementSize (take (Z.to_nat (r - i - 1)) ss) <= total / 2.
Proof.
  intros Hpos. revert left i. induction Hpos as [|s ss Hs Hpos IH]; intros left i Hl Hsum r Hr; subst r.
  { cbn in Hr. lia. }
  cbn [splitIndex_loop] in *. rewrite sum_with_cons in *.
  assert (0 <= sum_with elementSize ss) by (clear -Hpos; induction Hpos; rewrite ?sum_with_cons; [done|lia]).
  destruct (Z.leb_spec left (total / 2)); [|lia]. rewrite u16_id in * by lia.
  pose proof (splitIndex_bounds ss total (left + elementSize s) (i + 1)) as Hb.
  specialize (IH (left + elementSize s) (i + 1)). cbn zeta in IH.
  set (r := splitIndex_loop ss total (left + elementSize s) (i + 1)) in *.
  destruct (decide (r = i + 1)) as [->|Hne].
  - replace (Z.to_nat (i + 1 - i - 1)) with 0%nat by lia. cbn [take]. change (sum_with elementSize []) with 0. lia.
  - replace (Z.to_nat (r - i - 1)) with (S (Z.to_nat (r - (i + 1) - 1))) by lia. cbn [take]. rewrite sum_with_cons.
    specialize (IH ltac:(lia) ltac:(lia) ltac:(lia)). lia.
Qed.

Lemma total_size_sum ss :
  Forall (fun s => 0 <= elementSize s) ss -> sum_with elementSize ss < 65536 ->
  getTotalDataRegionSize ss = sum_with elementSize ss.
Proof.
  intros Hpos. unfold getTotalDataRegionSize.
  assert (forall acc, 0 <= acc -> acc + sum_with elementSize ss < 65536 ->
    foldl (fun size slot => u16 (size + elementSize slot)) acc ss = acc + sum_with elementSize ss) as H.
  { induction Hpos as [|s ss Hs Hpos IH]; intros acc Ha Hsum; cbn [foldl].
    - change (sum_with elementSize []) with 0. lia.
    - rewrite sum_with_cons in *.
      assert (0 <= sum_with elementSize ss) by (clear -Hpos; induction Hpos; rewrite ?sum_with_cons; [done|lia]).
      rewrite u16_id by lia. rewrite IH; lia. }
  intros. rewrite H; lia.
Qed.

(** ** Writing inside one element *)

(** The other elements do not see a write inside the region of one of them. *)
Lemma entries_write_inside p es1 ptr size e es2 fse off bs :
  len p = 4096 -> 0 <= fse -> Forall (entry_ok p fse) es1 -> Forall (entry_ok p fse) es2 ->
  StronglySorted apart (es1 ++ Live ptr size e :: es2) ->
  0 <= ptr -> ptr <= off -> off + len bs <= ptr + size -> ptr + size <= 4096 ->
  Forall (entry_ok (write p off bs) fse) es1 /\ Forall (entry_ok (write p off bs) fse) es2.
Proof.
  intros Hlen Hfse He1 He2 (_ & Ha2 & Hc)%StronglySorted_app_inv ? ? ? ?.
  inversion Ha2 as [|? ? _ Hf]; subst. rewrite list.Forall_forall in Hf.
  assert (forall y, entry_ok p fse y -> apart (Live ptr size e) y -> entry_ok (write p off bs) fse y) as Hy.
  { intros [ptr' size' e'|size'] Hok Hap; [|done]. destruct Hok as (? & ? & ? & ? & ?). cbn in Hap.
    split_and!; try done. apply page_holds_other; try done; unfold elt_size in *; lia. }
  split; apply list.Forall_forall; intros y Hin.
  - apply Hy; [by eapply list.Forall_forall in He1|]. apply apart_sym, Hc; [done|by left].
  - apply Hy; [by eapply list.Forall_forall in He2|by apply Hf].
Qed.

(** Replacing the element of an entry keeps the regions apart. *)
Lemma apart_same_region es1 ptr size (e e' : E) es2 :
  StronglySorted apart (es1 ++ Live ptr size e :: es2) ->
  StronglySorted apart (es1 ++ Live ptr size e' :: es2).
Proof.
  intros (H1 & H2 & Hc)%StronglySorted_app_inv. inversion H2 as [|? ? Hs Hf]; subst.
  apply StronglySorted_app_intro; [done|constructor; [done|exact Hf]|].
  intros x y Hx [->|Hy]%elem_of_cons; [|apply Hc; [done|by right]].
  apply (Hc x (Live ptr size e)); [done|by left].
Qed.

(** ** Node pages

    [node_page p l free g]: the page [p] is well formed, without slack, and
    stores the elements [l] in key order, with [free] bytes of contiguous free
    space and [g] bytes of reclaimable garbage. *)
Definition node_page p (l : list E) (free g : Z) : Prop :=
  exists es fse, page_rep p es fse g /\ Forall tight es /\ lives es = l /\ sorted_elts l /\
    free = free_space es fse.

(** The bytes an element costs: itself and its slot. *)
Definition footprint (l : list E) : Z := sum_with (fun e => elt_size e + 4) l.

Lemma footprint_eq l : footprint l = sum_with elt_size l + 4 * len l.
Proof.
  unfold footprint. induction l as [|e l IH]; [done|]. rewrite !sum_with_cons, IH, len_cons. lia.
Qed.

(** Free space and garbage together are what the elements do not use. *)
Lemma node_page_space p l free g :
  node_page p l free g ->
  len p = 4096 /\ 0 <= free /\ 0 <= g /\ free + g = 4064 - footprint l.
Proof.
  intros (es & fse & Hr & Ht & <- & Hs & ->). rewrite footprint_eq. unfold free_space.
  pose proof Hr as [Hlen [Hg _] Hslots Hroom He Ha Hacc]. pose proof (len_lives es).
  split_and!; [done|lia| |lia]. rewrite <- Hg. apply fld_range; simpl; lia.
Qed.

Lemma node_page_sorted p l free g : node_page p l free g -> sorted_elts l.
Proof. by intros (? & ? & ? & ? & ? & ? & ?). Qed.

Lemma node_page_ok p l free g : node_page p l free g -> Forall elt_ok l.
Proof. intros (es & fse & Hr & ? & <- & ?). eapply entries_elt_ok, Hr. Qed.

Lemma node_page_getAll p l free g :
  node_page p l free g -> exists ss, getAllSlotsAndElements p = Some (ss, l) /\ sizes_match ss l.
Proof.
  intros (es & fse & Hr & Ht & <- & ?). rewrite (getAll_spec _ _ _ _ Hr). eexists.
  split; [done|]. by apply tight_sizes_match.
Qed.

Lemma node_page_PutAll p ss l :
  len p = 4096 -> sizes_match ss l -> Forall elt_ok l -> sorted_elts l -> footprint l <= 4064 ->
  exists p', PutAllSlotsAndElements p ss l = Some p' /\
    node_page p' l (4064 - footprint l) 0 /\ meta p' = meta p.
Proof.
  intros Hlen Hm Hok Hs Hfit. rewrite footprint_eq in *.
  destruct (PutAll_spec p ss l) as (p' & Heq & Hr & Hmeta); [done..|lia|].
  exists p'. split_and!; [done| |done]. eexists _, _.
  split_and!; [done|apply stack_tight|apply lives_stack|done|]. unfold free_space. rewrite len_stack. lia.
Qed.

Lemma node_page_updateCRC p l free g :
  node_page p l free g ->
  exists p', updateCRC p = Some p' /\ node_page p' l free g /\ meta p' = meta p /\ crc_valid p'.
Proof.
  intros (es & fse & Hr & Ht & Hl & Hs & Hfree).
  destruct (rep_updateCRC _ _ _ _ Hr) as (p' & Heq & Hr' & Hm & Hc).
  exists p'. split_and!; try done. by exists es, fse.
Qed.

Lemma node_page_compact p l free g :
  node_page p l free g ->
  exists p', compact p = Some p' /\ node_page p' l (free + g) 0 /\ meta p' = meta p.
Proof.
  intros (es & fse & Hr & Ht & <- & Hs & ->).
  destruct (compact_spec _ _ _ _ Hr Ht) as (p' & fse' & Heq & Hr' & Hm & Hf).
  exists p'. split_and!; [done| |done]. eexists _, _.
  split_and!; [done|apply stack_tight|apply lives_stack|done|].
  unfold free_space. rewrite len_stack. lia.
Qed.

Lemma node_page_hasEnoughSpace p l free g need :
  node_page p l free g -> 0 <= need < 65536 ->
  exists p' free' g',
    hasEnoughSpace p need = Some (p', bool_decide (need <= free \/ need <= g)) /\
    node_page p' l free' g' /\ meta p' = meta p /\
    (free', g') = if decide (need <= free \/ need <= g) then room_after need free g else (free, g).
Proof.
  intros (es & fse & Hr & Ht & Hl & Hs & ->) Hn.
  destruct (hasEnoughSpace_spec _ _ _ _ need Hr Ht Hn) as (p' & es' & fse' & g' & Heq & Hr' & Ht' & Hl' & Hm & Hf).
  exists p', (free_space es' fse'), g'. split_and!; [done| |done..].
  exists es', fse'. split_and!; try done. congruence.
Qed.

(** A page never written to: all zero bytes. *)
Lemma node_page_zero : node_page (replicate 4096 x00) [] 4064 0.
Proof.
  exists [], 4096. split_and!; try done; [|constructor..].
  constructor; try done; [|constructor..].
  split; [by vm_compute|]. right. split_and!; by vm_compute.
Qed.

End insertion.

#[global] Arguments getAllSlotsAndElements : simpl never.
#[global] Arguments PutAllSlotsAndElements : simpl never.
#[global] Arguments linearSearch : simpl never.
#[global] Arguments compact : simpl never.
#[global] Arguments ensureRoom : simpl never.
#[global] Arguments hasEnoughSpace : simpl never.
#[global] Arguments finishInsert : simpl never.
#[global] Arguments appendSlots : simpl never.
