(* ===== verification/PageSplit.v ===== *)
(** * Splitting a node page and logging its elements

    The lemmas both node codecs use to split a page in two, to delete from it,
    and to carry the elements of a page through a log record. *)

From S2P Require Export PageInsert.

Lemma slice_take {A} (l : list A) i : 0 <= i <= len l -> slice l 0 i = Some (take (Z.to_nat i) l).
Proof. intros. rewrite slice_eq by lia. unfold sub. by rewrite Z.sub_0_r. Qed.

Lemma slice_drop {A} (l : list A) i : 0 <= i <= len l -> slice l i (len l) = Some (drop (Z.to_nat i) l).
Proof.
  intros. rewrite slice_eq by lia. unfold sub. rewrite take_ge; [done|].
  rewrite length_drop. unfold len. lia.
Qed.

Section split.
Context {E : Type} `{NL : NodeElementLaws E}.
Implicit Types (p q : list byte) (e : E) (l : list E).

Lemma sizes_match_len ss l : sizes_match ss l -> len ss = len l.
Proof. intros H%list.Forall2_length. unfold len. lia. Qed.

Lemma footprint_app l k : footprint (l ++ k) = footprint l + footprint k.
Proof. apply sum_with_app. Qed.

Lemma footprint_nonneg l : 0 <= footprint l.
Proof. apply sum_with_nonneg. intros e. pose proof (elt_size_nonneg e). lia. Qed.

(** A contiguous part of the elements of a page fits in a page of its own. *)
Lemma node_page_PutAll_part p ss k1 l k2 :
  len p = 4096 -> sizes_match ss l ->
  Forall elt_ok (k1 ++ l ++ k2) -> sorted_elts (k1 ++ l ++ k2) -> footprint (k1 ++ l ++ k2) <= 4064 ->
  exists p', PutAllSlotsAndElements p ss l = Some p' /\
    node_page p' l (4064 - footprint l) 0 /\ meta p' = meta p.
Proof.
  intros Hlen Hm Hok Hs Hfit. rewrite !footprint_app in Hfit.
  pose proof (footprint_nonneg k1). pose proof (footprint_nonneg k2).
  apply Forall_app in Hok as [_ [Hok _]%Forall_app].
  apply StronglySorted_app_inv in Hs as (_ & Hs & _). apply StronglySorted_app_inv in Hs as (Hs & _ & _).
  apply node_page_PutAll; [done..|lia].
Qed.

(** The two halves of a node page, each written to a page. *)
Lemma node_page_halves p q l free g ss i :
  node_page p l free g -> len q = 4096 -> sizes_match ss l -> 0 <= i <= len l ->
  let n := Z.to_nat i in
  (exists p', PutAllSlotsAndElements p (take n ss) (take n l) = Some p' /\
    node_page p' (take n l) (4064 - footprint (take n l)) 0 /\ meta p' = meta p) /\
  (exists q', PutAllSlotsAndElements q (drop n ss) (drop n l) = Some q' /\
    node_page q' (drop n l) (4064 - footprint (drop n l)) 0 /\ meta q' = meta q).
Proof.
  intros Hp Hq Hm Hi n. pose proof (node_page_space _ _ _ _ Hp) as (Hlen & ? & ? & ?).
  pose proof (node_page_ok _ _ _ _ Hp) as Hok. pose proof (node_page_sorted _ _ _ _ Hp) as Hs.
  split.
  - apply (node_page_PutAll_part p _ [] _ (drop n l)); cbn [app]; rewrite ?take_drop; [done| |done..|lia].
    by apply Forall2_take.
  - apply (node_page_PutAll_part q _ (take n l) _ []); rewrite ?app_nil_r, ?take_drop; [done| |done..|lia].
    by apply Forall2_drop.
Qed.

Lemma remove_elt_elem k l a : a ∈ remove_elt k l -> a ∈ l.
Proof.
  induction l as [|c l IH]; cbn; [done|]. case_match; [by right|].
  intros [->|?]%elem_of_cons; [by left|right; auto].
Qed.

Lemma remove_elt_sorted k l : sorted_elts l -> sorted_elts (remove_elt k l).
Proof.
  induction 1 as [|a l Hs IH Hf]; cbn; [constructor|]. case_match; [done|]. constructor; [done|].
  rewrite list.Forall_forall in Hf |- *. intros b Hb. by eapply Hf, remove_elt_elem.
Qed.

(** Deletion on a node page. *)
Lemma node_page_DeleteElement p l free g k :
  node_page p l free g ->
  if decide (k ∈ elt_key <$> l) then
    exists p', DeleteElement p k = Some (p', true) /\
      node_page p' (remove_elt k l) free (4064 - footprint (remove_elt k l) - free) /\
      meta p' = meta p /\ crc_valid p'
  else DeleteElement p k = Some (p, false).
Proof.
  intros Hp. pose proof Hp as (es & fse & Hr & Ht & <- & Hs & ->). case_decide as Hd.
  - apply list_elem_of_fmap in Hd as (a & Hk & Ha).
    destruct (DeleteElement_present _ _ _ _ k Hr Ht Hs ltac:(by exists a)) as (p' & es' & g' & -> & Hr' & Ht' & Hl' & Hm & Hc & Hn).
    exists p'. split_and!; [done| |done..].
    pose proof (remove_elt_sorted k _ Hs) as Hs'.
    assert (node_page p' (remove_elt k (lives es)) (free_space es' fse) g') as Hp'.
    { exists es', fse. split_and!; done. }
    assert (free_space es' fse = free_space es fse) as Hfs by (unfold free_space; lia).
    apply node_page_space in Hp' as Hsp. rewrite Hfs in *.
    by replace (4064 - footprint (remove_elt k (lives es)) - free_space es fse) with g' by lia.
  - apply (DeleteElement_absent _ es fse g); [done..|]. intros a Ha Hk. apply Hd, list_elem_of_fmap. by exists a.
Qed.

(** Writes to the node type, the next-leaf link and the LSN keep the page. *)
Lemma node_page_write_meta p l free g off bs :
  node_page p l free g -> off = 4 /\ len bs = 1 \/ 14 <= off /\ off + len bs <= 32 ->
  node_page (write p off bs) l free g.
Proof.
  intros (es & fse & Hr & Ht & Hl & Hs & ->) Ho. exists es, fse. split_and!; try done.
  destruct Hr as [Hlen [Hg Hh] Hsl Hro He Ha Hacc]. pose proof (len_nonneg es). pose proof (len_nonneg bs).
  constructor; try done.
  - apply page_write_len; [done|lia..].
  - unfold hdr. rewrite !page_fld_other by (simpl; lia || done). done.
  - apply page_holds_other; rewrite ?len_slot_bytes; (done || lia).
  - apply entries_write; (done || lia).
Qed.

(** A page with elements has its "filled" byte set. *)
Lemma node_page_filled p l free g : node_page p l free g -> l <> [] -> fld 1 p 5 <> 0.
Proof.
  intros (es & fse & [_ [_ Hh] _ _ _ _ _] & _ & <- & _) Hne. destruct Hh as [(Hf & _)|(_ & Hz & _)]; [done|].
  destruct es; [done|]. rewrite len_cons in Hz. pose proof (len_nonneg es). lia.
Qed.

(** ** The split point of a node page *)

Lemma sizes_match_sum ss l : sizes_match ss l -> sum_with elementSize ss = sum_with elt_size l.
Proof. induction 1 as [|s e ss l Hse _ IH]; [done|]. rewrite !sum_with_cons. lia. Qed.

Lemma sizes_match_nonneg ss l : sizes_match ss l -> Forall (fun s => 0 <= elementSize s) ss.
Proof.
  induction 1 as [|s e ss l Hse _ IH]; constructor; [|done]. rewrite Hse. apply elt_size_nonneg.
Qed.

(** [FindSplitNodeIndex] cuts after the first prefix that holds more than half
    of the element bytes; it returns the number of elements when only the whole
    page does. *)
Lemma node_page_FindSplitNodeIndex p l free g :
  node_page p l free g ->
  exists i, FindSplitNodeIndex (E := E) p = Some i /\ 0 <= i <= len l /\ (l <> [] -> 0 < i) /\
    (i < len l -> sum_with elt_size l / 2 < sum_with elt_size (take (Z.to_nat i) l)).
Proof.
  intros Hp. destruct (node_page_getAll _ _ _ _ Hp) as (ss & Hga & Hm).
  pose proof (node_page_space _ _ _ _ Hp) as (_ & ? & ? & Hsp). rewrite footprint_eq in Hsp.
  pose proof (sizes_match_nonneg _ _ Hm) as Hpos. pose proof (sizes_match_sum _ _ Hm) as Hsum.
  pose proof (sizes_match_len _ _ Hm) as Hlen. pose proof (len_nonneg l). pose proof (sum_sizes_nonneg l).
  unfold FindSplitNodeIndex. rewrite Hga. cbn [mbind option_bind]. rewrite total_size_sum by (done || lia).
  eexists. split; [done|]. pose proof (splitIndex_bounds ss (sum_with elementSize ss) 0 0).
  split_and!; [lia|lia| |].
  - intros Hne. destruct Hm as [|s e ss l Hse Hm]; [done|]. cbn [splitIndex_loop].
    rewrite (proj2 (Z.leb_le _ _)) by (apply Z.div_pos; lia).
    pose proof (splitIndex_bounds ss (sum_with elementSize (s :: ss)) (u16 (0 + elementSize s)) (0 + 1)). lia.
  - intros Hi. pose proof (splitIndex_prefix ss (sum_with elementSize ss) 0 0 Hpos) as Hpre.
    cbn zeta in Hpre. rewrite Z.sub_0_r in Hpre.
    set (i := splitIndex_loop _ _ _ _) in *.
    rewrite <- (sizes_match_sum (take (Z.to_nat i) ss) (take (Z.to_nat i) l)) by (by apply Forall2_take). rewrite <- Hsum. lia.
Qed.

Lemma node_page_split_minimal p l free g i :
  node_page p l free g -> FindSplitNodeIndex (E := E) p = Some i -> 0 < i ->
  sum_with elt_size (take (Z.to_nat (i - 1)) l) <= sum_with elt_size l / 2.
Proof.
  intros Hp Hfi Hi. destruct (node_page_getAll _ _ _ _ Hp) as (ss & Hga & Hm).
  pose proof (node_page_space _ _ _ _ Hp) as (_ & ? & ? & Hsp). rewrite footprint_eq in Hsp.
  pose proof (sizes_match_nonneg _ _ Hm) as Hpos. pose proof (sizes_match_sum _ _ Hm) as Hsum.
  pose proof (len_nonneg l). pose proof (sum_sizes_nonneg l).
  unfold FindSplitNodeIndex in Hfi. rewrite Hga in Hfi. cbn [mbind option_bind] in Hfi.
  rewrite total_size_sum in Hfi by (done || lia). injection Hfi as <-.
  pose proof (splitIndex_minimal ss (sum_with elementSize ss) 0 0 Hpos) as Hpre.
  cbn zeta in Hpre. rewrite Z.sub_0_r in Hpre. set (i := splitIndex_loop _ _ _ _) in *.
  rewrite <- (sizes_match_sum (take (Z.to_nat (i - 1)) ss) (take (Z.to_nat (i - 1)) l)) by (by apply Forall2_take).
  rewrite <- Hsum. lia.
Qed.

(** ** The elements of a page in a log record *)

Definition elt_record e : list byte := le 2 (u16 (len (elt_encode e))) ++ elt_encode e.

Lemma decodeAll_loop_spec l pre rest :
  Forall elt_ok l ->
  decodeAll_loop (pre ++ concat (elt_record <$> l) ++ rest) (length l) (len pre) =
    Some ((fun e => mkSlot (elt_size e) 0) <$> l, l).
Proof.
  intros Hok. revert pre. induction Hok as [|e l He Hok IH]; intros pre; [done|].
  cbn [fmap list_fmap concat length decodeAll_loop].
  pose proof (elt_size_bound e He) as Hb. unfold elt_size in Hb.
  change (elt_record e) with (le 2 (u16 (len (elt_encode e))) ++ elt_encode e). rewrite <- !app_assoc.
  rewrite readUint_middle by done. cbn [mbind option_bind]. change (256 ^ Z.of_nat 2) with 65536.
  rewrite u16_id, Z.mod_small by lia. rewrite (app_assoc pre).
  rewrite slice_middle by (rewrite len_app, len_le; lia). cbn [mbind option_bind].
  pose proof (elt_decode_encode e [] He) as Hd. rewrite app_nil_r in Hd. rewrite Hd. cbn [mbind option_bind].
  rewrite app_assoc. specialize (IH ((pre ++ le 2 (len (elt_encode e))) ++ elt_encode e)).
  rewrite !len_app, len_le in IH. replace (len pre + 2 + len (elt_encode e))
    with (len pre + Z.of_nat 2 + len (elt_encode e)) by lia.
  rewrite IH. done.
Qed.

(** A split record carries the elements of the page. *)
Lemma node_page_EncodeAll p l free g :
  node_page p l free g ->
  exists data, EncodeAllElements (E := E) p = Some (len l, data) /\
    DecodeAllSlotsAndElements data = Some ((fun e => mkSlot (elt_size e) 0) <$> l, l).
Proof.
  intros Hp. destruct (node_page_getAll _ _ _ _ Hp) as (ss & Hga & Hm).
  pose proof (node_page_space _ _ _ _ Hp) as (_ & ? & ? & Hsp). rewrite footprint_eq in Hsp.
  pose proof (sum_sizes_nonneg l). pose proof (len_nonneg l). pose proof (node_page_ok _ _ _ _ Hp) as Hok.
  unfold EncodeAllElements. rewrite Hga. cbn [mbind option_bind]. eexists. split; [done|].
  unfold DecodeAllSlotsAndElements. rewrite readUint_head. cbn [mbind option_bind].
  change (256 ^ Z.of_nat 2) with 65536. rewrite (u16_id (len l)), Z.mod_small, to_nat_len by lia.
  pose proof (decodeAll_loop_spec l (le 2 (len l)) [] Hok) as Hd. rewrite app_nil_r, len_le in Hd. exact Hd.
Qed.

(** Replaying a split record: the slots it decodes to carry the right sizes. *)
Lemma sizes_match_record l : sizes_match ((fun e => mkSlot (elt_size e) 0) <$> l) l.
Proof. induction l as [|e l IH]; constructor; done. Qed.

End split.
