(* ===== verification/LeafNodeCodec.v ===== *)
(** * The leaf node codec (src/pagecodec/leaf_node_codec.go)

    Key-value elements in a slotted page: their encoding, lookup, insertion,
    in-place and out-of-place update, deletion, and the split of a full
    leaf. *)

From S2P Require Export PageSplit.

Record LeafNodeElement := mkLeaf { Key : list byte; Value : list byte }.

#[export] Instance LeafNodeElement_eq_decision : EqDecision LeafNodeElement.
Proof. solve_decision. Defined.

(** ** Elements *)

(** [b := make([]byte, n); copy(b, src)] *)
Definition makeCopy (n : Z) (src : list byte) : list byte :=
  take (Z.to_nat n) src ++ replicate (Z.to_nat n - length src) x00.

(** Offsets inside the element are [uint16]. *)
Definition decodeElement (elementBytes : list byte) : option LeafNodeElement :=
  let pointer := 0 in
  keyLength ← readUint 2 elementBytes pointer;
  let pointer := u16 (pointer + 2) in
  kb ← slice elementBytes pointer (u16 (pointer + keyLength));
  let key := makeCopy keyLength kb in
  let pointer := u16 (pointer + keyLength) in
  valueLength ← readUint 2 elementBytes pointer;
  let pointer := u16 (pointer + 2) in
  vb ← slice elementBytes pointer (u16 (pointer + valueLength));
  let value := makeCopy valueLength vb in
  Some (mkLeaf key value).

Definition encodeElement (element : LeafNodeElement) : list byte :=
  le 2 (u16 (len (Key element))) ++ Key element ++
  le 2 (u16 (len (Value element))) ++ Value element.

Definition calculateElementSize (element : LeafNodeElement) : Z :=
  u16 (2 + len (Key element) + 2 + len (Value element)).

Definition appendElement (page : list byte) (freeSpaceEnd : Z) (element : LeafNodeElement)
    : option (list byte * Z) :=
  let elementBytes := encodeElement element in
  let writeStart := freeSpaceEnd - len elementBytes in
  let writeEnd := freeSpaceEnd in
  v ← slice_view page writeStart writeEnd;
  page ← copyInto page v 0 elementBytes;
  Some (page, u16 (freeSpaceEnd - u16 (len elementBytes))).

#[export] Instance LeafNodeElement_NodeElement : NodeElement LeafNodeElement := {
  elt_encode := encodeElement;
  elt_decode := decodeElement;
  elt_key := Key;
  elt_append := appendElement
}.

(** Sets the value field of the element behind a slice of the page. *)
Definition setValueInElement (page : list byte) (elementBytes : view) (value : list byte)
    : option (list byte) :=
  let pointer := 0 in
  keySize ← readUint 2 (view_bytes page elementBytes) pointer;
  let pointer := pointer + 2 + keySize in
  page ← putUint 2 page elementBytes pointer (u16 (len value));
  let pointer := pointer + 2 in
  copyInto page elementBytes pointer value.

(** ** Page operations *)

Definition leafGetAllSlotsAndElements (page : list byte) : option (list Slot * list LeafNodeElement) :=
  getAllSlotsAndElements page.

Definition leafPutAllSlotsAndElements (page : list byte) (slots : list Slot)
    (elements : list LeafNodeElement) : option (list byte) :=
  PutAllSlotsAndElements page slots elements.

(** Unlike the previous function, after what the page holds. *)
Definition appendAllSlotsAndElements (page : list byte) (slots : list Slot)
    (elements : list LeafNodeElement) : option (list byte) :=
  headerBytes ← slice page 0 getHeaderSize;
  header ← decodePageHeader headerBytes;
  '(page, fsb, fse) ← putAll_loop page (freeSpaceBegin header) (freeSpaceEnd header) slots elements;
  hb ← headerView page;
  page ← setNumSlots page hb (numSlots header + len slots);
  page ← setFreeSpaceBegin page hb fsb;
  page ← setFreeSpaceEnd page hb fse;
  page ← setGarbageSize page hb 0;
  SetIsPageFilled page hb true.

Definition leafCompact (page : list byte) : option (list byte) := compact (E := LeafNodeElement) page.

Definition leafLinearSearch (page key : list byte) : option (view * view * Z) :=
  linearSearch (E := LeafNodeElement) page key.

Definition leafDeleteElement (page key : list byte) : option (list byte * bool) :=
  DeleteElement (E := LeafNodeElement) page key.

Definition leafFindSplitNodeIndex (leftNode : list byte) : option Z :=
  FindSplitNodeIndex (E := LeafNodeElement) leftNode.

Definition SetNextLeafNodePageId (page : list byte) (x : Z) : option (list byte) :=
  hb ← headerView page; setNextLeafNodePageId page hb x.

Definition GetNextLeafNodePageId (page : list byte) : option Z :=
  headerBytes ← slice page 0 getHeaderSize; getNextLeafNodePageId headerBytes.

Definition leafSetNodeType (page : list byte) : option (list byte) :=
  hb ← headerView page; SetNodeType page hb true.

Definition GetNumSlots (page : list byte) : option Z :=
  headerBytes ← slice page 0 getHeaderSize;
  header ← decodePageHeader headerBytes;
  Some (numSlots header).

Fixpoint findValue_loop (elements : list LeafNodeElement) (key : list byte) : option (list byte) :=
  match elements with
  | [] => None
  | element :: elements =>
      if bytesCompare (Key element) key =? 0 then Some (Value element)
      else findValue_loop elements key
  end.

(** [Some None] is the result [(nil, false)]. *)
Definition FindValue (page key : list byte) : option (option (list byte)) :=
  '(_, elements) ← leafGetAllSlotsAndElements page;
  Some (findValue_loop elements key).

Definition GetValueCorrespondingToSlot (page : list byte) (i : Z) : option (list byte) :=
  '(_, elements) ← leafGetAllSlotsAndElements page;
  e ← index elements i;
  Some (Value e).

Definition IsSlotDeleted (page : list byte) (i : Z) : option bool :=
  '(slots, _) ← leafGetAllSlotsAndElements page;
  s ← index slots i;
  Some (isElementDeleted s).

(** Returns the page too: it may have been compacted. *)
Definition HasEnoughSpaceToInsertElement (page key value : list byte) : option (list byte * bool) :=
  let totalSpaceRequired := 2 + len key + 2 + len value in
  hasEnoughSpace (E := LeafNodeElement) page totalSpaceRequired.

Definition HasEnoughSpaceToUpdateValue (page key oldValue newValue : list byte)
    : option (list byte * bool) :=
  if len newValue <=? len oldValue then Some (page, true)
  else HasEnoughSpaceToInsertElement page key newValue.

Definition SetValue (page key value : list byte) : option (list byte) :=
  '(slotBytes, elementBytes, _) ← leafLinearSearch page key;
  oldElement ← decodeElement (view_bytes page elementBytes);
  hb ← headerView page;
  header ← decodePageHeader (view_bytes page hb);
  if len value <=? len (Value oldElement) then
    page ← setValueInElement page elementBytes value;
    page ← setGarbageSize page hb
             (u16 (garbageSize header + u16 (len (Value oldElement) - len value)));
    updateCRC page
  else
    let newElement := mkLeaf key value in
    '(page, fse) ← appendElement page (freeSpaceEnd header) newElement;
    page ← setFreeSpaceEnd page hb fse;
    page ← setElementPointer page slotBytes fse;
    page ← setElementSize page slotBytes (calculateElementSize newElement);
    page ← setGarbageSize page hb (u16 (garbageSize header + calculateElementSize oldElement));
    updateCRC page.

Definition InsertSlot (page : list byte) (newSlot : Slot) (key : list byte)
    : option (list byte * Z) :=
  headerBytes ← slice page 0 getHeaderSize;
  header ← decodePageHeader headerBytes;
  greater ← insertSlot_loop (E := LeafNodeElement) page key (Z.to_nat (numSlots header))
              getHeaderSize false;
  let greaterSlots := newSlot :: greater in
  let numSlotsGreater := len greaterSlots - 1 in
  let fsb := u16 (freeSpaceBegin header - u16 (numSlotsGreater * getSlotSize)) in
  appendSlots page fsb greaterSlots.

Definition InsertElement (page key value : list byte) : option (list byte * bool) :=
  let elementSpaceRequired := 2 + len key + 2 + len value in
  let slotSpaceRequired := getSlotSize in
  room ← ensureRoom (E := LeafNodeElement) page (elementSpaceRequired + slotSpaceRequired);
  match room with
  | None =>
      page ← updateCRC page;
      Some (page, false)
  | Some (page, header) =>
      let newElement := mkLeaf key value in
      '(page, fse) ← appendElement page (freeSpaceEnd header) newElement;
      let newSlot := mkSlot (calculateElementSize newElement) fse in
      '(page, fsb) ← InsertSlot page newSlot key;
      page ← finishInsert page header fse fsb;
      Some (page, true)
  end.

(** The deferred checksum updates run after the links are set: the right node's
    first, then the left node's. *)
Definition SplitNode (leftNode rightNode : list byte) (rightNodePageId splitIndex : Z)
    : option (list byte * list byte * list byte) :=
  leftNodeHeaderBytes ← slice leftNode 0 getHeaderSize;
  leftNodeHeader ← decodePageHeader leftNodeHeaderBytes;
  leftHb ← headerView leftNode;
  rightHb ← headerView rightNode;
  '(slots, elements) ← leafGetAllSlotsAndElements leftNode;
  leftSlots ← slice slots 0 splitIndex;
  leftElements ← slice elements 0 splitIndex;
  rightSlots ← slice slots splitIndex (len slots);
  rightElements ← slice elements splitIndex (len elements);
  extra ← index elements splitIndex;
  leftNode ← leafPutAllSlotsAndElements leftNode leftSlots leftElements;
  rightNode ← leafPutAllSlotsAndElements rightNode rightSlots rightElements;
  rightNode ← setNextLeafNodePageId rightNode rightHb (nextLeafNodePageId leftNodeHeader);
  leftNode ← setNextLeafNodePageId leftNode leftHb rightNodePageId;
  rightNode ← updateCRC rightNode;
  leftNode ← updateCRC leftNode;
  Some (leftNode, rightNode, Key extra).

(** ** Elements round trip *)

Definition leaf_size (e : LeafNodeElement) : Z := 4 + len (Key e) + len (Value e).

Definition leaf_ok (e : LeafNodeElement) : Prop := leaf_size e < 65535.

Lemma makeCopy_id n src : len src = n -> makeCopy n src = src.
Proof.
  intros <-. unfold makeCopy, len. rewrite Nat2Z.id, Nat.sub_diag. cbn. by rewrite app_nil_r, take_ge.
Qed.

Lemma len_encodeElement e : len (encodeElement e) = leaf_size e.
Proof. unfold encodeElement, leaf_size. rewrite !len_app, !len_le. lia. Qed.

#[export] Hint Rewrite len_encodeElement : len.

Lemma decodeElement_encode e rest : leaf_ok e -> decodeElement (encodeElement e ++ rest) = Some e.
Proof.
  destruct e as [k v]. unfold leaf_ok, leaf_size, encodeElement; cbn [Key Value]. intros Hok.
  pose proof (len_nonneg k). pose proof (len_nonneg v).
  rewrite <- !app_assoc. unfold decodeElement.
  rewrite readUint_head. cbn [mbind option_bind]. change (256 ^ Z.of_nat 2) with 65536.
  change (u16 (0 + 2)) with 2. rewrite (u16_id (len k)), (Z.mod_small (len k)) by lia.
  rewrite (u16_id (2 + len k)) by lia.
  rewrite (slice_middle (le 2 (len k)) k) by done. cbn [mbind option_bind].
  rewrite makeCopy_id by done. rewrite (app_assoc (le 2 (len k)) k).
  rewrite readUint_middle by (by rewrite len_app, len_le). cbn [mbind option_bind].
  change (256 ^ Z.of_nat 2) with 65536.
  rewrite (u16_id (len v)), (Z.mod_small (len v)) by lia.
  rewrite (u16_id (2 + len k + 2)), (u16_id (2 + len k + 2 + len v)) by lia.
  rewrite (app_assoc (le 2 (len k) ++ k)).
  rewrite slice_middle by (rewrite ?len_app, ?len_le; lia). cbn [mbind option_bind].
  by rewrite makeCopy_id.
Qed.

Lemma appendElement_eq page fse e :
  leaf_size e <= fse -> fse <= len page -> fse < 65536 ->
  appendElement page fse e = Some (write page (fse - leaf_size e) (encodeElement e), fse - leaf_size e).
Proof.
  intros H1 H2 H3. unfold appendElement. rewrite len_encodeElement.
  assert (0 <= leaf_size e) by (unfold leaf_size; solve_len).
  rewrite slice_view_eq by lia. cbn [mbind option_bind]. unfold copyInto; cbn [v_off v_len]. go_assert.
  cbn [mbind option_bind]. rewrite !u16_id by (rewrite ?u16_id; lia). rewrite Z.add_0_r, take_ge; [done|].
  pose proof (len_encodeElement e). unfold len in *. lia.
Qed.

#[export] Program Instance LeafNodeElement_laws : NodeElementLaws LeafNodeElement := {
  elt_ok := leaf_ok
}.
Next Obligation.
  intros e Hok. unfold elt_size; cbn. rewrite len_encodeElement. unfold leaf_ok, leaf_size in *. solve_len.
Qed.
Next Obligation. intros. by apply decodeElement_encode. Qed.
Next Obligation.
  intros page fse e. unfold elt_size; cbn. rewrite len_encodeElement. intros. by apply appendElement_eq.
Qed.

Lemma elt_size_leaf (e : LeafNodeElement) : elt_size e = leaf_size e.
Proof. apply len_encodeElement. Qed.

Lemma calculateElementSize_eq e : leaf_ok e -> calculateElementSize e = leaf_size e.
Proof.
  unfold leaf_ok, calculateElementSize, leaf_size. intros. rewrite u16_id by solve_len. lia.
Qed.

(** ** Insertion *)

Lemma InsertSlot_spec p es fse k s :
  len p = 4096 -> 0 <= fse -> Forall (entry_ok p fse) es -> holds p 32 (slot_bytes es) ->
  sorted_elts (lives es) -> numSlots (header_of p) = len es ->
  freeSpaceBegin (header_of p) = 32 + 4 * len es -> 32 + 4 * len es + 4 <= 4096 ->
  InsertSlot p s k =
    Some (write p (32 + 4 * len (before k es)) (encodeSlot s ++ slot_bytes (after k es)), 32 + 4 * (len es + 1)).
Proof.
  intros Hlen Hfse He Hh Hs Hn Hb Hfit. unfold InsertSlot. change getHeaderSize with 32.
  rewrite slice_header by lia. cbn [mbind option_bind].
  rewrite decodePageHeader_eq by (rewrite len_sub; lia). rewrite header_of_sub by lia.
  cbn [mbind option_bind]. rewrite Hn, Hb, to_nat_len.
  rewrite (insertSlot_loop_spec p fse k es 32) by done. cbn [mbind option_bind].
  change getSlotSize with 4. rewrite len_cons, len_fmap.
  assert (len (before k es) + len (after k es) = len es) as Hba by (by rewrite <- len_app, before_after).
  pose proof (len_nonneg (before k es)). pose proof (len_nonneg (after k es)).
  rewrite (u16_id ((1 + len (after k es) - 1) * 4)) by lia.
  rewrite (u16_id (_ - _)) by lia.
  rewrite appendSlots_spec by (rewrite ?len_cons, ?len_fmap; lia).
  cbn [fmap list_fmap concat]. rewrite slots_concat, len_cons, len_fmap. do 2 f_equal; [f_equal; lia|lia].
Qed.

(** Storing the new element in a page with room for it. *)
Lemma leaf_store p es fse g e :
  page_rep p es fse g -> Forall tight es -> sorted_elts (lives es) -> leaf_ok e ->
  leaf_size e + 4 <= free_space es fse ->
  exists p1 p2 p3 es',
    appendElement p (freeSpaceEnd (header_of p)) e = Some (p1, fse - leaf_size e) /\
    InsertSlot p1 (mkSlot (calculateElementSize e) (fse - leaf_size e)) (Key e) =
      Some (p2, 32 + 4 * len es') /\
    finishInsert p2 (header_of p) (fse - leaf_size e) (32 + 4 * len es') = Some p3 /\
    page_rep p3 es' (fse - leaf_size e) g /\ Forall tight es' /\
    lives es' = insert_elt e (lives es) /\ meta p3 = meta p /\ crc_valid p3 /\
    free_space es' (fse - leaf_size e) = free_space es fse - (leaf_size e + 4).
Proof.
  intros Hr Ht Hs Hok Hfit. unfold free_space in *.
  pose proof Hr as [Hlen Hhdr Hslots Hroom He Ha Hacc].
  destruct (hdr_header _ _ _ _ Hhdr) as (Hn & Hb & Hfe & _). pose proof (len_nonneg es).
  assert (0 < leaf_size e) by (unfold leaf_size; solve_len).
  set (k := Key e). set (x := Live (fse - leaf_size e) (leaf_size e) e).
  assert (len (before k es) + len (after k es) = len es) as Hba by (by rewrite <- len_app, before_after).
  set (es' := before k es ++ x :: after k es).
  assert (len es' = len es + 1) as Hes' by (unfold es'; rewrite len_app, len_cons; lia).
  set (p1 := write p (fse - leaf_size e) (encodeElement e)).
  destruct (append_keeps p es fse g e Hr) as (Hl1 & He1 & Hs1 & _ & Hh1); [rewrite elt_size_leaf; lia|].
  rewrite elt_size_leaf in Hl1, He1, Hs1, Hh1. change (elt_encode e) with (encodeElement e) in *. fold p1 in Hl1, He1, Hs1, Hh1.
  pose proof (body_insert p (before k es) (after k es) fse g e) as Hbody.
  rewrite before_after, elt_size_leaf in Hbody. specialize (Hbody Hr Hok ltac:(lia)).
  fold x in Hbody. cbn zeta in Hbody. fold es' in Hbody. change (elt_encode e) with (encodeElement e) in Hbody. fold p1 in Hbody.
  change (slot_bytes (x :: after k es)) with (encodeSlot (slot_of x) ++ slot_bytes (after k es)) in Hbody.
  assert (InsertSlot p1 (mkSlot (calculateElementSize e) (fse - leaf_size e)) k =
    Some (write p1 (32 + 4 * len (before k es)) (encodeSlot (slot_of x) ++ slot_bytes (after k es)),
          32 + 4 * (len es + 1))) as His.
  { rewrite calculateElementSize_eq by done. apply (InsertSlot_spec p1 es fse); try done; try lia.
    - by rewrite Hh1.
    - by rewrite Hh1. }
  destruct (finishInsert_spec _ _ _ g (header_of p) Hbody) as (p3 & Hf & Hr3 & Hm3 & Hc3).
  - rewrite Hes'. lia.
  - destruct Hhdr as [<- _]. unfold p1.
    by page_fld.
  - unfold es', x. rewrite lives_insert, insert_elt_sum by done. rewrite elt_size_leaf, dead_count_app, dead_count_cons.
    pose proof (dead_count_app (before k es) (after k es)) as Hd. rewrite before_after in Hd.
    lia.
  - rewrite Hn. lia.
  - exists p1, (write p1 (32 + 4 * len (before k es)) (encodeSlot (slot_of x) ++ slot_bytes (after k es))), p3, es'.
    split_and!; try done.
    + rewrite Hfe. apply appendElement_eq; lia.
    + rewrite Hes'. exact His.
    + unfold es'. rewrite <- (before_after k es) in Ht. apply Forall_app in Ht as [? ?].
      apply Forall_app. split; [done|]. constructor; [|done]. cbn. by rewrite elt_size_leaf.
    + by apply lives_insert.
    + rewrite Hm3. unfold meta, p1.
      by page_fld.
    + lia.
Qed.

(** The bytes a key-value pair needs in a page: its encoding and a slot. *)
Definition leaf_need (k v : list byte) : Z := leaf_size (mkLeaf k v) + 4.

(** [InsertElement] on a well-formed page: accepted exactly when the pair fits
    in the free space, or in the garbage. *)
Lemma InsertElement_node p l free g k v :
  node_page p l free g -> leaf_need k v < 65536 ->
  if decide (leaf_need k v <= free \/ leaf_need k v <= g) then
    exists p', InsertElement p k v = Some (p', true) /\
      node_page p' (insert_elt (mkLeaf k v) l)
        ((room_after (leaf_need k v) free g).1 - leaf_need k v) (room_after (leaf_need k v) free g).2 /\
      meta p' = meta p /\ crc_valid p'
  else
    exists p', InsertElement p k v = Some (p', false) /\ node_page p' l free g /\
      meta p' = meta p /\ crc_valid p'.
Proof.
  intros Hp Hsm. pose proof Hp as (es & fse & Hr & Ht & Hl & Hs & ->). unfold leaf_need in *.
  set (e := mkLeaf k v) in *. assert (0 <= leaf_size e) by (unfold leaf_size; solve_len).
  pose proof (ensureRoom_spec p es fse g (leaf_size e + 4) Hr Ht ltac:(lia)) as Hroom.
  unfold InsertElement. change getSlotSize with 4.
  replace (2 + len k + 2 + len v + 4) with (leaf_size e + 4) by (unfold leaf_size, e; cbn; lia).
  case_decide as Hd.
  - destruct Hroom as (p0 & es0 & fse0 & g0 & -> & Hr0 & Ht0 & Hl0 & Hm0 & Hf0). cbn [mbind option_bind].
    assert (leaf_size e + 4 <= free_space es0 fse0) as Hfit.
    { apply node_page_space in Hp as (_ & ? & ? & _). unfold room_after in Hf0.
      destruct (Z.leb_spec (leaf_size e + 4) (free_space es fse)); injection Hf0; lia. }
    rewrite <- Hf0. cbn [fst snd]. rewrite <- Hl, <- Hl0 in *.
    destruct (leaf_store p0 es0 fse0 g0 e) as (p1 & p2 & p3 & es' & Ha & Hi & Hfin & Hr3 & Ht3 & Hl3 & Hm3 & Hc3 & Hfs);
      [done|done|done|unfold leaf_ok; lia|done|].
    fold e. rewrite Ha. cbn [mbind option_bind]. change k with (Key e). rewrite Hi. cbn [mbind option_bind].
    rewrite Hfin. cbn [mbind option_bind]. exists p3. split_and!; [done| |congruence|done].
    exists es', (fse0 - leaf_size e). split_and!; [done|done|by rewrite Hl3| |by rewrite Hfs].
    by apply insert_elt_sorted.
  - rewrite Hroom. cbn [mbind option_bind].
    destruct (node_page_updateCRC _ _ _ _ Hp) as (p' & -> & Hp' & Hm & Hc). cbn [mbind option_bind].
    by exists p'.
Qed.

(** ** Lookup *)

Lemma FindValue_node p l free g k :
  node_page p l free g -> FindValue p k = Some (findValue_loop l k).
Proof.
  intros Hp. destruct (node_page_getAll _ _ _ _ Hp) as (ss & Heq & _).
  unfold FindValue, leafGetAllSlotsAndElements. by rewrite Heq.
Qed.

Lemma findValue_None l k : findValue_loop l k = None <-> (forall a, a ∈ l -> Key a <> k).
Proof.
  induction l as [|e l IH]; cbn.
  - split; [|done]. intros _ a []%elem_of_nil.
  - destruct (Z.eqb_spec (bytesCompare (Key e) k) 0) as [Hc%bytesCompare_eq|Hc].
    + split; [done|]. intros H. exfalso. apply (H e); [by left|done].
    + rewrite IH. split; intros H a.
      * intros [->|Ha]%elem_of_cons; [|by apply H]. by rewrite <- bytesCompare_eq.
      * intros Ha. apply H. by right.
Qed.

(** Looking a key up after an insertion: the pair itself when the key was
    absent, the earlier value when it was there, the same as before for every
    other key. *)
Lemma findValue_insert l k v k' :
  sorted_elts l ->
  findValue_loop (insert_elt (mkLeaf k v) l) k' =
    if decide (k' = k) then match findValue_loop l k with Some w => Some w | None => Some v end
    else findValue_loop l k'.
Proof.
  induction l as [|e l IH]; intros Hs; cbn [insert_elt findValue_loop elt_key LeafNodeElement_NodeElement Key Value].
  { case_decide as Hk; [subst; by rewrite bytesCompare_refl|].
    destruct (Z.eqb_spec (bytesCompare k k') 0) as [?%bytesCompare_eq|]; [done|done]. }
  inversion Hs as [|? ? Hs' Hf]; subst. specialize (IH Hs').
  destruct (Z.eqb_spec (bytesCompare (Key e) k) 1) as [Hg|Hg]; cbn [findValue_loop Key Value].
  - destruct (Z.eqb_spec (bytesCompare k k') 0) as [Hkk%bytesCompare_eq|Hkk].
    + subst k'. rewrite decide_True by done. rewrite Hg. cbn.
      rewrite (proj2 (findValue_None l k)); [done|]. intros a Ha Hka. subst k.
      rewrite list.Forall_forall in Hf. apply Hf in Ha. unfold elt_le in Ha. cbn in Ha. done.
    + rewrite decide_False; [done|]. intros ->. by rewrite bytesCompare_refl in Hkk.
  - destruct (Z.eqb_spec (bytesCompare (Key e) k') 0) as [Hek%bytesCompare_eq|Hek].
    + case_decide as Hk; [|done]. subst k k'. by rewrite bytesCompare_refl.
    + rewrite IH. case_decide as Hk; [|done]. subst k'.
      destruct (Z.eqb_spec (bytesCompare (Key e) k) 0); [done|done].
Qed.

(** ** Update *)

(** The reference definition of an update: the first element with the key. *)
Fixpoint update_value (k v : list byte) (l : list LeafNodeElement) : list LeafNodeElement :=
  match l with
  | [] => []
  | a :: l => if bytesCompare (Key a) k =? 0 then mkLeaf k v :: l else a :: update_value k v l
  end.

Lemma update_value_stop k v l1 e l2 :
  (forall a, a ∈ l1 -> key_lt (Key a) k) -> Key e = k ->
  update_value k v (l1 ++ e :: l2) = l1 ++ mkLeaf k v :: l2.
Proof.
  intros Hlt <-. induction l1 as [|a l1 IH]; cbn.
  - by rewrite bytesCompare_refl.
  - assert (key_lt (Key a) (Key e)) as Ha by (apply Hlt; by left).
    unfold key_lt in Ha. rewrite Ha. cbn. rewrite IH; [done|]. intros b ?. apply Hlt. by right.
Qed.

Lemma findValue_stop k l1 e l2 :
  (forall a, a ∈ l1 -> key_lt (Key a) k) -> Key e = k -> findValue_loop (l1 ++ e :: l2) k = Some (Value e).
Proof.
  intros Hlt <-. induction l1 as [|a l1 IH]; cbn.
  - by rewrite bytesCompare_refl.
  - assert (key_lt (Key a) (Key e)) as Ha by (apply Hlt; by left).
    unfold key_lt in Ha. rewrite Ha. cbn. apply IH. intros b ?. apply Hlt. by right.
Qed.

Lemma findValue_update k v l k' :
  findValue_loop (update_value k v l) k' =
    if decide (k' = k) then (fun _ => v) <$> findValue_loop l k else findValue_loop l k'.
Proof.
  induction l as [|e l IH]; cbn [update_value findValue_loop]; [by case_decide|].
  destruct (Z.eqb_spec (bytesCompare (Key e) k) 0) as [Hek%bytesCompare_eq|Hek]; cbn [findValue_loop Key Value].
  - subst k. case_decide as Hk; [subst; by rewrite bytesCompare_refl|].
    destruct (Z.eqb_spec (bytesCompare (Key e) k') 0) as [?%bytesCompare_eq|]; done.
  - rewrite IH. case_decide as Hk; [|done]. subst k'.
    by destruct (Z.eqb_spec (bytesCompare (Key e) k) 0).
Qed.

Lemma update_value_keys k v l : Key <$> update_value k v l = Key <$> l.
Proof.
  induction l as [|e l IH]; [done|]. cbn.
  destruct (Z.eqb_spec (bytesCompare (Key e) k) 0) as [->%bytesCompare_eq|]; cbn; [done|by rewrite <- IH].
Qed.

(** Where [SetValue] works when the key is in the page. *)
Lemma search_present p es fse g k :
  page_rep p es fse g -> sorted_elts (lives es) -> (exists a, a ∈ lives es /\ Key a = k) ->
  exists es1 ptr size e es2, es = es1 ++ Live ptr size e :: es2 /\ Key e = k /\
    (forall a, a ∈ lives es1 -> key_lt (Key a) k) /\
    leafLinearSearch p k = Some (View (32 + 4 * len es1) 4, View ptr size, 0).
Proof.
  intros Hr Hs Hex. destruct (linearSearch_spec _ _ _ _ k Hr) as ([[sv ev] f] & Hls & Hsr).
  pose proof (proj2 (search_found _ _ _ Hs Hsr) Hex) as Hf. cbn in Hf. subst f.
  inversion Hsr as [es1 ptr size e es2 Hes Hlt Hle Hv|]; subst sv ev es.
  exists es1, ptr, size, e, es2. split_and!; [done|by apply bytesCompare_eq|exact Hlt|]. unfold leafLinearSearch. congruence.
Qed.

Lemma view_bytes_element p fse ptr size (e : LeafNodeElement) :
  0 <= fse -> len p = 4096 -> entry_ok p fse (Live ptr size e) ->
  exists rest, view_bytes p (View ptr size) = encodeElement e ++ rest.
Proof.
  intros ? ? (? & ? & Hsz & Hh & Hok). rewrite elt_size_leaf in Hsz.
  destruct (holds_slice_prefix p ptr (encodeElement e) size) as (rest & Hs & _);
    [done|by rewrite len_encodeElement|lia|].
  pose proof Hh as (? & ? & _). exists rest. rewrite slice_eq in Hs by (unfold leaf_size in *; solve_len).
  unfold view_bytes; cbn. replace (ptr + size - ptr) with size in Hs by lia. congruence.
Qed.

(** The two writes of [setValueInElement]. *)
Definition write_value (p : list byte) (ptr : Z) (k v : list byte) : list byte :=
  write (write p (ptr + (2 + len k)) (le 2 (len v))) (ptr + (2 + len k + 2)) v.

Lemma setValueInElement_eq p fse ptr size e v :
  0 <= fse -> len p = 4096 -> entry_ok p fse (Live ptr size e) -> len v <= len (Value e) ->
  setValueInElement p (View ptr size) v = Some (write_value p ptr (Key e) v).
Proof.
  intros Hf Hlen Hx Hv. destruct (view_bytes_element _ _ _ _ _ Hf Hlen Hx) as (rest & Hvb).
  destruct Hx as (? & ? & Hsz & Hh & Hok). rewrite elt_size_leaf in Hsz.
  cbn in Hok. unfold leaf_ok, leaf_size in *. pose proof (len_nonneg (Key e)). pose proof (len_nonneg v).
  unfold setValueInElement. rewrite Hvb. unfold encodeElement. rewrite <- !app_assoc.
  rewrite readUint_head. cbn [mbind option_bind]. change (256 ^ Z.of_nat 2) with 65536.
  rewrite (u16_id (len (Key e))), (Z.mod_small (len (Key e))), (u16_id (len v)) by lia.
  rewrite Z.add_0_l, putUint_eq by (cbn [v_len]; lia). cbn [mbind option_bind v_off v_len].
  unfold copyInto; cbn [v_off v_len]. go_assert. unfold write_value. f_equal.
  rewrite take_ge by (unfold len in *; lia). done.
Qed.

Lemma write_value_holds p ptr k w v :
  len p = 4096 -> holds p ptr (encodeElement (mkLeaf k w)) -> leaf_ok (mkLeaf k w) -> len v <= len w ->
  holds (write_value p ptr k v) ptr (encodeElement (mkLeaf k v)).
Proof.
  intros Hlen Hh Hok Hv. unfold leaf_ok, leaf_size, encodeElement, write_value in *. cbn [Key Value] in *.
  pose proof Hh as (? & Hb & _). rewrite !len_app, !len_le in Hb.
  pose proof (len_nonneg k). pose proof (len_nonneg v).
  rewrite !holds_app in *. rewrite !len_le in *. destruct Hh as (Hk1 & Hk2 & Hv1 & Hv2).
  rewrite !(u16_id (len k)) in * by lia. rewrite (u16_id (len v)) by lia. split_and!.
  - do 2 (apply page_holds_other; [|page_side..]). done.
  - do 2 (apply page_holds_other; [|page_side..]). done.
  - apply page_holds_other; [|page_side..].
    replace (ptr + Z.of_nat 2 + len k) with (ptr + (2 + len k)) by lia. apply page_holds_same; page_side.
  - replace (ptr + Z.of_nat 2 + len k + Z.of_nat 2) with (ptr + (2 + len k + 2)) by lia.
    apply page_holds_same; page_side.
Qed.

Lemma findValue_Some l k w : findValue_loop l k = Some w -> exists a, a ∈ l /\ Key a = k.
Proof.
  induction l as [|e l IH]; cbn; [done|].
  destruct (Z.eqb_spec (bytesCompare (Key e) k) 0) as [Hk%bytesCompare_eq|].
  - intros _. exists e. split; [by left|done].
  - intros (a & ? & ?)%IH. exists a. split; [by right|done].
Qed.

(** Bounds every entry of a well-formed page gives. *)
Lemma rep_bounds p es1 ptr size (e : LeafNodeElement) es2 fse g :
  page_rep p (es1 ++ Live ptr size e :: es2) fse g ->
  entry_ok p fse (Live ptr size e) /\ 36 <= fse /\ 0 <= g /\ g + leaf_size e <= 8192 /\
  fld 1 p 5 <> 0 /\ garbageSize (header_of p) = g /\ freeSpaceEnd (header_of p) = fse.
Proof.
  intros Hr. pose proof Hr as [Hlen [Hg Hhdr] Hslots Hroom He Ha Hacc].
  apply Forall_app in He as [_ He]. inversion He as [|? ? Hx _]; subst.
  destruct (hdr_header _ _ _ _ (rep_hdr _ _ _ _ Hr)) as (_ & _ & Hfe & Hgs).
  rewrite len_app, len_cons in *. pose proof (len_nonneg es1). pose proof (len_nonneg es2).
  assert (0 <= fld 2 p 12) by (apply fld_range; simpl; lia).
  rewrite lives_app, lives_cons, sum_with_app, sum_with_cons, dead_count_app, dead_count_cons in Hacc.
  pose proof (sum_sizes_nonneg (lives es1)). pose proof (sum_sizes_nonneg (lives es2)).
  pose proof (len_lives es1). pose proof (len_lives es2).
  pose proof (len_nonneg (lives es1)). pose proof (len_nonneg (lives es2)).
  rewrite elt_size_leaf in Hacc.
  split_and!; try done; try lia.
Qed.

(** The page after an in-place update, before its checksum. *)
Lemma rep_update_inplace p es1 ptr size e es2 fse g v :
  page_rep p (es1 ++ Live ptr size e :: es2) fse g -> len v <= len (Value e) ->
  page_rep (write (write_value p ptr (Key e) v) 12 (le 2 (g + (len (Value e) - len v))))
    (es1 ++ Live ptr size (mkLeaf (Key e) v) :: es2) fse (g + (len (Value e) - len v)).
Proof.
  intros Hr Hv. destruct (rep_bounds _ _ _ _ _ _ _ _ Hr) as (Hx & ? & ? & ? & ? & _).
  pose proof Hr as [Hlen [Hg Hhdr] Hslots Hroom He Ha Hacc]. destruct e as [k w]; cbn [Key Value] in *.
  pose proof Hx as (? & ? & Hsz & Hh & Hok). rewrite elt_size_leaf in Hsz.
  change (leaf_ok (mkLeaf k w)) in Hok. unfold leaf_ok, leaf_size in *; cbn [Key Value] in *.
  pose proof (len_nonneg k). pose proof (len_nonneg v).
  pose proof (write_value_holds p ptr k w v Hlen Hh Hok Hv) as Hwh.
  apply Forall_app in He as [He1 He2]. inversion He2 as [|? ? _ He2']; subst.
  assert (len (write p (ptr + (2 + len k)) (le 2 (len v))) = 4096) as Hl1 by page_len.
  destruct (entries_write_inside p es1 ptr size (mkLeaf k w) es2 fse (ptr + (2 + len k)) (le 2 (len v)))
    as [Hi1 Hi2]; [done|lia|done|done|done|lia|lia|page_side|lia|].
  destruct (entries_write_inside _ es1 ptr size (mkLeaf k w) es2 fse (ptr + (2 + len k + 2)) v Hl1)
    as [Hj1 Hj2]; [lia|done|done|done|lia|lia|lia|lia|]. fold (write_value p ptr k v) in Hj1, Hj2.
  assert (len (write_value p ptr k v) = 4096) as Hl2 by (unfold write_value; page_len).
  assert (forall n o, 0 <= o -> o + Z.of_nat n <= 32 -> fld n (write_value p ptr k v) o = fld n p o) as Hfl.
  { intros. unfold write_value. by page_fld. }
  constructor.
  - page_len.
  - rewrite len_app, len_cons in *. split; [by page_fld|]. left. page_fld. rewrite !Hfl by (simpl; lia).
    destruct Hhdr as [(? & ? & ? & ?)|(? & ? & ?)]; [by split_and!|lia].
  - apply page_holds_other; [|page_side..]. rewrite slot_bytes_app in *.
    rewrite len_app, len_cons in *. pose proof (len_nonneg es1). pose proof (len_nonneg es2).
    unfold write_value. do 2 (apply page_holds_other; [|page_side..]). done.
  - rewrite len_app, len_cons in *. lia.
  - apply entries_write; [|page_side..]. apply Forall_app. split; [done|]. constructor; [|done].
    split_and!; [lia|lia|rewrite elt_size_leaf; unfold leaf_size; cbn; lia|done|].
    change (leaf_ok (mkLeaf k v)). unfold leaf_ok, leaf_size; cbn. lia.
  - by eapply apart_same_region.
  - rewrite lives_app, lives_cons, sum_with_app, sum_with_cons, dead_count_app, dead_count_cons in *.
    rewrite elt_size_leaf in *. unfold leaf_size in *; cbn [Key Value] in *. lia.
Qed.

(** The page after an out-of-place update, before its checksum. *)
Definition write_moved (p : list byte) (so fse g : Z) (e' : LeafNodeElement) : list byte :=
  let f := fse - leaf_size e' in
  write (write (write (write (write p f (encodeElement e')) 10 (le 2 f)) (so + 2) (le 2 f))
    so (le 2 (leaf_size e'))) 12 (le 2 g).

Lemma rep_update_grow p es1 ptr size e es2 fse g v :
  page_rep p (es1 ++ Live ptr size e :: es2) fse g ->
  let e' := mkLeaf (Key e) v in
  leaf_ok e' -> leaf_size e' <= free_space (es1 ++ Live ptr size e :: es2) fse ->
  page_rep (write_moved p (32 + 4 * len es1) fse (g + leaf_size e) e')
    (es1 ++ Live (fse - leaf_size e') (leaf_size e') e' :: es2) (fse - leaf_size e') (g + leaf_size e).
Proof.
  intros Hr e' Hok Hfit. destruct (rep_bounds _ _ _ _ _ _ _ _ Hr) as (Hx & ? & ? & ? & ? & _).
  pose proof Hr as [Hlen [Hg Hhdr] Hslots Hroom He Ha Hacc]. unfold free_space, write_moved in *.
  rewrite len_app, len_cons in *. pose proof (len_nonneg es1). pose proof (len_nonneg es2).
  assert (0 < leaf_size e') by (unfold leaf_size; solve_len).
  assert (0 < leaf_size e) by (unfold leaf_size; solve_len).
  apply Forall_app in He as [He1 He2]. inversion He2 as [|? ? _ He2']; subst.
  set (f := fse - leaf_size e') in *. assert (0 <= f < 65536) by lia.
  constructor.
  - page_len.
  - rewrite len_app, len_cons. split; [by page_fld|]. left. page_fld.
    destruct Hhdr as [(? & ? & ? & ?)|(? & ? & ?)]; [|lia]. split_and!; (done || lia).
  - rewrite slot_bytes_app in *. rewrite holds_app in *. rewrite len_slot_bytes in *.
    change (slot_bytes (?x :: ?es)) with (encodeSlot (slot_of x) ++ slot_bytes es) in *.
    rewrite !holds_app in *. rewrite !len_encodeSlot in *. destruct Hslots as (Hs1 & _ & Hs2).
    split_and!.
    + by do 5 (apply page_holds_other; [|page_side..]).
    + apply page_holds_other; [|page_side..]. unfold encodeSlot. cbn [slot_of elementSize elementPointer].
      apply holds_app. rewrite len_le. split; [apply page_holds_same; page_side|].
      apply page_holds_other; [|page_side..]. apply page_holds_same; page_side.
    + by do 5 (apply page_holds_other; [|page_side..]).
  - rewrite len_app, len_cons. lia.
  - do 4 (apply entries_write; [|page_side..]).
    assert (forall es, Forall (entry_ok p fse) es ->
      Forall (entry_ok (write p f (encodeElement e')) f) es) as Hes.
    { intros es He'. apply (entries_mono _ fse); [|lia]. eapply list.Forall_impl; [exact He'|].
      intros [ptr' size' a|size']; [|done]. intros (? & ? & ? & ? & ?). split_and!; try done.
      apply page_holds_other; try done; try lia; solve_len. }
    apply Forall_app. split; [by apply Hes|]. constructor; [|by apply Hes].
    split_and!; [lia|lia|rewrite elt_size_leaf; lia| |exact Hok]. apply page_holds_same; page_side.
  - pose proof Ha as (Ha1 & Ha2 & Hc)%StronglySorted_app_inv. inversion Ha2 as [|? ? Ha2' _]; subst.
    apply apart_insert.
    + apply StronglySorted_app_intro; [done..|]. intros x y ? ?. apply Hc; [done|by right].
    + intros y [Hy|Hy]%elem_of_app; [eapply list.Forall_forall in He1 as Hoky|eapply list.Forall_forall in He2' as Hoky];
        try exact Hy; destruct y; cbn; try done; destruct Hoky as (? & ?); lia.
  - rewrite lives_app, lives_cons, sum_with_app, sum_with_cons, dead_count_app, dead_count_cons in *.
    rewrite elt_size_leaf in *. lia.
Qed.

(** [SetValue] on a key of the page: the stored value is replaced, in place when
    it does not grow and in the free space when it does. *)
Lemma SetValue_inplace p es fse g k v w :
  page_rep p es fse g -> sorted_elts (lives es) -> findValue_loop (lives es) k = Some w -> len v <= len w ->
  exists p' es', SetValue p k v = Some p' /\ page_rep p' es' fse (g + (len w - len v)) /\
    lives es' = update_value k v (lives es) /\ len es' = len es /\ meta p' = meta p /\ crc_valid p' /\
    (len v = len w -> Forall tight es -> Forall tight es').
Proof.
  intros Hr Hs Hfv Hle.
  destruct (search_present _ _ _ _ k Hr Hs (findValue_Some _ _ _ Hfv))
    as (es1 & ptr & size & e & es2 & -> & Hk & Hlt & Hls).
  destruct (rep_bounds _ _ _ _ _ _ _ _ Hr) as (Hx & ? & ? & ? & Hfill & Hgs & Hfe).
  rewrite lives_app, lives_cons, findValue_stop in Hfv by done. injection Hfv as <-.
  pose proof (rep_len _ _ _ _ Hr) as Hlen.
  destruct (view_bytes_element p fse ptr size e) as (rest & Hvb); [lia|done|done|].
  unfold SetValue. rewrite Hls. cbn [mbind option_bind]. rewrite Hvb, decodeElement_encode by apply Hx.
  cbn [mbind option_bind]. rewrite headerView_eq by lia. cbn [mbind option_bind].
  change (view_bytes p (View 0 32)) with (sub p 0 32).
  rewrite decodePageHeader_eq by (rewrite len_sub; lia). rewrite header_of_sub by lia. cbn [mbind option_bind].
  rewrite (proj2 (Z.leb_le _ _) Hle), Hgs, (setValueInElement_eq p fse ptr size e v) by (done || lia).
  cbn [mbind option_bind]. pose proof (len_nonneg v). unfold leaf_size in *.
  pose proof (len_nonneg (Key e)).
  rewrite (u16_id (_ - _)), (u16_id (g + _)) by lia. autorewrite with setters. cbn [mbind option_bind].
  pose proof (rep_update_inplace _ _ _ _ _ _ _ _ v Hr Hle) as Hr'. rewrite Hk in Hr'. rewrite Hk.
  destruct (rep_updateCRC _ _ _ _ Hr') as (p' & -> & Hrp & Hm & Hc). eexists _, _.
  split_and!; [done|exact Hrp| |by rewrite !len_app, !len_cons| |done|].
  - by rewrite !lives_app, !lives_cons, update_value_stop.
  - rewrite Hm. destruct Hx as (? & ? & Hsz & ? & ?). rewrite elt_size_leaf in Hsz. unfold leaf_size in Hsz.
    unfold meta, write_value. subst k. by page_fld.
  - intros Hlen' (Ht1 & Ht2)%Forall_app. inversion Ht2 as [|? ? Htx Ht2']; subst.
    apply Forall_app. split; [done|]. constructor; [|done]. cbn in *. rewrite elt_size_leaf in *.
    unfold leaf_size in *; cbn in *. lia.
Qed.

Lemma SetValue_grow p es fse g k v w :
  page_rep p es fse g -> sorted_elts (lives es) -> findValue_loop (lives es) k = Some w -> len w < len v ->
  leaf_size (mkLeaf k v) <= free_space es fse ->
  exists p' es' fse' g', SetValue p k v = Some p' /\ page_rep p' es' fse' g' /\
    lives es' = update_value k v (lives es) /\ meta p' = meta p /\ crc_valid p' /\
    (Forall tight es -> Forall tight es') /\
    free_space es' fse' = free_space es fse - leaf_size (mkLeaf k v) /\ g' = g + leaf_size (mkLeaf k w).
Proof.
  intros Hr Hs Hfv Hlt' Hfit.
  destruct (search_present _ _ _ _ k Hr Hs (findValue_Some _ _ _ Hfv))
    as (es1 & ptr & size & e & es2 & -> & Hk & Hlt & Hls).
  destruct (rep_bounds _ _ _ _ _ _ _ _ Hr) as (Hx & ? & ? & ? & Hfill & Hgs & Hfe).
  rewrite lives_app, lives_cons, findValue_stop in Hfv by done. injection Hfv as <-.
  pose proof (rep_len _ _ _ _ Hr) as Hlen. pose proof (rep_room _ _ _ _ Hr) as Hroom.
  destruct (view_bytes_element p fse ptr size e) as (rest & Hvb); [lia|done|done|].
  set (e' := mkLeaf k v) in *. unfold free_space in *. rewrite len_app, len_cons in *.
  pose proof (len_nonneg es1). pose proof (len_nonneg es2).
  assert (0 < leaf_size e') by (unfold leaf_size; solve_len).
  assert (0 < leaf_size e) by (unfold leaf_size; solve_len).
  assert (leaf_ok e') by (unfold leaf_ok; lia).
  unfold SetValue. rewrite Hls. cbn [mbind option_bind]. rewrite Hvb, decodeElement_encode by apply Hx.
  cbn [mbind option_bind]. rewrite headerView_eq by lia. cbn [mbind option_bind].
  change (view_bytes p (View 0 32)) with (sub p 0 32).
  rewrite decodePageHeader_eq by (rewrite len_sub; lia). rewrite header_of_sub by lia. cbn [mbind option_bind].
  rewrite (proj2 (Z.leb_gt _ _) Hlt'), Hgs, Hfe. fold e'. rewrite appendElement_eq by lia.
  cbn [mbind option_bind]. autorewrite with setters. cbn [mbind option_bind].
  unfold setElementPointer, setElementSize. cbn [defaultSlotConfig elementPointerOffset elementSizeOffset].
  rewrite putUint_eq by (simpl; lia). cbn [mbind option_bind v_off].
  rewrite putUint_eq by (simpl; lia). cbn [mbind option_bind v_off].
  rewrite !calculateElementSize_eq by (done || apply Hx). rewrite u16_id, Z.add_0_r by lia.
  autorewrite with setters. cbn [mbind option_bind].
  pose proof (rep_update_grow _ _ _ _ _ _ _ _ v Hr) as Hr'. cbn zeta in Hr'. rewrite Hk in Hr'. fold e' in Hr'.
  unfold free_space in Hr'. rewrite len_app, len_cons in Hr'. specialize (Hr' ltac:(done) ltac:(lia)).
  destruct (rep_updateCRC _ _ _ _ Hr') as (p' & Hu & Hrp & Hm & Hc). unfold write_moved in Hu, Hm.
  rewrite Hu. eexists _, _, _, _. split_and!; [done|exact Hrp| | |done| | |].
  - by rewrite !lives_app, !lives_cons, update_value_stop.
  - rewrite Hm. unfold meta. by page_fld.
  - intros (Ht1 & Ht2)%Forall_app. inversion Ht2 as [|? ? Htx Ht2']; subst.
    apply Forall_app. split; [done|]. constructor; [|done]. cbn. by rewrite elt_size_leaf.
  - rewrite len_app, len_cons. lia.
  - unfold leaf_size; cbn. by rewrite Hk.
Qed.
