(* ===== verification/LeafNodeSpec.v ===== *)
(** * What a leaf page promises: a finite map from keys to values

    The leaf codec refines a finite map bounded by the page size: [leaf_page p
    m free g] relates the bytes of a page to the map it stores, and each
    operation of the codec is the map operation of the same name on it.  The
    free space and the garbage counter are part of the abstraction because the
    codec's refusals depend on them. *)

From stdpp Require Export gmap.
From S2P Require Export LeafNodeCodec.

#[export] Instance byte_countable : Countable byte := inj_countable Byte.to_N Byte.of_N Byte.of_to_N.

Abbreviation kvmap := (gmap (list byte) (list byte)).

Definition kv_map (l : list LeafNodeElement) : kvmap :=
  list_to_map ((fun e => (Key e, Value e)) <$> l).

Definition unique_keys (l : list LeafNodeElement) : Prop := NoDup (Key <$> l).

(** A well-formed leaf page without slack: every slot is as large as its element
    and the garbage counter is what a compaction reclaims.  A page on which a value
    was shortened in place is not of this kind: its slot keeps the old size, and
    when the key is deleted afterwards the counter goes too high for good, see
    [garbage_counted_twice]. *)
Definition leaf_page (p : list byte) (m : kvmap) (free g : Z) : Prop :=
  exists l, node_page p l free g /\ unique_keys l /\ kv_map l = m.

(** A well-formed leaf page whose slots may be larger than their elements, as
    a shrinking update leaves them. *)
Definition leaf_page_slack (p : list byte) (m : kvmap) : Prop :=
  exists es fse g, page_rep p es fse g /\ sorted_elts (lives es) /\ unique_keys (lives es) /\
    kv_map (lives es) = m.

Lemma leaf_page_is_slack p m free g : leaf_page p m free g -> leaf_page_slack p m.
Proof. intros (l & (es & fse & Hr & Ht & <- & Hs & ->) & Hu & <-). by exists es, fse, g. Qed.

Lemma leaf_page_len p m free g : leaf_page p m free g -> len p = 4096.
Proof. intros (l & Hp & _). by destruct (node_page_space _ _ _ _ Hp). Qed.

Lemma leaf_slack_len p m : leaf_page_slack p m -> len p = 4096.
Proof. intros (es & fse & g & Hr & _). apply Hr. Qed.

(** ** Lists of elements as maps *)

Lemma kv_map_lookup l k : kv_map l !! k = findValue_loop l k.
Proof.
  unfold kv_map. induction l as [|e l IH]; cbn; [apply lookup_empty|].
  destruct (Z.eqb_spec (bytesCompare (Key e) k) 0) as [<-%bytesCompare_eq|Hne].
  - by rewrite lookup_insert_eq.
  - rewrite lookup_insert_ne; [apply IH|]. by rewrite <- bytesCompare_eq.
Qed.

Lemma kv_map_None l k : kv_map l !! k = None <-> k ∉ Key <$> l.
Proof.
  rewrite kv_map_lookup, findValue_None. rewrite list_elem_of_fmap. split.
  - intros H (a & -> & Ha). by apply (H a).
  - intros H a Ha <-. apply H. by exists a.
Qed.

Lemma kv_map_insert l k v :
  sorted_elts l -> kv_map l !! k = None ->
  kv_map (insert_elt (mkLeaf k v) l) = <[k := v]> (kv_map l).
Proof.
  intros Hs Hk. apply map_eq. intros k'. rewrite kv_map_lookup, findValue_insert by done.
  rewrite kv_map_lookup in Hk. rewrite Hk. case_decide as Hd; [subst; by rewrite lookup_insert_eq|].
  by rewrite lookup_insert_ne, kv_map_lookup.
Qed.

Lemma kv_map_update l k v w :
  kv_map l !! k = Some w -> kv_map (update_value k v l) = <[k := v]> (kv_map l).
Proof.
  intros Hk. apply map_eq. intros k'. rewrite kv_map_lookup, findValue_update.
  rewrite kv_map_lookup in Hk. rewrite Hk. case_decide as Hd; [subst; by rewrite lookup_insert_eq|].
  by rewrite lookup_insert_ne, kv_map_lookup.
Qed.

Lemma findValue_remove l k k' :
  unique_keys l ->
  findValue_loop (remove_elt k l) k' = if decide (k' = k) then None else findValue_loop l k'.
Proof.
  unfold unique_keys. induction l as [|e l IH]; cbn [remove_elt findValue_loop fmap list_fmap elt_key
    LeafNodeElement_NodeElement]; intros Hu; [by case_decide|].
  apply list.NoDup_cons in Hu as [Hnin Hu]. specialize (IH Hu).
  destruct (Z.eqb_spec (bytesCompare (Key e) k) 0) as [<-%bytesCompare_eq|Hne]; cbn [findValue_loop].
  - case_decide as Hd.
    + subst k'. rewrite <- kv_map_lookup. by apply kv_map_None.
    + destruct (Z.eqb_spec (bytesCompare (Key e) k') 0) as [?%bytesCompare_eq|]; [congruence|done].
  - rewrite IH. destruct (Z.eqb_spec (bytesCompare (Key e) k') 0) as [Hk'%bytesCompare_eq|]; [|done].
    rewrite decide_False; [done|]. intros ->. by rewrite bytesCompare_eq in Hne.
Qed.

Lemma kv_map_remove l k : unique_keys l -> kv_map (remove_elt k l) = delete k (kv_map l).
Proof.
  intros Hu. apply map_eq. intros k'. rewrite kv_map_lookup, findValue_remove by done.
  case_decide as Hd; [subst; by rewrite lookup_delete_eq|]. by rewrite lookup_delete_ne, kv_map_lookup.
Qed.

Lemma unique_insert l k v : unique_keys l -> kv_map l !! k = None -> unique_keys (insert_elt (mkLeaf k v) l).
Proof.
  unfold unique_keys. rewrite kv_map_None. intros Hu Hk.
  assert (Key <$> insert_elt (mkLeaf k v) l ≡ₚ k :: (Key <$> l)) as ->.
  { clear Hu Hk. induction l as [|e l IH]; cbn; [done|]. case_match; cbn; [done|]. rewrite IH. apply Permutation_swap. }
  by constructor.
Qed.

Lemma unique_remove l k : unique_keys l -> unique_keys (remove_elt k l).
Proof.
  unfold unique_keys. induction l as [|e l IH]; cbn; [done|]. intros [Hnin Hu]%list.NoDup_cons.
  case_match; [done|]. cbn. constructor; [|auto]. intros (a & Ha & Hin)%list_elem_of_fmap.
  apply Hnin, list_elem_of_fmap. exists a. split; [done|]. by eapply remove_elt_elem.
Qed.

Lemma unique_update l k v : unique_keys l -> unique_keys (update_value k v l).
Proof. unfold unique_keys. by rewrite update_value_keys. Qed.

Lemma sorted_update l k v : sorted_elts l -> sorted_elts (update_value k v l).
Proof.
  induction 1 as [|e l Hs IH Hf]; cbn; [constructor|].
  destruct (Z.eqb_spec (bytesCompare (Key e) k) 0) as [<-%bytesCompare_eq|].
  - constructor; [done|]. exact Hf.
  - constructor; [done|]. rewrite list.Forall_forall in Hf |- *. intros a Ha.
    assert (Key a ∈ Key <$> l) as (b & Hb & Hbl)%list_elem_of_fmap.
    { rewrite <- (update_value_keys k v l). apply list_elem_of_fmap. by exists a. }
    unfold elt_le; cbn. rewrite Hb. by apply Hf.
Qed.

(** ** Node-level lemmas of the update and the split *)

Lemma node_page_slack p l free g v k w :
  node_page p l free g -> findValue_loop l k = Some w -> len v <= len w ->
  exists p' es fse, SetValue p k v = Some p' /\ page_rep p' es fse (g + (len w - len v)) /\
    lives es = update_value k v l /\ free_space es fse = free /\ meta p' = meta p /\ crc_valid p' /\
    (len v = len w -> Forall tight es).
Proof.
  intros (es & fse & Hr & Ht & <- & Hs & ->) Hf Hv.
  destruct (SetValue_inplace _ _ _ _ _ v _ Hr Hs Hf Hv) as (p' & es' & -> & Hr' & Hl & Hn & Hm & Hc & Htt).
  exists p', es', fse. split_and!; try done; [unfold free_space; lia|auto].
Qed.

Lemma node_page_grow p l free g v k w :
  node_page p l free g -> findValue_loop l k = Some w -> len w < len v -> leaf_size (mkLeaf k v) <= free ->
  exists p', SetValue p k v = Some p' /\
    node_page p' (update_value k v l) (free - leaf_size (mkLeaf k v)) (g + leaf_size (mkLeaf k w)) /\
    meta p' = meta p /\ crc_valid p'.
Proof.
  intros (es & fse & Hr & Ht & <- & Hs & ->) Hf Hv Hfit.
  destruct (SetValue_grow _ _ _ _ _ v _ Hr Hs Hf Hv Hfit)
    as (p' & es' & fse' & g' & -> & Hr' & Hl & Hm & Hc & Htt & Hfs & ->).
  exists p'. split_and!; try done. exists es', fse'.
  split_and!; [done|auto|done|by apply sorted_update|done].
Qed.

Lemma node_page_next p l free g :
  node_page p l free g -> GetNextLeafNodePageId p = Some (fld 8 p 16).
Proof.
  intros (Hlen & _)%node_page_space. unfold GetNextLeafNodePageId. change getHeaderSize with 32.
  rewrite slice_header by lia. cbn [mbind option_bind]. unfold getNextLeafNodePageId.
  cbn [nextLeafNodePageIdOffset defaultHeaderConfig]. rewrite fld_readUint by (rewrite ?len_sub; simpl; lia).
  by rewrite fld_sub by (simpl; lia).
Qed.

Lemma node_page_header_next p l free g :
  node_page p l free g -> l <> [] -> nextLeafNodePageId (header_of p) = fld 8 p 16.
Proof.
  intros Hp Hne. pose proof (node_page_filled _ _ _ _ Hp Hne) as Hf%Z.eqb_neq. unfold header_of. by rewrite Hf.
Qed.

Lemma SplitNode_node p q l free g rid i :
  node_page p l free g -> len q = 4096 -> 0 <= i < len l -> 0 <= rid < 2 ^ 64 ->
  let n := Z.to_nat i in
  exists p' q' e, SplitNode p q rid i = Some (p', q', Key e) /\ l !! n = Some e /\
    node_page p' (take n l) (4064 - footprint (take n l)) 0 /\
    node_page q' (drop n l) (4064 - footprint (drop n l)) 0 /\
    meta p' = (fld 1 p 4, rid, fld 8 p 24) /\ meta q' = (fld 1 q 4, fld 8 p 16, fld 8 q 24) /\
    crc_valid p' /\ crc_valid q'.
Proof.
  intros Hp Hq Hi Hrid n. pose proof (node_page_space _ _ _ _ Hp) as (Hlen & _).
  destruct (node_page_getAll _ _ _ _ Hp) as (ss & Hga & Hm).
  pose proof (sizes_match_len _ _ Hm) as Hls.
  destruct (node_page_halves p q l free g ss i Hp Hq Hm ltac:(lia)) as [(p1 & Hp1 & Hn1 & Hm1) (q1 & Hq1 & Hn2 & Hm2)].
  fold n in Hp1, Hn1, Hq1, Hn2.
  assert (is_Some (l !! n)) as [e He] by (apply lookup_lt_is_Some; unfold n, len in *; lia).
  assert (nextLeafNodePageId (header_of p) = fld 8 p 16) as Hnext.
  { eapply node_page_header_next; [done|]. by intros ->. }
  assert (0 <= fld 8 p 16 < 2 ^ 64) as Hfr by (apply fld_range; simpl; lia).
  pose proof (node_page_space _ _ _ _ Hn1) as (Hl1 & _). pose proof (node_page_space _ _ _ _ Hn2) as (Hl2 & _).
  unfold SplitNode, leafGetAllSlotsAndElements, leafPutAllSlotsAndElements. change getHeaderSize with 32.
  rewrite slice_header by lia. cbn [mbind option_bind].
  rewrite decodePageHeader_eq by (rewrite len_sub; lia). rewrite header_of_sub by lia. cbn [mbind option_bind].
  rewrite !headerView_eq by lia. cbn [mbind option_bind]. rewrite Hga. cbn [mbind option_bind].
  rewrite !slice_take, !slice_drop by lia. fold n. cbn [mbind option_bind].
  unfold index. go_assert. fold n. rewrite He. cbn [mbind option_bind].
  rewrite Hp1. cbn [mbind option_bind]. rewrite Hq1. cbn [mbind option_bind]. autorewrite with setters.
  cbn [mbind option_bind]. rewrite Hnext.
  pose proof (node_page_write_meta q1 _ _ _ 16 (le 8 (fld 8 p 16)) Hn2 ltac:(rewrite len_le; lia)) as Hn2'.
  pose proof (node_page_write_meta p1 _ _ _ 16 (le 8 rid) Hn1 ltac:(rewrite len_le; lia)) as Hn1'.
  destruct (node_page_updateCRC _ _ _ _ Hn2') as (q2 & -> & Hq2 & Hmq & Hcq). cbn [mbind option_bind].
  destruct (node_page_updateCRC _ _ _ _ Hn1') as (p2 & -> & Hp2 & Hmp & Hcp). cbn [mbind option_bind].
  exists p2, q2, e. split_and!; try done.
  - rewrite Hmp. unfold meta in *. page_fld. by injection Hm1 as -> _ ->.
  - rewrite Hmq. unfold meta in *. page_fld. by injection Hm2 as -> _ ->.
Qed.

Lemma kv_map_app l1 l2 : kv_map (l1 ++ l2) = kv_map l1 ∪ kv_map l2.
Proof. unfold kv_map. by rewrite fmap_app, list_to_map_app. Qed.

Lemma kv_map_size l : unique_keys l -> Z.of_nat (size (kv_map l)) = len l.
Proof.
  intros Hu. unfold kv_map. rewrite map_size_list_to_map; [by rewrite length_fmap|].
  by rewrite <- list_fmap_compose.
Qed.

Lemma kv_map_Some_elem l k v : kv_map l !! k = Some v -> exists e, e ∈ l /\ Key e = k.
Proof. rewrite kv_map_lookup. apply findValue_Some. Qed.

(** In a sorted list without duplicates the halves are strictly ordered. *)
Lemma sorted_unique_lt l1 l2 a b :
  sorted_elts (l1 ++ l2) -> unique_keys (l1 ++ l2) -> a ∈ l1 -> b ∈ l2 -> key_lt (Key a) (Key b).
Proof.
  intros (_ & _ & Hc)%StronglySorted_app_inv Hu Ha Hb. unfold unique_keys in Hu. rewrite fmap_app in Hu.
  apply list.NoDup_app in Hu as (_ & Hd & _). pose proof (Hc a b Ha Hb) as Hle. unfold elt_le in Hle.
  apply key_le_lt_or_eq in Hle as [?|Heq]; [done|]. exfalso. cbn in Heq.
  apply (Hd (Key a)); apply list_elem_of_fmap; [by exists a|by exists b].
Qed.

Lemma kv_map_disjoint l1 l2 : unique_keys (l1 ++ l2) -> kv_map l1 ##ₘ kv_map l2.
Proof.
  unfold unique_keys. rewrite fmap_app. intros (_ & Hd & _)%list.NoDup_app. apply map_disjoint_spec.
  intros k v w (a & Ha & <-)%kv_map_Some_elem (b & Hb & Hk)%kv_map_Some_elem.
  apply (Hd (Key a)); apply list_elem_of_fmap; [by exists a|by exists b].
Qed.

Lemma footprint_remove l k v :
  findValue_loop l k = Some v -> footprint (remove_elt k l) = footprint l - leaf_need k v.
Proof.
  unfold footprint. induction l as [|e l IH]; cbn; [done|].
  destruct (Z.eqb_spec (bytesCompare (Key e) k) 0) as [<-%bytesCompare_eq|]; rewrite ?sum_with_cons, ?elt_size_leaf.
  - intros [= <-]. unfold leaf_need, leaf_size; cbn. lia.
  - intros ->%IH. lia.
Qed.

(** ** The codec refines the map *)

Lemma leaf_find p m k : leaf_page_slack p m -> FindValue p k = Some (m !! k).
Proof.
  intros (es & fse & g & Hr & Hs & Hu & <-). unfold FindValue, leafGetAllSlotsAndElements.
  rewrite (getAll_spec _ _ _ _ Hr). cbn [mbind option_bind]. by rewrite kv_map_lookup.
Qed.

(** C15: on every well-formed leaf page, slack or not, [FindValue] returns what
    the map holds at the key, and nothing when the key is absent. *)
Theorem leaf_FindValue_refines p m k : leaf_page_slack p m -> FindValue p k = Some (m !! k).
Proof. apply leaf_find. Qed.

Lemma leaf_insert p m free g k v :
  leaf_page p m free g -> m !! k = None -> leaf_need k v < 65536 ->
  exists p', InsertElement p k v = Some (p', bool_decide (leaf_need k v <= free \/ leaf_need k v <= g)) /\
    (if decide (leaf_need k v <= free \/ leaf_need k v <= g) then
       let '(free', g') := room_after (leaf_need k v) free g in
       leaf_page p' (<[k := v]> m) (free' - leaf_need k v) g'
     else leaf_page p' m free g) /\
    meta p' = meta p /\ crc_valid p'.
Proof.
  intros (l & Hp & Hu & <-) Hk Hn. pose proof (InsertElement_node _ _ _ _ k v Hp Hn) as Hi.
  pose proof (node_page_sorted _ _ _ _ Hp) as Hs. destruct (room_after _ _ _) as [free' g'].
  case_decide as Hd; destruct Hi as (p' & Heq & Hp' & Hm & Hc); exists p'.
  - rewrite bool_decide_eq_true_2 by done. split_and!; try done.
    eexists. split_and!; [exact Hp'|by apply unique_insert|by apply kv_map_insert].
  - rewrite bool_decide_eq_false_2 by done. split_and!; try done. by exists l.
Qed.

(** C14: On a leaf page in which no value was ever shortened in place (every slot
    as large as its element, the garbage counter exact), inserting a fresh key,
    the element and its slot having less than 65536 bytes, is accepted exactly when
    they fit in the free space or in the garbage; then the page holds the map with
    the pair added and the space used is accounted for; otherwise the page keeps
    its map.  Either way the node type, link and LSN are kept and the checksum is
    valid.  (For pages with shortened values see [garbage_counted_twice].) *)
Theorem leaf_InsertElement_refines p m free g k v :
  leaf_page p m free g -> m !! k = None -> leaf_need k v < 65536 ->
  exists p', InsertElement p k v = Some (p', bool_decide (leaf_need k v <= free \/ leaf_need k v <= g)) /\
    (if decide (leaf_need k v <= free \/ leaf_need k v <= g) then
       let '(free', g') := room_after (leaf_need k v) free g in
       leaf_page p' (<[k := v]> m) (free' - leaf_need k v) g'
     else leaf_page p' m free g) /\
    meta p' = meta p /\ crc_valid p'.
Proof. apply leaf_insert. Qed.

Definition leaf_size_fits (k v : list byte) (free g : Z) : Prop :=
  leaf_size (mkLeaf k v) <= free \/ leaf_size (mkLeaf k v) <= g.

Lemma hasEnoughSpace_no p n p1 : hasEnoughSpace (E := LeafNodeElement) p n = Some (p1, false) -> p1 = p.
Proof.
  unfold hasEnoughSpace. destruct (isAdequate p n) as [[]|]; cbn; [by intros [= ->]| |done].
  destruct (shouldCompact p n) as [[]|]; cbn; [|by intros [= ->]|done].
  destruct (compact p); cbn; [|done]. by intros [= ->].
Qed.

(** The space check before an insertion: the page it leaves has the same map,
    and room for the element if the answer is yes. *)
Lemma leaf_check_insert p m free g k v :
  leaf_page p m free g -> leaf_size (mkLeaf k v) < 65536 ->
  exists p1 free' g',
    HasEnoughSpaceToInsertElement p k v = Some (p1, bool_decide (leaf_size_fits k v free g)) /\
    leaf_page p1 m free' g' /\ meta p1 = meta p /\
    (leaf_size_fits k v free g -> leaf_size (mkLeaf k v) <= free' /\ (free', g') = room_after (leaf_size (mkLeaf k v)) free g) /\
    (~ leaf_size_fits k v free g -> p1 = p).
Proof.
  intros (l & Hp & Hu & <-) Hn. unfold HasEnoughSpaceToInsertElement, leaf_size_fits.
  replace (2 + len k + 2 + len v) with (leaf_size (mkLeaf k v)) by (unfold leaf_size; cbn; lia).
  assert (0 <= leaf_size (mkLeaf k v)) by (unfold leaf_size; solve_len).
  destruct (node_page_hasEnoughSpace _ _ _ _ (leaf_size (mkLeaf k v)) Hp ltac:(lia))
    as (p1 & free' & g' & Heq & Hp1 & Hm1 & Hfg).
  exists p1, free', g'. split_and!; [done|by exists l|done| |].
  - intros Hfit. rewrite decide_True in Hfg by done. split; [|done]. apply node_page_space in Hp. unfold room_after in Hfg.
    destruct (Z.leb_spec (leaf_size (mkLeaf k v)) free); injection Hfg as -> ->; lia.
  - intros Hno. rewrite bool_decide_eq_false_2 in Heq by done. by eapply hasEnoughSpace_no.
Qed.

Lemma leaf_check_update p m free g k v w :
  leaf_page p m free g -> leaf_size (mkLeaf k v) < 65536 ->
  exists p1 free' g',
    HasEnoughSpaceToUpdateValue p k w v = Some (p1, bool_decide (len v <= len w \/ leaf_size_fits k v free g)) /\
    leaf_page p1 m free' g' /\ meta p1 = meta p /\
    (len v <= len w \/ leaf_size_fits k v free g -> len v <= len w \/ leaf_size (mkLeaf k v) <= free') /\
    (~ (len v <= len w \/ leaf_size_fits k v free g) -> p1 = p).
Proof.
  intros Hp Hn. unfold HasEnoughSpaceToUpdateValue. destruct (Z.leb_spec (len v) (len w)) as [Hle|Hgt].
  - exists p, free, g. rewrite bool_decide_eq_true_2 by (by left). split_and!; try done. by left.
  - destruct (leaf_check_insert p m free g k v Hp Hn) as (p1 & free' & g' & -> & Hp1 & Hm & Hy & Hno).
    exists p1, free', g'. split_and!; [|done|done| |].
    + do 2 f_equal. apply bool_decide_ext. split; [by right|]. intros [?|?]; [lia|done].
    + intros [?|?]; [lia|]. right. by apply Hy.
    + intros Hx. apply Hno. tauto.
Qed.

(** Storing a value that fits, in place or at the end of the free space. *)
Lemma leaf_set_value p m free g k v w :
  leaf_page p m free g -> m !! k = Some w -> len v <= len w \/ leaf_size (mkLeaf k v) <= free ->
  exists p2, SetValue p k v = Some p2 /\ leaf_page_slack p2 (<[k := v]> m) /\
    (len w <= len v -> exists free' g', leaf_page p2 (<[k := v]> m) free' g') /\ meta p2 = meta p /\ crc_valid p2.
Proof.
  intros (l & Hp & Hu & <-) Hk Hfit. pose proof Hk as Hk'. rewrite kv_map_lookup in Hk'.
  assert (forall p2 free' g', node_page p2 (update_value k v l) free' g' ->
    leaf_page p2 (<[k := v]> (kv_map l)) free' g') as Hlp.
  { intros p2 free' g' Hp2. eexists. split_and!; [done|by apply unique_update|by eapply kv_map_update]. }
  pose proof (node_page_sorted _ _ _ _ Hp) as Hs. destruct (decide (len v <= len w)) as [Hle|Hgt].
  - destruct (node_page_slack _ _ _ _ v _ _ Hp Hk' Hle) as (p2 & es & fse & Hset & Hr & Hl & Hfs & Hm & Hc & Ht).
    exists p2. split_and!; try done.
    + exists es, fse, (g + (len w - len v)). rewrite Hl.
      split_and!; [done|by apply sorted_update|by apply unique_update|by eapply kv_map_update].
    + intros. eexists _, _. apply Hlp. exists es, fse. split_and!; [done|apply Ht; lia|done|by apply sorted_update|done].
  - destruct (node_page_grow _ _ _ _ v _ _ Hp Hk' ltac:(lia) ltac:(lia)) as (p2 & Hset & Hp2 & Hm2 & Hc2).
    exists p2. split_and!; [done|by eapply leaf_page_is_slack, Hlp|by eauto|done|done].
Qed.

(** C16: The update path, on a leaf page in which no value was ever shortened in
    place (every slot as large as its element, the garbage counter exact), for an
    element of less than 65536 bytes.  [HasEnoughSpaceToUpdateValue] answers yes
    exactly when the value does not grow or the new element fits in the free space
    or in the garbage; after a yes, [SetValue] on the page it leaves (compacted or
    not) does not fail and stores the new value; when the value did not shrink the
    page stays of that kind.  (For pages with shortened values see
    [garbage_counted_twice].) *)
Theorem leaf_update_refines p m free g k v w :
  leaf_page p m free g -> m !! k = Some w -> leaf_size (mkLeaf k v) < 65536 ->
  exists p1 b, HasEnoughSpaceToUpdateValue p k w v = Some (p1, b) /\
    (b = true <-> len v <= len w \/ leaf_size_fits k v free g) /\
    (b = false -> leaf_page p1 m free g) /\
    (b = true -> exists p2, SetValue p1 k v = Some p2 /\ leaf_page_slack p2 (<[k := v]> m) /\
       (len w <= len v -> exists free' g', leaf_page p2 (<[k := v]> m) free' g') /\
       meta p2 = meta p /\ crc_valid p2).
Proof.
  intros Hp Hk Hn. destruct (leaf_check_update p m free g k v w Hp Hn) as (p1 & free' & g' & Heq & Hp1 & Hm1 & Hy & Hno).
  eexists p1, _. split_and!; [exact Heq|apply bool_decide_eq_true| |].
  - intros Hb%bool_decide_eq_false. by rewrite (Hno Hb).
  - intros Hb%bool_decide_eq_true. destruct (leaf_set_value p1 m free' g' k v w Hp1 Hk (Hy Hb)) as (p2 & ? & ? & ? & Hm2 & ?).
    exists p2. split_and!; [done..|congruence|done].
Qed.

Lemma leaf_delete p m free g k :
  leaf_page p m free g ->
  exists p' g', leafDeleteElement p k = Some (p', bool_decide (is_Some (m !! k))) /\
    leaf_page p' (delete k m) free g' /\ meta p' = meta p /\
    (m !! k = None -> p' = p) /\
    (forall v, m !! k = Some v -> g' = g + leaf_need k v /\ crc_valid p').
Proof.
  intros (l & Hp & Hu & <-). pose proof (node_page_DeleteElement _ _ _ _ k Hp) as Hd.
  pose proof (node_page_space _ _ _ _ Hp) as (_ & _ & _ & Hsp).
  unfold leafDeleteElement. case_decide as Hk.
  - destruct Hd as (p' & -> & Hp' & Hm & Hc). eexists p', _. split_and!; [|eexists|done| |].
    + rewrite bool_decide_eq_true_2; [done|]. apply not_eq_None_Some. rewrite kv_map_None. tauto.
    + split_and!; [exact Hp'|by apply unique_remove|by apply kv_map_remove].
    + intros Hn%kv_map_None. done.
    + intros v Hv. split; [|done]. rewrite kv_map_lookup in Hv. pose proof (footprint_remove _ _ _ Hv). lia.
  - apply kv_map_None in Hk as Hn. exists p, g. rewrite bool_decide_eq_false_2 by (rewrite Hn; by intros []).
    split_and!; try done; [|intros v Hv; congruence]. exists l. split_and!; [done..|].
    by rewrite delete_id.
Qed.

(** C17: [DeleteElement], on a leaf page in which no value was ever shortened in
    place (every slot as large as its element, the garbage counter exact), removes
    exactly the key and reports whether it was there; the bytes of the element and
    its slot are added to the garbage, which stays exactly what a compaction can
    reclaim.  (After a value was shortened, the garbage is counted twice: see
    [garbage_counted_twice].) *)
Theorem leaf_DeleteElement_refines p m free g k :
  leaf_page p m free g ->
  exists p' g', leafDeleteElement p k = Some (p', bool_decide (is_Some (m !! k))) /\
    leaf_page p' (delete k m) free g' /\ meta p' = meta p /\
    (m !! k = None -> p' = p) /\
    (forall v, m !! k = Some v -> g' = g + leaf_need k v /\ crc_valid p').
Proof. apply leaf_delete. Qed.

(** In a full page of small elements the split index is inside the page, and
    both halves have room for one more element. *)
Lemma leaf_split_room p l free g i :
  node_page p l free g -> leafFindSplitNodeIndex p = Some i -> Forall (fun e => leaf_size e <= 500) l ->
  free < 500 -> g < 500 ->
  0 < i < len l /\ footprint (take (Z.to_nat i) l) <= 3560 /\ footprint (drop (Z.to_nat i) l) <= 3560.
Proof.
  intros Hp Hfi Hsm Hfree Hg. unfold leafFindSplitNodeIndex in Hfi.
  pose proof (node_page_split_minimal p l free g i Hp Hfi) as Hmin.
  destruct (node_page_FindSplitNodeIndex _ _ _ _ Hp) as (i' & Hfi' & Hb & Hne & Hhalf).
  rewrite Hfi in Hfi'. injection Hfi' as <-. apply node_page_space in Hp as (_ & ? & ? & Hsp).
  assert (forall k : list LeafNodeElement, 4 * len k <= sum_with elt_size k) as Hlow.
  { intros k. apply sum_with_lower. intros e. rewrite elt_size_leaf. unfold leaf_size. solve_len. }
  pose proof (Hlow l) as Hl. rewrite footprint_eq in Hsp.
  assert (0 < i) as Hi0.
  { apply Hne. intros ->. rewrite (@len_nil LeafNodeElement) in Hsp. unfold sum_with in Hsp. cbn in Hsp. lia. }
  set (n := Z.to_nat i) in *. replace (Z.to_nat (i - 1)) with (pred n) in Hmin by lia.
  destruct (lookup_lt_is_Some_2 l (pred n)) as [e He]; [unfold n, len in *; lia|].
  pose proof (sum_with_take_S elt_size l (pred n) e He) as HS. replace (S (pred n)) with n in HS by lia.
  rewrite elt_size_leaf in HS. rewrite list.Forall_forall in Hsm. specialize (Hsm e (list_elem_of_lookup_2 _ _ _ He)). cbn beta in Hsm.
  specialize (Hmin Hi0). rewrite !footprint_eq. pose proof (take_drop n l) as Htd.
  assert (sum_with elt_size l = sum_with elt_size (take n l) + sum_with elt_size (drop n l)) as Hsum
    by (by rewrite <- sum_with_app, Htd).
  assert (len l = len (take n l) + len (drop n l)) as Hlen by (by rewrite <- len_app, Htd).
  pose proof (Hlow (take n l)). pose proof (Hlow (drop n l)). pose proof (len_nonneg (take n l)). pose proof (len_nonneg (drop n l)).
  pose proof (Z.mul_div_le (sum_with elt_size l) 2 ltac:(lia)). pose proof (Z.mul_succ_div_gt (sum_with elt_size l) 2 ltac:(lia)).
  assert (i < len l) as Hin.
  { destruct (decide (i < len l)); [done|]. rewrite (take_ge l n) in HS by (unfold n, len in *; lia). lia. }
  specialize (Hhalf Hin). split_and!; lia.
Qed.

(** Cutting a sorted list at an element, whose key separates the two maps. *)
Lemma leaf_cut (l : list LeafNodeElement) (n : nat) (e : LeafNodeElement) :
  unique_keys l -> sorted_elts l -> l !! n = Some e -> (0 < n)%nat ->
  unique_keys (take n l) /\ unique_keys (drop n l) /\
  kv_map l = kv_map (take n l) ∪ kv_map (drop n l) /\ kv_map (take n l) ##ₘ kv_map (drop n l) /\
  kv_map (take n l) <> ∅ /\ is_Some (kv_map (drop n l) !! Key e) /\
  (forall k, is_Some (kv_map (take n l) !! k) -> key_lt k (Key e)) /\
  (forall k, is_Some (kv_map (drop n l) !! k) -> key_le (Key e) k).
Proof.
  intros Hu Hs He Hn. pose proof (lookup_lt_Some _ _ _ He) as Hlt. rewrite <- (take_drop n l) in Hu, Hs.
  assert (unique_keys (take n l) /\ unique_keys (drop n l)) as [Hu1 Hu2].
  { clear -Hu. unfold unique_keys in *. rewrite fmap_app in Hu. by apply list.NoDup_app in Hu as (? & _ & ?). }
  assert (drop n l = e :: drop (S n) l) as Hdrop by (by apply drop_S). split_and!; try done.
  - by rewrite <- kv_map_app, take_drop.
  - by apply kv_map_disjoint.
  - intros Hemp. pose proof (kv_map_size _ Hu1) as Hsz. rewrite Hemp, map_size_empty in Hsz.
    unfold len in *. rewrite length_take in Hsz. lia.
  - rewrite Hdrop. exists (Value e). rewrite kv_map_lookup. cbn. by rewrite bytesCompare_refl.
  - intros k [v (a & Ha & <-)%kv_map_Some_elem]. eapply sorted_unique_lt; [done..|]. rewrite Hdrop. by left.
  - intros k [v (a & Ha & <-)%kv_map_Some_elem]. apply StronglySorted_app_inv in Hs as (_ & Hs & _).
    rewrite Hdrop in Hs, Ha. inversion Hs as [|? ? _ Hf]; subst.
    apply elem_of_cons in Ha as [->|Ha]; [by apply key_le_refl|].
    rewrite list.Forall_forall in Hf. by apply Hf.
Qed.

(** The halves of a split, at any index inside the page. *)
Lemma leaf_split p q l free g rid i :
  node_page p l free g -> unique_keys l -> len q = 4096 -> 0 <= rid < 2 ^ 64 -> 0 < i < len l ->
  let n := Z.to_nat i in
  exists p' q' sep, SplitNode p q rid i = Some (p', q', sep) /\
    leaf_page p' (kv_map (take n l)) (4064 - footprint (take n l)) 0 /\
    leaf_page q' (kv_map (drop n l)) (4064 - footprint (drop n l)) 0 /\
    kv_map l = kv_map (take n l) ∪ kv_map (drop n l) /\ kv_map (take n l) ##ₘ kv_map (drop n l) /\
    kv_map (take n l) <> ∅ /\ is_Some (kv_map (drop n l) !! sep) /\
    (forall k, is_Some (kv_map (take n l) !! k) -> key_lt k sep) /\
    (forall k, is_Some (kv_map (drop n l) !! k) -> key_le sep k) /\
    GetNextLeafNodePageId p' = Some rid /\ GetNextLeafNodePageId q' = Some (fld 8 p 16) /\
    crc_valid p' /\ crc_valid q' /\ fld 1 p' 4 = fld 1 p 4 /\ fld 1 q' 4 = fld 1 q 4.
Proof.
  intros Hp Hu Hq Hrid Hi n.
  destruct (SplitNode_node p q l free g rid i Hp Hq ltac:(lia) Hrid)
    as (p' & q' & e & Hsp & He & Hp' & Hq' & Hmp & Hmq & Hcp & Hcq).
  fold n in He, Hp', Hq'.
  destruct (leaf_cut l n e Hu (node_page_sorted _ _ _ _ Hp) He ltac:(lia)) as (Hu1 & Hu2 & Hun & Hdis & Hne & Hsep & Hlo & Hup).
  pose proof (node_page_next _ _ _ _ Hp') as Hnp. pose proof (node_page_next _ _ _ _ Hq') as Hnq.
  injection Hmp as Htp Hmp _. injection Hmq as Htq Hmq _. rewrite Hmp in Hnp. rewrite Hmq in Hnq.
  exists p', q', (Key e). split_and!; try done; [by exists (take n l)|by exists (drop n l)].
Qed.


(** a leaf split is replayed from its log record: decoding the record of a
    page's elements and storing them in any page gives a page with the same
    map, packed without garbage. *)
Theorem leaf_log_roundtrip p m free g q :
  leaf_page p m free g -> len q = 4096 ->
  exists n data slots elements q',
    EncodeAllElements (E := LeafNodeElement) p = Some (n, data) /\ n = Z.of_nat (size m) /\
    DecodeAllSlotsAndElements data = Some (slots, elements) /\
    leafPutAllSlotsAndElements q slots elements = Some q' /\
    leaf_page q' m (free + g) 0 /\ meta q' = meta q.
Proof.
  intros (l & Hp & Hu & <-) Hq. destruct (node_page_EncodeAll _ _ _ _ Hp) as (data & He & Hd).
  pose proof (node_page_space _ _ _ _ Hp) as (_ & ? & ? & Hsp).
  destruct (node_page_PutAll q ((fun e => mkSlot (elt_size e) 0) <$> l) l) as (q' & Hput & Hq' & Hm);
    [done|apply sizes_match_record|by eapply node_page_ok|by eapply node_page_sorted|lia|].
  exists (len l), data, ((fun e => mkSlot (elt_size e) 0) <$> l), l, q'.
  split_and!; [done|by rewrite kv_map_size|done|done| |done].
  exists l. split_and!; [|done..]. by replace (free + g) with (4064 - footprint l) by lia.
Qed.

(** compaction turns all garbage into free space and keeps the map and the
    fields that identify the page. *)
Theorem leaf_compact_refines p m free g :
  leaf_page p m free g ->
  exists p', leafCompact p = Some p' /\ leaf_page p' m (free + g) 0 /\ meta p' = meta p.
Proof.
  intros (l & Hp & Hu & <-). destruct (node_page_compact _ _ _ _ Hp) as (p' & Heq & Hp' & Hm).
  exists p'. split_and!; [done| |done]. by exists l.
Qed.

(** ** Where the leaf codec does not do what its callers expect *)

(** [HasEnoughSpaceToInsertElement] does not count the new slot: when only
    the slot does not fit it answers yes, and [InsertElement], which does count
    it, then refuses, so a caller that ignores its result loses the pair. *)
Theorem leaf_space_check_misses_slot p m free g k v :
  leaf_page p m free g -> leaf_size (mkLeaf k v) <= free < leaf_need k v -> g < leaf_need k v ->
  HasEnoughSpaceToInsertElement p k v = Some (p, true) /\
  exists p', InsertElement p k v = Some (p', false) /\ leaf_page p' m free g.
Proof.
  intros (l & Hp & Hu & <-) Hf Hg. pose proof (node_page_space _ _ _ _ Hp) as (_ & ? & ? & Hsp).
  pose proof (footprint_nonneg l). split.
  - unfold HasEnoughSpaceToInsertElement.
    replace (2 + len k + 2 + len v) with (leaf_size (mkLeaf k v)) by (unfold leaf_size; cbn; lia).
    assert (0 <= leaf_size (mkLeaf k v)) by (unfold leaf_size; solve_len).
    destruct Hp as (es & fse & Hr & Ht & _ & _ & ->). unfold hasEnoughSpace.
    rewrite (isAdequate_spec _ _ _ _ (leaf_size (mkLeaf k v)) Hr) by lia. cbn [mbind option_bind].
    unfold free_space in *. by rewrite (proj2 (Z.leb_le _ _) (proj1 Hf)).
  - pose proof (InsertElement_node _ _ _ _ k v Hp ltac:(unfold leaf_need in *; lia)) as Hi. rewrite decide_False in Hi by lia.
    destruct Hi as (p' & Heq & Hp' & _). exists p'. split; [done|]. by exists l.
Qed.

(** when the last element holds at least half of the element bytes the
    computed split index is past the end, and [SplitNode] panics. *)
Theorem leaf_split_past_end_panics p q m free g rid i :
  leaf_page p m free g -> len q = 4096 -> leafFindSplitNodeIndex p = Some i -> i = Z.of_nat (size m) ->
  SplitNode p q rid i = None.
Proof.
  intros (l & Hp & Hu & <-) Hq Hfi Hi. rewrite kv_map_size in Hi by done. subst i.
  pose proof (node_page_space _ _ _ _ Hp) as (Hlen & _). pose proof (len_nonneg l).
  destruct (node_page_getAll _ _ _ _ Hp) as (ss & Hga & Hm). pose proof (sizes_match_len _ _ Hm) as Hls.
  unfold SplitNode, leafGetAllSlotsAndElements. change getHeaderSize with 32.
  rewrite slice_header by lia. cbn [mbind option_bind].
  rewrite decodePageHeader_eq by (rewrite len_sub; lia). cbn [mbind option_bind].
  rewrite !headerView_eq by lia. cbn [mbind option_bind]. rewrite Hga. cbn [mbind option_bind].
  rewrite !slice_take, !slice_drop by lia. cbn [mbind option_bind].
  unfold index. go_assert. rewrite lookup_ge_None_2; [done|]. rewrite to_nat_len. lia.
Qed.

(** [InsertElement] does not look for the key: inserting one that is already
    there stores a second element behind the first, and lookups keep returning
    the old value. *)
Theorem leaf_insert_existing_is_shadowed p m free g k v w :
  leaf_page p m free g -> m !! k = Some w -> leaf_need k v <= free ->
  exists p', InsertElement p k v = Some (p', true) /\ FindValue p' k = Some (Some w).
Proof.
  intros (l & Hp & Hu & <-) Hk Hfit. pose proof (node_page_space _ _ _ _ Hp) as (_ & ? & ? & Hsp).
  pose proof (footprint_nonneg l).
  pose proof (InsertElement_node _ _ _ _ k v Hp ltac:(lia)) as Hi. rewrite decide_True in Hi by lia.
  destruct Hi as (p' & Heq & Hp' & _). exists p'. split; [done|]. rewrite (FindValue_node _ _ _ _ _ Hp').
  rewrite findValue_insert by (by eapply node_page_sorted). rewrite decide_True by done.
  rewrite kv_map_lookup in Hk. by rewrite Hk.
Qed.

(** ** Sample pages *)

Definition zero_page : list byte := replicate 4096 x00.

(** The page after an accepted insertion. *)
Definition put (p k v : list byte) : list byte :=
  match InsertElement p k v with Some (p', _) => p' | None => p end.

Lemma leaf_page_zero : leaf_page zero_page ∅ 4064 0.
Proof. exists []. split_and!; [apply node_page_zero|constructor|done]. Qed.

Lemma leaf_page_put p m free g k v :
  leaf_page p m free g -> m !! k = None -> leaf_need k v <= free ->
  leaf_page (put p k v) (<[k := v]> m) (free - leaf_need k v) g.
Proof.
  intros (l & Hp & Hu & <-) Hk Hfit. pose proof (node_page_space _ _ _ _ Hp) as (_ & ? & ? & Hsp).
  pose proof (footprint_nonneg l). pose proof (InsertElement_node _ _ _ _ k v Hp ltac:(lia)) as Hi.
  rewrite decide_True in Hi by lia. destruct Hi as (p' & Heq & Hp' & _). unfold put. rewrite Heq.
  unfold room_after in Hp'. rewrite (proj2 (Z.leb_le _ _) Hfit) in Hp'. eexists.
  split_and!; [exact Hp'|by apply unique_insert|]. apply kv_map_insert; [by eapply node_page_sorted|done].
Qed.

Definition key_a : list byte := [x61].
Definition key_b : list byte := [x62].
Definition short_value : list byte := [x31; x32].
Definition long_value : list byte := [x33; x34; x35].

(** Two pages with the keys a and b: the first element is the larger one in
    [sample_page], the second in [lopsided_page]. *)
Definition sample_page : list byte := put (put zero_page key_a long_value) key_b short_value.
Definition sample_map : kvmap := <[key_b := short_value]> (<[key_a := long_value]> ∅).
Definition lopsided_page : list byte := put (put zero_page key_a short_value) key_b long_value.
Definition lopsided_map : kvmap := <[key_b := long_value]> (<[key_a := short_value]> ∅).

Lemma leaf_page_sample : leaf_page sample_page sample_map 4041 0.
Proof.
  apply (leaf_page_put _ _ (4064 - 12)); [|done|done]. by apply (leaf_page_put _ _ 4064); [apply leaf_page_zero|..].
Qed.

Lemma leaf_page_lopsided : leaf_page lopsided_page lopsided_map 4041 0.
Proof.
  apply (leaf_page_put _ _ (4064 - 11)); [|done|done]. by apply (leaf_page_put _ _ 4064); [apply leaf_page_zero|..].
Qed.

Lemma leaf_FindValue_refines_witness : FindValue sample_page key_b = Some (Some short_value).
Proof.
  rewrite (leaf_FindValue_refines sample_page sample_map); [reflexivity|].
  eapply leaf_page_is_slack, leaf_page_sample.
Defined.

Lemma leaf_InsertElement_refines_witness :
  exists p', InsertElement zero_page key_a long_value = Some (p', true) /\
    leaf_page p' {[key_a := long_value]} 4052 0.
Proof.
  destruct (leaf_InsertElement_refines zero_page ∅ 4064 0 key_a long_value leaf_page_zero)
    as (p' & Heq & Hp & _); [reflexivity|reflexivity|].
  exists p'. split; [exact Heq|exact Hp].
Defined.

Lemma leaf_update_refines_witness :
  exists p1 p2, HasEnoughSpaceToUpdateValue sample_page key_b short_value long_value = Some (p1, true) /\
    SetValue p1 key_b long_value = Some p2 /\ leaf_page_slack p2 (<[key_b := long_value]> sample_map).
Proof.
  destruct (leaf_update_refines sample_page sample_map 4041 0 key_b long_value short_value leaf_page_sample)
    as (p1 & b & Heq & Hb & _ & Ht); [reflexivity|reflexivity|].
  destruct (proj2 Hb) as []; [right; left; vm_compute; discriminate|].
  destruct (Ht eq_refl) as (p2 & Hset & Hs & _). exists p1, p2. auto.
Defined.

Lemma leaf_DeleteElement_refines_witness :
  exists p' g', leafDeleteElement sample_page key_a = Some (p', true) /\
    leaf_page p' (delete key_a sample_map) 4041 g'.
Proof.
  destruct (leaf_DeleteElement_refines sample_page sample_map 4041 0 key_a leaf_page_sample)
    as (p' & g' & Heq & Hp & _).
  exists p', g'. split; [exact Heq|exact Hp].
Defined.


Lemma leaf_log_roundtrip_witness :
  exists n data slots elements q', EncodeAllElements (E := LeafNodeElement) sample_page = Some (n, data) /\
    DecodeAllSlotsAndElements data = Some (slots, elements) /\
    leafPutAllSlotsAndElements zero_page slots elements = Some q' /\ leaf_page q' sample_map 4041 0.
Proof.
  destruct (leaf_log_roundtrip sample_page sample_map 4041 0 zero_page leaf_page_sample)
    as (n & data & slots & elements & q' & He & _ & Hd & Hput & Hq & _); [reflexivity|].
  exists n, data, slots, elements, q'. auto.
Defined.

Lemma leaf_compact_refines_witness : exists p', leafCompact sample_page = Some p' /\ leaf_page p' sample_map 4041 0.
Proof.
  destruct (leaf_compact_refines sample_page sample_map 4041 0 leaf_page_sample) as (p' & Heq & Hp & _).
  exists p'. auto.
Defined.

Lemma leaf_space_check_misses_slot_witness :
  HasEnoughSpaceToInsertElement zero_page key_a (replicate 4056 x30) = Some (zero_page, true) /\
  exists p', InsertElement zero_page key_a (replicate 4056 x30) = Some (p', false).
Proof.
  destruct (leaf_space_check_misses_slot zero_page ∅ 4064 0 key_a (replicate 4056 x30) leaf_page_zero)
    as (Hyes & p' & Hno & _); [vm_compute; split; congruence|reflexivity|].
  split; [exact Hyes|]. exists p'. exact Hno.
Defined.

Lemma leaf_split_past_end_panics_witness : SplitNode lopsided_page zero_page 7 2 = None.
Proof.
  apply (leaf_split_past_end_panics lopsided_page zero_page lopsided_map 4041 0 7 2 leaf_page_lopsided);
    vm_compute; reflexivity.
Defined.

Lemma leaf_insert_existing_is_shadowed_witness :
  exists p', InsertElement sample_page key_b long_value = Some (p', true) /\
    FindValue p' key_b = Some (Some short_value).
Proof.
  apply (leaf_insert_existing_is_shadowed sample_page sample_map 4041 0 key_b long_value short_value
    leaf_page_sample); [reflexivity|vm_compute; discriminate].
Defined.
