(* ===== verification/InternalNodeCodec.v ===== *)
(** * The internal node codec (src/pagecodec/internal_node_codec.go)

    Separator keys with the page ids of the children on their two sides, in a
    slotted page: their encoding, the choice of the child to descend to, the
    insertion of a separator with the repair of its neighbours' child ids, and
    the split that moves the middle separator up. *)

From S2P Require Export PageSplit.

Record InternalNodeElement := mkInternal {
  InternalKey : list byte;
  LeftChildNodePageId : Z;
  RightChildNodePageId : Z
}.

#[export] Instance InternalNodeElement_eq_decision : EqDecision InternalNodeElement.
Proof. solve_decision. Defined.

(** ** Elements *)

(** [key := make([]byte, n); copy(key, src)] with [src] of [n] bytes is a copy. *)
Definition decodeElement (elementBytes : list byte) : option InternalNodeElement :=
  let pointer := 0 in
  keyLength ← readUint 2 elementBytes pointer;
  let pointer := u16 (pointer + 2) in
  key ← slice elementBytes pointer (u16 (pointer + keyLength));
  let pointer := u16 (pointer + keyLength) in
  left ← readUint 8 elementBytes pointer;
  let pointer := u16 (pointer + 8) in
  right ← readUint 8 elementBytes pointer;
  Some (mkInternal key left right).

Definition encodeElement (element : InternalNodeElement) : list byte :=
  le 2 (u16 (len (InternalKey element))) ++ InternalKey element ++
  le 8 (LeftChildNodePageId element) ++ le 8 (RightChildNodePageId element).

Definition calculateElementSize (element : InternalNodeElement) : Z :=
  u16 (2 + len (InternalKey element) + 8 + 8).

(** The destination is [page[freeSpaceEnd-len:]], to the end of the page. *)
Definition appendElement (page : list byte) (freeSpaceEnd : Z) (element : InternalNodeElement)
    : option (list byte * Z) :=
  let elementBytes := encodeElement element in
  v ← slice_view page (freeSpaceEnd - len elementBytes) (len page);
  page ← copyInto page v 0 elementBytes;
  Some (page, u16 (freeSpaceEnd - u16 (len elementBytes))).

#[export] Instance InternalNodeElement_NodeElement : NodeElement InternalNodeElement := {
  elt_encode := encodeElement;
  elt_decode := decodeElement;
  elt_key := InternalKey;
  elt_append := appendElement
}.

Definition setRightChildNodePageId (page : list byte) (elementBytes : view) (id : Z)
    : option (list byte) :=
  let pointer := 0 in
  keySize ← readUint 2 (view_bytes page elementBytes) pointer;
  let pointer := pointer + 2 + keySize + 8 in
  putUint 8 page elementBytes pointer id.

Definition setLeftChildNodePageId (page : list byte) (elementBytes : view) (id : Z)
    : option (list byte) :=
  let pointer := 0 in
  keySize ← readUint 2 (view_bytes page elementBytes) pointer;
  let pointer := pointer + 2 + keySize in
  putUint 8 page elementBytes pointer id.

(** ** Page operations *)

Definition internalGetAllSlotsAndElements (page : list byte)
    : option (list Slot * list InternalNodeElement) :=
  getAllSlotsAndElements page.

Definition internalPutAllSlotsAndElements (page : list byte) (slots : list Slot)
    (elements : list InternalNodeElement) : option (list byte) :=
  PutAllSlotsAndElements page slots elements.

(** Unlike the previous function, after what the page holds, and it leaves the
    filled flag alone. *)
Definition appendAllSlotsAndElements (page : list byte) (slots : list Slot)
    (elements : list InternalNodeElement) : option (list byte) :=
  headerBytes ← slice page 0 getHeaderSize;
  header ← decodePageHeader headerBytes;
  '(page, fsb, fse) ← putAll_loop page (freeSpaceBegin header) (freeSpaceEnd header) slots elements;
  hb ← headerView page;
  page ← setNumSlots page hb (numSlots header + len slots);
  page ← setFreeSpaceBegin page hb fsb;
  page ← setFreeSpaceEnd page hb fse;
  setGarbageSize page hb 0.

Definition internalCompact (page : list byte) : option (list byte) :=
  compact (E := InternalNodeElement) page.

Definition internalLinearSearch (page key : list byte) : option (view * view * Z) :=
  linearSearch (E := InternalNodeElement) page key.

Definition internalDeleteElement (page key : list byte) : option (list byte * bool) :=
  DeleteElement (E := InternalNodeElement) page key.

Definition internalFindSplitNodeIndex (leftNode : list byte) : option Z :=
  FindSplitNodeIndex (E := InternalNodeElement) leftNode.

Definition internalEncodeAllElements (page : list byte) : option (Z * list byte) :=
  EncodeAllElements (E := InternalNodeElement) page.

Definition internalDecodeAllSlotsAndElements (payload : list byte)
    : option (list Slot * list InternalNodeElement) :=
  DecodeAllSlotsAndElements payload.

Definition internalSetNodeType (page : list byte) : option (list byte) :=
  hb ← headerView page; SetNodeType page hb false.

Definition internalSetLSN (page : list byte) (x : Z) : option (list byte) := SetLSN page x.
Definition internalGetLSN (page : list byte) : option Z := GetLSN page.

(** [next] is the value [nextChildNodePageId] has before the iteration. *)
Fixpoint findNext_loop (elements : list InternalNodeElement) (key : list byte) (next : Z) : Z :=
  match elements with
  | [] => next
  | element :: elements =>
      let result := bytesCompare (InternalKey element) key in
      if result =? 0 then RightChildNodePageId element
      else if result =? 1 then LeftChildNodePageId element
      else findNext_loop elements key (RightChildNodePageId element)
  end.

Definition FindNextChildNodePageId (page key : list byte) : option Z :=
  '(_, elements) ← internalGetAllSlotsAndElements page;
  Some (findNext_loop elements key 0).

Definition HasEnoughSpaceToInsertElement (page key : list byte) : option (list byte * bool) :=
  let totalSpaceRequired := 2 + len key + 8 + 8 in
  hasEnoughSpace (E := InternalNodeElement) page totalSpaceRequired.

(** The scan of [InsertSlot]: the slots to write behind the new one, and the
    elements next to it, the last smaller one and the first greater one, as
    slices of the page. *)
Fixpoint insertSlotChildren_loop (page key : list byte) (n : nat) (pointer : Z)
    (greaterFound : bool) (smaller greater : view) : option (list Slot * view * view) :=
  match n with
  | O => Some ([], smaller, greater)
  | S n =>
      slotBytes ← slice page pointer (pointer + getSlotSize);
      existingSlot ← decodeSlot slotBytes;
      if negb (isElementDeleted existingSlot) then
        elementBytes ← slice_view page (elementPointer existingSlot)
                         (u16 (elementPointer existingSlot + elementSize existingSlot));
        existingElement ← decodeElement (view_bytes page elementBytes);
        let result := bytesCompare (InternalKey existingElement) key in
        if result =? 1 then
          '(rest, smaller, greater) ←
             insertSlotChildren_loop page key n (pointer + getSlotSize) true smaller
               (if negb greaterFound then elementBytes else greater);
          Some (existingSlot :: rest, smaller, greater)
        else
          insertSlotChildren_loop page key n (pointer + getSlotSize) greaterFound
            (if result =? -1 then elementBytes else smaller) greater
      else
        if greaterFound then
          '(rest, smaller, greater) ←
             insertSlotChildren_loop page key n (pointer + getSlotSize) greaterFound smaller greater;
          Some (existingSlot :: rest, smaller, greater)
        else insertSlotChildren_loop page key n (pointer + getSlotSize) greaterFound smaller greater
  end.

Definition InsertSlot (page : list byte) (newSlot : Slot) (key : list byte) (left right : Z)
    : option (list byte * Z) :=
  headerBytes ← slice page 0 getHeaderSize;
  header ← decodePageHeader headerBytes;
  '(greaterSlots, smallerBytes, greaterBytes) ←
     insertSlotChildren_loop page key (Z.to_nat (numSlots header)) getHeaderSize false nil_view nil_view;
  let greaterSlots := newSlot :: greaterSlots in
  let numSlotsGreater := len greaterSlots - 1 in
  let fsb := u16 (freeSpaceBegin header - u16 (numSlotsGreater * getSlotSize)) in
  '(page, fsb) ← appendSlots page fsb greaterSlots;
  if numSlots header =? 0 then Some (page, fsb)
  else
    page ← (if negb (v_len greaterBytes =? 0) then setLeftChildNodePageId page greaterBytes right
            else Some page);
    page ← (if negb (v_len smallerBytes =? 0) then setRightChildNodePageId page smallerBytes left
            else Some page);
    Some (page, fsb).

Definition InsertElement (page key : list byte) (left right : Z) : option (list byte * bool) :=
  let elementSpaceRequired := 2 + len key + 8 + 8 in
  let slotSpaceRequired := getSlotSize in
  room ← ensureRoom (E := InternalNodeElement) page (elementSpaceRequired + slotSpaceRequired);
  match room with
  | None =>
      page ← updateCRC page;
      Some (page, false)
  | Some (page, header) =>
      let newElement := mkInternal key left right in
      '(page, fse) ← appendElement page (freeSpaceEnd header) newElement;
      let newSlot := mkSlot (calculateElementSize newElement) fse in
      '(page, fsb) ← InsertSlot page newSlot key left right;
      page ← finishInsert page header fse fsb;
      Some (page, true)
  end.

(** The separator at the split index moves up and stays in neither half. *)
Definition SplitNode (leftNode rightNode : list byte) (rightNodePageId splitIndex : Z)
    : option (list byte * list byte * list byte) :=
  leftNodeHeaderBytes ← slice leftNode 0 getHeaderSize;
  leftNodeHeader ← decodePageHeader leftNodeHeaderBytes;
  leftHb ← headerView leftNode;
  rightHb ← headerView rightNode;
  '(slots, elements) ← internalGetAllSlotsAndElements leftNode;
  leftSlots ← slice slots 0 splitIndex;
  leftElements ← slice elements 0 splitIndex;
  rightSlots ← slice slots (splitIndex + 1) (len slots);
  rightElements ← slice elements (splitIndex + 1) (len elements);
  extra ← index elements splitIndex;
  leftNode ← internalPutAllSlotsAndElements leftNode leftSlots leftElements;
  rightNode ← internalPutAllSlotsAndElements rightNode rightSlots rightElements;
  rightNode ← setNextLeafNodePageId rightNode rightHb (nextLeafNodePageId leftNodeHeader);
  leftNode ← setNextLeafNodePageId leftNode leftHb rightNodePageId;
  rightNode ← updateCRC rightNode;
  leftNode ← updateCRC leftNode;
  Some (leftNode, rightNode, InternalKey extra).

(** ** Elements round trip *)

Definition internal_size (e : InternalNodeElement) : Z := 18 + len (InternalKey e).

Definition internal_ok (e : InternalNodeElement) : Prop :=
  internal_size e < 65535 /\ 0 <= LeftChildNodePageId e < 2 ^ 64 /\ 0 <= RightChildNodePageId e < 2 ^ 64.

Lemma len_internal_encode e : len (encodeElement e) = internal_size e.
Proof. unfold encodeElement, internal_size. rewrite !len_app, !len_le. lia. Qed.

#[export] Hint Rewrite len_internal_encode : len.

Lemma internal_decode_encode e rest : internal_ok e -> decodeElement (encodeElement e ++ rest) = Some e.
Proof.
  destruct e as [k a b]. unfold internal_ok, internal_size, encodeElement; cbn [InternalKey LeftChildNodePageId RightChildNodePageId].
  intros (Hok & Ha & Hb). pose proof (len_nonneg k). rewrite <- !app_assoc. unfold decodeElement.
  rewrite readUint_head. cbn [mbind option_bind]. change (256 ^ Z.of_nat 2) with 65536.
  change (u16 (0 + 2)) with 2. rewrite (u16_id (len k)), (Z.mod_small (len k)) by lia.
  rewrite (u16_id (2 + len k)) by lia. rewrite (slice_middle (le 2 (len k)) k) by done. cbn [mbind option_bind].
  rewrite (app_assoc (le 2 (len k)) k). rewrite (readUint_middle 8 _ a _ (2 + len k)) by (rewrite ?len_app, ?len_le; lia).
  cbn [mbind option_bind]. change (256 ^ Z.of_nat 8) with (2 ^ 64). rewrite (Z.mod_small a) by lia.
  rewrite (u16_id (2 + len k + 8)) by lia. rewrite (app_assoc (le 2 (len k) ++ k)).
  rewrite readUint_middle by (rewrite !len_app, !len_le; lia). cbn [mbind option_bind].
  change (256 ^ Z.of_nat 8) with (2 ^ 64). by rewrite (Z.mod_small b) by lia.
Qed.

Lemma internal_append_eq page fse e :
  internal_size e <= fse -> fse <= len page -> fse < 65536 ->
  appendElement page fse e =
    Some (write page (fse - internal_size e) (encodeElement e), fse - internal_size e).
Proof.
  intros H1 H2 H3. unfold appendElement. rewrite len_internal_encode.
  assert (0 <= internal_size e) by (unfold internal_size; solve_len).
  rewrite slice_view_eq by lia. cbn [mbind option_bind]. unfold copyInto; cbn [v_off v_len]. go_assert.
  cbn [mbind option_bind]. rewrite !u16_id by (rewrite ?u16_id; lia). rewrite Z.add_0_r, take_ge; [done|].
  pose proof (len_internal_encode e). unfold len in *. lia.
Qed.

#[export] Program Instance InternalNodeElement_laws : NodeElementLaws InternalNodeElement := {
  elt_ok := internal_ok
}.
Next Obligation.
  intros e [Hok _]. unfold elt_size; cbn. rewrite len_internal_encode. unfold internal_size in *. solve_len.
Qed.
Next Obligation. intros. by apply internal_decode_encode. Qed.
Next Obligation.
  intros page fse e. unfold elt_size; cbn. rewrite len_internal_encode. intros. by apply internal_append_eq.
Qed.

Lemma elt_size_internal (e : InternalNodeElement) : elt_size e = internal_size e.
Proof. apply len_internal_encode. Qed.

Lemma internal_calculateElementSize_eq e : internal_ok e -> calculateElementSize e = internal_size e.
Proof.
  unfold internal_ok, calculateElementSize, internal_size. intros []. rewrite u16_id by solve_len. lia.
Qed.
