(* ===== verification/InternalNodeSpec.v ===== *)
(** * What an internal page promises: routing keys to children

    [children l] is the list of child ids of a node with the separators [l]; in
    a linked node neighbouring separators agree on the child between them.
    Inserting the separator of a split child replaces that child by the two
    halves, and descending follows the separators. *)

From S2P Require Export InternalNodeCodec.

(** ** The neighbours of the inserted separator *)

Section scan.
Implicit Types (p : list byte) (e : InternalNodeElement) (es : list (entry InternalNodeElement)).

Definition view_of (acc : view) (x : entry InternalNodeElement) : view :=
  match x with Live ptr size _ => View ptr size | Dead _ => acc end.

(** The last live entry. *)
Definition last_live (acc : view) es : view := foldl view_of acc es.

Definition first_view es : view := match es with Live ptr size _ :: _ => View ptr size | _ => nil_view end.

(** A live entry, read as the scan reads it. *)
Lemma scan_element p fse ptr size e :
  0 <= fse -> len p = 4096 -> entry_ok p fse (Live ptr size e) ->
  slice_view p ptr (u16 (ptr + size)) = Some (View ptr size) /\
  decodeElement (view_bytes p (View ptr size)) = Some e.
Proof.
  intros Hfse Hlen Hx. pose proof (decode_element p fse ptr size e Hfse Hlen Hx) as Hde.
  pose proof Hx as (? & ? & ? & ? & ?). pose proof (elt_size_nonneg e). rewrite u16_id in * by lia.
  rewrite slice_view_eq by lia. rewrite slice_eq in Hde by lia. cbn [mbind option_bind] in Hde.
  replace (ptr + size - ptr) with size in * by lia. done.
Qed.

Lemma scan_found p fse k es pointer sm gr :
  0 <= fse -> len p = 4096 -> Forall (entry_ok p fse) es -> holds p pointer (slot_bytes es) ->
  (forall e, e ∈ lives es -> key_lt k (InternalKey e)) ->
  insertSlotChildren_loop p k (length es) pointer true sm gr = Some (slot_of <$> es, sm, gr).
Proof.
  intros Hfse Hlen. revert pointer. induction es as [|x es IH]; intros pointer He Hh Hk; [done|].
  inversion He as [|? ? Hx He']; subst. cbn [length insertSlotChildren_loop].
  pose proof (decodeSlot_entry p pointer fse x (slot_bytes es) Hfse Hx Hh) as Hd.
  apply holds_app in Hh as [_ Hh]. rewrite len_encodeSlot in Hh. change getSlotSize with 4.
  destruct (slice p pointer (pointer + 4)) as [sb|]; [|done].
  cbn [mbind option_bind] in Hd |- *. rewrite Hd. cbn [mbind option_bind]. rewrite lives_cons in Hk.
  destruct x as [ptr size e|size].
  - cbn [slot_of elementPointer elementSize]. rewrite (isElementDeleted_live p fse ptr size e) by done.
    destruct (scan_element p fse ptr size e Hfse Hlen Hx) as [Hv Hde]. cbn [negb]. rewrite Hv. cbn [mbind option_bind].
    rewrite Hde. cbn [mbind option_bind].
    rewrite (proj2 (Z.eqb_eq _ _)); [|apply key_gt_lt, Hk; by left].
    rewrite IH; [done..|]. intros e' ?. apply Hk. by right.
  - cbn. by rewrite IH.
Qed.

Lemma scan_spec p fse k es pointer sm :
  0 <= fse -> len p = 4096 -> Forall (entry_ok p fse) es -> holds p pointer (slot_bytes es) ->
  sorted_elts (lives es) -> (forall e, e ∈ lives es -> InternalKey e <> k) ->
  insertSlotChildren_loop p k (length es) pointer false sm nil_view =
    Some (slot_of <$> after k es, last_live sm (before k es), first_view (after k es)).
Proof.
  intros Hfse Hlen. revert pointer sm. induction es as [|x es IH]; intros pointer sm He Hh Hs Hne; [done|].
  pose proof (after_gt k (x :: es)) as Hgt. specialize (fun e => Hgt e Hs).
  inversion He as [|? ? Hx He']; subst. cbn [length insertSlotChildren_loop after before] in *.
  pose proof (decodeSlot_entry p pointer fse x (slot_bytes es) Hfse Hx Hh) as Hd.
  apply holds_app in Hh as [_ Hh]. rewrite len_encodeSlot in Hh. change getSlotSize with 4.
  destruct (slice p pointer (pointer + 4)) as [sb|]; [|done].
  cbn [mbind option_bind] in Hd |- *. rewrite Hd. cbn [mbind option_bind]. rewrite lives_cons in Hs, Hne.
  destruct x as [ptr size e|size].
  - cbn [slot_of elementPointer elementSize greater] in *.
    rewrite (isElementDeleted_live p fse ptr size e) by done.
    destruct (scan_element p fse ptr size e Hfse Hlen Hx) as [Hv Hde]. cbn [negb]. rewrite Hv. cbn [mbind option_bind].
    rewrite Hde. cbn [mbind option_bind]. inversion Hs as [|? ? Hs' _]; subst.
    cbn [elt_key InternalNodeElement_NodeElement] in *.
    destruct (Z.eqb_spec (bytesCompare (InternalKey e) k) 1) as [Hg|Hg].
    + rewrite (scan_found p fse k es _ _ _ Hfse Hlen He' Hh); [done|]. intros e' He2. apply Hgt.
      rewrite lives_cons. by right.
    + assert (bytesCompare (InternalKey e) k = -1) as ->.
      { pose proof (bytesCompare_cases (InternalKey e) k).
        assert (bytesCompare (InternalKey e) k <> 0) by (rewrite bytesCompare_eq; apply Hne; by left). lia. }
      cbn [Z.eqb]. rewrite IH; [done..|]. intros e' ?. apply Hne. by right.
  - cbn. by apply IH.
Qed.

Lemma last_live_cases es :
  lives es = [] /\ last_live nil_view es = nil_view \/
  exists es1 ptr size e es2, es = es1 ++ Live ptr size e :: es2 /\ lives es2 = [] /\
    last_live nil_view es = View ptr size.
Proof.
  induction es as [|x es IH] using rev_ind; [by left|]. unfold last_live in *. rewrite foldl_app. cbn.
  destruct x as [ptr size e|size]; cbn.
  - right. by exists es, ptr, size, e, [].
  - destruct IH as [[Hl ->]|(es1 & ptr & sz & e & es2 & -> & Hl & ->)].
    + left. by rewrite lives_app, Hl.
    + right. exists es1, ptr, sz, e, (es2 ++ [Dead size]). rewrite <- app_assoc, lives_app, Hl. done.
Qed.

Lemma after_cases k es :
  after k es = [] \/ exists ptr size e es2, after k es = Live ptr size e :: es2.
Proof.
  induction es as [|x es IH]; cbn; [by left|]. destruct x as [ptr size e|size]; cbn; [|done].
  case_match; [|done]. right. by eexists _, _, _, _.
Qed.

End scan.

(** ** Writing a child id into an element *)

Definition set_left (c : Z) (e : InternalNodeElement) : InternalNodeElement :=
  mkInternal (InternalKey e) c (RightChildNodePageId e).
Definition set_right (c : Z) (e : InternalNodeElement) : InternalNodeElement :=
  mkInternal (InternalKey e) (LeftChildNodePageId e) c.

Lemma internal_ok_set_left c e : internal_ok e -> 0 <= c < 2 ^ 64 -> internal_ok (set_left c e).
Proof. intros (H1 & H2 & H3) Hc. exact (conj H1 (conj Hc H3)). Qed.

Lemma internal_ok_set_right c e : internal_ok e -> 0 <= c < 2 ^ 64 -> internal_ok (set_right c e).
Proof. intros (H1 & H2 & H3) Hc. exact (conj H1 (conj H2 Hc)). Qed.

Definition left_off (e : InternalNodeElement) : Z := 2 + len (InternalKey e).
Definition right_off (e : InternalNodeElement) : Z := 2 + len (InternalKey e) + 8.

Lemma holds_set_left p ptr e c :
  len p = 4096 -> holds p ptr (encodeElement e) -> internal_ok e ->
  holds (write p (ptr + left_off e) (le 8 c)) ptr (encodeElement (set_left c e)).
Proof.
  intros Hlen Hh (Hok & _). unfold encodeElement, left_off, internal_size in *. cbn [InternalKey set_left LeftChildNodePageId RightChildNodePageId].
  pose proof Hh as (? & Hb & _). rewrite !len_app, !len_le in Hb. pose proof (len_nonneg (InternalKey e)).
  rewrite !holds_app in *. rewrite !len_le in *. destruct Hh as (Hk1 & Hk2 & Hl & Hr).
  rewrite !(u16_id (len (InternalKey e))) in * by lia. split_and!; try by (apply page_holds_other; [|page_side..]).
  replace (ptr + Z.of_nat 2 + len (InternalKey e)) with (ptr + (2 + len (InternalKey e))) by lia.
  apply page_holds_same; page_side.
Qed.

Lemma holds_set_right p ptr e c :
  len p = 4096 -> holds p ptr (encodeElement e) -> internal_ok e ->
  holds (write p (ptr + right_off e) (le 8 c)) ptr (encodeElement (set_right c e)).
Proof.
  intros Hlen Hh (Hok & _). unfold encodeElement, right_off, internal_size in *. cbn [InternalKey set_right LeftChildNodePageId RightChildNodePageId].
  pose proof Hh as (? & Hb & _). rewrite !len_app, !len_le in Hb. pose proof (len_nonneg (InternalKey e)).
  rewrite !holds_app in *. rewrite !len_le in *. destruct Hh as (Hk1 & Hk2 & Hl & Hr).
  rewrite !(u16_id (len (InternalKey e))) in * by lia. split_and!; try by (apply page_holds_other; [|page_side..]).
  replace (ptr + Z.of_nat 2 + len (InternalKey e) + Z.of_nat 8) with (ptr + (2 + len (InternalKey e) + 8)) by lia.
  apply page_holds_same; page_side.
Qed.

(** Two pages with the same header bytes. *)
Definition same_header (p q : list byte) : Prop := sub p 0 32 = sub q 0 32.

Lemma same_header_fld n p q o :
  same_header p q -> 0 <= o -> o + Z.of_nat n <= 32 -> fld n p o = fld n q o.
Proof. intros Hs ? ?. rewrite <- (fld_sub n p 32), <- (fld_sub n q 32) by lia. by rewrite Hs. Qed.

Lemma same_header_meta p q : same_header p q -> meta p = meta q.
Proof. intros Hs. unfold meta. by rewrite !(same_header_fld _ p q) by (done || simpl; lia). Qed.

(** Rewriting one element of a page body inside its region. *)
Lemma body_rewrite p es1 ptr size (e e' : InternalNodeElement) es2 fse off bs :
  page_body p (es1 ++ Live ptr size e :: es2) fse ->
  32 + 4 * len (es1 ++ Live ptr size e :: es2) <= fse ->
  ptr <= off -> off + len bs <= ptr + size -> elt_size e' = elt_size e -> elt_ok e' ->
  holds (write p off bs) ptr (elt_encode e') ->
  page_body (write p off bs) (es1 ++ Live ptr size e' :: es2) fse /\ same_header (write p off bs) p.
Proof.
  intros [Hlen Hs He Ha] Hroom ? ? Hsz Hok Hh. apply Forall_app in He as [He1 He2].
  inversion He2 as [|? ? Hx He2']; subst. pose proof Hx as (? & ? & ? & _ & _). pose proof (len_nonneg bs).
  rewrite len_app, len_cons in *. pose proof (len_nonneg es1). pose proof (len_nonneg es2).
  destruct (entries_write_inside p es1 ptr size e es2 fse off bs) as [Hi1 Hi2]; try done; try lia.
  split; [constructor|].
  - apply page_write_len; [done|lia..].
  - rewrite slot_bytes_app in *. change (slot_bytes (Live ptr size e' :: es2)) with (slot_bytes (Live ptr size e :: es2)).
    apply page_holds_other; try done; [lia|lia|]. rewrite len_app, !len_slot_bytes, len_cons. lia.
  - apply Forall_app. split; [done|]. constructor; [|done]. split_and!; [lia|lia|lia|done|done].
  - by eapply apart_same_region.
  - apply page_sub_other; [done|lia..].
Qed.

Lemma view_bytes_internal p fse ptr size (e : InternalNodeElement) :
  0 <= fse -> len p = 4096 -> entry_ok p fse (Live ptr size e) ->
  readUint 2 (view_bytes p (View ptr size)) 0 = Some (len (InternalKey e)).
Proof.
  intros ? ? (? & ? & Hsz & Hh & Hok). rewrite elt_size_internal in Hsz. cbn in Hok. destruct Hok as (Hok & _).
  destruct (holds_slice_prefix p ptr (encodeElement e) size) as (rest & Hs & _);
    [done|by rewrite len_internal_encode|lia|].
  pose proof Hh as (? & ? & _). pose proof (len_nonneg (InternalKey e)). unfold internal_size in *.
  rewrite slice_eq in Hs by solve_len.
  change (view_bytes p (View ptr size)) with (sub p ptr size).
  replace (ptr + size - ptr) with size in Hs by lia.
  assert (sub p ptr size = encodeElement e ++ rest) as -> by congruence.
  unfold encodeElement. rewrite <- !app_assoc, readUint_head. change (256 ^ Z.of_nat 2) with 65536.
  rewrite u16_id, Z.mod_small by lia. done.
Qed.

Lemma body_setLeft p es1 ptr size (e : InternalNodeElement) es2 fse c :
  page_body p (es1 ++ Live ptr size e :: es2) fse ->
  32 + 4 * len (es1 ++ Live ptr size e :: es2) <= fse -> 0 <= c < 2 ^ 64 ->
  exists p', setLeftChildNodePageId p (View ptr size) c = Some p' /\
    page_body p' (es1 ++ Live ptr size (set_left c e) :: es2) fse /\ same_header p' p.
Proof.
  intros Hb Hroom Hc. pose proof Hb as [Hlen _ He _]. apply Forall_app in He as [_ He].
  inversion He as [|? ? Hx _]; subst. pose proof (len_nonneg (es1 ++ Live ptr size e :: es2)).
  unfold setLeftChildNodePageId. rewrite (view_bytes_internal p fse ptr size e) by (done || lia).
  pose proof Hx as (? & ? & Hsz & Hh & Hok). rewrite elt_size_internal in Hsz. unfold internal_size in Hsz.
  cbn in Hok. cbn [mbind option_bind]. pose proof (len_nonneg (InternalKey e)).
  rewrite putUint_eq by (cbn [v_len]; simpl; lia). eexists. split; [done|]. cbn [v_off].
  rewrite Z.add_0_l. fold (left_off e). eapply body_rewrite; try done.
  - unfold left_off. lia.
  - rewrite len_le. unfold left_off. lia.
  - rewrite !elt_size_internal. done.
  - by apply internal_ok_set_left.
  - by apply holds_set_left.
Qed.

Lemma body_setRight p es1 ptr size (e : InternalNodeElement) es2 fse c :
  page_body p (es1 ++ Live ptr size e :: es2) fse ->
  32 + 4 * len (es1 ++ Live ptr size e :: es2) <= fse -> 0 <= c < 2 ^ 64 ->
  exists p', setRightChildNodePageId p (View ptr size) c = Some p' /\
    page_body p' (es1 ++ Live ptr size (set_right c e) :: es2) fse /\ same_header p' p.
Proof.
  intros Hb Hroom Hc. pose proof Hb as [Hlen _ He _]. apply Forall_app in He as [_ He].
  inversion He as [|? ? Hx _]; subst. pose proof (len_nonneg (es1 ++ Live ptr size e :: es2)).
  unfold setRightChildNodePageId. rewrite (view_bytes_internal p fse ptr size e) by (done || lia).
  pose proof Hx as (? & ? & Hsz & Hh & Hok). rewrite elt_size_internal in Hsz. unfold internal_size in Hsz.
  cbn in Hok. cbn [mbind option_bind]. pose proof (len_nonneg (InternalKey e)).
  rewrite putUint_eq by (cbn [v_len]; simpl; lia). eexists. split; [done|]. cbn [v_off].
  rewrite Z.add_0_l. fold (right_off e). eapply body_rewrite; try done.
  - unfold right_off. lia.
  - rewrite len_le. unfold right_off. lia.
  - rewrite !elt_size_internal. done.
  - by apply internal_ok_set_right.
  - by apply holds_set_right.
Qed.

(** ** The reference definition of a separator insertion *)

Fixpoint set_last_right (c : Z) (l : list InternalNodeElement) : list InternalNodeElement :=
  match l with
  | [] => []
  | [a] => [set_right c a]
  | a :: l => a :: set_last_right c l
  end.

Definition set_first_left (c : Z) (l : list InternalNodeElement) : list InternalNodeElement :=
  match l with [] => [] | a :: l => set_left c a :: l end.

(** The separators up to and above a key. *)
Fixpoint below (k : list byte) (l : list InternalNodeElement) : list InternalNodeElement :=
  match l with
  | [] => []
  | a :: l => if bytesCompare (InternalKey a) k =? 1 then [] else a :: below k l
  end.
Fixpoint above (k : list byte) (l : list InternalNodeElement) : list InternalNodeElement :=
  match l with
  | [] => []
  | a :: l' => if bytesCompare (InternalKey a) k =? 1 then l else above k l'
  end.

Definition insert_separator (e : InternalNodeElement) (l : list InternalNodeElement) : list InternalNodeElement :=
  set_last_right (LeftChildNodePageId e) (below (InternalKey e) l) ++
  e :: set_first_left (RightChildNodePageId e) (above (InternalKey e) l).

Lemma set_last_right_app c l a : set_last_right c (l ++ [a]) = l ++ [set_right c a].
Proof. induction l as [|b l IH]; [done|]. cbn. rewrite IH. by destruct l. Qed.

Lemma lives_before k (es : list (entry InternalNodeElement)) : lives (before k es) = below k (lives es).
Proof.
  induction es as [|x es IH]; [done|]. cbn [before]. rewrite (lives_cons x es).
  destruct x as [ptr size e|size]; cbn [greater below elt_key InternalNodeElement_NodeElement].
  - case_match; [done|]. by rewrite lives_cons, IH.
  - by rewrite lives_cons, IH.
Qed.

Lemma lives_after k (es : list (entry InternalNodeElement)) : lives (after k es) = above k (lives es).
Proof.
  induction es as [|x es IH]; [done|]. cbn [after]. rewrite (lives_cons x es).
  destruct x as [ptr size e|size]; cbn [greater above elt_key InternalNodeElement_NodeElement]; [|done].
  case_match; [|done]. by rewrite lives_cons.
Qed.

(** Entries that differ at most in the child ids of their elements. *)
Definition same_entry (x y : entry InternalNodeElement) : Prop :=
  match x, y with
  | Live p s e, Live p' s' e' => p = p' /\ s = s' /\ InternalKey e = InternalKey e'
  | Dead s, Dead s' => s = s'
  | _, _ => False
  end.

Definition same_shape : relation (list (entry InternalNodeElement)) := Forall2 same_entry.

#[export] Instance same_shape_refl : Reflexive same_shape.
Proof. intros es. induction es as [|x es IH]; constructor; [by destruct x|done]. Qed.

Lemma same_key_size e e' : InternalKey e = InternalKey e' -> elt_size e = elt_size e'.
Proof. intros H. rewrite !elt_size_internal. unfold internal_size. by rewrite H. Qed.

Lemma same_shape_measures es es' :
  same_shape es es' ->
  len es = len es' /\ dead_count es = dead_count es' /\
  sum_with elt_size (lives es) = sum_with elt_size (lives es') /\ (Forall tight es -> Forall tight es').
Proof.
  induction 1 as [|x y es es' Hxy Hs (IH1 & IH2 & IH3 & IH4)]; [done|].
  rewrite !len_cons, !dead_count_cons, !lives_cons.
  destruct x as [p s e|s], y as [p' s' e'|s']; try done; cbn in Hxy.
  - destruct Hxy as (-> & -> & Hk). pose proof (same_key_size _ _ Hk). rewrite !sum_with_cons.
    split_and!; [lia|lia|lia|]. intros Ht. inversion Ht; subst. constructor; [|auto]. cbn in *. lia.
  - split_and!; [lia|lia|done|]. intros Ht. inversion Ht; subst. constructor; [done|auto].
Qed.

Definition setGreater (p : list byte) (v : view) (right : Z) : option (list byte) :=
  if negb (v_len v =? 0) then setLeftChildNodePageId p v right else Some p.
Definition setSmaller (p : list byte) (v : view) (left : Z) : option (list byte) :=
  if negb (v_len v =? 0) then setRightChildNodePageId p v left else Some p.

Lemma live_size_pos p fse es1 ptr size (e : InternalNodeElement) es2 :
  page_body p (es1 ++ Live ptr size e :: es2) fse -> (size =? 0) = false.
Proof.
  intros [_ _ He _]. apply Forall_app in He as [_ He]. inversion He as [|? ? Hx _]; subst.
  destruct Hx as (? & ? & Hsz & _ & Hok). pose proof (elt_size_bound _ Hok). lia.
Qed.

Lemma body_setGreater p pre aft fse c :
  page_body p (pre ++ aft) fse -> 32 + 4 * len (pre ++ aft) <= fse -> 0 <= c < 2 ^ 64 ->
  aft = [] \/ (exists ptr size e es2, aft = Live ptr size e :: es2) ->
  exists p' aft', setGreater p (first_view aft) c = Some p' /\ page_body p' (pre ++ aft') fse /\
    same_header p' p /\ lives aft' = set_first_left c (lives aft) /\ same_shape aft aft'.
Proof.
  intros Hb Hroom Hc [->|(ptr & size & e & es2 & ->)].
  - by exists p, [].
  - destruct (body_setLeft _ _ _ _ _ _ _ c Hb Hroom Hc) as (p' & Heq & Hb' & Hh).
    exists p', (Live ptr size (set_left c e) :: es2). unfold setGreater. cbn [first_view v_len].
    rewrite (live_size_pos _ _ _ _ _ _ _ Hb). cbn [negb]. split_and!; [done..|].
    constructor; [done|]. apply same_shape_refl.
Qed.

Lemma body_setSmaller p bef post fse c :
  page_body p (bef ++ post) fse -> 32 + 4 * len (bef ++ post) <= fse -> 0 <= c < 2 ^ 64 ->
  exists p' bef', setSmaller p (last_live nil_view bef) c = Some p' /\ page_body p' (bef' ++ post) fse /\
    same_header p' p /\ lives bef' = set_last_right c (lives bef) /\ same_shape bef bef'.
Proof.
  intros Hb Hroom Hc. destruct (last_live_cases bef) as [[Hl ->]|(es1 & ptr & size & e & es2 & -> & Hl & ->)].
  - exists p, bef. rewrite Hl. split_and!; done.
  - rewrite <- app_assoc in Hb, Hroom. cbn [app] in Hb, Hroom.
    destruct (body_setRight _ _ _ _ _ _ _ c Hb Hroom Hc) as (p' & Heq & Hb' & Hh).
    exists p', (es1 ++ Live ptr size (set_right c e) :: es2). unfold setSmaller. cbn [v_len].
    rewrite (live_size_pos _ _ _ _ _ _ _ Hb). cbn [negb]. rewrite <- app_assoc.
    rewrite !lives_app, !lives_cons, Hl, set_last_right_app. split_and!; [done..|].
    apply Forall2_app; [apply same_shape_refl|]. constructor; [done|]. apply same_shape_refl.
Qed.

(** What [InsertSlot] does to a page to which the new element has been
    appended, in terms of the entries before and after the new slot. *)
Lemma internal_InsertSlot_eq p es fse k s left right :
  len p = 4096 -> 0 <= fse -> Forall (entry_ok p fse) es -> holds p 32 (slot_bytes es) ->
  sorted_elts (lives es) -> (forall a, a ∈ lives es -> InternalKey a <> k) ->
  numSlots (header_of p) = len es -> freeSpaceBegin (header_of p) = 32 + 4 * len es ->
  32 + 4 * len es + 4 <= 4096 ->
  let p2 := write p (32 + 4 * len (before k es)) (encodeSlot s ++ slot_bytes (after k es)) in
  InsertSlot p s k left right =
    if len es =? 0 then Some (p2, 32 + 4 * (len es + 1))
    else q ← setGreater p2 (first_view (after k es)) right;
         r ← setSmaller q (last_live nil_view (before k es)) left;
         Some (r, 32 + 4 * (len es + 1)).
Proof.
  intros Hlen Hfse He Hs1 Hs Hne Hn Hfb Hfit p2.
  assert (len (before k es) + len (after k es) = len es) as Hlba by (by rewrite <- len_app, before_after).
  pose proof (len_nonneg (before k es)). pose proof (len_nonneg (after k es)).
  unfold InsertSlot. change getHeaderSize with 32. rewrite slice_header by lia. cbn [mbind option_bind].
  rewrite decodePageHeader_eq by (rewrite len_sub; lia). rewrite header_of_sub by lia.
  cbn [mbind option_bind]. rewrite Hn, Hfb, to_nat_len.
  rewrite (scan_spec p fse k es 32 nil_view) by (done || lia). cbn [mbind option_bind].
  change getSlotSize with 4. rewrite len_cons, len_fmap.
  rewrite (u16_id ((1 + len (after k es) - 1) * 4)) by lia. rewrite (u16_id (_ - _)) by lia.
  rewrite appendSlots_spec by (rewrite ?len_cons, ?len_fmap; lia). cbn [fmap list_fmap concat].
  rewrite slots_concat, len_cons, len_fmap. cbn [mbind option_bind].
  replace (32 + 4 * len es - (1 + len (after k es) - 1) * 4) with (32 + 4 * len (before k es)) by lia.
  by replace (32 + 4 * len (before k es) + 4 * (1 + len (after k es))) with (32 + 4 * (len es + 1)) by lia.
Qed.

(** The measures of the entries around a new one. *)
Lemma insert_shape k es ptr e bef' aft' :
  Forall tight es -> same_shape (before k es) bef' -> same_shape (after k es) aft' ->
  let es' := bef' ++ Live ptr (internal_size e) e :: aft' in
  Forall tight es' /\ len es' = len es + 1 /\ dead_count es' = dead_count es /\
  sum_with elt_size (lives es') = internal_size e + sum_with elt_size (lives es).
Proof.
  intros Ht Hsb Hsa. destruct (same_shape_measures _ _ Hsb) as (Hb1 & Hb2 & Hb3 & Hb4).
  destruct (same_shape_measures _ _ Hsa) as (Ha1 & Ha2 & Ha3 & Ha4). cbn zeta.
  rewrite <- (before_after k es) in Ht. apply Forall_app in Ht as [Ht1 Ht2].
  rewrite <- (before_after k es). rewrite !len_app, len_cons, !dead_count_app, dead_count_cons,
    !lives_app, lives_cons, !sum_with_app, sum_with_cons, elt_size_internal.
  split_and!; [|lia..]. apply Forall_app. split; [auto|]. constructor; [|auto]. cbn. by rewrite elt_size_internal.
Qed.

(** [InsertSlot] on a page to which the new element has been appended. *)
Lemma internal_InsertSlot p es fse g e :
  page_rep p es fse g -> Forall tight es -> sorted_elts (lives es) ->
  (forall a, a ∈ lives es -> InternalKey a <> InternalKey e) -> internal_ok e ->
  internal_size e + 4 <= free_space es fse ->
  let p1 := write p (fse - internal_size e) (encodeElement e) in
  exists p2 es',
    InsertSlot p1 (mkSlot (internal_size e) (fse - internal_size e)) (InternalKey e)
      (LeftChildNodePageId e) (RightChildNodePageId e) = Some (p2, 32 + 4 * len es') /\
    page_body p2 es' (fse - internal_size e) /\ same_header p2 p /\
    lives es' = insert_separator e (lives es) /\ Forall tight es' /\
    len es' = len es + 1 /\ dead_count es' = dead_count es /\
    sum_with elt_size (lives es') = internal_size e + sum_with elt_size (lives es).
Proof.
  intros Hr Ht Hs Hne Hok Hfit p1. pose proof Hr as [Hlen Hhdr Hslots Hroom He Ha Hacc].
  destruct (hdr_header _ _ _ _ Hhdr) as (Hn & Hfb & _). unfold free_space in Hfit. destruct Hok as (Hsz & Hc1 & Hc2).
  pose proof (len_nonneg es). assert (0 < internal_size e) by (unfold internal_size; solve_len).
  set (k := InternalKey e) in *. set (x := Live (fse - internal_size e) (internal_size e) e).
  assert (len (before k es) + len (after k es) = len es) as Hlba by (by rewrite <- len_app, before_after).
  pose proof (len_nonneg (before k es)). pose proof (len_nonneg (after k es)).
  destruct (append_keeps p es fse g e Hr) as (Hl1 & He1 & Hs1 & Hh1 & Hho); [rewrite elt_size_internal; lia|].
  rewrite elt_size_internal in Hl1, He1, Hs1, Hh1, Hho. change (elt_encode e) with (encodeElement e) in *.
  fold p1 in Hl1, He1, Hs1, Hh1, Hho.
  pose proof (body_insert p (before k es) (after k es) fse g e) as Hbody.
  rewrite before_after, elt_size_internal in Hbody.
  specialize (Hbody Hr (conj Hsz (conj Hc1 Hc2)) ltac:(lia)). fold x in Hbody. cbn zeta in Hbody.
  fold p1 in Hbody.
  rewrite (internal_InsertSlot_eq p1 es fse) by (rewrite ?Hho; (done || lia)).
  change (encodeSlot _ ++ slot_bytes (after k es)) with (slot_bytes (x :: after k es)).
  set (p2 := write p1 _ _) in *.
  assert (same_header p2 p) as Hh2.
  { unfold same_header, p2. rewrite page_sub_other; [done|done|lia| |lia|lia].
    rewrite len_slot_bytes, len_cons. lia. }
  assert (forall bef' aft', same_shape (before k es) bef' -> same_shape (after k es) aft' ->
    lives bef' = set_last_right (LeftChildNodePageId e) (lives (before k es)) ->
    lives aft' = set_first_left (RightChildNodePageId e) (lives (after k es)) ->
    lives (bef' ++ x :: aft') = insert_separator e (lives es)) as Hlv.
  { intros bef' aft' _ _ Hl1' Hl2'. unfold x. rewrite lives_app, lives_cons, Hl1', Hl2', lives_before, lives_after. done. }
  destruct (Z.eqb_spec (len es) 0) as [Hz|Hz].
  - destruct es as [|y es]; [|rewrite len_cons in Hz; pose proof (len_nonneg es); lia].
    exists p2, [x]. destruct (insert_shape k [] (fse - internal_size e) e [] []) as (? & ? & ? & ?); [done..|].
    split_and!; try done.
  - assert (32 + 4 * (len es + 1) <= fse - internal_size e) as Hroom' by lia.
    change (before k es ++ x :: after k es) with (before k es ++ [x] ++ after k es) in Hbody. rewrite app_assoc in Hbody.
    assert (len ((before k es ++ [x]) ++ after k es) = len es + 1) as Hll by (rewrite !len_app; change (len [x]) with 1; lia).
    destruct (body_setGreater p2 _ _ _ _ Hbody ltac:(lia) Hc2 (after_cases k es)) as (q & aft' & -> & Hbq & Hhq & Hla & Hsa).
    cbn [mbind option_bind]. rewrite <- app_assoc in Hbq.
    destruct (same_shape_measures _ _ Hsa) as (Hla' & _).
    destruct (body_setSmaller q _ _ _ (LeftChildNodePageId e) Hbq) as (r & bef' & -> & Hbr & Hhr & Hlb & Hsb);
      [rewrite !len_app; change (len [x]) with 1; lia|done|].
    cbn [mbind option_bind]. exists r, (bef' ++ x :: aft').
    destruct (insert_shape k es (fse - internal_size e) e bef' aft' Ht Hsb Hsa) as (Hq1 & Hq2 & Hq3 & Hq4). fold x in Hq1, Hq2, Hq3, Hq4.
    split_and!; try done; [by rewrite Hq2| |by apply Hlv].
    unfold same_header in *. congruence.
Qed.

(** ** Insertion into a node page *)

Definition internal_need (k : list byte) : Z := 18 + len k + 4.

Definition fresh_key (k : list byte) (l : list InternalNodeElement) : Prop := forall a, a ∈ l -> InternalKey a <> k.

Lemma sorted_keys l : sorted_elts l <-> StronglySorted key_le (InternalKey <$> l).
Proof.
  unfold sorted_elts. induction l as [|a l IH]; [split; constructor|]. rewrite fmap_cons.
  split; intros H; inversion H as [|? ? Hs Hf]; subst; (constructor; [by apply IH|]); apply list.Forall_forall.
  - intros k (b & -> & Hb)%list_elem_of_fmap. rewrite list.Forall_forall in Hf. by apply Hf.
  - intros b Hb. rewrite list.Forall_forall in Hf. apply Hf, list_elem_of_fmap. by exists b.
Qed.

Lemma keys_set_last_right c l : InternalKey <$> set_last_right c l = InternalKey <$> l.
Proof. induction l as [|a [|b l] IH]; [done..|]. cbn in *. by rewrite IH. Qed.

Lemma keys_set_first_left c l : InternalKey <$> set_first_left c l = InternalKey <$> l.
Proof. by destruct l. Qed.

Lemma keys_insert_separator e l : InternalKey <$> insert_separator e l = InternalKey <$> insert_elt e l.
Proof.
  unfold insert_separator. rewrite fmap_app, fmap_cons, keys_set_last_right, keys_set_first_left.
  rewrite <- fmap_cons, <- fmap_app. f_equal.
  induction l as [|a l IH]; cbn; [done|]. case_match; cbn; [done|]. by rewrite <- IH.
Qed.

Lemma insert_separator_sorted e l : sorted_elts l -> sorted_elts (insert_separator e l).
Proof. intros Hs%(insert_elt_sorted e). rewrite sorted_keys in *. by rewrite keys_insert_separator. Qed.

(** Storing a separator in a page with room for it. *)
Lemma internal_store p es fse g e :
  page_rep p es fse g -> Forall tight es -> sorted_elts (lives es) ->
  fresh_key (InternalKey e) (lives es) -> internal_ok e -> internal_size e + 4 <= free_space es fse ->
  exists p1 p2 p3 es',
    appendElement p (freeSpaceEnd (header_of p)) e = Some (p1, fse - internal_size e) /\
    InsertSlot p1 (mkSlot (calculateElementSize e) (fse - internal_size e)) (InternalKey e)
      (LeftChildNodePageId e) (RightChildNodePageId e) = Some (p2, 32 + 4 * len es') /\
    finishInsert p2 (header_of p) (fse - internal_size e) (32 + 4 * len es') = Some p3 /\
    page_rep p3 es' (fse - internal_size e) g /\ Forall tight es' /\
    lives es' = insert_separator e (lives es) /\ meta p3 = meta p /\ crc_valid p3 /\
    free_space es' (fse - internal_size e) = free_space es fse - (internal_size e + 4).
Proof.
  intros Hr Ht Hs Hne Hok Hfit. pose proof Hr as [Hlen Hhdr Hslots Hroom He Ha Hacc].
  destruct (hdr_header _ _ _ _ Hhdr) as (Hn & _ & Hfe & _). pose proof (len_nonneg es).
  assert (0 < internal_size e) by (unfold internal_size; solve_len). unfold free_space in *.
  destruct (internal_InsertSlot p es fse g e Hr Ht Hs Hne Hok Hfit)
    as (p2 & es' & His & Hb & Hh & Hl & Ht' & Hlen' & Hdc & Hsum).
  destruct (finishInsert_spec p2 es' (fse - internal_size e) g (header_of p) Hb) as (p3 & Hf & Hr3 & Hm3 & Hc3).
  - lia.
  - rewrite (same_header_fld 2 p2 p) by (done || simpl; lia). by destruct Hhdr.
  - lia.
  - lia.
  - eexists _, p2, p3, es'. rewrite internal_calculateElementSize_eq by done.
    split_and!; [|exact His|done|done|done|done| |done|lia].
    + rewrite Hfe. apply internal_append_eq; lia.
    + rewrite Hm3. by apply same_header_meta.
Qed.

Lemma internal_InsertElement_node p l free g k left right :
  node_page p l free g -> fresh_key k l -> internal_need k < 65536 ->
  0 <= left < 2 ^ 64 -> 0 <= right < 2 ^ 64 ->
  if decide (internal_need k <= free \/ internal_need k <= g) then
    exists p', InsertElement p k left right = Some (p', true) /\
      node_page p' (insert_separator (mkInternal k left right) l)
        ((room_after (internal_need k) free g).1 - internal_need k) (room_after (internal_need k) free g).2 /\
      meta p' = meta p /\ crc_valid p'
  else
    exists p', InsertElement p k left right = Some (p', false) /\ node_page p' l free g /\
      meta p' = meta p /\ crc_valid p'.
Proof.
  intros Hp Hne Hsm Hcl Hcr. pose proof Hp as (es & fse & Hr & Ht & Hl & Hs & ->). unfold internal_need in *.
  set (e := mkInternal k left right) in *. pose proof (len_nonneg k).
  pose proof (ensureRoom_spec p es fse g (18 + len k + 4) Hr Ht ltac:(lia)) as Hroom.
  unfold InsertElement. change getSlotSize with 4.
  replace (2 + len k + 8 + 8 + 4) with (18 + len k + 4) by lia.
  assert (internal_size e = 18 + len k) as Hsz by done.
  case_decide as Hd.
  - destruct Hroom as (p0 & es0 & fse0 & g0 & -> & Hr0 & Ht0 & Hl0 & Hm0 & Hf0). cbn [mbind option_bind].
    assert (internal_size e + 4 <= free_space es0 fse0) as Hfit.
    { apply node_page_space in Hp as (_ & ? & ? & _). unfold room_after in Hf0.
      destruct (Z.leb_spec (18 + len k + 4) (free_space es fse)); injection Hf0; lia. }
    rewrite <- Hf0. cbn [fst snd]. rewrite <- Hl, <- Hl0 in *.
    destruct (internal_store p0 es0 fse0 g0 e) as (p1 & p2 & p3 & es' & Ha & Hi & Hfin & Hr3 & Ht3 & Hl3 & Hm3 & Hc3 & Hfs);
      [done|done|done|done|split_and!; cbn; lia|done|].
    fold e. rewrite Ha. cbn [mbind option_bind]. change (InsertSlot p1 _ k left right) with
      (InsertSlot p1 (mkSlot (calculateElementSize e) (fse0 - internal_size e)) (InternalKey e)
         (LeftChildNodePageId e) (RightChildNodePageId e)). rewrite Hi. cbn [mbind option_bind].
    rewrite Hfin. cbn [mbind option_bind]. exists p3. split_and!; [done| |congruence|done].
    exists es', (fse0 - internal_size e). split_and!; [done|done|by rewrite Hl3| |by rewrite Hfs, Hsz].
    by apply insert_separator_sorted.
  - rewrite Hroom. cbn [mbind option_bind].
    destruct (node_page_updateCRC _ _ _ _ Hp) as (p' & -> & Hp' & Hm & Hc). cbn [mbind option_bind].
    by exists p'.
Qed.
