(* ===== verification/InternalRouting.v ===== *)
(** * Routing through an internal page

    The separators of an internal page partition the key space; [children]
    lists the child of each part.  This file proves that
    [FindNextChildNodePageId] picks the child of the part that holds the key,
    and how insertion and split change the parts. *)

From S2P Require Export InternalNodeSpec.

Implicit Types (l : list InternalNodeElement).

(** The child before the first separator, then the one after each. *)
Definition first_child l : Z := match l with [] => 0 | a :: _ => LeftChildNodePageId a end.
Definition children l : list Z := first_child l :: (RightChildNodePageId <$> l).

(** Neighbouring separators agree on the child between them. *)
Fixpoint linked_from (c : Z) l : Prop :=
  match l with
  | [] => True
  | a :: l => LeftChildNodePageId a = c /\ linked_from (RightChildNodePageId a) l
  end.
Definition linked l : Prop := linked_from (first_child l) l.

(** Separators in strictly ascending order. *)
Definition strict l : Prop := StronglySorted (fun a b => key_lt (InternalKey a) (InternalKey b)) l.

(** The part of the key space a key belongs to: how many separators it is not
    below of. *)
Definition part (k : list byte) l : nat := length (below k l).

Lemma strict_sorted l : strict l -> sorted_elts l.
Proof.
  induction 1 as [|a l Hs IH Hf]; constructor; [done|]. eapply list.Forall_impl; [exact Hf|].
  intros b ?. by apply key_lt_le.
Qed.

Lemma strict_intro l : sorted_elts l -> NoDup (InternalKey <$> l) -> strict l.
Proof.
  induction 1 as [|a l Hs IH Hf]; [constructor|]. rewrite fmap_cons. intros [Hn Hd]%list.NoDup_cons.
  constructor; [by apply IH|]. rewrite list.Forall_forall in Hf. apply list.Forall_forall. intros b Hb.
  pose proof (Hf b Hb) as Hle. apply key_le_lt_or_eq in Hle as [|Heq]; [done|]. cbn in Heq.
  exfalso. apply Hn, list_elem_of_fmap. by exists b.
Qed.

(** ** Positions *)

Lemma below_above k l : below k l ++ above k l = l.
Proof. induction l as [|a l IH]; cbn; [done|]. case_match; [done|]. cbn. by rewrite IH. Qed.

Lemma part_bound k l : (part k l <= length l)%nat.
Proof. pose proof (f_equal length (below_above k l)) as H. rewrite length_app in H. unfold part. lia. Qed.

Lemma below_take k l : below k l = take (part k l) l.
Proof. pose proof (take_app_length (below k l) (above k l)) as H. by rewrite below_above in H. Qed.

Lemma above_drop k l : above k l = drop (part k l) l.
Proof. pose proof (drop_app_length (below k l) (above k l)) as H. by rewrite below_above in H. Qed.

Lemma below_all k l : (forall a, a ∈ l -> key_le (InternalKey a) k) -> below k l = l.
Proof.
  induction l as [|a l IH]; cbn; intros H; [done|].
  rewrite (proj2 (Z.eqb_neq _ _)); [|apply H; by left]. f_equal. apply IH. intros. apply H. by right.
Qed.

Lemma below_none k l : (forall a, a ∈ l -> key_lt k (InternalKey a)) -> below k l = [].
Proof.
  destruct l as [|a l]; cbn; intros H; [done|].
  by rewrite (proj2 (Z.eqb_eq _ _)) by (apply key_gt_lt, H; by left).
Qed.

(** Positions in a list cut anywhere. *)
Lemma below_app_le k l1 l2 : (forall a, a ∈ l1 -> key_le (InternalKey a) k) -> below k (l1 ++ l2) = l1 ++ below k l2.
Proof.
  induction l1 as [|a l1 IH]; cbn; intros H; [done|].
  rewrite (proj2 (Z.eqb_neq _ _)); [|apply H; by left]. f_equal. apply IH. intros. apply H. by right.
Qed.

Lemma below_app_lt k l1 l2 : (forall a, a ∈ l2 -> key_lt k (InternalKey a)) -> below k (l1 ++ l2) = below k l1.
Proof.
  intros H. induction l1 as [|a l1 IH]; cbn; [by apply below_none|]. case_match; [done|]. by rewrite IH.
Qed.

(** ** Descent *)

Lemma findNext_linked l k c next :
  strict l -> linked_from c l -> l <> [] \/ next = c ->
  (c :: (RightChildNodePageId <$> l)) !! part k l = Some (findNext_loop l k next).
Proof.
  intros Hs. revert c next. unfold part. induction Hs as [|a l Hs IH Hf]; intros c next Hl Hn; cbn.
  { destruct Hn as [| ->]; done. }
  destruct Hl as [<- Hl]. destruct (Z.eqb_spec (bytesCompare (InternalKey a) k) 0) as [Hz|Hz].
  - rewrite Hz. cbn. apply bytesCompare_eq in Hz. subst k.
    rewrite (below_none (InternalKey a) l); [done|]. by rewrite list.Forall_forall in Hf.
  - destruct (Z.eqb_spec (bytesCompare (InternalKey a) k) 1) as [Hg|Hg]; [done|]. cbn.
    apply IH; [done|by right].
Qed.

Lemma findNext_children l k :
  strict l -> linked l -> children l !! part k l = Some (findNext_loop l k 0).
Proof. intros Hs Hl. apply findNext_linked; [done..|]. destruct l; [by right|by left]. Qed.

(** ** Insertion *)

Lemma rights_set_last_right c l :
  RightChildNodePageId <$> set_last_right c l =
    match l with [] => [] | _ => take (length l - 1) (RightChildNodePageId <$> l) ++ [c] end.
Proof.
  induction l as [|a l IH] using rev_ind; [done|]. rewrite set_last_right_app, !fmap_app. cbn.
  destruct (l ++ [a]) eqn:Heq; [by destruct l|]. rewrite <- Heq, length_app; cbn.
  by rewrite Nat.add_sub, take_app_length' by (by rewrite length_fmap).
Qed.

Lemma first_child_set_last_right c l : first_child (set_last_right c l) = first_child l.
Proof. by destruct l as [|a [|b l]]. Qed.

Lemma rights_set_first_left c l : RightChildNodePageId <$> set_first_left c l = RightChildNodePageId <$> l.
Proof. by destruct l. Qed.

(** Inserting a separator replaces the child of its part by its two children. *)
Lemma children_insert e l :
  children (insert_separator e l) =
    take (part (InternalKey e) l) (children l) ++
    [LeftChildNodePageId e; RightChildNodePageId e] ++ drop (S (part (InternalKey e) l)) (children l).
Proof.
  set (k := InternalKey e). unfold children at 1, insert_separator. fold k. rewrite fmap_app, fmap_cons.
  rewrite rights_set_last_right, rights_set_first_left.
  assert (RightChildNodePageId <$> above k l = drop (S (part k l)) (children l)) as ->.
  { by rewrite above_drop, fmap_drop. }
  destruct (below k l) as [|a b] eqn:Hb.
  - unfold part. rewrite Hb. done.
  - change (first_child (set_last_right _ _ ++ _)) with
      (first_child (set_last_right (LeftChildNodePageId e) (a :: b) ++
         e :: set_first_left (RightChildNodePageId e) (above k l))).
    assert (first_child (set_last_right (LeftChildNodePageId e) (a :: b) ++
         e :: set_first_left (RightChildNodePageId e) (above k l)) = first_child l) as ->.
    { rewrite <- (below_above k l), Hb. destruct b; done. }
    rewrite <- Hb at 1 2. unfold children.
    assert (part k l = S (length b)) as Hp by (unfold part; by rewrite Hb).
    rewrite Hp. cbn [take]. rewrite <- (app_assoc _ [_]). cbn [app]. f_equal.
    rewrite below_take, <- fmap_take, Hp. rewrite take_take. cbn [length].
    rewrite length_take, fmap_take. pose proof (part_bound k l).
    by replace (_ `min` _)%nat with (length b) by lia.
Qed.

Fixpoint end_child (c : Z) l : Z :=
  match l with [] => c | a :: l => end_child (RightChildNodePageId a) l end.

Lemma linked_app c l1 l2 : linked_from c (l1 ++ l2) <-> linked_from c l1 /\ linked_from (end_child c l1) l2.
Proof. revert c. induction l1 as [|a l1 IH]; intros c; cbn; [tauto|]. rewrite IH. tauto. Qed.

Lemma linked_set_first_left c d l : linked_from c l -> linked_from d (set_first_left d l).
Proof. by destruct l; [|intros []]. Qed.

Lemma linked_set_last_right c d l :
  linked_from c l -> linked_from c (set_last_right d l) /\ (l <> [] -> end_child c (set_last_right d l) = d).
Proof.
  revert c. induction l as [|a [|b l] IH]; intros c Hl; cbn in *; [done|tauto|].
  destruct Hl as [Ha Hl]. destruct (IH _ Hl) as [H1 H2]. split; [done|]. intros _. by apply H2.
Qed.

(** Insertion keeps a node linked. *)
Lemma linked_insert e l : linked l -> linked (insert_separator e l).
Proof.
  unfold linked. intros Hl. unfold insert_separator. rewrite <- (below_above (InternalKey e) l) in Hl.
  apply linked_app in Hl as [Hb Ha].
  destruct (linked_set_last_right _ (LeftChildNodePageId e) _ Hb) as [Hb' He].
  destruct (below (InternalKey e) l) as [|a b] eqn:Hbel; cbn [app set_last_right first_child] in *.
  { cbn. split; [done|]. by eapply linked_set_first_left. }
  change (first_child ((a :: b) ++ above (InternalKey e) l)) with (LeftChildNodePageId a) in *.
  change (match b with [] => [set_right (LeftChildNodePageId e) a]
          | _ :: _ => a :: set_last_right (LeftChildNodePageId e) b end)
    with (set_last_right (LeftChildNodePageId e) (a :: b)) in *.
  assert (first_child (set_last_right (LeftChildNodePageId e) (a :: b) ++
    e :: set_first_left (RightChildNodePageId e) (above (InternalKey e) l)) = LeftChildNodePageId a) as ->.
  { by destruct b. }
  apply linked_app. split; [done|]. rewrite He by done. cbn. split; [done|]. by eapply linked_set_first_left.
Qed.

Lemma strict_keys l : strict l <-> StronglySorted key_lt (InternalKey <$> l).
Proof.
  unfold strict. induction l as [|a l IH]; [split; constructor|]. rewrite fmap_cons.
  split; intros H; inversion H as [|? ? Hs Hf]; subst; (constructor; [by apply IH|]); apply list.Forall_forall.
  - intros k (b & -> & Hb)%list_elem_of_fmap. rewrite list.Forall_forall in Hf. by apply Hf.
  - intros b Hb. rewrite list.Forall_forall in Hf. apply Hf, list_elem_of_fmap. by exists b.
Qed.

Lemma strict_insert e l : strict l -> fresh_key (InternalKey e) l -> strict (insert_separator e l).
Proof.
  intros Hs Hf. apply strict_keys. rewrite keys_insert_separator. apply strict_keys. revert Hs.
  unfold strict. induction l as [|a l IH]; cbn; intros Hs; [by repeat constructor|].
  inversion Hs as [|? ? Hs' Hall]; subst. rewrite list.Forall_forall in Hall.
  assert (fresh_key (InternalKey e) l) as Hf' by (intros b ?; apply Hf; by right).
  destruct (Z.eqb_spec (bytesCompare (InternalKey a) (InternalKey e)) 1) as [Hg%key_gt_lt|Hg].
  - constructor; [done|]. apply list.Forall_forall. intros b [->|Hb]%elem_of_cons; eauto with keys.
  - constructor; [by apply IH|]. apply list.Forall_forall. intros b [->|Hb]%insert_elt_elem; [|by apply Hall].
    apply key_le_lt_or_eq in Hg as [|Heq]; [done|]. exfalso. apply (Hf a); [by left|done].
Qed.

(** Positions depend on the keys only. *)
Lemma part_keys k l l' : InternalKey <$> l = InternalKey <$> l' -> part k l = part k l'.
Proof.
  unfold part. revert l'. induction l as [|a l IH]; intros [|a' l'] H; cbn in *; try done.
  injection H as Ha H. rewrite Ha. case_match; [done|]. cbn. by rewrite (IH l').
Qed.

Lemma part_mono k k' l : key_le k k' -> (part k l <= part k' l)%nat.
Proof.
  intros Hle. unfold part. induction l as [|a l IH]; cbn; [done|].
  destruct (Z.eqb_spec (bytesCompare (InternalKey a) k) 1) as [Hg|Hg]; [cbn; lia|].
  rewrite (proj2 (Z.eqb_neq _ _)); [cbn; lia|]. by apply (key_le_trans _ k).
Qed.

Lemma part_insert e k l :
  strict l ->
  part k (insert_separator e l) = (part k l + if decide (key_le (InternalKey e) k) then 1 else 0)%nat.
Proof.
  intros Hs. rewrite (part_keys k _ (insert_elt e l)) by apply keys_insert_separator. unfold part.
  assert (~ key_le (InternalKey e) k -> bytesCompare (InternalKey e) k = 1) as Hnle.
  { intros H. by apply key_gt_lt, key_not_le. }
  induction Hs as [|a l Hs IH Hf]; cbn.
  { case_decide as Hd; [by rewrite (proj2 (Z.eqb_neq _ _))|]. by rewrite (proj2 (Z.eqb_eq _ _)) by auto. }
  destruct (Z.eqb_spec (bytesCompare (InternalKey a) (InternalKey e)) 1) as [Hg|Hg]; cbn.
  - case_decide as Hd.
    + rewrite (proj2 (Z.eqb_neq _ _)) by done. cbn. case_match; cbn; lia.
    + rewrite (Hnle Hd). cbn. apply Hnle, key_gt_lt in Hd. apply key_gt_lt in Hg.
      assert (bytesCompare (InternalKey a) k = 1) as ->; [|done]. apply key_gt_lt. eauto with keys.
  - destruct (Z.eqb_spec (bytesCompare (InternalKey a) k) 1) as [Hak|Hak]; cbn; [|by rewrite IH].
    rewrite decide_False; [done|]. apply key_not_le. apply key_gt_lt in Hak.
    eapply key_lt_le_trans; [exact Hak|exact Hg].
Qed.

(** Descending after an insertion. *)
Lemma route_insert e k l :
  strict l -> linked l -> fresh_key (InternalKey e) l ->
  findNext_loop (insert_separator e l) k 0 =
    if decide (part k l = part (InternalKey e) l) then
      if decide (key_le (InternalKey e) k) then RightChildNodePageId e else LeftChildNodePageId e
    else findNext_loop l k 0.
Proof.
  intros Hs Hl Hf. pose proof (findNext_children l k Hs Hl) as Hold.
  pose proof (findNext_children (insert_separator e l) k (strict_insert _ _ Hs Hf) (linked_insert _ _ Hl)) as Hnew.
  rewrite part_insert, children_insert in Hnew by done. set (i := part (InternalKey e) l) in *.
  assert (length (children l) = S (length l)) as Hlen by (cbn; by rewrite length_fmap).
  pose proof (part_bound (InternalKey e) l) as Hi. fold i in Hi.
  assert (length (take i (children l)) = i) as Hti by (rewrite length_take; lia).
  assert (forall j, (S i < j)%nat -> (take i (children l) ++
    [LeftChildNodePageId e; RightChildNodePageId e] ++ drop (S i) (children l)) !! j = children l !! (j - 1)%nat) as Hgt.
  { intros j Hj. rewrite lookup_app_r, Hti by lia. rewrite lookup_app_r by (cbn; lia). cbn [length].
    rewrite lookup_drop. f_equal. lia. }
  assert ((take i (children l) ++ [LeftChildNodePageId e; RightChildNodePageId e] ++ drop (S i) (children l)) !! i =
    Some (LeftChildNodePageId e)) as Hat0.
  { by rewrite lookup_app_r, Hti, Nat.sub_diag by lia. }
  assert ((take i (children l) ++ [LeftChildNodePageId e; RightChildNodePageId e] ++ drop (S i) (children l)) !! S i =
    Some (RightChildNodePageId e)) as Hat1.
  { rewrite lookup_app_r, Hti by lia. by replace (S i - i)%nat with 1%nat by lia. }
  destruct (decide (part k l = i)) as [Hpos|Hpos]; [rewrite Hpos in Hnew|];
    destruct (decide (key_le (InternalKey e) k)) as [Hle|Hle].
  - rewrite Nat.add_1_r, Hat1 in Hnew. congruence.
  - rewrite Nat.add_0_r, Hat0 in Hnew. congruence.
  - assert (i < part k l)%nat as Hlt by (pose proof (part_mono (InternalKey e) k l Hle); lia).
    rewrite Hgt in Hnew by lia. rewrite Nat.add_sub in Hnew. congruence.
  - apply key_not_le in Hle. pose proof (part_mono k (InternalKey e) l (key_lt_le _ _ Hle)).
    rewrite Nat.add_0_r, lookup_app_l, lookup_take_lt in Hnew by lia. congruence.
Qed.

(** ** Splitting a node *)

Lemma children_take n l : (0 < n)%nat -> (n <= length l)%nat -> children (take n l) = take (S n) (children l).
Proof.
  intros Hn Hle. destruct l as [|a l]; [cbn in Hle; lia|]. destruct n as [|n]; [lia|].
  unfold children. cbn [first_child take]. by rewrite !fmap_cons, fmap_take.
Qed.

Lemma linked_from_drop c n l :
  linked_from c l -> linked_from (end_child c (take n l)) (drop n l).
Proof. intros Hl. rewrite <- (take_drop n l) in Hl. by apply linked_app in Hl as [_ ?]. Qed.

Lemma linked_from_first c l : linked_from c l -> l <> [] -> first_child l = c.
Proof. by destruct l; [|intros []]. Qed.

Lemma end_child_take c n l d : l !! n = Some d -> end_child c (take (S n) l) = RightChildNodePageId d.
Proof.
  revert c n. induction l as [|a l IH]; intros c [|n] H; cbn in *; try done; [by injection H as ->|by apply IH].
Qed.

Lemma children_drop n l :
  linked l -> (S n < length l)%nat -> children (drop (S n) l) = drop (S n) (children l).
Proof.
  intros Hl Hn. assert (is_Some (l !! n)) as [d Hd] by (apply lookup_lt_is_Some; lia).
  unfold children. rewrite (linked_from_first (RightChildNodePageId d)).
  - cbn [drop]. rewrite (drop_S (RightChildNodePageId <$> l) (RightChildNodePageId d) n).
    + by rewrite fmap_drop.
    + by rewrite list_lookup_fmap, Hd.
  - rewrite <- (end_child_take (first_child l) n l d Hd). by apply linked_from_drop.
  - intros H%(f_equal length). rewrite length_drop in H. cbn in H. lia.
Qed.

Lemma linked_take n l : linked l -> linked (take n l).
Proof.
  unfold linked. intros Hl. rewrite <- (take_drop n l) in Hl. apply linked_app in Hl as [Hl _].
  destruct l as [|a l]; [by destruct n|]. by destruct n.
Qed.

Lemma linked_drop n l : linked l -> linked (drop n l).
Proof.
  unfold linked. intros Hl%(linked_from_drop _ n). destruct (drop n l) as [|a r] eqn:Hd; [done|].
  pose proof Hl as [Ha _]. cbn [first_child]. by rewrite Ha.
Qed.

Lemma strict_app l1 l2 :
  strict (l1 ++ l2) -> strict l1 /\ strict l2 /\ forall a b, a ∈ l1 -> b ∈ l2 -> key_lt (InternalKey a) (InternalKey b).
Proof. apply StronglySorted_app_inv. Qed.

(** Keys below the separator are routed by the left half as before, the others
    by the right half. *)
Lemma route_split n e l k :
  strict l -> linked l -> l !! n = Some e -> (0 < n)%nat -> (S n < length l)%nat ->
  findNext_loop l k 0 =
    if decide (key_le (InternalKey e) k) then findNext_loop (drop (S n) l) k 0
    else findNext_loop (take n l) k 0.
Proof.
  intros Hs Hl He Hn Hlen. pose proof (findNext_children l k Hs Hl) as Hold.
  assert (l = take n l ++ e :: drop (S n) l) as Heq by (by rewrite take_drop_middle).
  pose proof Hs as Hs'. rewrite Heq in Hs'. apply strict_app in Hs' as (Hs1 & Hs2 & Hc).
  inversion Hs2 as [|? ? Hs2' Hf]; subst. rewrite list.Forall_forall in Hf. case_decide as Hle.
  - pose proof (findNext_children (drop (S n) l) k Hs2' (linked_drop _ _ Hl)) as Hnew.
    rewrite children_drop in Hnew by done. rewrite lookup_drop in Hnew.
    replace (S n + part k (drop (S n) l))%nat with (part k l) in Hnew; [congruence|].
    unfold part. rewrite Heq at 1. rewrite below_app_le.
    + cbn. rewrite (proj2 (Z.eqb_neq _ _)) by done. rewrite length_app, length_take. cbn. lia.
    + intros a Ha. apply key_lt_le. eapply key_lt_le_trans; [|exact Hle]. apply Hc; [done|by left].
  - apply key_not_le in Hle.
    pose proof (findNext_children (take n l) k Hs1 (linked_take _ _ Hl)) as Hnew.
    pose proof (part_bound k (take n l)) as Hpb. rewrite length_take in Hpb.
    rewrite children_take in Hnew by (done || lia). rewrite lookup_take_lt in Hnew by lia.
    replace (part k (take n l)) with (part k l) in Hnew; [congruence|].
    unfold part. rewrite Heq at 1. rewrite below_app_lt; [done|].
    intros a [->|Ha]%elem_of_cons; [done|]. eapply key_lt_trans; [exact Hle|by apply Hf].
Qed.

Lemma internal_SplitNode_node p q l free g rid i :
  node_page p l free g -> len q = 4096 -> 0 <= i < len l -> 0 <= rid < 2 ^ 64 ->
  let n := Z.to_nat i in
  exists p' q' e, SplitNode p q rid i = Some (p', q', InternalKey e) /\ l !! n = Some e /\
    node_page p' (take n l) (4064 - footprint (take n l)) 0 /\
    node_page q' (drop (S n) l) (4064 - footprint (drop (S n) l)) 0 /\
    crc_valid p' /\ crc_valid q' /\ fld 1 p' 4 = fld 1 p 4 /\ fld 1 q' 4 = fld 1 q 4.
Proof.
  intros Hp Hq Hi Hrid n. pose proof (node_page_space _ _ _ _ Hp) as (Hlen & _).
  destruct (node_page_getAll _ _ _ _ Hp) as (ss & Hga & Hm).
  pose proof (sizes_match_len _ _ Hm) as Hls.
  destruct (node_page_halves p q l free g ss i Hp Hq Hm ltac:(lia)) as [(p1 & Hp1 & Hn1 & Hm1) _].
  destruct (node_page_halves p q l free g ss (i + 1) Hp Hq Hm ltac:(lia)) as [_ (q1 & Hq1 & Hn2 & Hm2)].
  fold n in Hp1, Hn1. replace (Z.to_nat (i + 1)) with (S n) in Hq1, Hn2 by lia.
  assert (is_Some (l !! n)) as [e He] by (apply lookup_lt_is_Some; unfold n, len in *; lia).
  pose proof (node_page_space _ _ _ _ Hn1) as (Hl1 & _). pose proof (node_page_space _ _ _ _ Hn2) as (Hl2 & _).
  unfold SplitNode, internalGetAllSlotsAndElements, internalPutAllSlotsAndElements. change getHeaderSize with 32.
  rewrite slice_header by lia. cbn [mbind option_bind].
  rewrite decodePageHeader_eq by (rewrite len_sub; lia). rewrite header_of_sub by lia. cbn [mbind option_bind].
  rewrite !headerView_eq by lia. cbn [mbind option_bind]. rewrite Hga. cbn [mbind option_bind].
  rewrite !slice_take, !slice_drop by lia. replace (Z.to_nat (i + 1)) with (S n) by lia. fold n. cbn [mbind option_bind].
  unfold index. go_assert. fold n. rewrite He. cbn [mbind option_bind].
  rewrite Hp1. cbn [mbind option_bind]. rewrite Hq1. cbn [mbind option_bind]. autorewrite with setters.
  cbn [mbind option_bind]. set (nx := nextLeafNodePageId (header_of p)).
  pose proof (node_page_write_meta q1 _ _ _ 16 (le 8 nx) Hn2 ltac:(rewrite len_le; lia)) as Hn2'.
  pose proof (node_page_write_meta p1 _ _ _ 16 (le 8 rid) Hn1 ltac:(rewrite len_le; lia)) as Hn1'.
  destruct (node_page_updateCRC _ _ _ _ Hn2') as (q2 & -> & Hq2 & Hmq & Hcq). cbn [mbind option_bind].
  destruct (node_page_updateCRC _ _ _ _ Hn1') as (p2 & -> & Hp2 & Hmp & Hcp). cbn [mbind option_bind].
  exists p2, q2, e. split_and!; try done.
  - apply (f_equal (fun m => m.1.1)) in Hmp, Hm1. cbn in Hmp, Hm1. rewrite Hmp. by page_fld.
  - apply (f_equal (fun m => m.1.1)) in Hmq, Hm2. cbn in Hmq, Hm2. rewrite Hmq. by page_fld.
Qed.

(** ** The codec routes keys *)

(** A well-formed internal page: separators in strict order, children agreed. *)
Definition internal_page (p : list byte) l (free g : Z) : Prop :=
  node_page p l free g /\ strict l /\ linked l.

Lemma FindNext_page p l free g k :
  node_page p l free g -> FindNextChildNodePageId p k = Some (findNext_loop l k 0).
Proof.
  intros Hp. destruct (node_page_getAll _ _ _ _ Hp) as (ss & Hga & _).
  unfold FindNextChildNodePageId, internalGetAllSlotsAndElements. by rewrite Hga.
Qed.

(** C21: descending follows the separators: the child found for a key is the one
    of the part of the key space that holds it, after exactly the separators
    the key is not below of. *)
Theorem internal_descend p l free g k :
  internal_page p l free g ->
  exists c, FindNextChildNodePageId p k = Some c /\ children l !! part k l = Some c.
Proof.
  intros (Hp & Hs & Hl). rewrite (FindNext_page _ _ _ _ k Hp). eexists. split; [done|]. by apply findNext_children.
Qed.

(** C19: inserting the separator of a split child, when it fits, gives a
    well-formed page again, in which the child of the separator's part is
    replaced by the two halves and every key is routed to the right one of them
    or as before; when it does not fit the page keeps its separators. *)
Theorem internal_InsertElement_refines p l free g k left right :
  internal_page p l free g -> fresh_key k l -> internal_need k < 65536 ->
  0 <= left < 2 ^ 64 -> 0 <= right < 2 ^ 64 ->
  exists p', InsertElement p k left right =
      Some (p', bool_decide (internal_need k <= free \/ internal_need k <= g)) /\
    meta p' = meta p /\ crc_valid p' /\
    if decide (internal_need k <= free \/ internal_need k <= g) then
      exists l' free' g', internal_page p' l' free' g' /\
        children l' = take (part k l) (children l) ++ [left; right] ++ drop (S (part k l)) (children l) /\
        forall k', FindNextChildNodePageId p' k' =
          if decide (part k' l = part k l) then Some (if decide (key_le k k') then right else left)
          else FindNextChildNodePageId p k'
    else internal_page p' l free g.
Proof.
  intros (Hp & Hs & Hl) Hf Hn Hcl Hcr. set (e := mkInternal k left right).
  pose proof (internal_InsertElement_node _ _ _ _ k left right Hp Hf Hn Hcl Hcr) as Hi.
  case_decide as Hd; destruct Hi as (p' & Heq & Hp' & Hm & Hc); exists p'.
  - rewrite bool_decide_eq_true_2 by done. split_and!; try done. fold e in Hp'.
    eexists (insert_separator e l), _, _. split_and!.
    + split_and!; [exact Hp'|by apply strict_insert|by apply linked_insert].
    + apply (children_insert e l).
    + intros k'. rewrite (FindNext_page _ _ _ _ k' Hp'), (FindNext_page _ _ _ _ k' Hp).
      rewrite (route_insert e k' l) by done. change (InternalKey e) with k. by repeat case_decide.
  - rewrite bool_decide_eq_false_2 by done. by split_and!.
Qed.

(** C20: splitting an internal page strictly inside: the separator at the index
    moves up, both halves are well-formed pages with its neighbours' children,
    and every key is routed by the half on its side as by the whole page. *)
Theorem internal_SplitNode_refines p q l free g rid i :
  internal_page p l free g -> len q = 4096 -> 0 <= rid < 2 ^ 64 -> 0 < i -> i + 1 < len l ->
  exists p' q' sep l1 l2 free1 free2,
    SplitNode p q rid i = Some (p', q', sep) /\
    internal_page p' l1 free1 0 /\ internal_page q' l2 free2 0 /\
    InternalKey <$> l = (InternalKey <$> l1) ++ [sep] ++ (InternalKey <$> l2) /\
    children l = children l1 ++ children l2 /\
    (forall k, FindNextChildNodePageId p k =
       if decide (key_le sep k) then FindNextChildNodePageId q' k else FindNextChildNodePageId p' k) /\
    crc_valid p' /\ crc_valid q'.
Proof.
  intros (Hp & Hs & Hl) Hq Hrid Hi0 Hi.
  destruct (internal_SplitNode_node p q l free g rid i Hp Hq ltac:(lia) Hrid)
    as (p' & q' & e & Heq & He & Hp' & Hq' & Hcp & Hcq & _).
  set (n := Z.to_nat i) in *. assert (0 < n /\ S n < length l)%nat as [Hn1 Hn2] by (unfold n, len in *; lia).
  assert (l = take n l ++ e :: drop (S n) l) as Hsplit by (by rewrite take_drop_middle).
  pose proof Hs as Hs'. rewrite Hsplit in Hs'. apply strict_app in Hs' as (Hs1 & Hs2 & _).
  inversion Hs2 as [|? ? Hs2' _]; subst.
  eexists p', q', (InternalKey e), (take n l), (drop (S n) l), _, _. split_and!; try done.
  - split_and!; [exact Hp'|done|by apply linked_take].
  - split_and!; [exact Hq'|done|by apply linked_drop].
  - rewrite Hsplit at 1. by rewrite fmap_app, fmap_cons.
  - rewrite children_take, children_drop by (done || lia). by rewrite take_drop.
  - intros k. rewrite (FindNext_page _ _ _ _ k Hp), (FindNext_page _ _ _ _ k Hp'), (FindNext_page _ _ _ _ k Hq').
    rewrite (route_split n e l k) by done. by case_decide.
Qed.

(** an internal split is replayed from its log record: decoding the record
    and storing its elements gives a page with the same separators and
    children. *)
Theorem internal_log_roundtrip p l free g q :
  internal_page p l free g -> len q = 4096 ->
  exists data slots elements q',
    internalEncodeAllElements p = Some (len l, data) /\
    internalDecodeAllSlotsAndElements data = Some (slots, elements) /\
    internalPutAllSlotsAndElements q slots elements = Some q' /\
    internal_page q' l (free + g) 0 /\ meta q' = meta q.
Proof.
  intros (Hp & Hs & Hl) Hq. destruct (node_page_EncodeAll _ _ _ _ Hp) as (data & He & Hd).
  pose proof (node_page_space _ _ _ _ Hp) as (_ & ? & ? & Hsp).
  destruct (node_page_PutAll q ((fun e => mkSlot (elt_size e) 0) <$> l) l) as (q' & Hput & Hq' & Hm);
    [done|apply sizes_match_record|by eapply node_page_ok|by eapply node_page_sorted|lia|].
  exists data, ((fun e => mkSlot (elt_size e) 0) <$> l), l, q'. split_and!; [done|done|done| |done].
  split_and!; [|done..]. by replace (free + g) with (4064 - footprint l) by lia.
Qed.

(** C39: when the split index is the last separator the right page gets no
    element at all, and with it no child: every key on its side is sent to
    page 0, which holds the metadata. *)
Theorem internal_split_at_last_loses_child p q l free g rid i :
  internal_page p l free g -> len q = 4096 -> 0 <= rid < 2 ^ 64 -> internalFindSplitNodeIndex p = Some i ->
  i + 1 = len l ->
  exists p' q' sep, SplitNode p q rid i = Some (p', q', sep) /\
    forall k, FindNextChildNodePageId q' k = Some 0.
Proof.
  intros (Hp & Hs & Hl) Hq Hrid Hfi Hi.
  destruct (node_page_FindSplitNodeIndex _ _ _ _ Hp) as (i' & Hfi' & Hb & _).
  unfold internalFindSplitNodeIndex in Hfi. rewrite Hfi in Hfi'. injection Hfi' as <-.
  destruct (internal_SplitNode_node p q l free g rid i Hp Hq ltac:(lia) Hrid)
    as (p' & q' & e & Heq & _ & _ & Hq' & _).
  exists p', q', (InternalKey e). split; [done|]. intros k. rewrite (FindNext_page _ _ _ _ k Hq').
  rewrite drop_ge; [done|]. unfold len in *. lia.
Qed.

(** ** Sample pages *)

Definition putSeparator (p k : list byte) (left right : Z) : list byte :=
  match InsertElement p k left right with Some (p', _) => p' | None => p end.

Lemma internal_page_zero : internal_page (replicate 4096 x00) [] 4064 0.
Proof. split_and!; [apply node_page_zero|constructor|done]. Qed.

Lemma internal_page_put p l free g k left right :
  internal_page p l free g -> fresh_key k l -> internal_need k <= free -> 0 <= left < 2 ^ 64 -> 0 <= right < 2 ^ 64 ->
  internal_page (putSeparator p k left right) (insert_separator (mkInternal k left right) l)
    (free - internal_need k) g.
Proof.
  intros (Hp & Hs & Hl) Hf Hn Hcl Hcr. pose proof (node_page_space _ _ _ _ Hp) as (_ & ? & ? & Hsp).
  pose proof (footprint_nonneg l).
  pose proof (internal_InsertElement_node _ _ _ _ k left right Hp Hf ltac:(lia) Hcl Hcr) as Hi.
  rewrite decide_True in Hi by lia. destruct Hi as (p' & Heq & Hp' & _). unfold putSeparator. rewrite Heq.
  unfold room_after in Hp'. rewrite (proj2 (Z.leb_le _ _) Hn) in Hp'.
  split_and!; [exact Hp'|by apply strict_insert|by apply linked_insert].
Qed.

Definition sep_b : list byte := [x62].
Definition sep_d : list byte := [x64].
Definition sep_f : list byte := [x66].

(** The separators b, d and f with the children 1, 2, 3 and 4, as three
    successive child splits leave them. *)
Definition sample_node : list byte :=
  putSeparator (putSeparator (putSeparator (replicate 4096 x00) sep_d 1 3) sep_b 1 2) sep_f 3 4.
Definition sample_separators : list InternalNodeElement :=
  [mkInternal sep_b 1 2; mkInternal sep_d 2 3; mkInternal sep_f 3 4].

Lemma fresh_key_dec k l : forallb (fun a => negb (bytesCompare (InternalKey a) k =? 0)) l = true -> fresh_key k l.
Proof.
  intros H a Ha Hk. rewrite forallb_forall in H. specialize (H a). rewrite <- list_elem_of_In in H.
  specialize (H Ha). subst k. rewrite bytesCompare_refl in H. done.
Qed.

Lemma internal_page_sample : internal_page sample_node sample_separators (4064 - 23 - 23 - 23) 0.
Proof.
  change sample_separators with (insert_separator (mkInternal sep_f 3 4)
    (insert_separator (mkInternal sep_b 1 2) (insert_separator (mkInternal sep_d 1 3) []))).
  change 23 with (internal_need sep_f) at 3. change 23 with (internal_need sep_b) at 2.
  change 23 with (internal_need sep_d).
  repeat (apply internal_page_put; [|apply fresh_key_dec; reflexivity|vm_compute; discriminate|lia|lia]).
  apply internal_page_zero.
Qed.

Lemma internal_descend_witness : FindNextChildNodePageId sample_node [x63] = Some 2.
Proof.
  destruct (internal_descend sample_node sample_separators _ _ [x63] internal_page_sample) as (c & -> & Hc).
  vm_compute in Hc. congruence.
Defined.

Lemma internal_InsertElement_refines_witness :
  exists p', InsertElement sample_node [x63] 2 5 = Some (p', true) /\
    FindNextChildNodePageId p' [x63; x30] = Some 5 /\ FindNextChildNodePageId p' [x62; x30] = Some 2.
Proof.
  destruct (internal_InsertElement_refines sample_node sample_separators _ _ [x63] 2 5 internal_page_sample)
    as (p' & Heq & _ & _ & l' & free' & g' & _ & _ & Hr);
    [apply fresh_key_dec; reflexivity|reflexivity|lia|lia|].
  exists p'. split_and!; [exact Heq| |]; rewrite Hr; vm_compute; reflexivity.
Defined.

Lemma internal_SplitNode_refines_witness :
  exists p' q' sep, SplitNode sample_node (replicate 4096 x00) 9 1 = Some (p', q', sep) /\
    forall k, FindNextChildNodePageId sample_node k =
      if decide (key_le sep k) then FindNextChildNodePageId q' k else FindNextChildNodePageId p' k.
Proof.
  destruct (internal_SplitNode_refines sample_node (replicate 4096 x00) sample_separators _ _ 9 1 internal_page_sample)
    as (p' & q' & sep & l1 & l2 & f1 & f2 & Heq & _ & _ & _ & _ & Hr & _); [reflexivity|lia|lia|reflexivity|].
  exists p', q', sep. split; [exact Heq|exact Hr].
Defined.

Lemma internal_log_roundtrip_witness :
  exists data slots elements q', internalEncodeAllElements sample_node = Some (3, data) /\
    internalDecodeAllSlotsAndElements data = Some (slots, elements) /\
    internalPutAllSlotsAndElements (replicate 4096 x00) slots elements = Some q'.
Proof.
  destruct (internal_log_roundtrip sample_node sample_separators _ _ (replicate 4096 x00) internal_page_sample)
    as (data & slots & elements & q' & He & Hd & Hput & _); [reflexivity|].
  exists data, slots, elements, q'. auto.
Defined.

Lemma internal_split_at_last_loses_child_witness :
  exists p' q' sep, SplitNode sample_node (replicate 4096 x00) 9 2 = Some (p', q', sep) /\
    forall k, FindNextChildNodePageId q' k = Some 0.
Proof.
  apply (internal_split_at_last_loses_child sample_node (replicate 4096 x00) sample_separators _ _ 9 2
    internal_page_sample); [reflexivity|lia|vm_compute; reflexivity|reflexivity].
Defined.
