(* ===== verification/MetadataCodec.v ===== *)
(** * The metadata page (src/pagecodec/metadata_codec.go)

    Page 0 of the database file: the LSN, the tree counter, the root page and
    first leaf of every tree, the largest allocated page id and the free list.
    Go iterates over a map in an unspecified order, so the encoder takes the
    order of its two [range] loops as arguments; the round trip holds for every
    order. *)

From stdpp Require Export gmap.
From S2P Require Export HeaderCodec.

Record MetaData := mkMetaData {
  MetaLSN : Z;
  CurrBPlusTreeId : Z;
  RootPages : gmap Z Z;
  MaxAllocatedPageId : Z;
  DeallocatedPageIdList : list Z;
  FirstLeafNodePages : gmap Z Z
}.

(** [binary.LittleEndian.PutUint64(data[pointer:pointer+8], x); pointer += 8] *)
Definition put64 (data : list byte) (pointer x : Z) : option (list byte * Z) :=
  v ← slice_view data pointer (pointer + 8);
  data ← putUint 8 data v 0 x;
  Some (data, pointer + 8).

(** The loop over the free list. *)
Fixpoint put64_list (data : list byte) (pointer : Z) (xs : list Z) : option (list byte * Z) :=
  match xs with
  | [] => Some (data, pointer)
  | x :: xs =>
      '(data, pointer) ← put64 data pointer x;
      put64_list data pointer xs
  end.

(** The loops over the maps, in the order [kvs]. *)
Fixpoint put64_pairs (data : list byte) (pointer : Z) (kvs : list (Z * Z)) : option (list byte * Z) :=
  match kvs with
  | [] => Some (data, pointer)
  | (k, v) :: kvs =>
      '(data, pointer) ← put64 data pointer k;
      '(data, pointer) ← put64 data pointer v;
      put64_pairs data pointer kvs
  end.

Definition EncodeMetaDataPage (metadata : MetaData) (rootOrder leafOrder : list (Z * Z)) : option (list byte) :=
  let data := replicate 4096 x00 in
  '(data, pointer) ← put64 data 0 (MetaLSN metadata);
  '(data, pointer) ← put64 data pointer (CurrBPlusTreeId metadata);
  '(data, pointer) ← put64 data pointer (Z.of_nat (size (RootPages metadata)));
  '(data, pointer) ← put64_pairs data pointer rootOrder;
  '(data, pointer) ← put64 data pointer (MaxAllocatedPageId metadata);
  '(data, pointer) ← put64 data pointer (len (DeallocatedPageIdList metadata));
  '(data, pointer) ← put64_list data pointer (DeallocatedPageIdList metadata);
  '(data, pointer) ← put64 data pointer (Z.of_nat (size (FirstLeafNodePages metadata)));
  '(data, _) ← put64_pairs data pointer leafOrder;
  Some data.

(** [binary.LittleEndian.Uint64(data[pointer:pointer+8]); pointer += 8] *)
Definition get64 (data : list byte) (pointer : Z) : option (Z * Z) :=
  b ← slice data pointer (pointer + 8);
  x ← readUint 8 b 0;
  Some (x, pointer + 8).

(** The number of iterations of [for range int(n)] for a [uint64]: none when the
    conversion is negative. *)
Definition range_int (n : Z) : nat := if n <? 2 ^ 63 then Z.to_nat n else O.

Fixpoint get64_pairs (data : list byte) (pointer : Z) (n : nat) (m : gmap Z Z) : option (gmap Z Z * Z) :=
  match n with
  | O => Some (m, pointer)
  | S n =>
      '(k, pointer) ← get64 data pointer;
      '(v, pointer) ← get64 data pointer;
      get64_pairs data pointer n (<[k := v]> m)
  end.

Fixpoint get64_list (data : list byte) (pointer : Z) (n : nat) : option (list Z * Z) :=
  match n with
  | O => Some ([], pointer)
  | S n =>
      '(x, pointer) ← get64 data pointer;
      '(xs, pointer) ← get64_list data pointer n;
      Some (x :: xs, pointer)
  end.

(** [make([]uint64, n)] panics when [n] does not fit an [int]; smaller sizes that
    do not fit the page panic in the loop. *)
Definition DecodeMetaDataPage (data : list byte) : option MetaData :=
  '(lsn, pointer) ← get64 data 0;
  '(currBPlusTreeId, pointer) ← get64 data pointer;
  '(rootsLength, pointer) ← get64 data pointer;
  '(roots, pointer) ← get64_pairs data pointer (range_int rootsLength) ∅;
  '(maxAllocatedPageId, pointer) ← get64 data pointer;
  '(listSize, pointer) ← get64 data pointer;
  assert! listSize <? 2 ^ 63;
  '(deallocated, pointer) ← get64_list data pointer (range_int listSize);
  '(leavesLength, pointer) ← get64 data pointer;
  '(leaves, _) ← get64_pairs data pointer (range_int leavesLength) ∅;
  Some (mkMetaData lsn currBPlusTreeId roots maxAllocatedPageId deallocated leaves).

(** ** The page as a sequence of 64-bit words *)

Definition is_u64 (z : Z) : Prop := 0 <= z < 2 ^ 64.

Definition words (xs : list Z) : list byte := concat (le 8 <$> xs).

Definition flatten (kvs : list (Z * Z)) : list Z := concat ((fun kv => [kv.1; kv.2]) <$> kvs).

Lemma len_words xs : len (words xs) = 8 * len xs.
Proof.
  unfold words. induction xs as [|x xs IH]; [done|]. cbn [fmap list_fmap concat].
  rewrite len_app, len_le, IH, len_cons. lia.
Qed.

Lemma words_app xs ys : words (xs ++ ys) = words xs ++ words ys.
Proof. unfold words. by rewrite fmap_app, concat_app. Qed.

Lemma len_flatten kvs : len (flatten kvs) = 2 * len kvs.
Proof.
  unfold flatten. induction kvs as [|kv kvs IH]; [done|]. cbn [fmap list_fmap concat].
  rewrite len_app, IH, !len_cons, (@len_nil Z). lia.
Qed.

Lemma put64_holds data pointer x :
  len data = 4096 -> 0 <= pointer -> pointer + 8 <= 4096 ->
  put64 data pointer x = Some (write data pointer (le 8 x), pointer + 8).
Proof.
  intros. unfold put64. rewrite slice_view_eq by lia. cbn [mbind option_bind].
  rewrite putUint_eq by (cbn [v_len]; simpl; lia). cbn [mbind option_bind v_off]. by rewrite Z.add_0_r.
Qed.

(** [written d pointer xs]: the first [pointer] bytes are the words [xs]. *)
Definition written (data : list byte) (pointer : Z) (xs : list Z) : Prop :=
  len data = 4096 /\ pointer = 8 * len xs /\ holds data 0 (words xs).

Lemma put64_written data pointer xs x :
  written data pointer xs -> pointer + 8 <= 4096 ->
  exists data', put64 data pointer x = Some (data', pointer + 8) /\ written data' (pointer + 8) (xs ++ [x]).
Proof.
  intros (Hlen & -> & Hh) Hfit. pose proof (len_nonneg xs). rewrite put64_holds by lia. eexists. split; [done|].
  split_and!; [page_len|rewrite len_app; change (len [x]) with 1; lia|].
  rewrite words_app. apply holds_app. rewrite len_words. split.
  - apply page_holds_other; rewrite ?len_words, ?len_le; (done || lia).
  - change (words [x]) with (le 8 x ++ []). rewrite app_nil_r. apply page_holds_same; rewrite ?len_le; (done || lia).
Qed.

Lemma put64_list_written ys : forall data pointer xs,
  written data pointer xs -> pointer + 8 * len ys <= 4096 ->
  exists data', put64_list data pointer ys = Some (data', pointer + 8 * len ys) /\
    written data' (pointer + 8 * len ys) (xs ++ ys).
Proof.
  induction ys as [|y ys IH]; intros data pointer xs Hw Hfit.
  { exists data. rewrite app_nil_r, (@len_nil Z), Z.mul_0_r, Z.add_0_r. done. }
  rewrite len_cons in *. pose proof (len_nonneg ys). cbn [put64_list].
  destruct (put64_written _ _ _ y Hw) as (d & -> & Hd); [lia|]. cbn [mbind option_bind].
  destruct (IH _ _ _ Hd) as (d' & -> & Hd'); [lia|]. exists d'. rewrite <- app_assoc in Hd'.
  replace (pointer + 8 * (1 + len ys)) with (pointer + 8 + 8 * len ys) by lia. done.
Qed.

Lemma get64_words data pointer x xs :
  holds data pointer (words (x :: xs)) -> is_u64 x ->
  get64 data pointer = Some (x, pointer + 8) /\ holds data (pointer + 8) (words xs).
Proof.
  change (words (x :: xs)) with (le 8 x ++ words xs). intros [Hh Hr]%holds_app Hx. rewrite len_le in Hr. split; [|done].
  unfold get64. pose proof (holds_slice _ _ _ Hh) as Hs. rewrite len_le in Hs. change (Z.of_nat 8) with 8 in Hs.
  rewrite Hs. cbn [mbind option_bind]. pose proof (readUint_head 8 x []) as Hrd. rewrite app_nil_r in Hrd.
  rewrite Hrd. cbn [mbind option_bind]. change (256 ^ Z.of_nat 8) with (2 ^ 64). by rewrite Z.mod_small.
Qed.

Lemma get64_list_words xs : forall data pointer ys,
  holds data pointer (words (xs ++ ys)) -> Forall is_u64 xs ->
  get64_list data pointer (length xs) = Some (xs, pointer + 8 * len xs) /\
  holds data (pointer + 8 * len xs) (words ys).
Proof.
  induction xs as [|x xs IH]; intros data pointer ys Hh Hu.
  { rewrite (@len_nil Z), Z.mul_0_r, Z.add_0_r. done. }
  inversion Hu as [|? ? Hx Hu']; subst. cbn [app] in Hh. destruct (get64_words _ _ _ _ Hh Hx) as [Heq Hr].
  cbn [length get64_list]. rewrite Heq. cbn [mbind option_bind]. destruct (IH _ _ _ Hr Hu') as [-> Hr'].
  cbn [mbind option_bind]. rewrite len_cons. replace (pointer + 8 * (1 + len xs)) with (pointer + 8 + 8 * len xs) by lia.
  done.
Qed.

Lemma get64_pairs_words kvs : forall data pointer ys m,
  holds data pointer (words (flatten kvs ++ ys)) -> Forall is_u64 (flatten kvs) ->
  get64_pairs data pointer (length kvs) m =
    Some (foldl (fun m kv => <[kv.1 := kv.2]> m) m kvs, pointer + 16 * len kvs) /\
  holds data (pointer + 16 * len kvs) (words ys).
Proof.
  induction kvs as [|[k v] kvs IH]; intros data pointer ys m Hh Hu.
  { rewrite (@len_nil (Z * Z)), Z.mul_0_r, Z.add_0_r. done. }
  change (flatten ((k, v) :: kvs)) with (k :: v :: flatten kvs) in *.
  inversion Hu as [|? ? Hk Hu1]; subst. inversion Hu1 as [|? ? Hv Hu2]; subst.
  cbn [app] in Hh. destruct (get64_words _ _ _ _ Hh Hk) as [Heq1 Hr1]. destruct (get64_words _ _ _ _ Hr1 Hv) as [Heq2 Hr2].
  cbn [length get64_pairs foldl fst snd]. rewrite Heq1. cbn [mbind option_bind]. rewrite Heq2. cbn [mbind option_bind].
  destruct (IH _ _ _ (<[k := v]> m) Hr2 Hu2) as [-> Hr']. rewrite len_cons.
  replace (pointer + 16 * (1 + len kvs)) with (pointer + 8 + 8 + 16 * len kvs) by lia. done.
Qed.

Lemma foldl_insert_list kvs (m : gmap Z Z) :
  NoDup kvs.*1 -> foldl (fun m kv => <[kv.1 := kv.2]> m) m kvs = list_to_map kvs ∪ m.
Proof.
  revert m. induction kvs as [|[k v] kvs IH]; intros m Hnd; cbn; [by rewrite map_empty_union|].
  apply list.NoDup_cons in Hnd as [Hk Hnd]. rewrite IH by done.
  rewrite <- insert_union_r by (by apply not_elem_of_list_to_map_1). by rewrite insert_union_l.
Qed.

(** The entries of a map in any order rebuild it. *)
Lemma foldl_insert_order (m : gmap Z Z) kvs :
  kvs ≡ₚ map_to_list m -> foldl (fun m kv => <[kv.1 := kv.2]> m) ∅ kvs = m.
Proof.
  intros Hp. assert (NoDup kvs.*1) by (rewrite Hp; apply NoDup_fst_map_to_list).
  rewrite foldl_insert_list by done. rewrite map_union_empty.
  rewrite (list_to_map_proper kvs (map_to_list m)) by done. apply list_to_map_to_list.
Qed.

(** ** Round trip *)

Definition map_u64 (m : gmap Z Z) : Prop := map_Forall (fun k v => is_u64 k /\ is_u64 v) m.

Record meta_ok (md : MetaData) : Prop := {
  ok_lsn : is_u64 (MetaLSN md);
  ok_curr : is_u64 (CurrBPlusTreeId md);
  ok_roots : map_u64 (RootPages md);
  ok_max : is_u64 (MaxAllocatedPageId md);
  ok_free : Forall is_u64 (DeallocatedPageIdList md);
  ok_leaves : map_u64 (FirstLeafNodePages md)
}.

(** The 64-bit words the page holds. *)
Definition meta_words (md : MetaData) (rootOrder leafOrder : list (Z * Z)) : list Z :=
  [MetaLSN md; CurrBPlusTreeId md; len rootOrder] ++ flatten rootOrder ++
  [MaxAllocatedPageId md; len (DeallocatedPageIdList md)] ++ DeallocatedPageIdList md ++
  [len leafOrder] ++ flatten leafOrder.

(** Bytes the page needs: six counters, sixteen per tree and map, eight per free
    page. *)
Definition meta_size (md : MetaData) : Z :=
  48 + 16 * Z.of_nat (size (RootPages md)) + 8 * len (DeallocatedPageIdList md) +
  16 * Z.of_nat (size (FirstLeafNodePages md)).

Definition order_of (m : gmap Z Z) (kvs : list (Z * Z)) : Prop := kvs ≡ₚ map_to_list m.

Lemma order_size m kvs : order_of m kvs -> len kvs = Z.of_nat (size m).
Proof. intros Hp. unfold len. rewrite (Permutation_length Hp), length_map_to_list. done. Qed.

Lemma order_u64 m kvs : order_of m kvs -> map_u64 m -> Forall is_u64 (flatten kvs).
Proof.
  intros Hp Hm. assert (Forall (fun kv => is_u64 kv.1 /\ is_u64 kv.2) kvs) as Hf.
  { rewrite Hp. apply map_Forall_to_list in Hm. eapply list.Forall_impl; [exact Hm|]. by intros []. }
  clear Hp. unfold flatten. induction Hf as [|[k v] kvs [Hk Hv] _ IH]; [constructor|].
  cbn. constructor; [done|]. constructor; done.
Qed.

(** Encoding writes the words one after the other. *)
Lemma put64_list_app xs ys : forall data pointer,
  put64_list data pointer (xs ++ ys) = '(data, pointer) ← put64_list data pointer xs; put64_list data pointer ys.
Proof.
  induction xs as [|x xs IH]; intros data pointer; [done|]. cbn [app put64_list].
  destruct (put64 data pointer x) as [[d p]|]; [|done]. cbn [mbind option_bind]. apply IH.
Qed.

Lemma put64_pairs_list kvs : forall data pointer, put64_pairs data pointer kvs = put64_list data pointer (flatten kvs).
Proof.
  induction kvs as [|[k v] kvs IH]; intros data pointer; [done|]. cbn [put64_pairs].
  change (flatten ((k, v) :: kvs)) with (k :: v :: flatten kvs). cbn [put64_list].
  destruct (put64 data pointer k) as [[d p]|]; [|done]. cbn [mbind option_bind].
  destruct (put64 d p v) as [[d' p']|]; [|done]. cbn [mbind option_bind]. apply IH.
Qed.

Lemma EncodeMetaDataPage_words md ro lo :
  order_of (RootPages md) ro -> order_of (FirstLeafNodePages md) lo ->
  EncodeMetaDataPage md ro lo = fst <$> put64_list (replicate 4096 x00) 0 (meta_words md ro lo).
Proof.
  intros Hro Hlo. unfold EncodeMetaDataPage, meta_words.
  rewrite <- (order_size _ _ Hro), <- (order_size _ _ Hlo). cbn [app put64_list].
  set (z := replicate 4096 x00). generalize z 0. clear z. intros z p.
  destruct (put64 z p (MetaLSN md)) as [[d1 p1]|]; [|done]. cbn [mbind option_bind].
  destruct (put64 d1 p1 (CurrBPlusTreeId md)) as [[d2 p2]|]; [|done]. cbn [mbind option_bind].
  destruct (put64 d2 p2 (len ro)) as [[d3 p3]|]; [|done]. cbn [mbind option_bind].
  rewrite put64_list_app, put64_pairs_list.
  destruct (put64_list d3 p3 (flatten ro)) as [[d4 p4]|]; [|done]. cbn [mbind option_bind put64_list].
  destruct (put64 d4 p4 (MaxAllocatedPageId md)) as [[d5 p5]|]; [|done]. cbn [mbind option_bind].
  destruct (put64 d5 p5 (len (DeallocatedPageIdList md))) as [[d6 p6]|]; [|done]. cbn [mbind option_bind].
  rewrite put64_list_app.
  destruct (put64_list d6 p6 (DeallocatedPageIdList md)) as [[d7 p7]|]; [|done]. cbn [mbind option_bind put64_list].
  destruct (put64 d7 p7 (len lo)) as [[d8 p8]|]; [|done]. cbn [mbind option_bind]. rewrite put64_pairs_list.
  by destruct (put64_list d8 p8 (flatten lo)) as [[d9 p9]|].
Qed.

Lemma meta_words_size md ro lo :
  order_of (RootPages md) ro -> order_of (FirstLeafNodePages md) lo -> 8 * len (meta_words md ro lo) = meta_size md.
Proof.
  intros Hro Hlo. unfold meta_words, meta_size. rewrite <- (order_size _ _ Hro), <- (order_size _ _ Hlo).
  rewrite !len_app, !len_cons, !len_flatten, (@len_nil Z). lia.
Qed.

Lemma EncodeMetaDataPage_written md ro lo :
  order_of (RootPages md) ro -> order_of (FirstLeafNodePages md) lo -> meta_size md <= 4096 ->
  exists data, EncodeMetaDataPage md ro lo = Some data /\ len data = 4096 /\ holds data 0 (words (meta_words md ro lo)).
Proof.
  intros Hro Hlo Hfit. rewrite EncodeMetaDataPage_words by done.
  assert (written (replicate 4096 x00) 0 []) as Hw by (split_and!; done).
  destruct (put64_list_written (meta_words md ro lo) _ _ _ Hw) as (d & -> & (Hlen & _ & Hh)).
  { rewrite meta_words_size by done. lia. }
  by exists d.
Qed.

Lemma put64_list_overflow xs : forall data pointer,
  len data = 4096 -> 0 <= pointer -> 4096 < pointer + 8 * len xs -> pointer <= 4096 -> put64_list data pointer xs = None.
Proof.
  induction xs as [|x xs IH]; intros data pointer Hlen Hp Hov Hle.
  { rewrite (@len_nil Z) in Hov. lia. }
  rewrite len_cons in Hov. cbn [put64_list]. destruct (Z.le_gt_cases (pointer + 8) 4096) as [Hfit|Hno].
  - rewrite put64_holds by lia. cbn [mbind option_bind]. apply IH; [page_len|lia..].
  - unfold put64, slice_view. rewrite (proj2 (Z.leb_gt (pointer + 8) (len data))) by lia. by rewrite andb_false_r.
Qed.

Lemma range_int_len {A} (l : list A) : len l < 2 ^ 63 -> range_int (len l) = length l.
Proof. intros. unfold range_int. rewrite (proj2 (Z.ltb_lt _ _)) by done. apply to_nat_len. Qed.

Lemma DecodeMetaDataPage_words md ro lo data :
  meta_ok md -> order_of (RootPages md) ro -> order_of (FirstLeafNodePages md) lo -> meta_size md <= 4096 ->
  holds data 0 (words (meta_words md ro lo)) -> DecodeMetaDataPage data = Some md.
Proof.
  intros [Hlsn Hcur Hr Hmax Hfree Hl] Hro Hlo Hfit Hh. unfold meta_size in Hfit.
  rewrite <- (order_size _ _ Hro), <- (order_size _ _ Hlo) in Hfit.
  pose proof (len_nonneg ro). pose proof (len_nonneg lo). pose proof (len_nonneg (DeallocatedPageIdList md)).
  pose proof (order_u64 _ _ Hro Hr) as Hru. pose proof (order_u64 _ _ Hlo Hl) as Hlu.
  unfold meta_words in Hh. cbn [app] in Hh. unfold DecodeMetaDataPage.
  destruct (get64_words _ _ _ _ Hh Hlsn) as [-> Hh1]. cbn [mbind option_bind].
  destruct (get64_words _ _ _ _ Hh1 Hcur) as [-> Hh2]. cbn [mbind option_bind].
  destruct (get64_words _ _ _ _ Hh2) as [-> Hh3]; [unfold is_u64; lia|]. cbn [mbind option_bind].
  rewrite range_int_len by lia.
  destruct (get64_pairs_words _ _ _ _ ∅ Hh3 Hru) as [-> Hh4]. cbn [mbind option_bind].
  destruct (get64_words _ _ _ _ Hh4 Hmax) as [-> Hh5]. cbn [mbind option_bind].
  destruct (get64_words _ _ _ _ Hh5) as [-> Hh6]; [unfold is_u64; lia|]. cbn [mbind option_bind].
  rewrite (proj2 (Z.ltb_lt _ _)) by lia. rewrite range_int_len by lia.
  destruct (get64_list_words _ _ _ _ Hh6 Hfree) as [-> Hh7]. cbn [mbind option_bind].
  destruct (get64_words _ _ _ _ Hh7) as [-> Hh8]; [unfold is_u64; lia|]. cbn [mbind option_bind].
  rewrite range_int_len by lia. rewrite <- (app_nil_r (flatten lo)) in Hh8.
  destruct (get64_pairs_words _ _ _ _ ∅ Hh8 Hlu) as [-> _]. cbn [mbind option_bind].
  rewrite (foldl_insert_order _ _ Hro), (foldl_insert_order _ _ Hlo). by destruct md.
Qed.

(** C31: the metadata page round trips: whatever the order in which the two maps
    are iterated, encoding succeeds when the page is large enough, and decoding
    gives the same metadata back. *)
Theorem metadata_roundtrip md ro lo :
  meta_ok md -> order_of (RootPages md) ro -> order_of (FirstLeafNodePages md) lo -> meta_size md <= 4096 ->
  exists data, EncodeMetaDataPage md ro lo = Some data /\ len data = 4096 /\ DecodeMetaDataPage data = Some md.
Proof.
  intros Hok Hro Hlo Hfit. destruct (EncodeMetaDataPage_written md ro lo Hro Hlo Hfit) as (data & Heq & Hlen & Hh).
  exists data. split_and!; [done..|]. by eapply DecodeMetaDataPage_words.
Qed.

Definition sample_meta : MetaData := mkMetaData 9 3 {[1 := 4; 2 := 7]} 12 [5; 6] {[1 := 2]}.

Lemma sample_meta_ok : meta_ok sample_meta.
Proof.
  constructor; try (unfold is_u64; cbn; lia).
  - apply map_Forall_insert_2; [unfold is_u64; lia|]. apply map_Forall_singleton. unfold is_u64. lia.
  - cbn. repeat (constructor; [unfold is_u64; lia|]). constructor.
  - apply map_Forall_singleton. unfold is_u64. lia.
Qed.

Lemma metadata_roundtrip_witness :
  exists data, EncodeMetaDataPage sample_meta [(2, 7); (1, 4)] [(1, 2)] = Some data /\
    DecodeMetaDataPage data = Some sample_meta.
Proof.
  destruct (metadata_roundtrip sample_meta [(2, 7); (1, 4)] [(1, 2)] sample_meta_ok) as (data & He & _ & Hd).
  - unfold order_of. vm_compute. first [apply Permutation_refl | constructor].
  - unfold order_of. vm_compute. apply Permutation_refl.
  - vm_compute. discriminate.
  - exists data. auto.
Defined.

(** the free list lives in one page: when it does not fit, writing the
    metadata panics (closing the database included). *)
Theorem metadata_overflow_panics md ro lo :
  order_of (RootPages md) ro -> order_of (FirstLeafNodePages md) lo -> 4096 < meta_size md ->
  EncodeMetaDataPage md ro lo = None.
Proof.
  intros Hro Hlo Hov. rewrite EncodeMetaDataPage_words by done.
  rewrite put64_list_overflow; [done|done|done| |done]. rewrite meta_words_size by done. lia.
Qed.

Lemma metadata_overflow_panics_witness :
  EncodeMetaDataPage (mkMetaData 0 0 ∅ 600 (replicate 507 1) ∅) [] [] = None.
Proof. apply metadata_overflow_panics; [apply Permutation_refl..|vm_compute; reflexivity]. Defined.
