(* ===== verification/LRUReplacer.v ===== *)
(** * Page replacement (src/bufferpoolmanager/lru_replacer.go)

    The [Replacer] interface of the buffer pool, what the pool needs of it, and
    the LRU implementation: a doubly linked list of frame ids, most recently
    unpinned first, with a map from frame id to list element so that an element
    can be removed from the middle. *)

From stdpp Require Export gmap.
From S2P Require Export Prelude.

(** ** The interface *)

Class Replacer (R : Type) := {
  newReplacer : R;
  (** [None]: [list.Remove(nil)], a nil dereference. *)
  replacer_victim : R -> option (Z * R);
  replacer_insert : R -> Z -> R;
  replacer_remove : R -> Z -> option R;
  replacer_size : R -> Z
}.

(** What the buffer pool relies on, whatever the policy: the replacer keeps the
    set of frames it was given. *)
Class ReplacerLaws (R : Type) `{!Replacer R} := {
  replacer_ok : R -> Prop;
  candidates : R -> list Z;
  new_ok : replacer_ok newReplacer /\ candidates newReplacer = [];
  insert_law r f :
    replacer_ok r -> f ∉ candidates r ->
    replacer_ok (replacer_insert r f) /\ candidates (replacer_insert r f) ≡ₚ f :: candidates r;
  remove_law r f :
    replacer_ok r -> f ∈ candidates r ->
    exists r', replacer_remove r f = Some r' /\ replacer_ok r' /\ candidates r ≡ₚ f :: candidates r';
  victim_law r :
    replacer_ok r -> candidates r <> [] ->
    exists f r', replacer_victim r = Some (f, r') /\ replacer_ok r' /\ candidates r ≡ₚ f :: candidates r';
  victim_empty r f r' : replacer_ok r -> candidates r = [] -> replacer_victim r = Some (f, r') -> False;
  candidates_nodup r : replacer_ok r -> NoDup (candidates r)
}.

(** ** The LRU replacer *)

(** A list element is the identity of its node and the frame id it holds. *)
Record LRUReplacer := mkLRU {
  lru_list : list (nat * Z);
  frameMap : gmap Z nat;
  next_node : nat
}.

Definition NewLRUReplacer : LRUReplacer := mkLRU [] ∅ 0.

(** [list.Remove(e)] for the element with identity [n]. *)
Definition listRemove (l : list (nat * Z)) (n : nat) : list (nat * Z) :=
  filter (fun e => e.1 <> n) l.

Definition lru_victim (r : LRUReplacer) : option (Z * LRUReplacer) :=
  frameElement ← list.last (lru_list r);
  let frameId := frameElement.2 in
  Some (frameId, mkLRU (listRemove (lru_list r) frameElement.1)
                       (delete frameId (frameMap r)) (next_node r)).

Definition lru_insert (r : LRUReplacer) (frameId : Z) : LRUReplacer :=
  mkLRU ((next_node r, frameId) :: lru_list r)
        (<[frameId := next_node r]> (frameMap r)) (S (next_node r)).

Definition lru_remove (r : LRUReplacer) (frameId : Z) : option LRUReplacer :=
  frameElement ← frameMap r !! frameId;
  Some (mkLRU (listRemove (lru_list r) frameElement) (delete frameId (frameMap r)) (next_node r)).

Definition lru_size (r : LRUReplacer) : Z := Z.of_nat (size (frameMap r)).

#[export] Instance LRU_Replacer : Replacer LRUReplacer := {
  newReplacer := NewLRUReplacer;
  replacer_victim := lru_victim;
  replacer_insert := lru_insert;
  replacer_remove := lru_remove;
  replacer_size := lru_size
}.

(** ** The list and the map agree *)

Definition lru_frames (r : LRUReplacer) : list Z := (lru_list r).*2.

Record lru_ok (r : LRUReplacer) : Prop := {
  lru_nodup : NoDup (lru_frames r);
  lru_nodes : NoDup (lru_list r).*1;
  lru_fresh : forall n f, (n, f) ∈ lru_list r -> (n < next_node r)%nat;
  lru_map : forall f n, frameMap r !! f = Some n <-> (n, f) ∈ lru_list r
}.

(** Removing the node of a frame removes that frame and keeps the order. *)
Lemma listRemove_split (l1 l2 : list (nat * Z)) n f :
  NoDup (l1 ++ (n, f) :: l2).*1 -> listRemove (l1 ++ (n, f) :: l2) n = l1 ++ l2.
Proof.
  unfold listRemove. rewrite fmap_app, fmap_cons. intros (_ & Hd & [Hn _]%list.NoDup_cons)%list.NoDup_app.
  assert (forall l : list (nat * Z), n ∉ l.*1 -> filter (fun e : nat * Z => e.1 <> n) l = l) as Hid.
  { intros l. induction l as [|[m g] l IH]; [done|]. intros Hni. rewrite fmap_cons, not_elem_of_cons in Hni.
    destruct Hni as [Hne Hni]. rewrite filter_cons_True by (cbn in *; congruence). by rewrite IH. }
  rewrite list.filter_app, filter_cons_False by (cbn; tauto). rewrite !Hid; [done|done|].
  intros Hin. apply (Hd n Hin). by left.
Qed.

Lemma lru_ok_remove r n f l1 l2 :
  lru_ok r -> lru_list r = l1 ++ (n, f) :: l2 ->
  let r' := mkLRU (listRemove (lru_list r) n) (delete f (frameMap r)) (next_node r) in
  lru_ok r' /\ lru_list r' = l1 ++ l2.
Proof.
  destruct r as [ls fm nn]. intros [Hnd Hno Hfr Hmap] Heq r'. unfold lru_frames in *.
  cbn [lru_list frameMap next_node] in *. subst ls.
  assert (lru_list r' = l1 ++ l2) as Hl by (subst r'; cbn; by apply listRemove_split).
  split; [|done]. rewrite fmap_app, fmap_cons in Hnd. rewrite fmap_app, fmap_cons in Hno.
  apply list.NoDup_app in Hnd as (Hnd1 & Hd & Hnd2). apply list.NoDup_cons in Hnd2 as [Hf2 Hnd2].
  apply list.NoDup_app in Hno as (Hno1 & Hdn & Hno2). apply list.NoDup_cons in Hno2 as [Hn2 Hno2].
  constructor; unfold lru_frames; rewrite ?Hl.
  - rewrite fmap_app. apply list.NoDup_app. split_and!; [done| |done]. intros x Hx Hx2. apply (Hd x Hx). by right.
  - rewrite fmap_app. apply list.NoDup_app. split_and!; [done| |done]. intros x Hx Hx2. apply (Hdn x Hx). by right.
  - intros m g Hin. apply (Hfr m g). apply elem_of_app in Hin as [?|?]; apply elem_of_app; [by left|right; by right].
  - intros g m. cbn. rewrite lookup_delete_Some, Hmap, !elem_of_app, elem_of_cons. split.
    + intros (Hne & [?|[[= -> ->]|?]]); [by left|done|by right].
    + intros Hin. split; [|destruct Hin as [?|?]; [by left|right; by right]]. intros <-. destruct Hin as [Hin|Hin].
      * apply (Hd f); [|by left]. apply list_elem_of_fmap. by exists (m, f).
      * apply Hf2, list_elem_of_fmap. by exists (m, f).
Qed.

Lemma lru_insert_ok r f : lru_ok r -> f ∉ lru_frames r -> lru_ok (lru_insert r f).
Proof.
  intros [Hnd Hno Hfr Hmap] Hf. constructor; unfold lru_frames in *; cbn.
  - by constructor.
  - constructor; [|done]. intros ([m g] & Heq & Hin)%list_elem_of_fmap. cbn in Heq. subst m.
    apply Hfr in Hin. lia.
  - intros n g [[= -> ->]|Hin]%elem_of_cons; [lia|]. apply Hfr in Hin. lia.
  - intros g n. rewrite elem_of_cons, <- Hmap. destruct (decide (f = g)) as [<-|Hne].
    + rewrite lookup_insert_eq. split; [intros [= <-]; by left|]. intros [[= ->]|Hm%Hmap]; [done|].
      exfalso. apply Hf, list_elem_of_fmap. by exists (n, f).
    + rewrite lookup_insert_ne by done. split; [by right|]. intros [[= -> ->]|?]; done.
Qed.

Lemma lru_remove_spec r f :
  lru_ok r -> f ∈ lru_frames r ->
  exists r' l1 l2, lru_remove r f = Some r' /\ lru_ok r' /\
    lru_frames r = l1 ++ f :: l2 /\ lru_frames r' = l1 ++ l2.
Proof.
  intros Hok ([n g] & Hg & Hin)%list_elem_of_fmap. cbn in Hg. subst g.
  pose proof (proj2 (lru_map _ Hok f n) Hin) as Hm. apply list_elem_of_split in Hin as (l1 & l2 & Heq).
  destruct (lru_ok_remove r n f l1 l2 Hok Heq) as [Hok' Hl].
  eexists _, l1.*2, l2.*2. unfold lru_remove. rewrite Hm. cbn [mbind option_bind].
  split_and!; [done|done| |].
  - unfold lru_frames. by rewrite Heq, fmap_app.
  - unfold lru_frames. by rewrite Hl, fmap_app.
Qed.

Lemma lru_victim_spec r l f :
  lru_ok r -> lru_frames r = l ++ [f] ->
  exists r', lru_victim r = Some (f, r') /\ lru_ok r' /\ lru_frames r' = l.
Proof.
  intros Hok Hfr. unfold lru_frames in Hfr.
  destruct (lru_list r) as [|e es _] eqn:Hl using rev_ind; [by destruct l|].
  rewrite fmap_app in Hfr. apply app_inj_tail in Hfr as [Hes He]. destruct e as [n g]. cbn in He. subst g.
  destruct (lru_ok_remove r n f es [] Hok Hl) as [Hok' Hl']. unfold lru_victim. rewrite Hl, last_snoc.
  cbn [mbind option_bind fst snd]. rewrite Hl in Hok', Hl'. eexists. split_and!; [done|done|].
  unfold lru_frames. rewrite Hl', app_nil_r. done.
Qed.

Lemma lru_size_frames r : lru_ok r -> lru_size r = Z.of_nat (length (lru_frames r)).
Proof.
  intros [Hnd Hno Hfr Hmap]. unfold lru_size, lru_frames. f_equal. rewrite length_fmap.
  assert (frameMap r = list_to_map ((fun e => (e.2, e.1)) <$> lru_list r)) as ->.
  { apply map_eq. intros f. apply option_eq. intros n. rewrite Hmap.
    rewrite <- elem_of_list_to_map.
    - rewrite list_elem_of_fmap. split; [intros Hin; by exists (n, f)|]. by intros ([m g] & [= -> ->] & Hin).
    - unfold lru_frames in Hnd. by rewrite <- list_fmap_compose. }
  rewrite map_size_list_to_map; [by rewrite length_fmap|]. by rewrite <- list_fmap_compose.
Qed.

#[export] Program Instance LRU_laws : ReplacerLaws LRUReplacer := {
  replacer_ok := lru_ok;
  candidates := lru_frames
}.
Next Obligation.
  split; [|done]. constructor; cbn; try constructor; try (intros ? ? []%elem_of_nil).
  - by rewrite lookup_empty.
  - by intros []%elem_of_nil.
Qed.
Next Obligation. intros r f Hok Hf. split; [by apply lru_insert_ok|done]. Qed.
Next Obligation.
  intros r f Hok Hf. destruct (lru_remove_spec r f Hok Hf) as (r' & l1 & l2 & Heq & Hok' & Hr & Hr').
  exists r'. split_and!; [done..|]. rewrite Hr, Hr'. symmetry. apply Permutation_middle.
Qed.
Next Obligation.
  intros r Hok Hne. destruct (exists_last Hne) as (l & f & Heq).
  destruct (lru_victim_spec r l f Hok Heq) as (r' & Hv & Hok' & Hr'). exists f, r'. split_and!; [done..|].
  rewrite Heq, Hr'. symmetry. apply Permutation_cons_append.
Qed.
Next Obligation.
  intros r f r' _ Hemp. cbn. unfold lru_victim, lru_frames in *. by destruct (lru_list r).
Qed.
Next Obligation. intros r Hok. apply Hok. Qed.

(** ** Least recently used

    The specification of the policy: a list of frames, the most recently
    unpinned one first, from which the last is evicted.  [None] where the
    buffer pool must not call the operation. *)

Inductive lru_op := OpInsert (f : Z) | OpRemove (f : Z) | OpVictim.

Fixpoint remove_one (f : Z) (l : list Z) : list Z :=
  match l with [] => [] | g :: l => if decide (f = g) then l else g :: remove_one f l end.

Definition spec_step (l : list Z) (op : lru_op) : option (list Z * list Z) :=
  match op with
  | OpInsert f => if decide (f ∈ l) then None else Some (f :: l, [])
  | OpRemove f => if decide (f ∈ l) then Some (remove_one f l, []) else None
  | OpVictim => v ← list.last l; Some (take (length l - 1) l, [v])
  end.

Definition impl_step (r : LRUReplacer) (op : lru_op) : option (LRUReplacer * list Z) :=
  match op with
  | OpInsert f => Some (replacer_insert r f, [])
  | OpRemove f => r' ← replacer_remove r f; Some (r', [])
  | OpVictim => '(f, r') ← replacer_victim r; Some (r', [f])
  end.

(** A run collects the evicted frames. *)
Fixpoint spec_run (l : list Z) (ops : list lru_op) : option (list Z * list Z) :=
  match ops with
  | [] => Some (l, [])
  | op :: ops => '(l, out) ← spec_step l op; '(l, outs) ← spec_run l ops; Some (l, out ++ outs)
  end.
Fixpoint impl_run (r : LRUReplacer) (ops : list lru_op) : option (LRUReplacer * list Z) :=
  match ops with
  | [] => Some (r, [])
  | op :: ops => '(r, out) ← impl_step r op; '(r, outs) ← impl_run r ops; Some (r, out ++ outs)
  end.

Lemma remove_one_split f l1 l2 : f ∉ l1 -> remove_one f (l1 ++ f :: l2) = l1 ++ l2.
Proof.
  induction l1 as [|g l1 IH]; cbn; [by rewrite decide_True|]. intros [Hne Hni]%not_elem_of_cons.
  by rewrite decide_False, IH.
Qed.

Lemma lru_step_sim r op l' out :
  lru_ok r -> spec_step (lru_frames r) op = Some (l', out) ->
  exists r', impl_step r op = Some (r', out) /\ lru_ok r' /\ lru_frames r' = l'.
Proof.
  intros Hok. destruct op as [f|f|]; cbn.
  - case_decide as Hin; [done|]. intros [= <- <-]. eexists. split_and!; [done|by apply lru_insert_ok|done].
  - case_decide as Hin; [|done]. intros [= <- <-].
    destruct (lru_remove_spec r f Hok Hin) as (r' & l1 & l2 & Heq & Hok' & Hr & Hr').
    exists r'. cbn. rewrite Heq. split_and!; [done..|]. rewrite Hr'. symmetry. rewrite Hr. apply remove_one_split.
    pose proof (lru_nodup _ Hok) as Hnd. rewrite Hr in Hnd. apply list.NoDup_app in Hnd as (_ & Hd & _).
    intros Hf. apply (Hd f Hf). by left.
  - destruct (lru_frames r) as [|v l _] eqn:Hfr using rev_ind; [done|]. rewrite last_snoc. cbn.
    intros [= <- <-]. destruct (lru_victim_spec r l v Hok Hfr) as (r' & Hv & Hok' & Hr').
    exists r'. rewrite Hv. split_and!; [done..|]. rewrite length_app. cbn.
    by rewrite Nat.add_sub, take_app_length.
Qed.

(** C30: the replacer is an LRU queue: on every sequence of operations the
    specification allows, it never panics, evicts the same frames in the same
    order, and ends with the same frames in recency order. *)
Theorem lru_refines_queue ops l' out :
  spec_run [] ops = Some (l', out) ->
  exists r', impl_run NewLRUReplacer ops = Some (r', out) /\ lru_frames r' = l' /\
    replacer_size r' = Z.of_nat (length l').
Proof.
  assert (forall r, lru_ok r -> spec_run (lru_frames r) ops = Some (l', out) ->
    exists r', impl_run r ops = Some (r', out) /\ lru_ok r' /\ lru_frames r' = l') as Hgen.
  { revert out. induction ops as [|op ops IH]; intros out r Hok; cbn.
    - intros [= <- <-]. by exists r.
    - destruct (spec_step (lru_frames r) op) as [[l1 out1]|] eqn:Hst; [|done]. cbn.
      destruct (lru_step_sim r op l1 out1 Hok Hst) as (r1 & -> & Hok1 & <-). cbn.
      destruct (spec_run (lru_frames r1) ops) as [[l2 out2]|] eqn:Hrun; [|done]. cbn. intros [= <- <-].
      destruct (IH out2 r1 Hok1 Hrun) as (r' & -> & Hok' & Hr'). by exists r'. }
  intros Hrun. destruct (Hgen NewLRUReplacer) as (r' & Heq & Hok & Hfr); [exact (proj1 (new_ok (R := LRUReplacer)))|done|].
  exists r'. split_and!; [done..|]. rewrite <- Hfr. apply lru_size_frames, Hok.
Qed.

Lemma lru_refines_queue_witness :
  exists r', impl_run NewLRUReplacer [OpInsert 1; OpInsert 2; OpInsert 3; OpRemove 1; OpInsert 1; OpVictim; OpVictim]
    = Some (r', [2; 3]) /\ lru_frames r' = [1].
Proof.
  destruct (lru_refines_queue
    [OpInsert 1; OpInsert 2; OpInsert 3; OpRemove 1; OpInsert 1; OpVictim; OpVictim] [1] [2; 3])
    as (r' & Heq & Hfr & _); [reflexivity|]. exists r'. auto.
Defined.
