(* ===== verification/DiskManager.v ===== *)
(** * Disk manager (src/bufferpoolmanager/direct_io_disk_manager.go)

    The [DiskManager] interface, what the buffer pool relies on, and the
    direct-I/O implementation: a file of 4096-byte pages, whose page 0 holds the
    metadata, with page allocation from a free list or by extending the file.

    The operating system is a file with its bytes and a list of outcomes to
    come: a system call fails when the head of [faults] says so, which stands
    for any error the kernel can report; a failed write leaves the file as it
    was.  Mutexes that are released on every path are not modelled: each
    operation is one atomic step. *)

From S2P Require Export MetadataCodec.

(** The errors the code returns, those of the operating system and of the network
    among them. *)
Inductive error :=
  | ErrOS | ErrEOF | ErrIncomplete | ErrNegativeOffset | ErrKeyNotFound | ErrWAL
  | ErrUnexpectedEOF | ErrTimeout | ErrConnClosed | ErrClientClosed | ErrInvalidOpCode
  | ErrNoBegin | ErrCommitWithoutBegin | ErrNotOpen | ErrNoTree | ErrEndOfIterator | ErrBufferSize.

Inductive result (A : Type) := Ok (a : A) | Error (e : error).
#[global] Arguments Ok {A} _.
#[global] Arguments Error {A} _.

#[export] Instance error_eq_decision : EqDecision error.
Proof. solve_decision. Defined.

(** [int64(x)] of a 64-bit integer. *)
Definition i64 (z : Z) : Z := (z + 2 ^ 63) mod 2 ^ 64 - 2 ^ 63.

Lemma i64_id z : - 2 ^ 63 <= z < 2 ^ 63 -> i64 z = z.
Proof. intros. unfold i64. rewrite Z.mod_small by lia. lia. Qed.

(** ** Files *)

Record File := mkFile { content : list byte; faults : list bool }.

(** Whether the next system call fails. *)
Definition syscall (f : File) : bool * File :=
  match faults f with
  | [] => (false, f)
  | b :: bs => (b, mkFile (content f) bs)
  end.

(** [file.WriteAt(data, offset)]: pwrite, which extends the file with zeros. *)
Definition WriteAt (f : File) (data : list byte) (offset : Z) : result Z * File :=
  if offset <? 0 then (Error ErrNegativeOffset, f)
  else
    let '(bad, f) := syscall f in
    if bad then (Error ErrOS, f)
    else
      let padded := content f ++ replicate (Z.to_nat (offset - len (content f))) x00 in
      (Ok (len data), mkFile (write padded offset data) (faults f)).

(** [file.ReadAt(data, offset)] with [len(data) = size]: short reads are
    [io.EOF]. *)
Definition ReadAt (f : File) (size offset : Z) : result (list byte) * File :=
  if offset <? 0 then (Error ErrNegativeOffset, f)
  else
    let '(bad, f) := syscall f in
    if bad then (Error ErrOS, f)
    else if offset + size <=? len (content f) then (Ok (sub (content f) offset size), f)
    else (Error ErrEOF, f).

(** [file.Stat()], for its size. *)
Definition Stat (f : File) : result Z * File :=
  let '(bad, f) := syscall f in
  if bad then (Error ErrOS, f) else (Ok (len (content f)), f).

(** [file.Close()] *)
Definition CloseFile (f : File) : result unit * File :=
  let '(bad, f) := syscall f in
  if bad then (Error ErrOS, f) else (Ok tt, f).

(** ** The interface *)

Inductive AllocationSource := FREELIST_ALLOCATION | FILE_EXPANSION_ALLOCATION | ERROR_ALLOCATION.

Class DiskManager (D : Type) := {
  disk_write : D -> Z -> list byte -> result unit * D;
  disk_read : D -> Z -> Z -> result (list byte) * D;
  disk_allocatePage : D -> result (Z * AllocationSource) * D;
  disk_EnsurePageExists : D -> Z -> result unit * D;
  disk_deallocatePage : D -> Z -> D;
  (** [None]: encoding the metadata panics. *)
  disk_close : D -> option (result unit * D)
}.

(** What the buffer pool relies on: the disk is an array of pages, an operation
    that reports an error leaves it as it was. *)
Class DiskLaws (D : Type) `{!DiskManager D} := {
  disk_ok : D -> Prop;
  (** no system call to come fails *)
  healthy : D -> Prop;
  disk_page : D -> Z -> option (list byte);
  disk_page_len d pid data : disk_page d pid = Some data -> len data = 4096 /\ 0 <= pid < 2 ^ 51;
  read_law d pid :
    disk_ok d -> 0 <= pid < 2 ^ 51 ->
    exists r d', disk_read d (pid * 4096) 4096 = (r, d') /\ disk_ok d' /\
      disk_page d' = disk_page d /\
      (forall data, r = Ok data -> disk_page d pid = Some data) /\
      (healthy d -> healthy d' /\ (is_Some (disk_page d pid) -> exists data, r = Ok data));
  write_law d pid data :
    disk_ok d -> is_Some (disk_page d pid) -> len data = 4096 ->
    exists r d', disk_write d (pid * 4096) data = (r, d') /\ disk_ok d' /\
      (forall e, r = Error e -> disk_page d' = disk_page d) /\
      (r = Ok tt -> forall pid', disk_page d' pid' = if decide (pid' = pid) then Some data else disk_page d pid') /\
      (healthy d -> healthy d' /\ r = Ok tt);
  deallocate_law d pid :
    disk_ok d -> 0 <= pid < 2 ^ 51 -> 
    disk_ok (disk_deallocatePage d pid) /\ disk_page (disk_deallocatePage d pid) = disk_page d /\
    (healthy d -> healthy (disk_deallocatePage d pid))
}.

(** ** Direct I/O *)

(** [rangeOrder] is the order in which Go iterates over a map. *)
Record DirectIODiskManager := mkDisk {
  file : File;
  metadata : MetaData;
  rangeOrder : gmap Z Z -> list (Z * Z)
}.

Definition with_file (d : DirectIODiskManager) (f : File) : DirectIODiskManager :=
  mkDisk f (metadata d) (rangeOrder d).
Definition with_metadata (d : DirectIODiskManager) (md : MetaData) : DirectIODiskManager :=
  mkDisk (file d) md (rangeOrder d).

Definition setMax (md : MetaData) (x : Z) : MetaData :=
  mkMetaData (MetaLSN md) (CurrBPlusTreeId md) (RootPages md) x (DeallocatedPageIdList md) (FirstLeafNodePages md).
Definition setFree (md : MetaData) (l : list Z) : MetaData :=
  mkMetaData (MetaLSN md) (CurrBPlusTreeId md) (RootPages md) (MaxAllocatedPageId md) l (FirstLeafNodePages md).

Definition METADATA_PAGE_ID : Z := 0.

Definition write (d : DirectIODiskManager) (offset : Z) (data : list byte) : result unit * DirectIODiskManager :=
  let '(r, f) := WriteAt (file d) data offset in
  match r with
  | Error e => (Error e, with_file d f)
  | Ok n => if negb (n =? len data) then (Error ErrIncomplete, with_file d f) else (Ok tt, with_file d f)
  end.

Definition read (d : DirectIODiskManager) (offset size : Z) : result (list byte) * DirectIODiskManager :=
  let '(r, f) := ReadAt (file d) size offset in
  match r with
  | Error e => (Error e, with_file d f)
  | Ok data => if negb (len data =? size) then (Error ErrIncomplete, with_file d f) else (Ok data, with_file d f)
  end.

(** Page ids and page counts are [uint64]. *)
Definition EnsurePageExists (d : DirectIODiskManager) (pageId : Z) : result unit * DirectIODiskManager :=
  let '(stat, f) := Stat (file d) in
  let d := with_file d f in
  match stat with
  | Error e => (Error e, d)
  | Ok fileSize =>
      let requiredPages := u64 (pageId + 1) in
      let currentPages := fileSize / PAGE_SIZE in
      let '(r, d) :=
        if currentPages <? requiredPages then
          let pagesToAdd := requiredPages - currentPages in
          write d (i64 (currentPages * PAGE_SIZE)) (replicate (Z.to_nat (pagesToAdd * PAGE_SIZE)) x00)
        else (Ok tt, d) in
      match r with
      | Error e => (Error e, d)
      | Ok _ =>
          if MaxAllocatedPageId (metadata d) <? pageId
          then (Ok tt, with_metadata d (setMax (metadata d) pageId))
          else (Ok tt, d)
      end
  end.

Definition allocatePage (d : DirectIODiskManager) : result (Z * AllocationSource) * DirectIODiskManager :=
  match DeallocatedPageIdList (metadata d) with
  | pageId :: rest => (Ok (pageId, FREELIST_ALLOCATION), with_metadata d (setFree (metadata d) rest))
  | [] =>
      let '(stat, f) := Stat (file d) in
      let d := with_file d f in
      match stat with
      | Error e => (Error e, d)
      | Ok fileSize =>
          let next := u64 (MaxAllocatedPageId (metadata d) + 1) in
          let '(r, d) :=
            if next =? fileSize / PAGE_SIZE
            then write d (i64 (i64 next * PAGE_SIZE)) (replicate (Z.to_nat (PAGE_SIZE * 16)) x00)
            else (Ok tt, d) in
          match r with
          | Error e => (Error e, d)
          | Ok _ => (Ok (next, FILE_EXPANSION_ALLOCATION), with_metadata d (setMax (metadata d) next))
          end
      end
  end.

Definition deallocatePage (d : DirectIODiskManager) (pageId : Z) : DirectIODiskManager :=
  with_metadata d (setFree (metadata d) (DeallocatedPageIdList (metadata d) ++ [pageId])).

Definition encodeMetadata (d : DirectIODiskManager) : option (list byte) :=
  EncodeMetaDataPage (metadata d) (rangeOrder d (RootPages (metadata d)))
    (rangeOrder d (FirstLeafNodePages (metadata d))).

Definition close (d : DirectIODiskManager) : option (result unit * DirectIODiskManager) :=
  freelistPageData ← encodeMetadata d;
  let '(r, d) := write d (METADATA_PAGE_ID * PAGE_SIZE) freelistPageData in
  match r with
  | Error e => Some (Error e, d)
  | Ok _ => let '(r, f) := CloseFile (file d) in Some (r, with_file d f)
  end.

#[export] Instance DirectIO_DiskManager : DiskManager DirectIODiskManager := {
  disk_write := write;
  disk_read := read;
  disk_allocatePage := allocatePage;
  disk_EnsurePageExists := EnsurePageExists;
  disk_deallocatePage := deallocatePage;
  disk_close := close
}.

(** ** Opening the database file

    [openFile] is [directio.OpenFile] with [O_RDWR|O_CREATE]; [existing] is the
    file at the path, if there is one ([os.Stat]). *)
Section open.
Context (openFile : option File -> result File) (order : gmap Z Z -> list (Z * Z)).

Definition newMetaData : MetaData := mkMetaData 0 0 ∅ 0 [] ∅.

(** The result is the disk, whose metadata the caller shares, and whether the
    database is new. *)
Definition NewDirectIODiskManager (existing : option File) : option (result (DirectIODiskManager * bool)) :=
  let newFileCreated := match existing with None => true | Some _ => false end in
  match openFile existing with
  | Error e => Some (Error e)
  | Ok f =>
      if newFileCreated then
        let d := mkDisk f newMetaData order in
        page ← encodeMetadata d;
        let '(r, d) := write d (METADATA_PAGE_ID * PAGE_SIZE) page in
        match r with
        | Error e => Some (Error e)
        | Ok _ => Some (Ok (d, true))
        end
      else
        let d := mkDisk f newMetaData order in
        let '(r, d) := read d (METADATA_PAGE_ID * PAGE_SIZE) PAGE_SIZE in
        match r with
        | Error e => Some (Error e)
        | Ok metaDataPage =>
            md ← DecodeMetaDataPage metaDataPage;
            Some (Ok (with_metadata d md, false))
        end
  end.
End open.

(** ** The file is an array of pages *)

Definition file_pages (f : File) : Z := len (content f) / 4096.

Definition file_ok (f : File) : Prop := len (content f) = 4096 * file_pages f /\ file_pages f <= 2 ^ 51.

Definition file_page (f : File) (pid : Z) : option (list byte) :=
  if decide (0 <= pid < file_pages f) then Some (sub (content f) (pid * 4096) 4096) else None.

Definition no_faults (f : File) : Prop := Forall (fun b => b = false) (faults f).

Lemma file_pages_nonneg f : 0 <= file_pages f.
Proof. unfold file_pages. apply Z.div_pos; [apply len_nonneg|lia]. Qed.

Lemma file_page_len f pid data : file_ok f -> file_page f pid = Some data -> len data = 4096 /\ 0 <= pid < file_pages f.
Proof.
  intros [Hok _]. unfold file_page. case_decide as Hd; [|done]. intros [= <-]. split; [|done]. rewrite len_sub; lia.
Qed.

Lemma syscall_content f b f' : syscall f = (b, f') -> content f' = content f /\ (no_faults f -> b = false /\ no_faults f').
Proof.
  unfold syscall, no_faults. destruct f as [c [|x xs]]; cbn; intros [= <- <-]; split; try done.
  intros H. by inversion H.
Qed.

Lemma same_content_pages f f' :
  content f' = content f -> (file_ok f -> file_ok f') /\ file_page f' = file_page f /\ file_pages f' = file_pages f.
Proof. destruct f, f'; cbn. intros ->. done. Qed.

(** Reading a page. *)
Lemma ReadAt_page f pid :
  file_ok f -> 0 <= pid < 2 ^ 51 ->
  exists r f', ReadAt f 4096 (pid * 4096) = (r, f') /\ content f' = content f /\
    (forall data, r = Ok data -> file_page f pid = Some data) /\
    (no_faults f -> no_faults f' /\ (is_Some (file_page f pid) -> exists data, r = Ok data)).
Proof.
  intros [Hok _] Hpid. unfold ReadAt. rewrite (proj2 (Z.ltb_ge _ _)) by lia.
  destruct (syscall f) as [b f'] eqn:Hs. destruct (syscall_content _ _ _ Hs) as [Hc Hnf]. rewrite Hc.
  destruct b; [|destruct (Z.leb_spec (pid * 4096 + 4096) (len (content f))) as [Hle|Hgt]].
  - eexists _, f'. split_and!; try done. intros [? ?]%Hnf. done.
  - eexists _, f'. split_and!; [done..| |].
    + intros data [= <-]. unfold file_page. rewrite decide_True by lia. done.
    + intros [_ ?]%Hnf. split; [done|]. intros _. by eexists.
  - eexists _, f'. split_and!; try done. intros [_ ?]%Hnf. split; [done|]. unfold file_page.
    rewrite decide_False by lia. by intros [].
Qed.

(** Writing at the end or inside the file. *)
Lemma WriteAt_content f data off :
  0 <= off <= len (content f) ->
  exists r f', WriteAt f data off = (r, f') /\
    (forall e, r = Error e -> content f' = content f) /\
    (forall n, r = Ok n -> n = len data /\ content f' = GoBytes.write (content f) off data) /\
    (no_faults f -> no_faults f' /\ r = Ok (len data)).
Proof.
  intros Hoff. unfold WriteAt. rewrite (proj2 (Z.ltb_ge _ _)) by lia.
  destruct (syscall f) as [b f'] eqn:Hs. destruct (syscall_content _ _ _ Hs) as [Hc Hnf].
  destruct b.
  - eexists _, f'. split_and!; try done. intros [? ?]%Hnf. done.
  - eexists _, _. split_and!; [done|done| |].
    + intros n [= <-]. cbn. rewrite Hc. split; [done|].
      replace (Z.to_nat (off - len (content f))) with 0%nat by lia. cbn. by rewrite app_nil_r.
    + intros [_ Hn]%Hnf. split; [exact Hn|done].
Qed.

(** A page written over. *)
Lemma file_page_write f f' pid data :
  file_ok f -> 0 <= pid < file_pages f -> len data = 4096 ->
  content f' = GoBytes.write (content f) (pid * 4096) data ->
  file_ok f' /\ file_pages f' = file_pages f /\
  forall pid', file_page f' pid' = if decide (pid' = pid) then Some data else file_page f pid'.
Proof.
  intros [Hok Hb] Hpid Hlen Hc.
  assert (len (content f') = len (content f)) as Hl by (rewrite Hc, len_write; lia).
  assert (file_pages f' = file_pages f) as Hp by (unfold file_pages; by rewrite Hl).
  split_and!; [unfold file_ok; rewrite Hl, Hp; done|done|]. intros pid'. unfold file_page. rewrite Hp, Hc.
  case_decide as Hd; case_decide as He; try done; [| |lia].
  - subst pid'. pose proof (holds_write_same (content f) (pid * 4096) data) as (_ & _ & Hh); [lia..|].
    by rewrite Hlen in Hh; rewrite Hh.
  - f_equal. apply sub_write_other; lia.
Qed.

(** The file extended by [n] zero pages. *)
Lemma file_page_extend f f' n :
  file_ok f -> 0 <= n -> file_pages f + n <= 2 ^ 51 ->
  content f' = GoBytes.write (content f) (len (content f)) (replicate (Z.to_nat (n * 4096)) x00) ->
  file_ok f' /\ file_pages f' = file_pages f + n /\
  (forall pid data, file_page f pid = Some data -> file_page f' pid = Some data) /\
  (forall pid, file_pages f <= pid < file_pages f + n -> file_page f' pid = Some (replicate 4096 x00)).
Proof.
  intros [Hok Hb] Hn Hmax Hc.
  assert (content f' = content f ++ replicate (Z.to_nat (n * 4096)) x00) as Hc'.
  { rewrite Hc. unfold GoBytes.write. rewrite to_nat_len, take_ge, drop_ge by lia. by rewrite app_nil_r. }
  assert (len (content f') = 4096 * (file_pages f + n)) as Hl by (rewrite Hc', len_app, len_replicate; lia).
  assert (file_pages f' = file_pages f + n) as Hp by (unfold file_pages at 1; rewrite Hl, Z.mul_comm, Z.div_mul; lia).
  pose proof (file_pages_nonneg f).
  split_and!; [unfold file_ok; lia|done| |]; intros pid; unfold file_page.
  - intros data. case_decide as Hd; [|done]. rewrite decide_True by lia. intros [= <-]. f_equal. rewrite Hc'.
    unfold sub. rewrite drop_app_le by (unfold len in *; lia). rewrite take_app_le; [done|].
    rewrite length_drop. unfold len in *. lia.
  - intros Hpid. rewrite decide_True by lia. f_equal. rewrite Hc'. unfold sub.
    rewrite drop_app_ge by (unfold len in *; lia). rewrite drop_replicate, take_replicate. f_equal.
    unfold len in *. lia.
Qed.

Lemma disk_write_page d pid data :
  file_ok (file d) -> 0 <= pid < file_pages (file d) -> len data = 4096 ->
  exists r d', write d (pid * 4096) data = (r, d') /\ metadata d' = metadata d /\ rangeOrder d' = rangeOrder d /\
    (forall e, r = Error e -> content (file d') = content (file d)) /\
    (r = Ok tt -> content (file d') = GoBytes.write (content (file d)) (pid * 4096) data) /\
    (no_faults (file d) -> no_faults (file d') /\ r = Ok tt).
Proof.
  intros [Hok _] Hpid Hlen.
  destruct (WriteAt_content (file d) data (pid * 4096)) as (r & f' & Heq & He & Hn & Hnf); [lia|].
  unfold write. rewrite Heq. destruct r as [n|e].
  - destruct (Hn n eq_refl) as [-> Hc]. rewrite Z.eqb_refl. cbn [negb]. eexists _, _. split_and!; try done.
    intros [? _]%Hnf. done.
  - eexists _, _. split_and!; try done; [|by intros [? ?]%Hnf]. intros e' [= <-]. by eapply He.
Qed.

(** The pages of a file that is an array of pages. *)
Definition direct_page (d : DirectIODiskManager) : Z -> option (list byte) :=
  if decide (len (content (file d)) = 4096 * file_pages (file d) /\ file_pages (file d) <= 2 ^ 51)
  then file_page (file d) else fun _ => None.

Lemma direct_page_ok d : file_ok (file d) -> direct_page d = file_page (file d).
Proof. intros H. unfold direct_page. by rewrite decide_True. Qed.

#[export] Program Instance DirectIO_laws : DiskLaws DirectIODiskManager := {
  disk_ok d := file_ok (file d);
  healthy d := no_faults (file d);
  disk_page := direct_page
}.
Next Obligation.
  intros d pid data. unfold direct_page. case_decide as Hok; [|done]. intros [? ?]%file_page_len; [|done]. lia.
Qed.
Next Obligation.
  intros d pid Hok Hpid. rewrite (direct_page_ok d) by done.
  destruct (ReadAt_page (file d) pid Hok Hpid) as (r & f' & Heq & Hc & Hd & Hnf).
  destruct (same_content_pages _ _ Hc) as (Hok' & Hpg & Hps). cbn. unfold read. rewrite Heq. destruct r as [data|e].
  - specialize (Hd data eq_refl). pose proof (file_page_len _ _ _ Hok Hd) as [Hl _]. rewrite Hl. cbn [negb Z.eqb].
    eexists _, _. split_and!; [done|exact (Hok' Hok)| | |].
    + rewrite direct_page_ok by exact (Hok' Hok). exact Hpg.
    + by intros data' [= <-].
    + intros [? _]%Hnf. split; [done|]. by eexists.
  - eexists _, _. split_and!; [done|exact (Hok' Hok)| |done|].
    + rewrite direct_page_ok by exact (Hok' Hok). exact Hpg.
    + intros [? Hp]%Hnf. split; [done|]. intros [? ?]%Hp. done.
Qed.
Next Obligation.
  intros d pid data Hok. rewrite (direct_page_ok d) by done. intros [old Hold] Hlen.
  pose proof (file_page_len _ _ _ Hok Hold) as [_ Hpid].
  destruct (disk_write_page d pid data Hok Hpid Hlen) as (r & d' & Heq & Hm & Ho & He & Hw & Hnf).
  cbn. exists r, d'. rewrite Heq. assert (file_ok (file d')) as Hok'.
  { destruct r as [[]|e].
    - by destruct (file_page_write _ _ _ _ Hok Hpid Hlen (Hw eq_refl)).
    - by apply (same_content_pages _ _ (He e eq_refl)). }
  split_and!; [done|done| | |done]; rewrite direct_page_ok by done.
  - intros e Hr. by destruct (same_content_pages _ _ (He e Hr)) as (_ & -> & _).
  - intros Hr pid'. by destruct (file_page_write _ _ _ _ Hok Hpid Hlen (Hw Hr)) as (_ & _ & ->).
Qed.
Next Obligation. intros d pid Hok Hpid. done. Qed.

(** ** Page allocation *)

(** Ids 1 to [MaxAllocatedPageId] have been given out; those on the free list
    are free again.  Every id given out is a page of the file. *)
Record alloc_ok (d : DirectIODiskManager) : Prop := {
  alloc_file : file_ok (file d);
  alloc_max : 0 <= MaxAllocatedPageId (metadata d) < file_pages (file d);
  alloc_free : Forall (fun pid => 1 <= pid <= MaxAllocatedPageId (metadata d)) (DeallocatedPageIdList (metadata d));
  alloc_nodup : NoDup (DeallocatedPageIdList (metadata d))
}.

Definition md_in_use (md : MetaData) (pid : Z) : Prop :=
  1 <= pid <= MaxAllocatedPageId md /\ pid ∉ DeallocatedPageIdList md.

Definition in_use (d : DirectIODiskManager) (pid : Z) : Prop := md_in_use (metadata d) pid.

(** There is room for sixteen more pages below the largest file offset. *)
Definition room_to_grow (d : DirectIODiskManager) : Prop := file_pages (file d) + 16 <= 2 ^ 51.

Lemma Stat_file f :
  exists r f', Stat f = (r, f') /\ content f' = content f /\ (forall n, r = Ok n -> n = len (content f)) /\
    (no_faults f -> no_faults f' /\ r = Ok (len (content f))).
Proof.
  unfold Stat. destruct (syscall f) as [b f'] eqn:Hs. destruct (syscall_content _ _ _ Hs) as [Hc Hnf].
  destruct b; eexists _, f'; (split_and!; [done|done| |]); rewrite ?Hc.
  - done.
  - intros [? ?]%Hnf. done.
  - by intros n [= <-].
  - intros [_ ?]%Hnf. done.
Qed.

(** The metadata page aside, an allocation changes no page. *)
Definition pages_kept (d d' : DirectIODiskManager) : Prop :=
  forall pid data, file_page (file d) pid = Some data -> file_page (file d') pid = Some data.

(** Every page is an old one or full of zeros. *)
Definition new_pages_blank (d d' : DirectIODiskManager) : Prop :=
  forall pid data, file_page (file d') pid = Some data ->
    file_page (file d) pid = Some data \/ data = replicate 4096 x00.

(** Extending the file at its end by [n] pages. *)
Lemma write_extend d n :
  file_ok (file d) -> 0 <= n -> file_pages (file d) + n <= 2 ^ 51 ->
  exists r d', write d (len (content (file d))) (replicate (Z.to_nat (n * 4096)) x00) = (r, d') /\
    metadata d' = metadata d /\ rangeOrder d' = rangeOrder d /\
    (forall e, r = Error e -> content (file d') = content (file d)) /\
    (r = Ok tt -> file_ok (file d') /\ file_pages (file d') = file_pages (file d) + n /\ pages_kept d d' /\
       new_pages_blank d d') /\
    (no_faults (file d) -> no_faults (file d') /\ r = Ok tt).
Proof.
  intros Hok Hn Hmax. pose proof (len_nonneg (content (file d))).
  destruct (WriteAt_content (file d) (replicate (Z.to_nat (n * 4096)) x00) (len (content (file d))))
    as (r & f' & Heq & He & Hw & Hnf); [lia|].
  unfold write. rewrite Heq. destruct r as [m|e].
  - destruct (Hw m eq_refl) as [-> Hc]. rewrite Z.eqb_refl. cbn [negb]. eexists _, _. split_and!; try done.
    + intros _. destruct (file_page_extend _ _ n Hok Hn Hmax Hc) as (? & Hps & Hkept & Hz). split_and!; [done..|].
      intros pid page Hp. cbn in Hp. destruct (decide (0 <= pid < file_pages (file d))) as [Hin|Hout].
      * left. rewrite <- Hp. unfold file_page. rewrite Hps. rewrite !decide_True by lia. symmetry. f_equal.
        assert (file_page f' pid = Some (sub (content (file d)) (pid * 4096) 4096)) as Hk.
        { apply Hkept. unfold file_page. by rewrite decide_True. }
        unfold file_page in Hk. rewrite Hps, decide_True in Hk by lia. congruence.
      * right. unfold file_page in Hp. rewrite Hps in Hp. case_decide as Hd; [|done].
        specialize (Hz pid ltac:(lia)). unfold file_page in Hz. rewrite Hps, decide_True in Hz by lia. congruence.
    + intros [? _]%Hnf. done.
  - eexists _, _. split_and!; try done; [|by intros [? ?]%Hnf]. intros e' [= <-]. by eapply He.
Qed.

Lemma pages_kept_same d d' : content (file d') = content (file d) -> pages_kept d d'.
Proof. intros Hc pid data. by destruct (same_content_pages _ _ Hc) as (_ & -> & _). Qed.

Lemma new_pages_blank_same d d' : content (file d') = content (file d) -> new_pages_blank d d'.
Proof. intros Hc pid data. destruct (same_content_pages _ _ Hc) as (_ & -> & _). by left. Qed.

(** What a successful allocation promises. *)
Definition allocated (d d' : DirectIODiskManager) (pid : Z) : Prop :=
  ~ in_use d pid /\ pid <> METADATA_PAGE_ID /\ is_Some (file_page (file d') pid) /\
  forall q, in_use d' q <-> in_use d q \/ q = pid.

(** Taking the first id of the free list. *)
Lemma allocate_reuse d pid rest :
  alloc_ok d -> DeallocatedPageIdList (metadata d) = pid :: rest ->
  let d' := with_metadata d (setFree (metadata d) rest) in alloc_ok d' /\ allocated d d' pid.
Proof.
  intros [Hfile Hmax Hfree Hnd] Hl. rewrite Hl in Hfree, Hnd.
  inversion Hfree as [|? ? Hpid Hfree']; subst. apply list.NoDup_cons in Hnd as [Hni Hnd].
  split; [by constructor|]. unfold allocated, in_use, md_in_use, METADATA_PAGE_ID. rewrite Hl. split_and!; [|lia| |].
  - intros [_ Hn]. apply Hn. by left.
  - cbn. unfold file_page. rewrite decide_True by lia. done.
  - intros q. cbn. rewrite not_elem_of_cons. split.
    + intros [? ?]. destruct (decide (q = pid)); [by right|by left].
    + intros [(? & ? & ?)| ->]; done.
Qed.

(** Taking the id after the largest one, on a file that has the page. *)
Lemma allocate_next d d2 :
  DeallocatedPageIdList (metadata d) = [] -> 0 <= MaxAllocatedPageId (metadata d) ->
  metadata d2 = metadata d -> file_ok (file d2) -> MaxAllocatedPageId (metadata d) + 1 < file_pages (file d2) ->
  let next := MaxAllocatedPageId (metadata d) + 1 in
  let d' := with_metadata d2 (setMax (metadata d2) next) in alloc_ok d' /\ allocated d d' next.
Proof.
  intros Hl H0 Hm Hok Hlt next d'. split.
  { constructor; cbn; rewrite ?Hm, ?Hl; [done|lia|constructor|constructor]. }
  unfold allocated, in_use, md_in_use, METADATA_PAGE_ID. cbn. rewrite Hm, Hl. split_and!; [lia|lia| |].
  - unfold file_page. rewrite decide_True by lia. done.
  - intros q. split; [intros [? _]|intros [[? _]| ->]]; [|split; [lia|apply not_elem_of_nil]..].
    destruct (decide (q = next)); [by right|left]. split; [lia|apply not_elem_of_nil].
Qed.

Lemma allocatePage_spec d :
  alloc_ok d -> room_to_grow d ->
  exists r d', allocatePage d = (r, d') /\ alloc_ok d' /\ pages_kept d d' /\ new_pages_blank d d' /\
    file_pages (file d') <= file_pages (file d) + 16 /\
    (no_faults (file d) -> no_faults (file d') /\ exists pid src, r = Ok (pid, src)) /\
    match r with
    | Ok (pid, _) => allocated d d' pid
    | Error _ => metadata d' = metadata d
    end.
Proof.
  intros Hal Hgrow. pose proof Hal as [Hfile Hmax Hfree Hnd]. unfold allocatePage.
  destruct (DeallocatedPageIdList (metadata d)) as [|pid rest] eqn:Hl.
  2:{ destruct (allocate_reuse d pid rest Hal Hl). eexists _, _. split_and!; [done|done|by apply pages_kept_same|by apply new_pages_blank_same|cbn; lia|by eauto|done]. }
  destruct (Stat_file (file d)) as (st & f1 & -> & Hc1 & Hst & Hnf1). set (d1 := with_file d f1).
  destruct (same_content_pages _ _ Hc1) as (Hok1 & Hpg1 & Hps1). specialize (Hok1 Hfile).
  assert (forall d2 : DirectIODiskManager, content (file d2) = content (file d) -> metadata d2 = metadata d ->
    alloc_ok d2) as Hsame.
  { intros d2 Hc2 Hm2. destruct (same_content_pages _ _ Hc2) as (Hok2 & _ & Hps2).
    constructor; rewrite ?Hm2, ?Hl, ?Hps2; auto. }
  destruct st as [n|e].
  2:{ eexists _, d1. split_and!; [done|by apply Hsame|by apply pages_kept_same|by apply new_pages_blank_same|subst d1; cbn; lia| |done]. intros [_ ?]%Hnf1. done. }
  rewrite (Hst n eq_refl). set (mx := MaxAllocatedPageId (metadata d)) in *.
  change (MaxAllocatedPageId (metadata d1)) with mx. unfold room_to_grow in *. destruct Hfile as [Hlen Hb].
  rewrite u64_id by lia. change (len (content (file d)) / PAGE_SIZE) with (file_pages (file d)).
  destruct (Z.eqb_spec (mx + 1) (file_pages (file d))) as [Heq|Hne].
  2:{ destruct (allocate_next d d1) as (Ha & Hal'); [done|lia|done|done|subst d1; cbn; lia|].
      eexists _, _. split_and!; [done|done|by apply (pages_kept_same d d1)|by apply (new_pages_blank_same d d1)|subst d1; cbn; lia| |done].
      intros [? _]%Hnf1. by eauto. }
  replace (i64 (i64 (mx + 1) * PAGE_SIZE)) with (len (content (file d1))).
  2:{ unfold PAGE_SIZE. rewrite (i64_id (mx + 1)), i64_id by lia. subst d1; cbn. rewrite Hc1. lia. }
  change (PAGE_SIZE * 16) with (16 * 4096).
  destruct (write_extend d1 16) as (r & d2 & -> & Hm2 & Ho2 & He2 & Hw2 & Hnf2); [done|lia|subst d1; cbn; lia|].
  destruct r as [[]|e].
  - destruct (Hw2 eq_refl) as (Hok2 & Hps2 & Hk2 & Hz2).
    destruct (allocate_next d d2) as (Ha & Hal'); [done|lia|done|done|subst d1; cbn in Hps2; lia|].
    eexists _, _. split_and!; [done|done| | |subst d1; cbn in Hps2 |- *; lia| |done].
    + intros pid data Hp. cbn. apply Hk2. subst d1; cbn. by rewrite Hpg1.
    + intros pid data Hp. cbn in Hp. apply Hz2 in Hp. subst d1; cbn in Hp. by rewrite Hpg1 in Hp.
    + intros [Hn _]%Hnf1. apply Hnf2 in Hn as [? _]. by eauto.
  - pose proof (He2 e eq_refl) as Hc2. subst d1; cbn in Hc2. eexists _, d2.
    destruct (same_content_pages (file d) (file d2)) as (_ & _ & Hps2); [congruence|].
    split_and!; [done|apply Hsame; [congruence|done]|apply pages_kept_same; congruence|apply new_pages_blank_same; congruence|lia| |done].
    intros [Hn _]%Hnf1. apply Hnf2 in Hn as [_ ?]. done.
Qed.

(** C27: [allocatePage] never hands out a page that is in use, nor the metadata
    page; the page it returns exists in the file, no existing page changes, and
    a reported error leaves the metadata as it was; without operating-system
    errors it succeeds. *)
Theorem disk_allocate_fresh d :
  alloc_ok d -> room_to_grow d ->
  exists r d', allocatePage d = (r, d') /\ alloc_ok d' /\ pages_kept d d' /\
    (no_faults (file d) -> exists pid src, r = Ok (pid, src)) /\
    match r with
    | Ok (pid, _) => allocated d d' pid
    | Error _ => metadata d' = metadata d
    end.
Proof.
  intros Hal Hg. destruct (allocatePage_spec d Hal Hg) as (r & d' & ? & ? & ? & _ & _ & Hn & ?).
  exists r, d'. split_and!; [done..| |done]. intros [_ ?]%Hn. done.
Qed.

(** [deallocatePage] of a page in use takes exactly that page out of use and
    keeps the free list free of duplicates. *)
Theorem disk_deallocate d pid :
  alloc_ok d -> in_use d pid ->
  alloc_ok (deallocatePage d pid) /\
  (forall q, in_use (deallocatePage d pid) q <-> in_use d q /\ q <> pid) /\
  file (deallocatePage d pid) = file d.
Proof.
  intros [Hfile Hmax Hfree Hnd] [Hpid Hni]. split_and!; [|intros q|done].
  - constructor; cbn; [done|done| |].
    + apply Forall_app. split; [done|]. constructor; [done|constructor].
    + apply list.NoDup_app. split_and!; [done| |apply NoDup_singleton]. intros x Hx [->|[]%elem_of_nil]%elem_of_cons. done.
  - unfold in_use, md_in_use. cbn. rewrite not_elem_of_app, not_elem_of_cons. pose proof (not_elem_of_nil q). tauto.
Qed.

(** The last step of [EnsurePageExists], on a file that has the page. *)
Lemma ensure_max d d2 pid :
  alloc_ok d -> metadata d2 = metadata d -> file_ok (file d2) ->
  pid < file_pages (file d2) -> file_pages (file d) <= file_pages (file d2) -> 0 <= pid ->
  exists d', (if MaxAllocatedPageId (metadata d2) <? pid
              then (Ok tt, with_metadata d2 (setMax (metadata d2) pid)) else (Ok tt, d2)) = (Ok tt, d') /\
    alloc_ok d' /\ file d' = file d2 /\ is_Some (file_page (file d') pid) /\
    forall q, in_use d' q <-> in_use d q \/ MaxAllocatedPageId (metadata d) < q <= pid.
Proof.
  intros [Hfile Hmax Hfree Hnd] Hm Hok Hlt Hle Hp. rewrite Hm.
  destruct (Z.ltb_spec (MaxAllocatedPageId (metadata d)) pid) as [Hlm|Hgm]; eexists; (split; [done|]); split_and!.
  - constructor; cbn; [done|lia| |done]. eapply list.Forall_impl; [exact Hfree|]. cbn. lia.
  - done.
  - unfold file_page. rewrite decide_True by (cbn; lia). done.
  - intros q. unfold in_use, md_in_use. cbn. split.
    + intros [? ?]. destruct (decide (q <= MaxAllocatedPageId (metadata d))); [left; split; [lia|done]|right; lia].
    + intros [[? ?]|?]; [split; [lia|done]|]. split; [lia|]. intros Hin. rewrite list.Forall_forall in Hfree.
      apply Hfree in Hin. lia.
  - constructor; rewrite ?Hm; [done|lia|done|done].
  - done.
  - unfold file_page. rewrite decide_True by lia. done.
  - intros q. unfold in_use, md_in_use. rewrite Hm. split; [by left|]. intros [?|?]; [done|lia].
Qed.

(** [EnsurePageExists] makes the page exist without changing any other, and
    afterwards treats every id up to it as given out; it changes nothing when it
    reports an error. *)
Theorem disk_ensure_page d pid :
  alloc_ok d -> 0 <= pid < 2 ^ 51 ->
  exists r d', EnsurePageExists d pid = (r, d') /\ alloc_ok d' /\ pages_kept d d' /\
    (no_faults (file d) -> r = Ok tt) /\
    (r = Ok tt -> is_Some (file_page (file d') pid) /\
       forall q, in_use d' q <-> in_use d q \/ MaxAllocatedPageId (metadata d) < q <= pid) /\
    (forall e, r = Error e -> metadata d' = metadata d).
Proof.
  intros Hal Hpid. pose proof Hal as [Hfile Hmax Hfree Hnd]. unfold EnsurePageExists.
  destruct (Stat_file (file d)) as (st & f1 & -> & Hc1 & Hst & Hnf1). set (d1 := with_file d f1).
  destruct (same_content_pages _ _ Hc1) as (Hok1 & Hpg1 & Hps1). specialize (Hok1 Hfile).
  assert (forall d2 : DirectIODiskManager, metadata d2 = metadata d -> file_ok (file d2) -> file_pages (file d) <= file_pages (file d2) ->
    alloc_ok d2) as Hsame.
  { intros d2 Hm2 Hok2 Hps2. constructor; rewrite ?Hm2; [done|lia|done|done]. }
  destruct st as [n|e].
  2:{ eexists _, d1. split_and!; [done|apply Hsame; [done|done|subst d1; cbn; lia]|by apply pages_kept_same|intros [_ ?]%Hnf1; done|done|done]. }
  rewrite (Hst n eq_refl). destruct Hfile as [Hlen Hb]. rewrite u64_id by lia.
  change (len (content (file d)) / PAGE_SIZE) with (file_pages (file d)).
  destruct (Z.ltb_spec (file_pages (file d)) (pid + 1)) as [Hlt|Hge].
  - replace (i64 (file_pages (file d) * PAGE_SIZE)) with (len (content (file d1))).
    2:{ unfold PAGE_SIZE. rewrite i64_id by (pose proof (file_pages_nonneg (file d)); lia). subst d1; cbn. rewrite Hc1. lia. }
    change PAGE_SIZE with 4096.
    destruct (write_extend d1 (pid + 1 - file_pages (file d))) as (r & d2 & -> & Hm2 & Ho2 & He2 & Hw2 & Hnf2);
      [done|lia|subst d1; cbn; lia|].
    destruct r as [[]|e].
    + destruct (Hw2 eq_refl) as (Hok2 & Hps2 & Hk2). subst d1; cbn in Hps2, Hm2.
      destruct (ensure_max d d2 pid) as (d' & Heq & Ha & Hf & Hrest); [done|done|done|lia|lia|lia|].
      exists (Ok tt), d'. rewrite Heq. split_and!; [done|done| |done|done|done].
      intros q data Hq. rewrite Hf. apply Hk2. cbn. by rewrite Hpg1.
    + pose proof (He2 e eq_refl) as Hc2. subst d1; cbn in Hc2. rewrite Hc1 in Hc2.
      destruct (same_content_pages _ _ Hc2) as (Hok2 & _ & Hps2).
      eexists _, d2. split_and!; [done|apply Hsame; [done|by apply Hok2|lia]|by apply pages_kept_same| |done|done].
      intros [Hn _]%Hnf1. apply Hnf2 in Hn as [_ ?]. done.
  - destruct (ensure_max d d1 pid) as (d' & Heq & Ha & Hf & Hrest); [done|done|done|subst d1; cbn; lia|subst d1; cbn; lia|lia|].
    exists (Ok tt), d'. rewrite Heq. split_and!; [done|done| |done|done|done].
    intros q data Hq. rewrite Hf. subst d1; cbn. by rewrite Hpg1.
Qed.

(** ** Closing and reopening *)

(** [order] enumerates every map, in whatever order. *)
Definition order_spec (order : gmap Z Z -> list (Z * Z)) : Prop := forall m, order_of m (order m).

(** [directio.OpenFile] of an existing file gives that file. *)
Definition open_spec (openFile : option File -> result File) : Prop := forall f, openFile (Some f) = Ok f.

Lemma close_writes_metadata d :
  alloc_ok d -> meta_ok (metadata d) -> meta_size (metadata d) <= 4096 -> order_spec (rangeOrder d) ->
  exists r d', close d = Some (r, d') /\ (no_faults (file d) -> r = Ok tt /\ no_faults (file d')) /\
    (r = Ok tt -> file_ok (file d') /\ file_pages (file d') = file_pages (file d) /\
       (exists page, file_page (file d') 0 = Some page /\ DecodeMetaDataPage page = Some (metadata d)) /\
       forall pid, pid <> 0 -> file_page (file d') pid = file_page (file d) pid).
Proof.
  intros [Hfile Hmax _ _] Hok Hsz Hord. unfold close, encodeMetadata.
  destruct (EncodeMetaDataPage_written (metadata d) (rangeOrder d (RootPages (metadata d)))
    (rangeOrder d (FirstLeafNodePages (metadata d))) (Hord _) (Hord _) Hsz) as (page & -> & Hlen & Hh).
  cbn [mbind option_bind].
  assert (DecodeMetaDataPage page = Some (metadata d)) as Hdec by (by eapply DecodeMetaDataPage_words).
  destruct (disk_write_page d 0 page Hfile ltac:(lia) Hlen) as (r & d1 & Heq & Hm & Ho & He & Hw & Hnf).
  change (METADATA_PAGE_ID * PAGE_SIZE) with (0 * 4096). rewrite Heq. destruct r as [[]|e].
  2:{ eexists _, d1. split_and!; [done| |done]. intros [_ ?]%Hnf. done. }
  destruct (file_page_write (file d) (file d1) 0 page Hfile ltac:(lia) Hlen (Hw eq_refl)) as (Hok1 & Hps1 & Hpg1).
  unfold CloseFile. destruct (syscall (file d1)) as [b f2] eqn:Hs. destruct (syscall_content _ _ _ Hs) as [Hc2 Hnf2].
  destruct (same_content_pages _ _ Hc2) as (Hok2 & Hpg2 & Hps2). destruct b.
  { eexists _, _. split_and!; [done| |done]. intros [Hn _]%Hnf. apply Hnf2 in Hn as [? _]. done. }
  eexists _, _. split_and!; [done| |].
  - intros [Hn _]%Hnf. apply Hnf2 in Hn as [_ ?]. done.
  - intros _. cbn. rewrite Hps2, Hpg2. split_and!; [auto|done| |].
    + exists page. rewrite Hpg1. by rewrite decide_True.
    + intros pid Hne. rewrite Hpg1. by rewrite decide_False.
Qed.

Lemma close_reopen openFile order d :
  open_spec openFile -> order_spec (rangeOrder d) -> alloc_ok d -> no_faults (file d) ->
  meta_ok (metadata d) -> meta_size (metadata d) <= 4096 ->
  exists d1 d2, close d = Some (Ok tt, d1) /\
    NewDirectIODiskManager openFile order (Some (file d1)) = Some (Ok (d2, false)) /\
    metadata d2 = metadata d /\ alloc_ok d2 /\ no_faults (file d2) /\
    forall pid, pid <> METADATA_PAGE_ID -> file_page (file d2) pid = file_page (file d) pid.
Proof.
  intros Hopen Hord Hal Hnf Hok Hsz. destruct (close_writes_metadata d Hal Hok Hsz Hord) as (r & d1 & Hcl & Hr & Hrest).
  destruct (Hr Hnf) as [-> Hnf1]. destruct (Hrest eq_refl) as (Hok1 & Hps1 & (page & Hp0 & Hdec) & Hpg1).
  destruct (ReadAt_page (file d1) 0 Hok1 ltac:(lia)) as (rr & f2 & Heq & Hc2 & Hd2 & Hnf2).
  destruct (Hnf2 Hnf1) as [Hnf2' [data ->]]; [by eexists|]. specialize (Hd2 data eq_refl). rewrite Hp0 in Hd2.
  injection Hd2 as <-. pose proof (file_page_len _ _ _ Hok1 Hp0) as [Hl _].
  exists d1, (with_metadata (with_file (mkDisk (file d1) newMetaData order) f2) (metadata d)).
  unfold NewDirectIODiskManager. rewrite Hopen.
  unfold read. cbn [file]. change (METADATA_PAGE_ID * PAGE_SIZE) with (0 * 4096). change PAGE_SIZE with 4096.
  rewrite Heq, Hl. cbn [Z.eqb Pos.eqb negb with_file]. rewrite Hdec. cbn [mbind option_bind].
  destruct (same_content_pages _ _ Hc2) as (Hok2 & Hpg2 & Hps2). split_and!; [done|done|done| |done|].
  - destruct Hal as [_ Hmax Hfree Hnd].
    constructor; cbn [metadata file with_metadata with_file]; [auto|rewrite Hps2; lia|done|done].
  - intros pid Hne. cbn [file with_metadata with_file]. rewrite Hpg2. by apply Hpg1.
Qed.

(** C28: closing the database and opening the file again restores the metadata
    (LSN, trees, roots, first leaves, largest page id and free list) and keeps
    every other page, whatever the order in which the maps are written. *)
Theorem disk_close_reopen openFile order d :
  open_spec openFile -> order_spec (rangeOrder d) -> alloc_ok d -> no_faults (file d) ->
  meta_ok (metadata d) -> meta_size (metadata d) <= 4096 ->
  exists d1 d2, close d = Some (Ok tt, d1) /\
    NewDirectIODiskManager openFile order (Some (file d1)) = Some (Ok (d2, false)) /\
    metadata d2 = metadata d /\ alloc_ok d2 /\
    forall pid, pid <> METADATA_PAGE_ID -> file_page (file d2) pid = file_page (file d) pid.
Proof.
  intros Hopen Hord Hal Hnf Hok Hsz.
  destruct (close_reopen openFile order d Hopen Hord Hal Hnf Hok Hsz) as (d1 & d2 & ? & ? & ? & ? & _ & ?). by exists d1, d2.
Qed.

(** ** A sample database file: four pages, of which page 2 is free *)

Definition sample_disk : DirectIODiskManager :=
  mkDisk (mkFile (replicate (4 * 4096) x00) []) (mkMetaData 5 1 {[0 := 1]} 3 [2] {[0 := 1]}) map_to_list.

Lemma sample_disk_ok : alloc_ok sample_disk.
Proof.
  constructor; [split; vm_compute; congruence|vm_compute; split; congruence|..]; cbn.
  - constructor; [lia|constructor].
  - apply NoDup_singleton.
Qed.

Lemma disk_allocate_fresh_witness :
  exists d', allocatePage sample_disk = (Ok (2, FREELIST_ALLOCATION), d') /\ allocated sample_disk d' 2.
Proof.
  destruct (disk_allocate_fresh sample_disk sample_disk_ok) as (r & d' & Heq & _ & _ & _ & Hr).
  - vm_compute. discriminate.
  - injection Heq as <- <-. eexists. split; [reflexivity|exact Hr].
Defined.

Lemma disk_deallocate_witness : alloc_ok (deallocatePage sample_disk 3).
Proof.
  apply (disk_deallocate sample_disk 3 sample_disk_ok). split; [vm_compute; split; congruence|].
  intros [Heq|Hin]%elem_of_cons; [discriminate|]. by apply elem_of_nil in Hin.
Defined.

Lemma disk_ensure_page_witness : exists d', EnsurePageExists sample_disk 3 = (Ok tt, d') /\ alloc_ok d'.
Proof.
  destruct (disk_ensure_page sample_disk 3 sample_disk_ok) as (r & d' & Heq & Hal & _ & Hr & _); [lia|].
  exists d'. rewrite (Hr ltac:(constructor)) in Heq. auto.
Defined.

Lemma disk_close_reopen_witness :
  exists d1 d2, close sample_disk = Some (Ok tt, d1) /\
    NewDirectIODiskManager (fun o => match o with Some f => Ok f | None => Ok (mkFile [] []) end) map_to_list
      (Some (file d1)) = Some (Ok (d2, false)) /\ metadata d2 = metadata sample_disk.
Proof.
  destruct (disk_close_reopen (fun o => match o with Some f => Ok f | None => Ok (mkFile [] []) end)
    map_to_list sample_disk) as (d1 & d2 & Hc & Hn & Hm & _).
  - intros f. reflexivity.
  - intros m. apply Permutation_refl.
  - exact sample_disk_ok.
  - constructor.
  - constructor; cbn; try (unfold is_u64; lia); try (apply map_Forall_singleton; unfold is_u64; lia).
    constructor; [unfold is_u64; lia|constructor].
  - vm_compute. discriminate.
  - exists d1, d2. auto.
Defined.
