(* ===== verification/HashMap.v ===== *)
(** * The stand-in for the tree (src/bplustree/hashmap.go)

    A map keyed by the first two bytes of the key, for testing the server.  Each
    method is one step under the mutex; a key of fewer than two bytes is a panic
    ([binary.LittleEndian.Uint16]). *)

From S2P Require Export DiskManager.

Abbreviation HashMap := (gmap Z (list byte)).

Definition NewHashMap : HashMap := ∅.

Definition HashMap_Get (hm : HashMap) (key : list byte) : option (result (list byte)) :=
  k ← readUint 2 key 0;
  Some (match hm !! k with Some value => Ok value | None => Error ErrKeyNotFound end).

Definition HashMap_Insert (hm : HashMap) (key value : list byte) : option (result unit * HashMap) :=
  k ← readUint 2 key 0;
  Some (Ok tt, <[k := value]> hm).

Definition HashMap_Delete (hm : HashMap) (key : list byte) : option (result unit * HashMap) :=
  k ← readUint 2 key 0;
  Some (match hm !! k with Some _ => (Ok tt, delete k hm) | None => (Error ErrKeyNotFound, hm) end).

(** The part of the key that counts. *)
Definition prefix (key : list byte) : Z := fld 2 key 0.

(** Every operation on keys of at least two bytes is that of a map on prefixes:
    keys with the same first two bytes are one key. *)
Lemma hash_map_refines hm key value : 2 <= len key ->
  HashMap_Get hm key = Some (match hm !! prefix key with Some v => Ok v | None => Error ErrKeyNotFound end) /\
  HashMap_Insert hm key value = Some (Ok tt, <[prefix key := value]> hm) /\
  HashMap_Delete hm key = Some (if decide (is_Some (hm !! prefix key)) then Ok tt else Error ErrKeyNotFound, delete (prefix key) hm).
Proof.
  intros Hl. unfold HashMap_Get, HashMap_Insert, HashMap_Delete. rewrite !fld_readUint by lia. cbn [mbind option_bind].
  fold (prefix key). split_and!; [done|done|]. destruct (hm !! prefix key) eqn:Hk.
  - by rewrite decide_True by (by eexists).
  - rewrite decide_False by (by intros []). do 2 f_equal. symmetry. by apply delete_id.
Qed.

Lemma hash_map_aliases hm k1 k2 value : 2 <= len k1 -> 2 <= len k2 -> prefix k1 = prefix k2 ->
  exists hm', HashMap_Insert hm k1 value = Some (Ok tt, hm') /\ HashMap_Get hm' k2 = Some (Ok value).
Proof.
  intros H1 H2 Hp. destruct (hash_map_refines hm k1 value H1) as (_ & -> & _). eexists. split; [done|].
  destruct (hash_map_refines (<[prefix k1 := value]> hm) k2 value H2) as (-> & _ & _). by rewrite <- Hp, lookup_insert_eq.
Qed.

Lemma hash_map_short_key hm key : len key < 2 -> HashMap_Get hm key = None.
Proof.
  intros Hl. unfold HashMap_Get, readUint. rewrite (proj2 (Z.leb_gt (0 + Z.of_nat 2) (len key))) by lia. by rewrite andb_false_r.
Qed.
