(* ===== verification/OSBufferedDisk.v ===== *)
(** * The buffered disk manager (src/bufferpoolmanager/os_buffered_disk_manager.go)

    An earlier disk manager that nothing in the program constructs.  It seeks and
    then reads or writes, and keeps the free list in a format of its own. *)

From S2P Require Export DiskManager.

Record OSBufferedDiskManager := mkOS {
  osFile : File;
  deallocatedPageIdList : list Z;
  maxAllocatedPageId : Z
}.

Implicit Types d : OSBufferedDiskManager.

Definition set_file d (f : File) : OSBufferedDiskManager := mkOS f (deallocatedPageIdList d) (maxAllocatedPageId d).

(** [file.Seek(offset, 0)] *)
Definition Seek (f : File) (offset : Z) : result unit * File :=
  if offset <? 0 then (Error ErrNegativeOffset, f)
  else let '(bad, f) := syscall f in if bad then (Error ErrOS, f) else (Ok tt, f).

(** [file.Read] at the offset: what is there, at most [size] bytes. *)
Definition ReadSome (f : File) (size offset : Z) : result (list byte) * File :=
  let '(bad, f) := syscall f in
  if bad then (Error ErrOS, f)
  else if len (content f) <=? offset then (Error ErrEOF, f)
  else (Ok (sub (content f) offset (Z.min size (len (content f) - offset))), f).

Definition write d (offset : Z) (data : list byte) : result unit * OSBufferedDiskManager :=
  match Seek (osFile d) offset with
  | (Error e, f) => (Error e, set_file d f)
  | (Ok _, f) =>
      match WriteAt f data offset with
      | (Error e, f) => (Error e, set_file d f)
      | (Ok n, f) => if negb (n =? len data) then (Error ErrIncomplete, set_file d f) else (Ok tt, set_file d f)
      end
  end.

Definition read d (offset size : Z) : result (list byte) * OSBufferedDiskManager :=
  match Seek (osFile d) offset with
  | (Error e, f) => (Error e, set_file d f)
  | (Ok _, f) =>
      match ReadSome f size offset with
      | (Error e, f) => (Error e, set_file d f)
      | (Ok data, f) => if negb (len data =? size) then (Error ErrIncomplete, set_file d f) else (Ok data, set_file d f)
      end
  end.

Definition allocatePage d : result (Z * AllocationSource) * OSBufferedDiskManager :=
  match deallocatedPageIdList d with
  | pageId :: rest => (Ok (pageId, FREELIST_ALLOCATION), mkOS (osFile d) rest (maxAllocatedPageId d))
  | [] =>
      let pageId := u64 (maxAllocatedPageId d + 1) in
      (Ok (pageId, FILE_EXPANSION_ALLOCATION), mkOS (osFile d) [] pageId)
  end.

Definition deallocatePage d (pageId : Z) : OSBufferedDiskManager :=
  mkOS (osFile d) (deallocatedPageIdList d ++ [pageId]) (maxAllocatedPageId d).

(** [data := make([]byte, 0)], then writes at its start. *)
Definition serializeFreelistPage d : option (list byte) :=
  '(data, pointer) ← put64 [] 0 (maxAllocatedPageId d);
  '(data, pointer) ← put64 data pointer (len (deallocatedPageIdList d));
  '(data, _) ← put64_list data pointer (deallocatedPageIdList d);
  Some data.

Definition deserializeFreelistPage d (data : list byte) : option OSBufferedDiskManager :=
  '(max, pointer) ← get64 data 0;
  '(size, pointer) ← get64 data pointer;
  '(ids, _) ← get64_list data pointer (Z.to_nat (i64 size));
  Some (mkOS (osFile d) ids max).

Definition NewOSBufferedDiskManager (opened : result File) : option (result OSBufferedDiskManager) :=
  match opened with
  | Error e => Some (Error e)
  | Ok f =>
      match read (mkOS f [] 0) (METADATA_PAGE_ID * PAGE_SIZE) PAGE_SIZE with
      | (Error e, _) => Some (Error e)
      | (Ok data, d) => d ← deserializeFreelistPage d data; Some (Ok d)
      end
  end.

Definition close d : option (result unit * OSBufferedDiskManager) :=
  freelistPageData ← serializeFreelistPage d;
  match write d (METADATA_PAGE_ID * PAGE_SIZE) freelistPageData with
  | (Error e, d) => Some (Error e, d)
  | (Ok _, d) => let '(r, f) := CloseFile (osFile d) in Some (r, set_file d f)
  end.

(** Closing always panics: the page is encoded into an empty slice. *)
Lemma os_close_panics d : close d = None.
Proof. reflexivity. Qed.

(** A file that was just created cannot be opened: there is no page to read. *)
Lemma os_new_file_fails : NewOSBufferedDiskManager (Ok (mkFile [] [])) = Some (Error ErrEOF).
Proof. reflexivity. Qed.

(** Ids that are given out, as far as the manager knows. *)
Definition in_use d (pid : Z) : Prop := 1 <= pid <= maxAllocatedPageId d /\ pid ∉ deallocatedPageIdList d.

Record ok d : Prop := {
  ok_max : 0 <= maxAllocatedPageId d < 2 ^ 64 - 1;
  ok_free : Forall (fun pid => 1 <= pid <= maxAllocatedPageId d) (deallocatedPageIdList d);
  ok_nodup : NoDup (deallocatedPageIdList d)
}.

(** An allocation gives out a page that was not in use, but does not make it
    exist in the file. *)
Lemma os_allocate_fresh d :
  ok d -> exists pid src d', allocatePage d = (Ok (pid, src), d') /\ ~ in_use d pid /\ 1 <= pid /\
    (forall q, in_use d' q <-> in_use d q \/ q = pid) /\ osFile d' = osFile d.
Proof.
  intros [Hm Hf Hnd]. unfold allocatePage, in_use. destruct (deallocatedPageIdList d) as [|pid rest] eqn:Hl.
  - rewrite u64_id by lia. eexists _, _, _. split; [done|]. cbn. split_and!; [lia|lia| |done].
    intros q. pose proof (not_elem_of_nil q). split; [|intros [[? _]| ->]; split; (done || lia)].
    intros [? _]. destruct (decide (q = maxAllocatedPageId d + 1)); [by right|]. left. split; [lia|done].
  - apply list.NoDup_cons in Hnd as [Hni _]. apply list.Forall_cons in Hf as [Hp _].
    eexists _, _, _. split; [done|]. cbn. split_and!; [|lia| |done].
    + intros [_ Hn]. apply Hn. by left.
    + intros q. rewrite not_elem_of_cons. destruct (decide (q = pid)) as [->|Hne]; [|tauto].
      split; [by right|]. intros _. done.
Qed.
