(* ===== verification/DiskAllocator.v ===== *)
(** * Page allocation as an interface

    The B+ tree allocates pages through the buffer pool and shares one metadata
    record with the disk manager, which keeps there the ids given out.  This
    file states what the layers above rely on: reading and writing pages keep
    the metadata, an allocation returns a page that was not in use, and the
    direct-I/O disk manager does both. *)

From S2P Require Export DiskManager.

(** The record behind the [*codec.MetaData] that the disk manager hands out. *)
Class MetadataStore (D : Type) := {
  disk_metadata : D -> MetaData;
  disk_setMetadata : D -> MetaData -> D
}.

(** Two metadata records with the same pages given out. *)
Definition same_alloc (md md' : MetaData) : Prop :=
  MaxAllocatedPageId md' = MaxAllocatedPageId md /\ DeallocatedPageIdList md' = DeallocatedPageIdList md.

Lemma same_alloc_in_use md md' pid : same_alloc md md' -> md_in_use md' pid <-> md_in_use md pid.
Proof. unfold md_in_use. by intros [-> ->]. Qed.

(** [disk_room d n]: there is room for [n] more pages. *)
Class AllocLaws (D : Type) `{DL : DiskLaws D} `{!MetadataStore D} := {
  alloc_inv : D -> Prop;
  disk_room : D -> nat -> Prop;
  alloc_disk_ok d : alloc_inv d -> disk_ok d;
  disk_room_less d n : disk_room d (S n) -> disk_room d n;
  read_keeps d pid r d' :
    alloc_inv d -> 0 <= pid < 2 ^ 51 -> disk_read d (pid * 4096) 4096 = (r, d') ->
    alloc_inv d' /\ disk_metadata d' = disk_metadata d /\ forall n, disk_room d n -> disk_room d' n;
  write_keeps d pid data r d' :
    alloc_inv d -> is_Some (disk_page d pid) -> len data = 4096 -> disk_write d (pid * 4096) data = (r, d') ->
    alloc_inv d' /\ disk_metadata d' = disk_metadata d /\ forall n, disk_room d n -> disk_room d' n;
  set_keeps d md :
    alloc_inv d -> same_alloc (disk_metadata d) md ->
    let d' := disk_setMetadata d md in
    alloc_inv d' /\ disk_metadata d' = md /\ disk_page d' = disk_page d /\ (healthy d -> healthy d') /\
    forall n, disk_room d n -> disk_room d' n;
  allocate_law d :
    alloc_inv d -> healthy d -> disk_room d 1 ->
    exists pid src d', disk_allocatePage d = (Ok (pid, src), d') /\ alloc_inv d' /\ healthy d' /\
      (forall n, disk_room d (S n) -> disk_room d' n) /\
      0 < pid < 2 ^ 51 /\ ~ md_in_use (disk_metadata d) pid /\ is_Some (disk_page d' pid) /\
      (forall q, md_in_use (disk_metadata d') q <-> md_in_use (disk_metadata d) q \/ q = pid) /\
      (forall q data, disk_page d q = Some data -> disk_page d' q = Some data) /\
      (forall q data, disk_page d' q = Some data -> disk_page d q = Some data \/ data = replicate 4096 x00)
}.

#[export] Instance DirectIO_metadata : MetadataStore DirectIODiskManager := {
  disk_metadata := metadata;
  disk_setMetadata := with_metadata
}.

(** An allocation extends the file by at most sixteen pages. *)
Definition direct_room (d : DirectIODiskManager) (n : nat) : Prop :=
  file_pages (file d) + 16 * Z.of_nat n <= 2 ^ 51.

Lemma alloc_ok_same d d' :
  alloc_ok d -> metadata d' = metadata d -> file_ok (file d') -> file_pages (file d') = file_pages (file d) -> alloc_ok d'.
Proof. intros [? ? ? ?] Hm Hf Hp. constructor; rewrite ?Hm, ?Hp; done. Qed.

#[export] Program Instance DirectIO_alloc : AllocLaws DirectIODiskManager := {
  alloc_inv := alloc_ok;
  disk_room := direct_room
}.
Next Obligation. intros d [? ? ? ?]. done. Qed.
Next Obligation. unfold direct_room. intros. lia. Qed.
Next Obligation.
  cbn. intros d pid r d' Hal Hpid. unfold read.
  destruct (ReadAt_page (file d) pid (alloc_file _ Hal) Hpid) as (r0 & f' & -> & Hc & _).
  destruct (same_content_pages _ _ Hc) as (Hok & _ & Hps).
  assert (alloc_ok (with_file d f')) by (eapply (alloc_ok_same d); [done..|apply Hok, Hal|done]).
  destruct r0 as [data|e]; [destruct (negb _)|]; intros [= <- <-]; (split_and!; [done..|]);
    intros n; unfold direct_room; cbn; by rewrite Hps.
Qed.
Next Obligation.
  cbn. intros d pid data r d' Hal. rewrite (direct_page_ok d) by apply Hal. intros [old Hold] Hlen Heq.
  pose proof (file_page_len _ _ _ (alloc_file _ Hal) Hold) as [_ Hpid].
  destruct (disk_write_page d pid data (alloc_file _ Hal) Hpid Hlen) as (r0 & d0 & Heq0 & Hm & _ & He & Hw & _).
  rewrite Heq in Heq0. injection Heq0 as <- <-.
  assert (file_ok (file d') /\ file_pages (file d') = file_pages (file d)) as [Hok Hps].
  { destruct r as [[]|e].
    - destruct (file_page_write _ _ _ _ (alloc_file _ Hal) Hpid Hlen (Hw eq_refl)) as (? & ? & _). done.
    - destruct (same_content_pages _ _ (He e eq_refl)) as (Hok & _ & ?). split; [apply Hok, Hal|done]. }
  split_and!; [by eapply alloc_ok_same|done|]. intros n. unfold direct_room. by rewrite Hps.
Qed.
Next Obligation.
  cbn. intros d md [Hf Hm Hfr Hnd] [HM HL]. split_and!; try done. constructor; cbn; rewrite ?HM, ?HL; done.
Qed.
Next Obligation.
  cbn. unfold direct_room. intros d Hal Hnf Hroom.
  destruct (allocatePage_spec d Hal ltac:(unfold room_to_grow; lia)) as (r & d' & Heq & Hal' & Hk & Hb & Hps & Hn & Hr).
  destruct (Hn Hnf) as (Hnf' & pid & src & ->). destruct Hr as (Hu & Hne & Hsome & Hin).
  exists pid, src, d'. rewrite !direct_page_ok by (apply Hal || apply Hal').
  assert (in_use d' pid) as [Hp _] by (apply Hin; by right).
  pose proof (alloc_max _ Hal') as Hmax. destruct (alloc_file _ Hal') as [_ ?].
  split_and!; try done; lia.
Qed.
