(* ===== verification/BufferPool.v ===== *)
(** * Buffer pool (src/bufferpoolmanager/simple_buffer_pool_manager.go)

    A fixed set of frames caches pages of the file; a page table maps page ids
    to frames, free frames are kept in a list, and unpinned frames belong to the
    replacer.  The pool is modelled over the [Replacer] and [DiskManager]
    interfaces, and its theorems use only their laws.

    Each critical section is one step.  [fetchPage] has two, the lookup under
    the shared lock and, on a miss, the rest under the exclusive lock; the
    second repeats the lookup.  The frame-allocation mutex is part of the state
    because one path returns without releasing it; a frame's latch is part of
    its state because guards hold it. *)

From S2P Require Export LRUReplacer DiskManager.

(** [latch]: -1 for an exclusive holder, else the number of shared holders. *)
Record Frame := mkFrame {
  pageId : Z;
  data : list byte;
  pinCount : Z;
  dirty : bool;
  latch : Z
}.

(** How an operation ends: with a result, or waiting for a lock for ever. *)
Inductive outcome (A : Type) := Done (r : result A) | Blocked.
#[global] Arguments Done {A} _.
#[global] Arguments Blocked {A}.

Record Pool (R D : Type) := mkPool {
  replacer : R;
  disk : D;
  pageTable : gmap Z Z;
  frames : gmap Z Frame;
  freeFrames : list Z;
  allocLocked : bool
}.
#[global] Arguments mkPool {R D} _ _ _ _ _ _.
#[global] Arguments replacer {R D} _.
#[global] Arguments disk {R D} _.
#[global] Arguments pageTable {R D} _.
#[global] Arguments frames {R D} _.
#[global] Arguments freeFrames {R D} _.
#[global] Arguments allocLocked {R D} _.

(** [copy(dst, src)] *)
Definition copyBytes (dst src : list byte) : list byte :=
  take (length dst) src ++ drop (length src) dst.

Section pool.
Context {R D : Type} `{!Replacer R} `{!DiskManager D}.
Implicit Types s : Pool R D.

Definition set_disk s (d : D) : Pool R D :=
  mkPool (replacer s) d (pageTable s) (frames s) (freeFrames s) (allocLocked s).
Definition set_frame s (f : Z) (fr : Frame) : Pool R D :=
  mkPool (replacer s) (disk s) (pageTable s) (<[f := fr]> (frames s)) (freeFrames s) (allocLocked s).
Definition set_replacer s (r : R) : Pool R D :=
  mkPool r (disk s) (pageTable s) (frames s) (freeFrames s) (allocLocked s).

Definition with_pin (fr : Frame) (n : Z) : Frame := mkFrame (pageId fr) (data fr) n (dirty fr) (latch fr).
Definition with_latch (fr : Frame) (n : Z) : Frame := mkFrame (pageId fr) (data fr) (pinCount fr) (dirty fr) n.

(** [createFrameBuffer] gives each frame a buffer of one page; its buffers
    and the ways to fail are in [AlignedBuffer]. *)
Definition NewSimpleBufferPoolManager (poolSize : nat) (r : R) (d : D) : Pool R D :=
  let ids := Z.of_nat <$> seq 0 poolSize in
  mkPool r d ∅ (list_to_map ((fun i => (i, mkFrame 0 (replicate 4096 x00) 0 false 0)) <$> ids)) ids false.

Definition NewPage s : result (Z * AllocationSource) * Pool R D :=
  let '(r, d) := disk_allocatePage (disk s) in (r, set_disk s d).

Definition PoolEnsurePageExists s (pid : Z) : result unit * Pool R D :=
  let '(r, d) := disk_EnsurePageExists (disk s) pid in (r, set_disk s d).

Definition CleanupPage s (pid : Z) : Pool R D := set_disk s (disk_deallocatePage (disk s) pid).

(** The page is in frame [frameId]: pin it. *)
Definition pinFrame s (frameId : Z) : option (outcome Z * Pool R D) :=
  frame ← frames s !! frameId;
  let frame := with_pin frame (pinCount frame + 1) in
  let s := set_frame s frameId frame in
  if pinCount frame =? 1 then
    r ← replacer_remove (replacer s) frameId;
    Some (Done (Ok frameId), set_replacer s r)
  else Some (Done (Ok frameId), s).

(** The frame for a page that is not in memory: the first free one, or the
    replacer's victim, whose page is written back when it is dirty.  On a write
    error the function returns without unlocking the mutex. *)
Definition allocateFrame s : option (outcome Z * Pool R D) :=
  match freeFrames s with
  | newFrameId :: rest =>
      Some (Done (Ok newFrameId),
            mkPool (replacer s) (disk s) (pageTable s) (frames s) rest (allocLocked s))
  | [] =>
      '(newFrameId, r) ← replacer_victim (replacer s);
      frame ← frames s !! newFrameId;
      let s := mkPool r (disk s) (delete (pageId frame) (pageTable s)) (frames s) [] (allocLocked s) in
      if dirty frame then
        let '(w, d) := disk_write (disk s) (i64 (i64 (pageId frame) * PAGE_SIZE)) (data frame) in
        match w with
        | Error e =>
            Some (Done (Error e), mkPool r d (pageTable s) (frames s) [] true)
        | Ok _ => Some (Done (Ok newFrameId), set_disk s d)
        end
      else Some (Done (Ok newFrameId), s)
  end.

(** The section under the exclusive lock. *)
Definition fetchPageLocked s (pid : Z) : option (outcome Z * Pool R D) :=
  match pageTable s !! pid with
  | Some frameId => pinFrame s frameId
  | None =>
      let '(rd, d) := disk_read (disk s) (i64 (i64 pid * PAGE_SIZE)) PAGE_SIZE in
      let s := set_disk s d in
      match rd with
      | Error e => Some (Done (Error e), s)
      | Ok bytes =>
          if allocLocked s then Some (Blocked, s)
          else
            '(o, s) ← allocateFrame s;
            match o with
            | Done (Ok newFrameId) =>
                frame ← frames s !! newFrameId;
                let frame := mkFrame pid (copyBytes (data frame) bytes) 1 false (latch frame) in
                Some (Done (Ok newFrameId),
                      mkPool (replacer s) (disk s) (<[pid := newFrameId]> (pageTable s))
                        (<[newFrameId := frame]> (frames s)) (freeFrames s) (allocLocked s))
            | _ => Some (o, s)
            end
      end
  end.

Definition fetchPage s (pid : Z) : option (outcome Z * Pool R D) :=
  match pageTable s !! pid with
  | Some frameId => pinFrame s frameId
  | None => fetchPageLocked s pid
  end.

Definition deletePage s (pid : Z) : option (outcome bool * Pool R D) :=
  match pageTable s !! pid with
  | None => Some (Done (Ok false), s)
  | Some frameId =>
      frame ← frames s !! frameId;
      if negb (pinCount frame =? 1) then Some (Done (Ok false), s)
      else if allocLocked s then Some (Blocked, s)
      else
        let frame' := mkFrame 0 (data frame) 0 (dirty frame) (latch frame) in
        Some (Done (Ok true),
              mkPool (replacer s) (disk_deallocatePage (disk s) pid) (delete pid (pageTable s))
                (<[frameId := frame']> (frames s)) (freeFrames s ++ [frameId]) (allocLocked s))
  end.

Definition unpinPage s (pid : Z) : option (bool * Pool R D) :=
  match pageTable s !! pid with
  | None => Some (false, s)
  | Some frameId =>
      frame ← frames s !! frameId;
      let frame := with_pin frame (pinCount frame - 1) in
      let s := set_frame s frameId frame in
      if pinCount frame =? 0 then Some (true, set_replacer s (replacer_insert (replacer s) frameId))
      else Some (true, s)
  end.

(** [order] is the order of the [range] over the page table. *)
Fixpoint flush_loop s (order : list (Z * Z)) : option (result unit * Pool R D) :=
  match order with
  | [] => Some (Ok tt, s)
  | (pid, frameId) :: order =>
      frame ← frames s !! frameId;
      if dirty frame then
        let '(w, d) := disk_write (disk s) (i64 (i64 pid * PAGE_SIZE)) (data frame) in
        match w with
        | Error e => Some (Error e, set_disk s d)
        | Ok _ => flush_loop (set_disk s d) order
        end
      else flush_loop s order
  end.

Definition FlushAllPages s (order : list (Z * Z)) : option (result unit * Pool R D) := flush_loop s order.

(** [munlock] is [unix.Munlock] on the buffer of a frame. *)
Definition PoolClose (munlock : list byte -> result unit) s (order : list (Z * Z)) (buffers : list Z)
    : option (result unit * Pool R D) :=
  '(r, s) ← FlushAllPages s order;
  match r with
  | Error e => Some (Error e, s)
  | Ok _ =>
      let release := foldl (fun acc f => match acc with
                                        | Ok _ => match frames s !! f with Some fr => munlock (data fr) | None => acc end
                                        | Error _ => acc
                                        end) (Ok tt) buffers in
      match release with
      | Error e => Some (Error e, s)
      | Ok _ => '(r, d) ← disk_close (disk s); Some (r, set_disk s d)
      end
  end.

End pool.
