(* ===== verification/AlignedBuffer.v ===== *)
(** * Frame buffers (src/bufferpoolmanager/aligned_buffer_allocation.go)

    Direct I/O wants page-aligned memory, which Go's [make] does not promise: the
    pool takes twice the room and keeps the aligned page inside it, locked in
    memory.  Here a slice is its address and length.  The address of each block
    that [make] gives out is a parameter, and [unix.Mlock] and [unix.Munlock] are
    an interface with their documented effect on whole pages: on success they
    lock and unlock the pages that the buffer touches, on failure none. *)

From S2P Require Export BufferPool.

Record Slice := mkSlice { addr : Z; slen : Z }.

(** [&buffer[0]] panics on an empty slice. *)
Definition findOffset (buffer : Slice) : option Z :=
  if 0 <? slen buffer then Some (addr buffer mod 4096) else None.

Definition isAligned (buffer : Slice) : option bool := offset ← findOffset buffer; Some (offset =? 0).

(** [buffer[lo:hi]] *)
Definition reslice (buffer : Slice) (lo hi : Z) : option Slice :=
  if (0 <=? lo) && (lo <=? hi) && (hi <=? slen buffer) then Some (mkSlice (addr buffer + lo) (hi - lo)) else None.

(** [base] is the address of the new block; the distance is a [uintptr]. *)
Definition AllocateAlignedBuffer (base : Z) : option Slice :=
  let buffer := mkSlice base 8192 in
  aligned ← isAligned buffer;
  if aligned : bool then reslice buffer 0 4096
  else
    offset ← findOffset buffer;
    let distance := (4096 - offset) mod 2 ^ 64 in
    reslice buffer distance ((distance + 4096) mod 2 ^ 64).

(** The memory pages that a buffer touches. *)
Definition touches (b : Slice) (page : Z) : Prop := addr b / 4096 <= page <= (addr b + slen b - 1) / 4096.

Class Memory (M : Type) := {
  mem_mlock : M -> Slice -> result unit * M;
  mem_munlock : M -> Slice -> result unit * M;
  mem_locked : M -> Z -> Prop
}.

Class MemoryLaws (M : Type) `{!Memory M} := {
  mlock_law m b : match mem_mlock m b with
                  | (Ok _, m') => forall page, mem_locked m' page <-> mem_locked m page \/ touches b page
                  | (Error _, m') => forall page, mem_locked m' page <-> mem_locked m page
                  end;
  munlock_law m b : match mem_munlock m b with
                    | (Ok _, m') => forall page, mem_locked m' page <-> mem_locked m page /\ ~ touches b page
                    | (Error _, m') => forall page, mem_locked m' page <-> mem_locked m page
                    end
}.

Section buffers.
Context {M : Type} `{!Memory M}.
Implicit Types (m : M) (b : Slice).

Definition createFrameBuffer m (base size : Z) : option (result Slice * M) :=
  data ← AllocateAlignedBuffer base;
  if slen data <? size then Some (Error ErrBufferSize, m)
  else
    let '(r, m) := mem_mlock m data in
    match r with
    | Error e => Some (Error e, m)
    | Ok _ => Some (Ok data, m)
    end.

(** One buffer per frame; the first error ends the loop. *)
Fixpoint createFrames m (bases : list Z) (size : Z) : option (result (list Slice) * M) :=
  match bases with
  | [] => Some (Ok [], m)
  | base :: bases =>
      '(r, m) ← createFrameBuffer m base size;
      match r with
      | Error e => Some (Error e, m)
      | Ok b =>
          '(r, m) ← createFrames m bases size;
          Some (match r with Ok bs => Ok (b :: bs) | Error e => Error e end, m)
      end
  end.

(** The whole constructor: the pool and the buffers of its frames. *)
Definition newPool {R D} `{!Replacer R} `{!DiskManager D} m (bases : list Z) (pageSize : Z) (r : R) (d : D)
    : option (result (Pool R D * list Slice) * M) :=
  '(bufs, m) ← createFrames m bases pageSize;
  match bufs with
  | Error e => Some (Error e, m)
  | Ok bufs => Some (Ok (NewSimpleBufferPoolManager (length bufs) r d, bufs), m)
  end.

Definition releaseFrameBuffer m b : result unit * M := mem_munlock m b.

Fixpoint releaseAllFrameBuffers m (bufs : list Slice) : result unit * M :=
  match bufs with
  | [] => (Ok tt, m)
  | b :: bufs =>
      let '(r, m) := releaseFrameBuffer m b in
      match r with
      | Error e => (Error e, m)
      | Ok _ => releaseAllFrameBuffers m bufs
      end
  end.
End buffers.

(** ** One page of its own for every frame *)

Definition page_of (b : Slice) : Z := addr b / 4096.
Definition page_sized (b : Slice) : Prop := addr b mod 4096 = 0 /\ slen b = 4096.

(** The blocks are in the address space and do not overlap. *)
Definition blocks_ok (bases : list Z) : Prop :=
  Forall (fun base => 0 <= base /\ base + 8192 <= 2 ^ 64) bases /\
  forall i j x y, bases !! i = Some x -> bases !! j = Some y -> i <> j -> x + 8192 <= y \/ y + 8192 <= x.

(** The buffer is inside its block. *)
Definition within (base : Z) (b : Slice) : Prop := base <= addr b /\ addr b + slen b <= base + 8192.

Lemma touches_page b page : page_sized b -> touches b page <-> page = page_of b.
Proof. intros [Ha Hs]. unfold touches, page_of. rewrite Hs. Z.div_mod_to_equations. lia. Qed.

Lemma AllocateAlignedBuffer_run base : 0 <= base -> base + 8192 <= 2 ^ 64 ->
  exists b, AllocateAlignedBuffer base = Some b /\ page_sized b /\ within base b.
Proof.
  intros H0 H1. unfold AllocateAlignedBuffer, isAligned, findOffset, reslice, page_sized, within. cbn [slen addr mbind option_bind Z.ltb Z.compare].
  destruct (base mod 4096 =? 0) eqn:He.
  - eexists. split; [done|]. cbn [slen addr]. Z.div_mod_to_equations. lia.
  - pose proof (Z.mod_pos_bound base 4096). rewrite !(Z.mod_small _ (2 ^ 64)) by lia.
    rewrite (proj2 (Z.leb_le _ _)) by lia. rewrite (proj2 (Z.leb_le _ _)) by lia. rewrite (proj2 (Z.leb_le _ _)) by lia.
    eexists. split; [done|]. cbn [slen addr]. Z.div_mod_to_equations. lia.
Qed.

Lemma blocks_tail base bases : blocks_ok (base :: bases) -> blocks_ok bases.
Proof.
  intros [Hr Hd]. inversion Hr; subst. split; [done|]. intros i j x y Hi Hj Hne. apply (Hd (S i) (S j) x y); [done..|congruence].
Qed.

Section locking.
Context {M : Type} `{!Memory M} `{!MemoryLaws M}.
Implicit Types (m : M) (b : Slice).

(** [m'] has the pages of [bs] locked over [m]. *)
Definition locks m (bs : list Slice) m' : Prop := forall page, mem_locked m' page <-> mem_locked m page \/ page ∈ page_of <$> bs.

(** [bs] are the buffers of the first blocks. *)
Definition buffers_of (bases : list Z) (bs : list Slice) : Prop :=
  Forall page_sized bs /\ Forall2 within (take (length bs) bases) bs /\
  Forall2 (fun base b => AllocateAlignedBuffer base = Some b) (take (length bs) bases) bs.

(** Locking the buffers one after the other, when every call succeeds. *)
Fixpoint mlock_each m (bs : list Slice) : option M :=
  match bs with
  | [] => Some m
  | b :: bs => match mem_mlock m b with (Ok _, m) => mlock_each m bs | (Error _, _) => None end
  end.

(** Why the loop ends after [bs], in state [mk]: the buffers are too short, at
    the first block already, or the next lock is refused. *)
Definition stops_at (bases : list Z) (size : Z) m (bs : list Slice) mk (e : error) m' : Prop :=
  exists base b, bases !! length bs = Some base /\ AllocateAlignedBuffer base = Some b /\
    ((4096 < size /\ bs = [] /\ e = ErrBufferSize /\ m' = m) \/ (size <= 4096 /\ mem_mlock mk b = (Error e, m'))).

Lemma createFrames_run m size : forall bases, blocks_ok bases ->
  exists r m' bs mk, createFrames m bases size = Some (r, m') /\ buffers_of bases bs /\ mlock_each m bs = Some mk /\ locks m bs m' /\
    match r with
    | Ok bs' => bs' = bs /\ length bs = length bases /\ m' = mk /\ (bases = [] \/ size <= 4096)
    | Error e => stops_at bases size m bs mk e m'
    end.
Proof.
  intros bases. revert m. induction bases as [|base bases IH]; intros m Hok.
  { exists (Ok []), m, [], m. split_and!; try done; [|by left]. intros page. cbn. rewrite elem_of_nil. tauto. }
  destruct Hok as [Hr Hd] eqn:Hok'. clear Hok'. inversion Hr as [|? ? [H0 H1] _]; subst.
  destruct (AllocateAlignedBuffer_run base H0 H1) as (b & Hb & Hps & Hw). cbn [createFrames]. unfold createFrameBuffer. rewrite Hb. cbn [mbind option_bind].
  assert (forall m', (forall page, mem_locked m' page <-> mem_locked m page) -> locks m [] m') as Hnone.
  { intros m' Hl page. rewrite Hl, elem_of_nil. tauto. }
  rewrite (proj2 Hps). destruct (4096 <? size) eqn:Hsz.
  { exists (Error ErrBufferSize), m, [], m. split_and!; try done; [by apply Hnone|]. exists base, b. split_and!; try done. left. split_and!; try done. lia. }
  pose proof (mlock_law m b) as Hl. destruct (mem_mlock m b) as [[[]|e] m1] eqn:Hml; cbn [mbind option_bind].
  2: { exists (Error e), m1, [], m. split_and!; try done; [by apply Hnone|]. exists base, b. split_and!; try done. right. split; [lia|done]. }
  destruct (IH m1 (blocks_tail _ _ Hok)) as (r & m2 & bs & mk & -> & (Hf & Hw2 & Ha2) & Hm & Hl2 & Hlen). cbn [mbind option_bind].
  exists (match r with Ok bs => Ok (b :: bs) | Error e => Error e end), m2, (b :: bs), mk. split; [done|].
  split; [split_and!; by constructor|]. split; [cbn; by rewrite Hml|]. split.
  - intros page. rewrite (Hl2 page), Hl, touches_page, fmap_cons, elem_of_cons by done. tauto.
  - destruct r as [bs'|e]; cbn.
    + destruct Hlen as (-> & -> & -> & _). split_and!; try done. right. lia.
    + destruct Hlen as (base' & b' & Hbase & Hb' & [(? & _)|[_ Hml']]); [lia|]. exists base', b'. split_and!; try done. right. split; [lia|done].
Qed.

Lemma buffers_distinct bases bs : blocks_ok bases -> buffers_of bases bs -> NoDup (page_of <$> bs).
Proof.
  intros [_ Hd] (Hps & Hw & _). apply NoDup_alt. intros i j page Hi Hj. destruct (decide (i = j)) as [|Hne]; [done|exfalso].
  rewrite list_lookup_fmap in Hi, Hj. apply fmap_Some in Hi as (b & Hb & Hp), Hj as (b' & Hb' & Hp').
  destruct (Forall2_lookup_r _ _ _ _ _ Hw Hb) as (x & Hx & Hwx), (Forall2_lookup_r _ _ _ _ _ Hw Hb') as (y & Hy & Hwy).
  apply lookup_take_Some in Hx as [Hx _], Hy as [Hy _].
  pose proof (Forall_lookup_1 _ _ _ _ Hps Hb) as [Ha Hs]. pose proof (Forall_lookup_1 _ _ _ _ Hps Hb') as [Ha' Hs'].
  unfold page_of in *. unfold within in *. destruct (Hd i j x y Hx Hy Hne); Z.div_mod_to_equations; lia.
Qed.

Lemma release_run bs : forall m, Forall page_sized bs ->
  exists r k, releaseAllFrameBuffers m bs = r /\ (r.1 = Ok tt -> k = length bs) /\
    forall page, mem_locked r.2 page <-> mem_locked m page /\ page ∉ page_of <$> take k bs.
Proof.
  induction bs as [|b bs IH]; intros m Hps; cbn [releaseAllFrameBuffers].
  { exists (Ok tt, m), 0%nat. split; [done|]. split; [done|]. intros page. cbn. rewrite elem_of_nil. tauto. }
  inversion Hps as [|? ? Hb Hps']; subst. unfold releaseFrameBuffer. pose proof (munlock_law m b) as Hl.
  destruct (mem_munlock m b) as [[[]|e] m1].
  - destruct (IH m1 Hps') as (r & k & -> & Hok & Hl2). exists r, (S k). cbn [length take]. split; [done|]. split; [intros Hr; f_equal; by apply Hok|].
    intros page. rewrite Hl2, Hl, touches_page, fmap_cons, elem_of_cons by done. tauto.
  - exists (Error e, m1), 0%nat. split; [done|]. split; [done|]. intros page. cbn. rewrite Hl, elem_of_nil. tauto.
Qed.

(** C29: Every frame has an aligned page of memory of its own.  Whatever blocks
    the runtime gives out, the constructor makes the buffers of the first blocks,
    each one page long, on a page boundary inside its block, no two on one page,
    and locks them one after the other; exactly their pages are locked then.  When
    it succeeds every frame has such a buffer and the page size is at most 4096
    (or there is no frame), and when closing the pool succeeds it unlocks exactly
    what had been locked.  It fails in two ways only: at the first block, having
    locked nothing, when the page size is above 4096, or at the first lock that
    the kernel refuses; then the pages it had locked before that one stay locked,
    though nothing refers to them. *)
Theorem frame_buffers_locked {R D} `{!Replacer R} `{!DiskManager D} m bases pageSize (r0 : R) (d0 : D) :
  blocks_ok bases ->
  exists r m' bs mk, newPool m bases pageSize r0 d0 = Some (r, m') /\ buffers_of bases bs /\ NoDup (page_of <$> bs) /\
    mlock_each m bs = Some mk /\ locks m bs m' /\
    match r with
    | Ok (s, bufs) => s = NewSimpleBufferPoolManager (length bases) r0 d0 /\ bufs = bs /\ length bs = length bases /\ m' = mk /\
        (bases = [] \/ pageSize <= 4096) /\
        ((forall page, page ∈ page_of <$> bs -> ~ mem_locked m page) ->
         forall m2, releaseAllFrameBuffers m' bufs = (Ok tt, m2) -> forall page, mem_locked m2 page <-> mem_locked m page)
    | Error e => stops_at bases pageSize m bs mk e m'
    end.
Proof.
  intros Hok. destruct (createFrames_run m pageSize bases Hok) as (r & m' & bs & mk & Hrun & Hbs & Hm & Hl & Hr). unfold newPool. rewrite Hrun.
  cbn [mbind option_bind]. pose proof (buffers_distinct _ _ Hok Hbs) as Hnd.
  destruct r as [bufs|e]; eexists _, m', bs, mk; (split; [done|]); do 4 (split; [done|]); [|done].
  destruct Hr as (-> & Hlen & -> & Hsz). rewrite Hlen. do 5 (split; [done|]). intros Hfresh m2 Hrel page.
  destruct (release_run bs mk (proj1 Hbs)) as (r & k & Hr & Hk & Hl2). rewrite Hrel in Hr. subst r. cbn in Hk, Hl2.
  rewrite Hl2, (Hl page), Hk, take_ge by done. specialize (Hfresh page). tauto.
Qed.
End locking.

(** A kernel that locks up to a number of pages in all. *)
Record Kernel := mkKernel { lockedPages : gset Z; lockLimit : nat }.

Definition touched (b : Slice) : gset Z := list_to_set (seqZ (addr b / 4096) ((addr b + slen b - 1) / 4096 - addr b / 4096 + 1)).

Lemma elem_of_touched b page : page ∈ touched b <-> touches b page.
Proof. unfold touched, touches. rewrite elem_of_list_to_set, elem_of_seqZ. lia. Qed.

#[export] Instance Kernel_Memory : Memory Kernel := {
  mem_mlock k b :=
    let pages := lockedPages k ∪ touched b in
    if bool_decide (size pages <= lockLimit k)%nat then (Ok tt, mkKernel pages (lockLimit k)) else (Error ErrOS, k);
  mem_munlock k b := (Ok tt, mkKernel (lockedPages k ∖ touched b) (lockLimit k));
  mem_locked k page := page ∈ lockedPages k
}.

#[export] Instance Kernel_MemoryLaws : MemoryLaws Kernel.
Proof.
  split; intros k b; cbn; [case_bool_decide; [|done]|]; intros page; cbn; rewrite <- elem_of_touched; set_solver.
Qed.

Definition sample_bases : list Z := [4096; 20000].

Lemma sample_blocks_ok : blocks_ok sample_bases.
Proof. split; [repeat constructor; lia|]. intros [|[|i]] [|[|j]] x y [= <-] [= <-] Hne; lia. Qed.

Definition new_sample_pool (limit : nat) := newPool (mkKernel ∅ limit) sample_bases 4096 NewLRUReplacer sample_disk.
Definition made {A} (r : option (result A * Kernel)) : option bool := option_map (fun r => match r.1 with Ok _ => true | Error _ => false end) r.

(** A kernel with room for both pages, and one with room for one. *)
Lemma frame_buffers_locked_witness :
  (exists s m' bs, new_sample_pool 2 = Some (Ok (s, bs), m') /\ length bs = 2%nat /\ NoDup (page_of <$> bs) /\ locks (mkKernel ∅ 2) bs m') /\
  (exists e m' bs mk, new_sample_pool 1 = Some (Error e, m') /\ stops_at sample_bases 4096 (mkKernel ∅ 1) bs mk e m' /\
     locks (mkKernel ∅ 1) bs m').
Proof.
  assert (made (new_sample_pool 2) = Some true /\ made (new_sample_pool 1) = Some false) as [H2 H1] by (split; vm_compute; reflexivity).
  unfold new_sample_pool in *. split.
  - destruct (frame_buffers_locked (mkKernel ∅ 2) sample_bases 4096 NewLRUReplacer sample_disk sample_blocks_ok)
      as (r & m' & bs & mk & Hrun & Hbs & Hnd & Hm & Hl & Hr). rewrite Hrun in H2.
    destruct r as [[s bufs]|e]; [|discriminate]. destruct Hr as (_ & -> & Hlen & _). exists s, m', bs. auto.
  - destruct (frame_buffers_locked (mkKernel ∅ 1) sample_bases 4096 NewLRUReplacer sample_disk sample_blocks_ok)
      as (r & m' & bs & mk & Hrun & Hbs & Hnd & Hm & Hl & Hr). rewrite Hrun in H1.
    destruct r as [[s bufs]|e]; [discriminate|]. exists e, m', bs, mk. auto.
Defined.

(** With room for one page only, the first frame's page stays locked. *)
Example refused_lock_leaks :
  option_map (fun r => (match r.1 with Ok _ => true | Error _ => false end, elements (lockedPages r.2)))
    (newPool (mkKernel ∅ 1) sample_bases 4096 NewLRUReplacer sample_disk) = Some (false, [1]).
Proof. vm_compute. reflexivity. Qed.
