(* ===== verification/BufferPoolSpec.v ===== *)
(** * What the buffer pool promises: caching is invisible

    The pool and the disk behind it are one array of pages, [pool_page]: the
    frame's bytes for a page in memory, the disk's for the others.  Fetching,
    pinning, evicting and flushing do not change that array; the invariant
    [pool_ok] says how table, frames, free list, replacer and disk agree. *)

From S2P Require Export BufferPool.

Section spec.
Context {R D : Type} `{RL : ReplacerLaws R} `{DL : DiskLaws D}.
Implicit Types (s : Pool R D) (fr : Frame).

(** The page a client of the pool sees. *)
Definition pool_page s (pid : Z) : option (list byte) :=
  match pageTable s !! pid with
  | Some f => data <$> frames s !! f
  | None => disk_page (disk s) pid
  end.

(** A frame that holds page [pid]. *)
Definition frame_holds (d : D) (pid : Z) fr : Prop :=
  pageId fr = pid /\ len (data fr) = 4096 /\ 0 <= pinCount fr /\ is_Some (disk_page d pid) /\
  (dirty fr = false -> disk_page d pid = Some (data fr)).

Record pool_ok s : Prop := {
  ok_disk : disk_ok (disk s);
  ok_replacer : replacer_ok (replacer s);
  ok_lock : allocLocked s = false;
  ok_data f fr : frames s !! f = Some fr -> len (data fr) = 4096;
  ok_table pid f : pageTable s !! pid = Some f -> exists fr, frames s !! f = Some fr /\ frame_holds (disk s) pid fr;
  ok_free : NoDup (freeFrames s);
  ok_free_frames f : f ∈ freeFrames s -> is_Some (frames s !! f) /\ forall pid, pageTable s !! pid <> Some f;
  ok_cand f : f ∈ candidates (replacer s) <->
    exists pid fr, pageTable s !! pid = Some f /\ frames s !! f = Some fr /\ pinCount fr = 0
}.

Lemma table_inj s pid pid' f : pool_ok s -> pageTable s !! pid = Some f -> pageTable s !! pid' = Some f -> pid = pid'.
Proof.
  intros Hok H1 H2. destruct (ok_table _ Hok _ _ H1) as (fr & Hf & Hp & _).
  destruct (ok_table _ Hok _ _ H2) as (fr' & Hf' & Hp' & _). congruence.
Qed.

Lemma offset_exact pid : 0 <= pid < 2 ^ 51 -> i64 (i64 pid * PAGE_SIZE) = pid * 4096.
Proof. intros. unfold PAGE_SIZE. rewrite (i64_id pid), i64_id by lia. done. Qed.

Lemma copyBytes_page a b : len a = 4096 -> len b = 4096 -> copyBytes a b = b.
Proof. intros Ha Hb. unfold copyBytes, len in *. rewrite take_ge, drop_ge by lia. apply app_nil_r. Qed.

(** Replacing a frame that holds [pid] by another that does. *)
Lemma pool_ok_frame s r pid f fr fr' :
  pool_ok s -> pageTable s !! pid = Some f -> frames s !! f = Some fr -> frame_holds (disk s) pid fr' ->
  replacer_ok r ->
  (forall g, g ∈ candidates r <-> (g <> f /\ g ∈ candidates (replacer s)) \/ (g = f /\ pinCount fr' = 0)) ->
  pool_ok (set_replacer (set_frame s f fr') r).
Proof.
  intros Hok Ht Hf Hh Hr Hc. pose proof Hok as [Hd _ Hlk Hda Htab Hfr Hff Hca]. constructor; cbn; try done.
  - intros g gr. destruct (decide (g = f)) as [->|Hne]; [rewrite lookup_insert_eq; intros [= <-]; apply Hh|].
    rewrite lookup_insert_ne by done. apply Hda.
  - intros q g Hq. destruct (decide (g = f)) as [->|Hne].
    + rewrite (table_inj s q pid f Hok Hq Ht). rewrite lookup_insert_eq. by exists fr'.
    + rewrite lookup_insert_ne by done. by apply Htab.
  - intros g Hg. destruct (Hff g Hg) as [Hs Hn]. split; [|done]. destruct (decide (g = f)) as [->|Hne].
    + rewrite lookup_insert_eq. done.
    + by rewrite lookup_insert_ne.
  - intros g. rewrite Hc, Hca. destruct (decide (g = f)) as [->|Hne].
    + rewrite lookup_insert_eq. split.
      * intros [[? _]|[_ Hp]]; [done|]. exists pid, fr'. done.
      * intros (q & gr & Hq & [= <-] & Hp). by right.
    + rewrite lookup_insert_ne by done. split; [intros [[_ ?]|[? _]]; done|]. intros ?. by left.
Qed.

(** ** Pinning a page in memory *)

Lemma frame_holds_pin d pid fr n : frame_holds d pid fr -> 0 <= n -> frame_holds d pid (with_pin fr n).
Proof. intros (? & ? & ? & ? & ?) Hn. by split_and!. Qed.

Lemma pool_page_frame s f fr fr' r pid :
  frames s !! f = Some fr -> data fr' = data fr ->
  pool_page (set_replacer (set_frame s f fr') r) pid = pool_page s pid.
Proof.
  intros Hf Hd. unfold pool_page. cbn. destruct (pageTable s !! pid) as [g|]; [|done].
  destruct (decide (g = f)) as [->|Hne]; [rewrite lookup_insert_eq, Hf; cbn; by rewrite Hd|].
  by rewrite lookup_insert_ne.
Qed.

Lemma pinFrame_spec s pid f :
  pool_ok s -> pageTable s !! pid = Some f ->
  exists s' fr, pinFrame s f = Some (Done (Ok f), s') /\ pool_ok s' /\
    frames s !! f = Some fr /\ frames s' !! f = Some (with_pin fr (pinCount fr + 1)) /\
    pageTable s' = pageTable s /\ disk s' = disk s /\ freeFrames s' = freeFrames s /\
    (forall q, pool_page s' q = pool_page s q) /\
    (forall g, g <> f -> frames s' !! g = frames s !! g).
Proof.
  intros Hok Ht. destruct (ok_table _ Hok _ _ Ht) as (fr & Hf & Hh). pose proof Hh as (_ & _ & Hpin & _).
  unfold pinFrame. rewrite Hf. cbn [mbind option_bind with_pin pinCount].
  assert (frame_holds (disk s) pid (with_pin fr (pinCount fr + 1))) as Hh' by (apply frame_holds_pin; [done|lia]).
  destruct (Z.eqb_spec (pinCount fr + 1) 1) as [H1|H1].
  - assert (f ∈ candidates (replacer s)) as Hin.
    { apply (ok_cand _ Hok). exists pid, fr. split_and!; [done|done|lia]. }
    destruct (remove_law (replacer s) f (ok_replacer _ Hok) Hin) as (r & Hr & Hrok & Hperm).
    cbn [set_frame replacer]. rewrite Hr. cbn [mbind option_bind]. eexists _, fr.
    split_and!; [done| |done|cbn; by rewrite lookup_insert_eq|done|done|done| |].
    + eapply (pool_ok_frame s r); [done..|]. intros g. rewrite Hperm, elem_of_cons.
      pose proof (candidates_nodup _ (ok_replacer _ Hok)) as Hnd. rewrite Hperm in Hnd.
      apply list.NoDup_cons in Hnd as [Hnf _]. cbn. split.
      * intros Hg. left. split; [by intros ->|by right].
      * intros [[Hne [?|?]]|[_ ?]]; [done|done|lia].
    + intros q. by eapply pool_page_frame.
    + intros g Hne. cbn. by rewrite lookup_insert_ne.
  - eexists _, fr. split_and!; [done| |done|cbn; by rewrite lookup_insert_eq|done|done|done| |].
    + change (set_frame s f ?x) with (set_replacer (set_frame s f x) (replacer s)).
      eapply (pool_ok_frame s (replacer s)); [done..|apply Hok|]. intros g. cbn. split.
      * intros Hg. left. split; [|done]. intros ->. apply (ok_cand _ Hok) in Hg as (q & gr & _ & Hgr & Hp).
        simplify_eq. lia.
      * intros [[_ ?]|[_ ?]]; [done|lia].
    + intros q. change (set_frame s f ?x) with (set_replacer (set_frame s f x) (replacer s)). by eapply pool_page_frame.
    + intros g Hne. cbn. by rewrite lookup_insert_ne.
Qed.

(** ** Making room *)

Definition unowned s (f : Z) : Prop :=
  is_Some (frames s !! f) /\ (f ∉ freeFrames s) /\ forall pid, pageTable s !! pid <> Some f.

(** Pinned pages stay where they are. *)
Definition keeps_pinned s s' : Prop :=
  forall pid f fr, pageTable s !! pid = Some f -> frames s !! f = Some fr -> pinCount fr <> 0 ->
    pageTable s' !! pid = Some f.

(** Taking the page of an unpinned frame out of the table, with a disk that has
    the frame's bytes. *)
Lemma pool_ok_evict s r d f fr :
  pool_ok s -> freeFrames s = [] -> pageTable s !! pageId fr = Some f -> frames s !! f = Some fr -> pinCount fr = 0 ->
  replacer_ok r -> candidates (replacer s) ≡ₚ f :: candidates r -> disk_ok d ->
  (forall q, disk_page d q = if decide (q = pageId fr) then Some (data fr) else disk_page (disk s) q) ->
  let s' := mkPool r d (delete (pageId fr) (pageTable s)) (frames s) [] (allocLocked s) in
  pool_ok s' /\ unowned s' f /\ (forall q, pool_page s' q = pool_page s q) /\ keeps_pinned s s'.
Proof.
  intros Hok Hfree Ht Hf Hp Hr Hperm Hd Hdp s'. pose proof Hok as [_ Hro Hlk Hda Htab Hfr Hff Hca].
  set (v := pageId fr) in *.
  assert (forall q, q <> v -> disk_page d q = disk_page (disk s) q) as Hdo.
  { intros q Hq. rewrite Hdp. by rewrite decide_False. }
  assert (forall q, pageTable s !! q = Some f -> q = v) as Hinj by (intros q Hq; by eapply table_inj).
  split_and!.
  - constructor; cbn; try done.
    + intros q g [Hq Hg]%lookup_delete_Some. destruct (Htab _ _ Hg) as (gr & Hgr & Hh). exists gr. split; [done|].
      unfold frame_holds in *. rewrite Hdo by done. done.
    + constructor.
    + intros g []%elem_of_nil.
    + intros g. pose proof (candidates_nodup _ Hro) as Hnd. rewrite Hperm in Hnd. apply list.NoDup_cons in Hnd as [Hnf _].
      specialize (Hca g). rewrite Hperm, elem_of_cons in Hca. split.
      * intros Hg. destruct (proj1 Hca (or_intror Hg)) as (q & gr & Hq & Hgr & Hz). exists q, gr.
        rewrite lookup_delete_Some. split_and!; [|done..]. intros <-. congruence.
      * intros (q & gr & [Hq Hg]%lookup_delete_Some & Hgr & Hz). destruct (proj2 Hca) as [->|?]; [by exists q, gr| |done].
        exfalso. by apply Hq, eq_sym, Hinj.
  - split_and!; cbn; [done|apply not_elem_of_nil|]. intros q [Hq Hg]%lookup_delete_Some. by apply Hq, eq_sym, Hinj.
  - intros q. unfold pool_page. cbn. destruct (decide (q = v)) as [->|Hq].
    + rewrite lookup_delete_eq, Ht, Hf, Hdp. by rewrite decide_True.
    + rewrite lookup_delete_ne by done. destruct (pageTable s !! q); [done|]. by apply Hdo.
  - intros q g gr Hq Hg Hpin. cbn. apply lookup_delete_Some. split; [|done]. intros <-. simplify_eq.
Qed.

Lemma allocateFrame_spec s :
  pool_ok s ->
  match allocateFrame s with
  | None => freeFrames s = [] /\ candidates (replacer s) = []
  | Some (Done (Ok f), s') =>
      pool_ok s' /\ unowned s' f /\ (forall q, pool_page s' q = pool_page s q) /\
      keeps_pinned s s' /\ frames s' = frames s /\ (healthy (disk s) -> healthy (disk s')) /\
      (forall q, pageTable s !! q = None -> pageTable s' !! q = None)
  | Some (Done (Error _), s') => ~ healthy (disk s) /\ allocLocked s' = true
  | Some (Blocked, _) => False
  end.
Proof.
  intros Hok. pose proof Hok as [Hd Hro Hlk Hda Htab Hfr Hff Hca]. unfold allocateFrame.
  destruct (freeFrames s) as [|f rest] eqn:Hfree.
  2:{ apply list.NoDup_cons in Hfr as [Hni Hnd]. destruct (Hff f ltac:(by left)) as [Hs Hn]. split_and!; [|done..| |done|done|done].
      - constructor; cbn; try done. intros g Hg. apply Hff. by right.
      - by intros pid g gr Hg. }
  destruct (decide (candidates (replacer s) = [])) as [Hemp|Hne].
  { destruct (replacer_victim (replacer s)) as [[f r]|] eqn:Hv; [|done]. exfalso. apply (victim_empty _ f r Hro Hemp Hv). }
  destruct (victim_law _ Hro Hne) as (f & r & -> & Hrok & Hperm). cbn [mbind option_bind].
  assert (f ∈ candidates (replacer s)) as Hin by (rewrite Hperm; by left).
  apply Hca in Hin as (v & fr & Hv & Hf & Hp). rewrite Hf. cbn [mbind option_bind].
  destruct (Htab _ _ Hv) as (fr' & Hf' & Hh). rewrite Hf in Hf'. injection Hf' as <-.
  destruct Hh as (Hpid & Hlen & _ & Hpg & Hclean). subst v. cbn [disk].
  pose proof (fun d => pool_ok_evict s r d f fr Hok Hfree Hv Hf Hp Hrok Hperm) as Hev.
  destruct (dirty fr).
  - destruct Hpg as [old Hold]. destruct (disk_page_len _ _ _ Hold) as [_ Hb]. rewrite offset_exact by done.
    destruct (write_law (disk s) (pageId fr) (data fr) Hd ltac:(by eexists) Hlen) as (w & d & -> & Hdok & He & Hw & Hhe).
    destruct w as [[]|e].
    + destruct (Hev d Hdok (Hw eq_refl)) as (H1 & H2 & H3 & H4). split_and!; [exact H1|exact H2|exact H3|exact H4|done| |].
      * cbn. intros ?%Hhe. tauto.
      * intros q Hq. cbn. rewrite lookup_delete_None. by right.
    + split; [|done]. intros [_ ?]%Hhe. done.
  - destruct (Hev (disk s) Hd) as (H1 & H2 & H3 & H4).
    { intros q. case_decide; [subst; by apply Hclean|done]. }
    split_and!; [exact H1|exact H2|exact H3|exact H4|done|done|]. intros q Hq. cbn. rewrite lookup_delete_None. by right.
Qed.
(** ** Fetching *)

(** How often a page is pinned. *)
Definition pins s (pid : Z) : Z :=
  match pageTable s !! pid with
  | Some f => match frames s !! f with Some fr => pinCount fr | None => 0 end
  | None => 0
  end.

(** Replacing the disk by one with the same pages. *)
Lemma pool_ok_disk s d :
  pool_ok s -> disk_ok d -> disk_page d = disk_page (disk s) ->
  pool_ok (set_disk s d) /\ (forall q, pool_page (set_disk s d) q = pool_page s q).
Proof.
  intros [Hd Hro Hlk Hda Htab Hfr Hff Hca] Hdok Hpg. split.
  - constructor; cbn; try done. intros q g Hq. destruct (Htab _ _ Hq) as (gr & Hgr & Hh). exists gr. split; [done|].
    unfold frame_holds in *. by rewrite Hpg.
  - intros q. unfold pool_page. cbn. by rewrite Hpg.
Qed.

(** Loading a page into an unowned frame. *)
Lemma pool_ok_load s f fr pid bytes :
  pool_ok s -> unowned s f -> frames s !! f = Some fr -> pageTable s !! pid = None ->
  disk_page (disk s) pid = Some bytes -> len bytes = 4096 ->
  let s' := mkPool (replacer s) (disk s) (<[pid := f]> (pageTable s))
              (<[f := mkFrame pid (copyBytes (data fr) bytes) 1 false (latch fr)]> (frames s)) (freeFrames s) (allocLocked s) in
  pool_ok s' /\ forall q, pool_page s' q = pool_page s q.
Proof.
  intros Hok (_ & Hnf & Hun) Hf Ht Hdp Hlen. pose proof Hok as [Hd Hro Hlk Hda Htab Hfr Hff Hca].
  rewrite (copyBytes_page _ _ (Hda _ _ Hf) Hlen). intros s'. split.
  - constructor; cbn; try done.
    + intros g gr. destruct (decide (g = f)) as [->|Hne]; [rewrite lookup_insert_eq; by intros [= <-]|].
      rewrite lookup_insert_ne by done. apply Hda.
    + intros q g. rewrite lookup_insert_Some. intros [[<- <-]|[Hq Hg]].
      * rewrite lookup_insert_eq. eexists. split; [done|]. split_and!; cbn; done.
      * rewrite lookup_insert_ne; [by apply Htab|]. intros <-. by eapply Hun.
    + intros g Hg. destruct (Hff g Hg) as [Hs Hn]. assert (g <> f) by (by intros ->). split.
      * by rewrite lookup_insert_ne.
      * intros q. rewrite lookup_insert_Some. intros [[_ ?]|[_ ?]]; [done|by eapply Hn].
    + intros g. rewrite Hca. split.
      * intros (q & gr & Hq & Hgr & Hz). exists q, gr. assert (g <> f) by (intros ->; by eapply Hun).
        rewrite !lookup_insert_ne; [done|done|]. intros <-. congruence.
      * intros (q & gr & [[<- <-]|[Hne Hq]]%lookup_insert_Some & Hgr & Hz).
        -- rewrite lookup_insert_eq in Hgr. injection Hgr as <-. done.
        -- exists q, gr. rewrite lookup_insert_ne in Hgr by (intros <-; by eapply Hun). done.
  - intros q. unfold pool_page. cbn. destruct (decide (q = pid)) as [->|Hq].
    + rewrite !lookup_insert_eq, Ht, Hdp. done.
    + rewrite lookup_insert_ne by done. destruct (pageTable s !! q) as [g|] eqn:Hg; [|done].
      rewrite lookup_insert_ne; [done|]. intros <-. by eapply Hun.
Qed.

(** What a successful fetch promises. *)
Definition fetched s s' (pid f : Z) : Prop :=
  pool_ok s' /\ (forall q, pool_page s' q = pool_page s q) /\ keeps_pinned s s' /\
  exists fr, pageTable s' !! pid = Some f /\ frames s' !! f = Some fr /\
    pool_page s pid = Some (data fr) /\ pinCount fr = pins s pid + 1.

Lemma fetch_hit s pid f :
  pool_ok s -> pageTable s !! pid = Some f ->
  exists s', pinFrame s f = Some (Done (Ok f), s') /\ fetched s s' pid f.
Proof.
  intros Hok Ht. destruct (pinFrame_spec s pid f Hok Ht) as (s' & fr & Heq & Hok' & Hf & Hf' & Ht' & _ & _ & Hpp & _).
  exists s'. split; [done|]. split_and!; [done|done| |].
  - intros q g gr Hq _ _. by rewrite Ht'.
  - eexists. rewrite Ht'. split_and!; [done|exact Hf'| |].
    + unfold pool_page. by rewrite Ht, Hf.
    + unfold pins. by rewrite Ht, Hf.
Qed.

Lemma fetchPageLocked_spec s pid :
  pool_ok s -> 0 <= pid < 2 ^ 51 ->
  match fetchPageLocked s pid with
  | None => pageTable s !! pid = None /\ freeFrames s = [] /\ candidates (replacer s) = []
  | Some (Done (Ok f), s') => fetched s s' pid f
  | Some (Done (Error _), s') =>
      (~ healthy (disk s) \/ pool_page s pid = None) /\
      (allocLocked s' = false -> pool_ok s' /\ forall q, pool_page s' q = pool_page s q)
  | Some (Blocked, _) => False
  end.
Proof.
  intros Hok Hpid. unfold fetchPageLocked. destruct (pageTable s !! pid) as [f|] eqn:Ht.
  { by destruct (fetch_hit s pid f Hok Ht) as (s' & -> & ?). }
  rewrite offset_exact by done. change PAGE_SIZE with 4096.
  destruct (read_law (disk s) pid (ok_disk _ Hok) Hpid) as (r & d & -> & Hdok & Hpg & Hd & Hhe).
  destruct (pool_ok_disk s d Hok Hdok Hpg) as [Hok1 Hpp1]. destruct r as [bytes|e].
  2:{ split; [|done]. destruct (disk_page (disk s) pid) eqn:Hp; [left|right; unfold pool_page; by rewrite Ht].
      intros Hh. destruct (Hhe Hh) as [_ Hx]. by destruct (Hx ltac:(done)). }
  specialize (Hd bytes eq_refl). destruct (disk_page_len _ _ _ Hd) as [Hlen _].
  rewrite (ok_lock _ Hok1). pose proof (allocateFrame_spec _ Hok1) as Hal.
  destruct (allocateFrame (set_disk s d)) as [[[[f|e]|] s2]|]; cbn [mbind option_bind]; [| |done|done].
  - destruct Hal as (Hok2 & Hun & Hpp2 & Hkp & Hfr2 & _ & Htn). pose proof Hun as ([fr Hf] & Hnf & Hnt).
    rewrite Hf. cbn [mbind option_bind]. pose proof (Htn pid Ht) as Ht2.
    assert (disk_page (disk s2) pid = Some bytes) as Hd2.
    { specialize (Hpp2 pid). unfold pool_page in Hpp2. cbn in Hpp2. rewrite Ht, Ht2, Hpg in Hpp2. congruence. }
    destruct (pool_ok_load s2 f fr pid bytes Hok2 Hun Hf Ht2 Hd2 Hlen) as [Hok3 Hpp3].
    split_and!; [done| | |].
    + intros q. by rewrite Hpp3, Hpp2, Hpp1.
    + intros q g gr Hq Hg Hz. cbn. rewrite lookup_insert_ne by congruence. by eapply Hkp.
    + eexists. cbn. rewrite !lookup_insert_eq. split_and!; [done|done| |unfold pins; by rewrite Ht]. cbn.
      rewrite (copyBytes_page _ _ (ok_data _ Hok2 _ _ Hf) Hlen). unfold pool_page. by rewrite Ht.
  - destruct Hal as [Hnh Hlk2]. split; [left|]. { intros [? _]%Hhe. done. } congruence.
Qed.
Lemma fetch_spec s pid :
  pool_ok s -> 0 <= pid < 2 ^ 51 ->
  match fetchPage s pid with
  | None => pageTable s !! pid = None /\ freeFrames s = [] /\ candidates (replacer s) = []
  | Some (Done (Ok f), s') => fetched s s' pid f
  | Some (Done (Error _), s') =>
      (~ healthy (disk s) \/ pool_page s pid = None) /\
      (allocLocked s' = false -> pool_ok s' /\ forall q, pool_page s' q = pool_page s q)
  | Some (Blocked, _) => False
  end.
Proof.
  intros Hok Hpid. unfold fetchPage. destruct (pageTable s !! pid) as [f|] eqn:Ht.
  - by destruct (fetch_hit s pid f Hok Ht) as (s' & -> & ?).
  - pose proof (fetchPageLocked_spec s pid Hok Hpid) as Hl. by rewrite Ht in Hl.
Qed.

(** C22: the buffer pool is transparent.  Fetching a page (from memory, into a
    free frame, or after evicting an unpinned page and writing it back when
    dirty) keeps the invariant and the contents of every page, keeps every
    pinned page in its frame, and pins a frame that holds the page's bytes.  An
    error means a disk error or a page that does not exist; the only panic is
    a miss when every frame is pinned. *)
Theorem pool_fetch_transparent s pid :
  pool_ok s -> 0 <= pid < 2 ^ 51 ->
  match fetchPage s pid with
  | None => pageTable s !! pid = None /\ freeFrames s = [] /\ candidates (replacer s) = []
  | Some (Done (Ok f), s') => fetched s s' pid f
  | Some (Done (Error _), s') =>
      (~ healthy (disk s) \/ pool_page s pid = None) /\
      (allocLocked s' = false -> pool_ok s' /\ forall q, pool_page s' q = pool_page s q)
  | Some (Blocked, _) => False
  end.
Proof. apply fetch_spec. Qed.

(** ** Unpinning *)

Lemma unpin_spec s pid f fr :
  pool_ok s -> pageTable s !! pid = Some f -> frames s !! f = Some fr -> 0 < pinCount fr ->
  exists s', unpinPage s pid = Some (true, s') /\ pool_ok s' /\
    (forall q, pool_page s' q = pool_page s q) /\ pins s' pid = pins s pid - 1 /\
    (f ∈ candidates (replacer s') <-> pinCount fr = 1) /\
    pageTable s' = pageTable s /\ frames s' !! f = Some (with_pin fr (pinCount fr - 1)).
Proof.
  intros Hok Ht Hf Hpin. destruct (ok_table _ Hok _ _ Ht) as (fr' & Hf' & Hh). rewrite Hf in Hf'. injection Hf' as <-.
  unfold unpinPage. rewrite Ht, Hf. cbn [mbind option_bind with_pin pinCount].
  assert (frame_holds (disk s) pid (with_pin fr (pinCount fr - 1))) as Hh' by (apply frame_holds_pin; [done|lia]).
  assert (f ∉ candidates (replacer s)) as Hnc.
  { intros (q & gr & _ & Hgr & Hz)%(ok_cand _ Hok). rewrite Hf in Hgr. injection Hgr as <-. lia. }
  assert (forall r, pins (set_replacer (set_frame s f (with_pin fr (pinCount fr - 1))) r) pid = pins s pid - 1) as Hpins.
  { intros r. unfold pins. cbn. rewrite Ht, lookup_insert_eq, Hf. done. }
  destruct (Z.eqb_spec (pinCount fr - 1) 0) as [Hz|Hz].
  - destruct (insert_law (replacer s) f (ok_replacer _ Hok) Hnc) as [Hr Hperm]. cbn [set_frame replacer].
    eexists. split_and!; [done| |intros q; by eapply pool_page_frame|apply Hpins| |done|cbn; by rewrite lookup_insert_eq].
    + eapply (pool_ok_frame s); [done..|]. intros g. rewrite Hperm, elem_of_cons. cbn. split.
      * intros [->|Hg]; [right; split; [done|lia]|left; split; [by intros ->|done]].
      * intros [[_ ?]|[? _]]; [by right|by left].
    + cbn. rewrite Hperm, elem_of_cons. split; [lia|by left].
  - change (set_frame s f ?x) with (set_replacer (set_frame s f x) (replacer s)).
    eexists. split_and!; [done| |intros q; by eapply pool_page_frame|apply Hpins| |done|cbn; by rewrite lookup_insert_eq].
    + eapply (pool_ok_frame s); [done..|apply Hok|]. intros g. cbn. split.
      * intros Hg. left. split; [by intros ->|done].
      * intros [[_ ?]|[_ ?]]; [done|lia].
    + cbn. split; [done|lia].
Qed.

(** unpinning a pinned page keeps the invariant and all page contents,
    counts one pin less, and makes the frame a candidate for eviction exactly
    when that was the last pin. *)
Theorem pool_unpin s pid f fr :
  pool_ok s -> pageTable s !! pid = Some f -> frames s !! f = Some fr -> 0 < pinCount fr ->
  exists s', unpinPage s pid = Some (true, s') /\ pool_ok s' /\
    (forall q, pool_page s' q = pool_page s q) /\ pins s' pid = pins s pid - 1 /\
    (f ∈ candidates (replacer s') <-> pinCount fr = 1).
Proof.
  intros Hok Ht Hf Hp. destruct (unpin_spec s pid f fr Hok Ht Hf Hp) as (s' & ? & ? & ? & ? & ? & _). by exists s'.
Qed.

(** ** Writing through a frame *)

(** The bytes of a pinned page replaced through the alias a guard gives out, and
    the frame marked dirty. *)
Definition write_frame s (f : Z) (fr : Frame) (bytes : list byte) : Pool R D :=
  set_frame s f (mkFrame (pageId fr) bytes (pinCount fr) true (latch fr)).

Lemma write_frame_spec s pid f fr bytes :
  pool_ok s -> pageTable s !! pid = Some f -> frames s !! f = Some fr -> len bytes = 4096 ->
  pool_ok (write_frame s f fr bytes) /\
  forall q, pool_page (write_frame s f fr bytes) q = if decide (q = pid) then Some bytes else pool_page s q.
Proof.
  intros Hok Ht Hf Hlen. destruct (ok_table _ Hok _ _ Ht) as (fr' & Hf' & Hh). rewrite Hf in Hf'. injection Hf' as <-.
  destruct Hh as (Hp & _ & Hpin & Hpg & _). split.
  - change (write_frame s f fr bytes) with
      (set_replacer (set_frame s f (mkFrame (pageId fr) bytes (pinCount fr) true (latch fr))) (replacer s)).
    eapply (pool_ok_frame s); [done..|by split_and!|apply Hok|]. intros g. cbn. rewrite (ok_cand _ Hok g). split.
    + intros (q & gr & Hq & Hgr & Hz). destruct (decide (g = f)) as [->|Hne]; [right; split; [done|congruence]|].
      left. split; [done|]. by exists q, gr.
    + intros [[_ ?]|[-> ?]]; [done|]. by exists pid, fr.
  - intros q. unfold pool_page, write_frame. cbn. case_decide as Hq.
    + subst q. by rewrite Ht, lookup_insert_eq.
    + destruct (pageTable s !! q) as [g|] eqn:Hg; [|done]. rewrite lookup_insert_ne; [done|].
      intros <-. apply Hq. by eapply table_inj.
Qed.

(** ** Flushing *)

(** Writing a frame's bytes to its page on disk. *)
Lemma pool_ok_sync s d pid f fr :
  pool_ok s -> pageTable s !! pid = Some f -> frames s !! f = Some fr -> disk_ok d ->
  (forall q, disk_page d q = if decide (q = pid) then Some (data fr) else disk_page (disk s) q) ->
  pool_ok (set_disk s d) /\ forall q, pool_page (set_disk s d) q = pool_page s q.
Proof.
  intros Hok Ht Hf Hd Hdp. pose proof Hok as [_ Hro Hlk Hda Htab Hfr Hff Hca]. split.
  - constructor; cbn; try done. intros q g Hq. destruct (Htab _ _ Hq) as (gr & Hgr & Hh). exists gr. split; [done|].
    unfold frame_holds in *. rewrite Hdp. case_decide as Hqp; [|done]. subst q.
    assert (gr = fr) as -> by congruence. destruct Hh as (? & ? & ? & _ & _). by split_and!.
  - intros q. unfold pool_page. cbn. destruct (pageTable s !! q) eqn:Hq; [done|].
    rewrite Hdp. rewrite decide_False; [done|]. congruence.
Qed.

Lemma flush_loop_spec order : forall s,
  pool_ok s -> (forall pid f, (pid, f) ∈ order -> pageTable s !! pid = Some f) ->
  exists r s', flush_loop s order = Some (r, s') /\ pool_ok s' /\ (forall q, pool_page s' q = pool_page s q) /\
    pageTable s' = pageTable s /\ (healthy (disk s) -> r = Ok tt /\ healthy (disk s')) /\
    (r = Ok tt ->
      (forall pid f, (pid, f) ∈ order -> disk_page (disk s') pid = pool_page s pid) /\
      forall q, disk_page (disk s) q = pool_page s q -> disk_page (disk s') q = pool_page s q).
Proof.
  induction order as [|[pid f] order IH]; intros s Hok Hord; cbn [flush_loop].
  { eexists _, s. split_and!; try done. intros _. split; [|done]. intros ? ? []%elem_of_nil. }
  assert (pageTable s !! pid = Some f) as Ht by (apply Hord; by left).
  assert (forall s1, pageTable s1 = pageTable s -> forall q g, (q, g) ∈ order -> pageTable s1 !! q = Some g) as Hord'.
  { intros s1 -> q g Hq. apply Hord. by right. }
  destruct (ok_table _ Hok _ _ Ht) as (fr & Hf & Hh). pose proof Hh as (_ & Hlen & _ & Hpg & Hclean).
  assert (pool_page s pid = Some (data fr)) as Hpp by (unfold pool_page; by rewrite Ht, Hf).
  rewrite Hf. cbn [mbind option_bind]. destruct (dirty fr).
  - destruct Hpg as [old Hold]. destruct (disk_page_len _ _ _ Hold) as [_ Hb]. rewrite offset_exact by done.
    destruct (write_law (disk s) pid (data fr) (ok_disk _ Hok) ltac:(by eexists) Hlen) as (w & d & -> & Hdok & He & Hw & Hhe).
    destruct w as [[]|e].
    2:{ destruct (pool_ok_disk s d Hok Hdok (He e eq_refl)). eexists _, _. split_and!; [done|done|done|done| |done].
        intros [_ ?]%Hhe. done. }
    destruct (pool_ok_sync s d pid f fr Hok Ht Hf Hdok (Hw eq_refl)) as [Hok1 Hpp1].
    destruct (IH (set_disk s d) Hok1 (Hord' _ eq_refl)) as (r & s' & -> & Hok' & Hpp' & Ht' & Hhe' & Hr).
    eexists _, s'. split_and!; [done|done|intros q; by rewrite Hpp', Hpp1|done|intros [? _]%Hhe; auto|].
    intros Hrok. destruct (Hr Hrok) as [Hin Hkeep].
    assert (forall q, disk_page d q = pool_page s q -> disk_page (disk s') q = pool_page s q) as Hk.
    { intros q Hq. rewrite <- Hpp1 in Hq |- *. by apply Hkeep. }
    split.
    + intros q g [[= -> ->]|Hq]%elem_of_cons.
      * apply Hk. rewrite (Hw eq_refl). by rewrite decide_True.
      * rewrite <- (Hpp1 q). by eapply Hin.
    + intros q Hq. apply Hk. rewrite (Hw eq_refl). case_decide; [by subst|done].
  - destruct (IH s Hok (Hord' s eq_refl)) as (r & s' & -> & Hok' & Hpp' & Ht' & Hhe' & Hr).
    eexists _, s'. split_and!; try done. intros Hrok. destruct (Hr Hrok) as [Hin Hkeep]. split; [|done].
    intros q g [[= -> ->]|Hq]%elem_of_cons; [|by eapply Hin]. apply Hkeep. rewrite Hpp. by apply Hclean.
Qed.

(** C26: flushing the pool writes exactly what clients see: afterwards the disk
    alone holds every page, in whatever order the page table is iterated; it
    never panics, and fails only on a disk error. *)
Theorem pool_flush_durable s order :
  pool_ok s -> order_of (pageTable s) order ->
  exists r s', FlushAllPages s order = Some (r, s') /\ pool_ok s' /\
    (forall q, pool_page s' q = pool_page s q) /\ (healthy (disk s) -> r = Ok tt) /\
    (r = Ok tt -> forall q, disk_page (disk s') q = pool_page s q).
Proof.
  intros Hok Hord. assert (forall pid f, (pid, f) ∈ order <-> pageTable s !! pid = Some f) as Hin.
  { intros pid f. rewrite Hord. apply elem_of_map_to_list. }
  destruct (flush_loop_spec order s Hok) as (r & s' & Heq & Hok' & Hpp & Ht & Hhe & Hr); [by intros ? ? ?%Hin|].
  exists r, s'. split_and!; [done|done|done|intros ?%Hhe; tauto|]. intros Hrok q. destruct (Hr Hrok) as [H1 H2].
  destruct (pageTable s !! q) as [f|] eqn:Hq; [eapply H1; by apply Hin|].
  apply H2. unfold pool_page. by rewrite Hq.
Qed.

(** ** Deleting *)

(** deleting a page pinned once frees its frame and its page id and leaves
    every other page as it was; a page pinned by others, or not in memory, is
    refused and nothing changes. *)
Theorem pool_delete s pid :
  pool_ok s -> 0 <= pid < 2 ^ 51 ->
  exists b s', deletePage s pid = Some (Done (Ok b), s') /\
    (b = true <-> pins s pid = 1) /\ (b = false -> s' = s) /\
    (b = true -> pool_ok s' /\ disk s' = disk_deallocatePage (disk s) pid /\
       pageTable s' = delete pid (pageTable s) /\
       (forall f, pageTable s !! pid = Some f -> f ∈ freeFrames s') /\
       forall q, q <> pid -> pool_page s' q = pool_page s q).
Proof.
  intros Hok Hpid. pose proof Hok as [Hd Hro Hlk Hda Htab Hfr Hff Hca]. unfold deletePage, pins.
  destruct (pageTable s !! pid) as [f|] eqn:Ht; [|eexists _, s; by split_and!].
  destruct (Htab _ _ Ht) as (fr & Hf & Hh). rewrite Hf. cbn [mbind option_bind].
  destruct (Z.eqb_spec (pinCount fr) 1) as [H1|H1]; cbn [negb]; [|eexists _, s; by split_and!].
  rewrite Hlk. eexists _, _. split_and!; [done|done|done|]. intros _.
  destruct (deallocate_law (disk s) pid Hd Hpid) as (Hdok & Hdp & _).
  assert (forall q g, pid <> q -> pageTable s !! q = Some g -> f <> g) as Hother.
  { intros q g Hq Hg ->. apply Hq. by eapply table_inj. }
  split_and!; [|done|done| |].
  - constructor; cbn; try done.
    + intros g gr. destruct (decide (g = f)) as [->|Hne]; [rewrite lookup_insert_eq; intros [= <-]; exact (Hda f fr Hf)|].
      rewrite lookup_insert_ne by done. apply Hda.
    + intros q g [Hq Hg]%lookup_delete_Some. rewrite lookup_insert_ne by (by apply (Hother q g)).
      destruct (Htab _ _ Hg) as (gr & Hgr & Hhg). exists gr. split; [done|]. unfold frame_holds in *. by rewrite Hdp.
    + apply list.NoDup_app. split_and!; [done| |apply NoDup_singleton]. intros g Hg [->|[]%elem_of_nil]%elem_of_cons.
      by destruct (Hff f Hg) as [_ Hn]; apply (Hn pid).
    + intros g [Hg|[->|[]%elem_of_nil]%elem_of_cons]%elem_of_app.
      * destruct (Hff g Hg) as [Hs Hn]. split; [|intros q [_ ?]%lookup_delete_Some; by eapply Hn].
        destruct (decide (g = f)) as [->|]; [by rewrite lookup_insert_eq|by rewrite lookup_insert_ne].
      * rewrite lookup_insert_eq. split; [done|]. intros q [Hq Hg]%lookup_delete_Some. by eapply (Hother q f).
    + intros g. rewrite Hca. split; intros (q & gr & Hq & Hgr & Hz).
      * assert (pid <> q) by (intros ->; simplify_eq; lia). exists q, gr. rewrite lookup_delete_Some.
        rewrite lookup_insert_ne by (by apply (Hother q g)). done.
      * apply lookup_delete_Some in Hq as [Hqp Hq]. rewrite lookup_insert_ne in Hgr by (by apply (Hother q g)).
        by exists q, gr.
  - intros g [= <-]. apply elem_of_app. right. by left.
  - intros q Hq%not_eq_sym. unfold pool_page. cbn. rewrite lookup_delete_ne by done. rewrite Hdp.
    destruct (pageTable s !! q) as [g|] eqn:Hg; [|done]. by rewrite lookup_insert_ne by (by apply (Hother q g)).
Qed.

(** ** A failed write-back *)

(** C40: when writing back a dirty victim fails, [fetchPage] reports the error
    but has already dropped the victim from the page table and keeps the
    frame-allocation mutex locked: the newest version of that page is lost, and
    every later miss waits for ever. *)
Theorem pool_failed_writeback s pid f fr r e d1 d2 bytes :
  pool_ok s -> 0 <= pid < 2 ^ 51 -> pageTable s !! pid = None -> freeFrames s = [] ->
  disk_read (disk s) (pid * 4096) 4096 = (Ok bytes, d1) ->
  replacer_victim (replacer s) = Some (f, r) -> frames s !! f = Some fr -> dirty fr = true ->
  0 <= pageId fr < 2 ^ 51 ->
  disk_write d1 (pageId fr * 4096) (data fr) = (Error e, d2) ->
  exists s', fetchPage s pid = Some (Done (Error e), s') /\
    pageTable s' !! pageId fr = None /\
    forall pid' b d3, pageTable s' !! pid' = None -> 0 <= pid' < 2 ^ 51 ->
      disk_read (disk s') (pid' * 4096) 4096 = (Ok b, d3) ->
      exists s'', fetchPage s' pid' = Some (Blocked, s'').
Proof.
  intros Hok Hpid Ht Hfree Hrd Hv Hf Hdi Hvp Hw.
  assert (fetchPage s pid = Some (Done (Error e), mkPool r d2 (delete (pageId fr) (pageTable s)) (frames s) [] true)) as Heq.
  { unfold fetchPage, fetchPageLocked. rewrite !Ht, offset_exact by done. change PAGE_SIZE with 4096. rewrite Hrd.
    cbn [allocLocked set_disk]. rewrite (ok_lock _ Hok). unfold allocateFrame.
    cbn [freeFrames set_disk replacer frames disk pageTable allocLocked].
    rewrite Hfree, Hv. cbn [mbind option_bind]. rewrite Hf. cbn [mbind option_bind].
    by rewrite Hdi, offset_exact, Hw by done. }
  eexists. split_and!; [exact Heq|cbn; apply lookup_delete_eq|].
  intros pid' b d3 Ht' Hpid' Hrd'. unfold fetchPage, fetchPageLocked. cbn [pageTable disk] in *.
  rewrite !Ht', offset_exact by done. change PAGE_SIZE with 4096. rewrite Hrd'. by eexists.
Qed.
End spec.

(** ** A new pool *)

Section new.
Context {R D : Type} `{RL : ReplacerLaws R} `{DL : DiskLaws D}.

(** A new pool over a well-formed disk is well formed, and shows the disk. *)
Lemma new_pool_ok n (d : D) :
  disk_ok d -> pool_ok (NewSimpleBufferPoolManager n (newReplacer (R := R)) d) /\
    forall q, pool_page (NewSimpleBufferPoolManager n (newReplacer (R := R)) d) q = disk_page d q.
Proof.
  intros Hd. destruct (new_ok (R := R)) as [Hr Hc]. split; [|intros q; unfold pool_page; cbn; by rewrite lookup_empty].
  set (ids := Z.of_nat <$> seq 0 n).
  assert (forall f fr, (list_to_map ((fun i => (i, mkFrame 0 (replicate 4096 x00) 0 false 0)) <$> ids) : gmap Z Frame) !! f = Some fr
    -> fr = mkFrame 0 (replicate 4096 x00) 0 false 0) as Hfr.
  { intros f fr Hf%elem_of_list_to_map_2. apply list_elem_of_fmap in Hf as (i & [= _ ->] & _). done. }
  constructor; cbn; try done.
  - intros f fr ->%Hfr. done.
  - apply NoDup_fmap_2; [apply _|apply NoDup_seq].
  - intros f Hf. split; [|intros; by rewrite lookup_empty].
    apply elem_of_dom. rewrite dom_list_to_map_L, elem_of_list_to_set, <- list_fmap_compose. cbn. by rewrite list_fmap_id.
  - intros f. rewrite Hc. split; [intros []%elem_of_nil|]. intros (pid & fr & Hp & _). by rewrite lookup_empty in Hp.
Qed.
End new.
