(* ===== verification/Guards.v ===== *)
(** * Page guards (src/bufferpoolmanager/write_guard.go, read_guard.go)

    A guard pins a page and holds its latch, exclusively for writing and shared
    for reading.  [g_page] and [g_pool] are the guard's pointers to the frame and
    to the pool, nil once the guard is done; using a nil pointer is a panic. *)

From S2P Require Export BufferPoolSpec.

Record Guard := mkGuard { active : bool; g_page : option Z; g_pool : bool }.

Section guards.
Context {R D : Type} `{!Replacer R} `{!DiskManager D}.
Implicit Types (s : Pool R D) (g : Guard).

(** [page.mutex.Lock()]: waits unless nobody holds the latch. *)
Definition NewWriteGuard s (pid : Z) : option (outcome Guard * Pool R D) :=
  '(o, s) ← fetchPage s pid;
  match o with
  | Blocked => Some (Blocked, s)
  | Done (Error e) => Some (Done (Error e), s)
  | Done (Ok f) =>
      frame ← frames s !! f;
      if latch frame =? 0
      then Some (Done (Ok (mkGuard true (Some f) true)), set_frame s f (with_latch frame (-1)))
      else Some (Blocked, s)
  end.

(** [page.mutex.RLock()]: waits for a writer. *)
Definition NewReadGuard s (pid : Z) : option (outcome Guard * Pool R D) :=
  '(o, s) ← fetchPage s pid;
  match o with
  | Blocked => Some (Blocked, s)
  | Done (Error e) => Some (Done (Error e), s)
  | Done (Ok f) =>
      frame ← frames s !! f;
      if 0 <=? latch frame
      then Some (Done (Ok (mkGuard true (Some f) true)), set_frame s f (with_latch frame (latch frame + 1)))
      else Some (Blocked, s)
  end.

(** The frame behind an active guard. *)
Definition guardFrame s g : option (Z * Frame) :=
  f ← g_page g;
  frame ← frames s !! f;
  Some (f, frame).

Definition GetPageId s g : option Z :=
  if negb (active g) then Some 0 else '(_, frame) ← guardFrame s g; Some (pageId frame).

(** [Some None] is nil. *)
Definition GetPageData s g : option (option (list byte)) :=
  if negb (active g) then Some None else '(_, frame) ← guardFrame s g; Some (Some (data frame)).

(** A client's writes into the slice [GetPageData] returns, which aliases the
    frame: the frame's bytes become [bytes]. *)
Definition writePageData s g (bytes : list byte) : option (Pool R D) :=
  '(f, frame) ← guardFrame s g;
  Some (set_frame s f (mkFrame (pageId frame) bytes (pinCount frame) (dirty frame) (latch frame))).

Definition SetDirtyFlag s g : option (bool * Pool R D) :=
  if negb (active g) then Some (false, s)
  else
    '(f, frame) ← guardFrame s g;
    Some (true, set_frame s f (mkFrame (pageId frame) (data frame) (pinCount frame) true (latch frame))).

(** [page.mutex.Unlock()] of a mutex that is not locked is fatal. *)
Definition unlock s (f : Z) : option (Pool R D) :=
  frame ← frames s !! f;
  if latch frame =? -1 then Some (set_frame s f (with_latch frame 0)) else None.

Definition runlock s (f : Z) : option (Pool R D) :=
  frame ← frames s !! f;
  if 0 <? latch frame then Some (set_frame s f (with_latch frame (latch frame - 1))) else None.

Definition WriteGuardDone s g : option (bool * Guard * Pool R D) :=
  if negb (active g) then Some (false, g, s)
  else
    '(f, frame) ← guardFrame s g;
    assert! g_pool g;
    '(_, s) ← unpinPage s (pageId frame);
    s ← unlock s f;
    Some (true, mkGuard false None false, s).

(** Unlike the write guard's, this [Done] leaves [active] set. *)
Definition ReadGuardDone s g : option (bool * Guard * Pool R D) :=
  if negb (active g) then Some (false, g, s)
  else
    '(f, frame) ← guardFrame s g;
    assert! g_pool g;
    '(_, s) ← unpinPage s (pageId frame);
    s ← runlock s f;
    Some (true, mkGuard (active g) None false, s).

Definition DeletePage s g : option (outcome bool * Guard * Pool R D) :=
  if negb (active g) then Some (Done (Ok false), g, s)
  else
    '(f, frame) ← guardFrame s g;
    assert! g_pool g;
    '(o, s) ← deletePage s (pageId frame);
    match o with
    | Done (Ok true) =>
        s ← unlock s f;
        Some (Done (Ok false), mkGuard false None false, s)
    | Done _ => Some (Done (Ok false), g, s)
    | Blocked => Some (Blocked, g, s)
    end.

End guards.

Section sessions.
Context {R D : Type} `{RL : ReplacerLaws R} `{DL : DiskLaws D}.
Implicit Types (s : Pool R D) (g : Guard).

Lemma set_frame_twice s f x y : set_frame (set_frame s f x) f y = set_frame s f y.
Proof. unfold set_frame. cbn. by rewrite insert_insert_eq. Qed.

(** Latches do not matter to the pool. *)
Lemma pool_ok_latch s pid f fr n :
  pool_ok s -> pageTable s !! pid = Some f -> frames s !! f = Some fr ->
  pool_ok (set_frame s f (with_latch fr n)) /\
  forall q, pool_page (set_frame s f (with_latch fr n)) q = pool_page s q.
Proof.
  intros Hok Ht Hf. destruct (ok_table _ Hok _ _ Ht) as (fr' & Hf' & Hh). rewrite Hf in Hf'. injection Hf' as <-.
  change (set_frame s f (with_latch fr n)) with (set_replacer (set_frame s f (with_latch fr n)) (replacer s)).
  split; [|intros q; by eapply pool_page_frame].
  eapply (pool_ok_frame s); [done..|apply Hok|]. intros h. cbn. rewrite (ok_cand _ Hok h). split.
  - intros (q & gr & Hq & Hgr & Hz). destruct (decide (h = f)) as [->|Hne]; [right; split; [done|congruence]|].
    left. split; [done|]. by exists q, gr.
  - intros [[_ ?]|[-> ?]]; [done|]. by exists pid, fr.
Qed.

(** What an open write guard on page [pid] holds. *)
Definition guards s g (pid : Z) : Prop :=
  exists f fr, active g = true /\ g_pool g = true /\ g_page g = Some f /\ pageTable s !! pid = Some f /\
    frames s !! f = Some fr /\ latch fr = -1 /\ 0 < pinCount fr.

Lemma NewWriteGuard_spec s pid g s1 :
  pool_ok s -> 0 <= pid < 2 ^ 51 -> NewWriteGuard s pid = Some (Done (Ok g), s1) ->
  pool_ok s1 /\ guards s1 g pid /\ (forall q, pool_page s1 q = pool_page s q) /\ pins s1 pid = pins s pid + 1.
Proof.
  intros Hok Hpid. unfold NewWriteGuard. destruct (fetchPage s pid) as [[[[f|]|] s0]|] eqn:Hfe; try done.
  cbn [mbind option_bind].
  assert (fetched s s0 pid f) as (Hok0 & Hpp & _ & fr & Ht & Hf & _ & Hpin).
  { unfold fetchPage in Hfe. destruct (pageTable s !! pid) as [h|] eqn:Ht.
    - destruct (fetch_hit s pid h Hok Ht) as (s' & Heq & Hfetched). rewrite Heq in Hfe. by injection Hfe as <- <-.
    - pose proof (fetchPageLocked_spec s pid Hok Hpid) as Hl. by rewrite Hfe in Hl. }
  rewrite Hf. cbn [mbind option_bind]. destruct (latch fr =? 0); [|done]. intros [= <- <-].
  destruct (pool_ok_latch s0 pid f fr (-1) Hok0 Ht Hf) as [Hok1 Hpp1].
  split_and!; [done| |intros q; by rewrite Hpp1|].
  - exists f, (with_latch fr (-1)). cbn. rewrite lookup_insert_eq. split_and!; try done.
    assert (0 <= pins s pid); [|cbn in Hpin |- *; lia]. unfold pins. destruct (pageTable s !! pid) as [h|] eqn:Hh; [|done].
    destruct (ok_table _ Hok _ _ Hh) as (hr & -> & _ & _ & ? & _). done.
  - unfold pins at 1. cbn. by rewrite Ht, lookup_insert_eq.
Qed.

(** C25: a write-guard session updates one page: opening the guard, storing new
    bytes through the slice it hands out, setting the dirty flag and closing it
    changes the guarded page to these bytes and no other page, and leaves the
    page with the pins it had. *)
Theorem write_session s pid g s1 bytes :
  pool_ok s -> 0 <= pid < 2 ^ 51 -> NewWriteGuard s pid = Some (Done (Ok g), s1) -> len bytes = 4096 ->
  exists s2 s3 s4, writePageData s1 g bytes = Some s2 /\ SetDirtyFlag s2 g = Some (true, s3) /\
    WriteGuardDone s3 g = Some (true, mkGuard false None false, s4) /\ pool_ok s4 /\
    (forall q, pool_page s4 q = if decide (q = pid) then Some bytes else pool_page s q) /\
    pins s4 pid = pins s pid.
Proof.
  intros Hok Hpid Hg Hlen. destruct (NewWriteGuard_spec s pid g s1 Hok Hpid Hg) as (Hok1 & Hgu & Hpp1 & Hpin1).
  destruct Hgu as (f & fr & Hact & Hpool & Hpage & Ht & Hf & Hla & Hpos).
  set (s2 := set_frame s1 f (mkFrame (pageId fr) bytes (pinCount fr) (dirty fr) (latch fr))).
  assert (writePageData s1 g bytes = Some s2) as Hw.
  { unfold writePageData, guardFrame. rewrite Hpage. cbn [mbind option_bind]. by rewrite Hf. }
  assert (SetDirtyFlag s2 g = Some (true, write_frame s1 f fr bytes)) as Hs.
  { unfold SetDirtyFlag, guardFrame. rewrite Hact, Hpage. cbn [negb mbind option_bind].
    cbn [s2 set_frame frames]. rewrite lookup_insert_eq. cbn [mbind option_bind]. unfold s2. by rewrite set_frame_twice. }
  destruct (write_frame_spec s1 pid f fr bytes Hok1 Ht Hf Hlen) as [Hok3 Hpp3].
  set (fr3 := mkFrame (pageId fr) bytes (pinCount fr) true (latch fr)).
  assert (frames (write_frame s1 f fr bytes) !! f = Some fr3) as Hf3 by (cbn; by rewrite lookup_insert_eq).
  destruct (ok_table _ Hok1 _ _ Ht) as (fr' & Hf' & Hpid' & _). rewrite Hf in Hf'. injection Hf' as <-.
  destruct (unpin_spec (write_frame s1 f fr bytes) pid f fr3 Hok3 Ht Hf3 Hpos)
    as (s4 & Hun & Hok4 & Hpp4 & Hpin4 & _ & Ht4 & Hf4).
  assert (pageTable s4 !! pid = Some f) as Ht4' by (by rewrite Ht4).
  destruct (pool_ok_latch s4 pid f _ 0 Hok4 Ht4' Hf4) as [Hok5 Hpp5].
  eexists s2, _, _. split_and!; [exact Hw|exact Hs| |exact Hok5| |].
  - unfold WriteGuardDone, guardFrame. rewrite Hact, Hpage, Hpool. cbn [negb mbind option_bind]. rewrite Hf3.
    cbn [mbind option_bind]. change (pageId fr3) with (pageId fr). rewrite Hpid', Hun. cbn [mbind option_bind].
    unfold unlock. rewrite Hf4. cbn [mbind option_bind with_pin latch fr3]. rewrite Hla. done.
  - intros q. rewrite Hpp5, Hpp4, Hpp3. case_decide; [done|]. apply Hpp1.
  - unfold pins in *. cbn. rewrite Ht4', lookup_insert_eq. rewrite Ht4', Hf4 in Hpin4. cbn in Hpin4 |- *.
    rewrite Ht, Hf in Hpin1. cbn in Hpin1. lia.
Qed.

(** [ReadGuard.Done] leaves the guard active although its pointers are gone:
    calling it again, which the active flag is there to prevent, panics. *)
Theorem read_guard_done_twice s g g1 s1 :
  ReadGuardDone s g = Some (true, g1, s1) -> active g1 = true /\ ReadGuardDone s1 g1 = None.
Proof.
  unfold ReadGuardDone. destruct (active g) eqn:Ha; cbn [negb]; [|done].
  destruct (guardFrame s g) as [[f fr]|]; [|done]. cbn [mbind option_bind]. destruct (g_pool g); [|done].
  destruct (unpinPage s (pageId fr)) as [[b s2]|]; [|done]. cbn [mbind option_bind].
  destruct (runlock s2 f) as [s3|]; [|done]. cbn [mbind option_bind]. intros [= <- <-]. done.
Qed.

(** [WriteGuard.DeletePage] returns false on every path, also after it has
    deleted the page and closed the guard. *)
Theorem delete_page_reports_false s g b g1 s1 :
  DeletePage s g = Some (Done (Ok b), g1, s1) -> b = false.
Proof.
  unfold DeletePage. destruct (active g); cbn [negb]; [|by intros [= <- _ _]].
  destruct (guardFrame s g) as [[f fr]|]; [|done]. cbn [mbind option_bind]. destruct (g_pool g); [|done].
  destruct (deletePage s (pageId fr)) as [[[[[]|]|] s2]|]; cbn [mbind option_bind]; try done; try by intros [= <- _ _].
  destruct (unlock s2 f); cbn [mbind option_bind]; [|done]. by intros [= <- _ _].
Qed.
End sessions.
