(* ===== verification/PageStore.v ===== *)
(** * The buffer pool as the layers above see it

    [BufferPoolManager] is the interface of that name in
    src/bufferpoolmanager/simple_buffer_pool_manager.go, with the methods of the
    guards it hands out, which work on the pool through a pointer, and the
    metadata record that the disk manager below it shares with its clients.

    [PageStoreLaws] is what the B+ tree relies on: the pool is an array of
    pages; a session has a set of open guards, each on its own page, and opening
    one more succeeds as long as a frame is left. *)

From S2P Require Export Guards DiskAllocator.

Class BufferPoolManager (B : Type) := {
  bpm_NewPage : B -> result (Z * AllocationSource) * B;
  bpm_EnsurePageExists : B -> Z -> result unit * B;
  bpm_CleanupPage : B -> Z -> B;
  bpm_NewWriteGuard : B -> Z -> option (outcome Guard * B);
  bpm_NewReadGuard : B -> Z -> option (outcome Guard * B);
  (** the [range] over the page table has some order *)
  bpm_FlushAllPages : B -> list (Z * Z) -> option (result unit * B);
  (** the guards' methods *)
  guard_GetPageId : B -> Guard -> option Z;
  guard_GetPageData : B -> Guard -> option (option (list byte));
  guard_writePageData : B -> Guard -> list byte -> option B;
  guard_SetDirtyFlag : B -> Guard -> option (bool * B);
  guard_WriteDone : B -> Guard -> option (bool * Guard * B);
  guard_ReadDone : B -> Guard -> option (bool * Guard * B);
  (** the shared metadata *)
  bpm_metadata : B -> MetaData;
  bpm_setMetadata : B -> MetaData -> B
}.

(** An open guard: exclusive or shared, and its page's dirty flag. *)
Record hold := Hold { h_guard : Guard; h_excl : bool; h_dirty : bool }.

(** A page of zeros. *)
Definition blank_page : list byte := replicate 4096 x00.

(** How a pool looks to its clients. *)
Class PageStoreView (B : Type) := {
  (** no open guards but these, and no disk error to come *)
  session : B -> gmap Z hold -> Prop;
  store_page : B -> Z -> option (list byte);
  (** the number of frames *)
  capacity : B -> nat;
  (** there is room for that many allocations *)
  room : B -> nat -> Prop;
  (** the orders in which the pages in memory can be enumerated *)
  flush_order : B -> list (Z * Z) -> Prop
}.

(** The same frames, metadata and room. *)
Definition same_store {B} `{!BufferPoolManager B} `{!PageStoreView B} (b b' : B) : Prop :=
  capacity b' = capacity b /\ bpm_metadata b' = bpm_metadata b /\ forall n, room b n -> room b' n.

Class PageStoreLaws (B : Type) `{!BufferPoolManager B} `{!PageStoreView B} := {
  store_page_len b H pid data : session b H -> store_page b pid = Some data -> len data = 4096;
  store_page_range b H pid : session b H -> is_Some (store_page b pid) -> 0 <= pid < 2 ^ 51;
  held_page b H pid h : session b H -> H !! pid = Some h ->
    active (h_guard h) = true /\ guard_GetPageId b (h_guard h) = Some pid /\
    exists data, store_page b pid = Some data /\ guard_GetPageData b (h_guard h) = Some (Some data);

  open_write_law b H pid : session b H -> H !! pid = None -> is_Some (store_page b pid) -> (size H < capacity b)%nat ->
    exists g dt b', bpm_NewWriteGuard b pid = Some (Done (Ok g), b') /\ session b' (<[pid := Hold g true dt]> H) /\
      (forall q, store_page b' q = store_page b q) /\ same_store b b';
  open_read_law b H pid : session b H -> H !! pid = None -> is_Some (store_page b pid) -> (size H < capacity b)%nat ->
    exists g dt b', bpm_NewReadGuard b pid = Some (Done (Ok g), b') /\ session b' (<[pid := Hold g false dt]> H) /\
      (forall q, store_page b' q = store_page b q) /\ same_store b b';
  write_done_law b H pid h : session b H -> H !! pid = Some h -> h_excl h = true ->
    exists b' g', guard_WriteDone b (h_guard h) = Some (true, g', b') /\ session b' (delete pid H) /\
      (forall q, store_page b' q = store_page b q) /\ same_store b b';
  read_done_law b H pid h : session b H -> H !! pid = Some h -> h_excl h = false ->
    exists b' g', guard_ReadDone b (h_guard h) = Some (true, g', b') /\ session b' (delete pid H) /\
      (forall q, store_page b' q = store_page b q) /\ same_store b b';

  dirty_law b H pid h : session b H -> H !! pid = Some h ->
    exists b', guard_SetDirtyFlag b (h_guard h) = Some (true, b') /\
      session b' (<[pid := Hold (h_guard h) (h_excl h) true]> H) /\
      (forall q, store_page b' q = store_page b q) /\ same_store b b';
  (** writing to a dirty page *)
  guard_write_law b H pid h bytes : session b H -> H !! pid = Some h -> h_excl h = true -> h_dirty h = true -> len bytes = 4096 ->
    exists b', guard_writePageData b (h_guard h) bytes = Some b' /\ session b' H /\
      (forall q, store_page b' q = if decide (q = pid) then Some bytes else store_page b q) /\
      same_store b b';
  (** writing first and setting the flag afterwards *)
  write_then_dirty_law b H pid h bytes : session b H -> H !! pid = Some h -> h_excl h = true -> len bytes = 4096 ->
    exists b1 b', guard_writePageData b (h_guard h) bytes = Some b1 /\ guard_GetPageId b1 (h_guard h) = Some pid /\
      guard_SetDirtyFlag b1 (h_guard h) = Some (true, b') /\
      session b' (<[pid := Hold (h_guard h) true true]> H) /\
      (forall q, store_page b' q = if decide (q = pid) then Some bytes else store_page b q) /\
      same_store b b';
  write_same_law b H pid h data : session b H -> H !! pid = Some h -> store_page b pid = Some data ->
    guard_writePageData b (h_guard h) data = Some b;

  room_less b n : room b (S n) -> room b n;
  new_page_law b H : session b H -> room b 1 ->
    exists pid src b', bpm_NewPage b = (Ok (pid, src), b') /\ session b' H /\ (forall n, room b (S n) -> room b' n) /\
      capacity b' = capacity b /\
      0 < pid < 2 ^ 51 /\ ~ md_in_use (bpm_metadata b) pid /\ is_Some (store_page b' pid) /\
      (forall q, md_in_use (bpm_metadata b') q <-> md_in_use (bpm_metadata b) q \/ q = pid) /\
      (forall q data, store_page b q = Some data -> store_page b' q = Some data) /\
      (forall q data, store_page b' q = Some data -> store_page b q = Some data \/ data = blank_page);
  metadata_law b H md : session b H -> same_alloc (bpm_metadata b) md ->
    let b' := bpm_setMetadata b md in
    session b' H /\ (forall q, store_page b' q = store_page b q) /\ capacity b' = capacity b /\ bpm_metadata b' = md /\
    forall n, room b n -> room b' n;
  flush_law b H order : session b H -> flush_order b order ->
    exists b', bpm_FlushAllPages b order = Some (Ok tt, b') /\ session b' H /\
      (forall q, store_page b' q = store_page b q) /\ same_store b b'
}.

(** The pool of this repository. *)
#[export] Instance Pool_BufferPoolManager {R D} `{!Replacer R} `{!DiskManager D} `{!MetadataStore D} :
    BufferPoolManager (Pool R D) := {
  bpm_NewPage := NewPage;
  bpm_EnsurePageExists := PoolEnsurePageExists;
  bpm_CleanupPage := CleanupPage;
  bpm_NewWriteGuard := NewWriteGuard;
  bpm_NewReadGuard := NewReadGuard;
  bpm_FlushAllPages := FlushAllPages;
  guard_GetPageId := GetPageId;
  guard_GetPageData := GetPageData;
  guard_writePageData := writePageData;
  guard_SetDirtyFlag := SetDirtyFlag;
  guard_WriteDone := WriteGuardDone;
  guard_ReadDone := ReadGuardDone;
  bpm_metadata s := disk_metadata (disk s);
  bpm_setMetadata s md := set_disk s (disk_setMetadata (disk s) md)
}.
