(* ===== verification/PoolSession.v ===== *)
(** * The buffer pool keeps its promises to the tree

    A session is a pool whose pinned frames are exactly those of the open
    guards, each pinned and latched once.  This file follows a fetch through
    the frames, the page table and the free list, and proves the laws of
    [PageStore] for the pool over any replacer and disk that keep theirs. *)

From S2P Require Export PageStore.

Section session.
Context {R D : Type} `{RL : ReplacerLaws R} `{AL : AllocLaws D}.
Implicit Types (s : Pool R D) (H : gmap Z hold).

(** What reading and writing pages leaves alone on the disk. *)
Definition disk_keeps (d d' : D) : Prop :=
  alloc_inv d' /\ disk_metadata d' = disk_metadata d /\ healthy d' /\ forall n, disk_room d n -> disk_room d' n.

Lemma disk_keeps_refl d : alloc_inv d -> healthy d -> disk_keeps d d.
Proof. intros. by split_and!. Qed.

Lemma disk_keeps_trans d1 d2 d3 : disk_keeps d1 d2 -> disk_keeps d2 d3 -> disk_keeps d1 d3.
Proof. intros (? & ? & ? & ?) (? & ? & ? & ?). split_and!; try done; [congruence|auto]. Qed.

(** ** What a fetch does to the pool *)

Record fetch_effect s s' (pid f : Z) : Prop := {
  fe_other g : g <> f -> frames s' !! g = frames s !! g;
  fe_frame : exists fr fr', frames s !! f = Some fr /\ frames s' !! f = Some fr' /\ latch fr' = latch fr;
  fe_was : pageTable s !! pid = Some f \/ f ∈ freeFrames s \/
    exists v fr, pageTable s !! v = Some f /\ frames s !! f = Some fr /\ pinCount fr = 0;
  fe_table q g : pageTable s' !! q = Some g -> (q = pid /\ g = f) \/ (q <> pid /\ pageTable s !! q = Some g /\ g <> f);
  fe_keep q g : pageTable s !! q = Some g -> g <> f -> pageTable s' !! q = Some g;
  fe_free g : g ∈ freeFrames s' <-> g ∈ freeFrames s /\ g <> f;
  fe_healthy : healthy (disk s');
  fe_disk : alloc_inv (disk s) -> disk_keeps (disk s) (disk s')
}.

Lemma fetch_effect_hit s pid f :
  pool_ok s -> healthy (disk s) -> pageTable s !! pid = Some f ->
  exists s', pinFrame s f = Some (Done (Ok f), s') /\ fetch_effect s s' pid f.
Proof.
  intros Hok Hhe Ht.
  destruct (pinFrame_spec s pid f Hok Ht) as (s' & fr & Heq & _ & Hf & Hf' & Htab & Hd & Hfree & _ & Hother).
  exists s'. split; [done|]. constructor.
  - done.
  - exists fr. by eexists.
  - by left.
  - rewrite Htab. intros q g Hg. destruct (decide (q = pid)) as [->|Hne]; [left; split; [done|congruence]|].
    right. split_and!; [done..|]. intros ->. apply Hne. by eapply table_inj.
  - by rewrite Htab.
  - rewrite Hfree. intros g. split; [|by intros []]. intros Hg. split; [done|]. intros ->.
    destruct (ok_free_frames _ Hok _ Hg) as [_ Hn]. by eapply Hn.
  - by rewrite Hd.
  - rewrite Hd. intros Hal. by apply disk_keeps_refl.
Qed.

(** The frame that [allocateFrame] picks. *)
Lemma allocateFrame_effect s f s' :
  pool_ok s -> healthy (disk s) -> allocateFrame s = Some (Done (Ok f), s') ->
  frames s' = frames s /\ (healthy (disk s') /\ (alloc_inv (disk s) -> disk_keeps (disk s) (disk s'))) /\
  (forall g, g ∈ freeFrames s' <-> g ∈ freeFrames s /\ g <> f) /\
  (f ∈ freeFrames s \/ exists v fr, pageTable s !! v = Some f /\ frames s !! f = Some fr /\ pinCount fr = 0) /\
  (forall q g, pageTable s' !! q = Some g <-> pageTable s !! q = Some g /\ g <> f).
Proof.
  intros Hok Hhe. pose proof Hok as [Hd Hro Hlk Hda Htab Hfr Hff Hca]. unfold allocateFrame.
  destruct (freeFrames s) as [|f0 rest] eqn:Hfree.
  - destruct (decide (candidates (replacer s) = [])) as [Hemp|Hne].
    { destruct (replacer_victim (replacer s)) as [[v r]|] eqn:Hv; [|done]. exfalso. apply (victim_empty _ v r Hro Hemp Hv). }
    destruct (victim_law _ Hro Hne) as (v & r & -> & Hrok & Hperm). cbn [mbind option_bind].
    assert (v ∈ candidates (replacer s)) as (q0 & fr & Hv & Hf & Hp)%Hca by (rewrite Hperm; by left).
    rewrite Hf. cbn [mbind option_bind]. destruct (Htab _ _ Hv) as (fr' & Hf' & Hh). rewrite Hf in Hf'. injection Hf' as <-.
    destruct Hh as (Hpid & Hlen & _ & Hpg & _). subst q0. cbn [disk].
    assert (forall q g, delete (pageId fr) (pageTable s) !! q = Some g <-> pageTable s !! q = Some g /\ g <> v) as Hdel.
    { intros q g. rewrite lookup_delete_Some. split.
      - intros [Hq Hg]. split; [done|]. intros ->. apply Hq. by eapply table_inj.
      - intros [Hg Hgv]. split; [|done]. intros <-. congruence. }
    assert (forall g, g ∈ @nil Z <-> g ∈ @nil Z /\ g <> v) as Hnil by (intros g; rewrite elem_of_nil; tauto).
    destruct (dirty fr).
    + pose proof Hpg as [old Hold]. destruct (disk_page_len _ _ _ Hold) as [_ Hb]. rewrite offset_exact by done.
      destruct (write_law (disk s) (pageId fr) (data fr) Hd Hpg Hlen) as (w & d & Heq & _ & _ & _ & Hhe').
      assert (alloc_inv (disk s) -> healthy d -> disk_keeps (disk s) d) as Hk.
      { intros Hal Hh2. destruct (write_keeps _ _ _ _ _ Hal Hpg Hlen Heq) as (Hal' & Hm & Hroom). by split_and!. }
      rewrite Heq. destruct w; [|done]. intros [= <- <-]. destruct (Hhe' Hhe) as [Hhe2 _].
      split_and!; try done; [intros; by apply Hk|]. right. by eexists _, _.
    + intros [= <- <-]. split_and!; try done. right. by eexists _, _.
  - intros [= <- <-]. apply list.NoDup_cons in Hfr as [Hni _]. split_and!; try done.
    + intros g. cbn. rewrite elem_of_cons. split; [|tauto]. intros Hg. split; [by right|by intros ->].
    + left. by left.
    + intros q g. cbn. split; [|tauto]. intros Hg. split; [done|]. intros ->.
      destruct (Hff f0 ltac:(by left)) as [_ Hn]. by eapply Hn.
Qed.

Lemma fetch_effect_of s pid f s' :
  pool_ok s -> healthy (disk s) -> 0 <= pid < 2 ^ 51 ->
  fetchPage s pid = Some (Done (Ok f), s') -> fetch_effect s s' pid f.
Proof.
  intros Hok Hhe Hpid. unfold fetchPage. destruct (pageTable s !! pid) as [f0|] eqn:Ht.
  { destruct (fetch_effect_hit s pid f0 Hok Hhe Ht) as (s0 & -> & He). by intros [= <- <-]. }
  unfold fetchPageLocked. rewrite Ht, offset_exact by done. change PAGE_SIZE with 4096.
  destruct (read_law (disk s) pid (ok_disk _ Hok) Hpid) as (r & d & Heq & Hdok & Hpg & _ & Hhe').
  rewrite Heq.
  destruct (pool_ok_disk s d Hok Hdok Hpg) as [Hok1 _]. destruct (Hhe' Hhe) as [Hhe1 _].
  destruct r as [bytes|]; [|done]. cbn [allocLocked set_disk]. rewrite (ok_lock _ Hok).
  pose proof (allocateFrame_spec _ Hok1) as Hspec.
  destruct (allocateFrame (set_disk s d)) as [[[[f1|e]|] s2]|] eqn:Ha; cbn [mbind option_bind]; try done.
  destruct Hspec as (_ & ([fr Hf] & _ & _) & _).
  destruct (allocateFrame_effect _ _ _ Hok1 Hhe1 Ha) as (Hfr & [Hhe2 Hdk] & Hfree & Hwas & Htab).
  rewrite Hf. cbn [mbind option_bind]. intros [= <- <-]. cbn [set_disk pageTable frames freeFrames disk] in *.
  constructor; cbn.
  - intros g Hg. by rewrite lookup_insert_ne, Hfr by done.
  - exists fr. eexists. rewrite <- Hfr, lookup_insert_eq. split_and!; done.
  - by right.
  - intros q g. rewrite lookup_insert_Some. intros [[<- <-]|[Hq [Hg Hgf]%Htab]]; [by left|]. right. by split_and!.
  - intros q g Hq Hg. rewrite lookup_insert_ne by congruence. by apply Htab.
  - done.
  - done.
  - intros Hal. destruct (read_keeps _ _ _ _ Hal Hpid Heq) as (Hal' & Hm & Hroom).
    eapply disk_keeps_trans; [|by apply Hdk]. by split_and!.
Qed.

(** ** Sessions *)

(** The state of a page's frame: held by a guard, or by nobody. *)
Definition held_frame (h : option hold) (f : Z) (fr : Frame) : Prop :=
  match h with
  | Some h => h_guard h = mkGuard true (Some f) true /\ pinCount fr = 1 /\
      latch fr = (if h_excl h then -1 else 1) /\ dirty fr = h_dirty h
  | None => pinCount fr = 0 /\ latch fr = 0
  end.

Record pool_session s H : Prop := {
  ps_ok : pool_ok s;
  ps_healthy : healthy (disk s);
  ps_alloc : alloc_inv (disk s);
  ps_cover f : is_Some (frames s !! f) -> f ∈ freeFrames s \/ exists pid, pageTable s !! pid = Some f;
  ps_frame pid f fr : pageTable s !! pid = Some f -> frames s !! f = Some fr -> held_frame (H !! pid) f fr;
  ps_free f fr : f ∈ freeFrames s -> frames s !! f = Some fr -> latch fr = 0;
  ps_held pid : is_Some (H !! pid) -> is_Some (pageTable s !! pid)
}.

Lemma held_inv s H pid h :
  pool_session s H -> H !! pid = Some h ->
  exists f fr, pageTable s !! pid = Some f /\ frames s !! f = Some fr /\ held_frame (Some h) f fr /\
    frame_holds (disk s) pid fr.
Proof.
  intros [Hok _ _ _ Hfr _ Hh] Hp. destruct (Hh pid ltac:(by eexists)) as [f Ht].
  destruct (ok_table _ Hok _ _ Ht) as (fr & Hf & Hho). exists f, fr. split_and!; try done.
  rewrite <- Hp. by apply Hfr.
Qed.

(** Replacing the frame of one page. *)
Lemma session_frame s H H' r pid f fr fr' :
  pool_session s H -> pageTable s !! pid = Some f -> frames s !! f = Some fr ->
  pool_ok (set_replacer (set_frame s f fr') r) -> (forall q, q <> pid -> H' !! q = H !! q) ->
  held_frame (H' !! pid) f fr' -> pool_session (set_replacer (set_frame s f fr') r) H'.
Proof.
  intros [Hok Hhe Hal Hcov Hfr Hfree Hh] Ht Hf Hok' HH Hheld. constructor; cbn; try done.
  - intros g. destruct (decide (g = f)) as [->|Hne]; [rewrite lookup_insert_eq; intros _; right; by exists pid|].
    rewrite lookup_insert_ne by done. apply Hcov.
  - intros q g gr Hq. destruct (decide (g = f)) as [->|Hne].
    + rewrite (table_inj s q pid f Hok Hq Ht), lookup_insert_eq. by intros [= <-].
    + rewrite lookup_insert_ne by done. intros Hg. assert (q <> pid) as Hqp by (intros ->; congruence).
      rewrite HH by done. by apply Hfr.
  - intros g gr Hg. destruct (ok_free_frames _ Hok _ Hg) as [_ Hn].
    rewrite lookup_insert_ne by (intros <-; by eapply Hn). by apply Hfree.
  - intros q Hq. destruct (decide (q = pid)) as [->|Hne]; [by rewrite Ht|]. apply Hh. by rewrite <- HH.
Qed.

Lemma pool_page_range s pid : pool_ok s -> is_Some (pool_page s pid) -> 0 <= pid < 2 ^ 51.
Proof.
  intros Hok. unfold pool_page. destruct (pageTable s !! pid) as [f|] eqn:Ht.
  - intros _. destruct (ok_table _ Hok _ _ Ht) as (fr & _ & _ & _ & _ & [bytes Hd] & _). by destruct (disk_page_len _ _ _ Hd).
  - intros [bytes Hd]. by destruct (disk_page_len _ _ _ Hd).
Qed.

Lemma page_in_range s H pid : pool_session s H -> is_Some (pool_page s pid) -> 0 <= pid < 2 ^ 51.
Proof. intros Hs. apply pool_page_range, Hs. Qed.

(** With fewer guards than frames, some frame is free or can be evicted. *)
Lemma session_has_room s H :
  pool_session s H -> (size H < size (frames s))%nat -> ~ (freeFrames s = [] /\ candidates (replacer s) = []).
Proof.
  intros [Hok _ _ Hcov Hfr _ _] Hsz [Hnil Hca].
  assert (elements (dom (frames s)) ⊆ omap (fun q => pageTable s !! q) (elements (dom H))) as Hsub.
  { intros f [fr Hf]%elem_of_elements%elem_of_dom. apply list_elem_of_omap.
    destruct (Hcov f ltac:(by eexists)) as [Hin|[pid Ht]]; [rewrite Hnil in Hin; by apply elem_of_nil in Hin|].
    exists pid. split; [|done]. apply elem_of_elements, elem_of_dom. specialize (Hfr _ _ _ Ht Hf).
    destruct (H !! pid) eqn:Hp; [done|]. destruct Hfr as [Hz _].
    assert (f ∈ candidates (replacer s)) as Hin by (apply (ok_cand _ Hok); by exists pid, fr).
    rewrite Hca in Hin. by apply elem_of_nil in Hin. }
  apply NoDup_submseteq, submseteq_length in Hsub; [|apply NoDup_elements].
  pose proof (length_omap_le (fun q => pageTable s !! q) (elements (dom H))) as Hle.
  assert (length (elements (dom H)) = size H) as HsH by (rewrite <- (size_dom H); done).
  assert (length (elements (dom (frames s))) = size (frames s)) as Hsf by (rewrite <- (size_dom (frames s)); done). lia.
Qed.

Lemma effect_size s s' pid f : fetch_effect s s' pid f -> size (frames s') = size (frames s).
Proof.
  intros [Hother (fr & fr' & Hf & Hf' & _) _ _ _ _ _ _]. rewrite <- !size_dom. f_equal. apply set_eq. intros g.
  rewrite !elem_of_dom. destruct (decide (g = f)) as [->|Hne]; [by rewrite Hf, Hf'|by rewrite Hother].
Qed.

(** Opening a guard: the fetch, then the latch. *)
Lemma session_open s H pid (excl : bool) :
  pool_session s H -> H !! pid = None -> is_Some (pool_page s pid) -> (size H < size (frames s))%nat ->
  exists f s1 fr, fetchPage s pid = Some (Done (Ok f), s1) /\ frames s1 !! f = Some fr /\ latch fr = 0 /\
    let s2 := set_frame s1 f (with_latch fr (if excl then -1 else 1)) in
    pool_session s2 (<[pid := Hold (mkGuard true (Some f) true) excl (dirty fr)]> H) /\
    (forall q, pool_page s2 q = pool_page s q) /\ size (frames s2) = size (frames s) /\ disk_keeps (disk s) (disk s2).
Proof.
  intros Hs HH Hpg Hsz. pose proof (page_in_range s H pid Hs Hpg) as Hpid.
  pose proof (session_has_room s H Hs Hsz) as Hroom. pose proof Hs as [Hok Hhe Hal Hcov Hfr Hfree Hheld].
  pose proof (fetch_spec s pid Hok Hpid) as Hf.
  destruct (fetchPage s pid) as [[[[f|e]|] s1]|] eqn:Heq; [| |done|by destruct Hroom, Hf].
  2:{ destruct Hf as [[?|Hn] _]; [done|]. rewrite Hn in Hpg. by destruct Hpg. }
  destruct Hf as (Hok1 & Hpp1 & _ & fr & Ht1 & Hf1 & _ & Hpin). exists f, s1, fr. split_and!; [done|done| |].
  all: pose proof (fetch_effect_of s pid f s1 Hok Hhe Hpid Heq) as He.
  all: pose proof He as [Hother (fr0 & fr1 & Hf0 & Hf1' & Hla) Hwas Htab Hkeep Hfr' _ Hdk]; specialize (Hdk Hal).
  all: rewrite Hf1 in Hf1'; injection Hf1' as <-.
  { rewrite Hla. destruct Hwas as [Ht|[Hin|(v & fr2 & Ht & Hf2 & Hz)]].
    - specialize (Hfr _ _ _ Ht Hf0). rewrite HH in Hfr. apply Hfr.
    - by eapply Hfree.
    - rewrite Hf0 in Hf2. injection Hf2 as <-. specialize (Hfr _ _ _ Ht Hf0).
      destruct (H !! v) as [h|]; [destruct Hfr as (_ & ? & _); lia|apply Hfr]. }
  destruct (pool_ok_latch s1 pid f fr (if excl then -1 else 1) Hok1 Ht1 Hf1) as [Hok2 Hpp2].
  split_and!; [|intros q; by rewrite Hpp2| |apply Hdk..].
  2:{ cbn. rewrite <- (effect_size s s1 pid f He). rewrite <- !size_dom, dom_insert_lookup_L by done. done. }
  assert (pinCount fr = 1) as Hp1.
  { rewrite Hpin. unfold pins. destruct (pageTable s !! pid) as [g|] eqn:Ht; [|done].
    destruct (frames s !! g) as [gr|] eqn:Hg; [|done]. specialize (Hfr _ _ _ Ht Hg). rewrite HH in Hfr.
    destruct Hfr as [-> _]. done. }
  destruct Hdk as (Hal1 & Hm1 & Hhe1 & _). constructor; try done.
  - intros g. cbn. destruct (decide (g = f)) as [->|Hne]; [intros _; right; by exists pid|].
    rewrite lookup_insert_ne, Hother by done. intros [Hin|[q Hq]]%Hcov; [left; by apply Hfr'|].
    right. exists q. by apply Hkeep.
  - intros q g gr Hq. cbn in Hq |- *. destruct (Htab q g Hq) as [[-> ->]|(Hqp & Hq' & Hgf)].
    + rewrite !lookup_insert_eq. intros [= <-]. by split_and!.
    + rewrite !lookup_insert_ne, Hother by done. by apply Hfr.
  - intros g gr [Hin Hne]%Hfr'. cbn. rewrite lookup_insert_ne, Hother by done. by apply Hfree.
  - intros q. cbn. destruct (decide (q = pid)) as [->|Hne]; [by rewrite Ht1|]. rewrite lookup_insert_ne by done.
    intros Hq. destruct (Hheld q Hq) as [g Hg]. exists g. apply Hkeep; [done|]. intros ->. apply Hne.
    destruct Hwas as [Ht|[Hin|(v & fr2 & Ht & Hf2 & Hz)]].
    + exact (table_inj s q pid f Hok Hg Ht).
    + destruct (ok_free_frames _ Hok _ Hin) as [_ Hn]. by destruct (Hn q).
    + rewrite <- (table_inj s q v f Hok Hg Ht) in Ht. specialize (Hfr _ _ _ Ht Hf2). destruct Hq as [h Hq].
      rewrite Hq in Hfr. destruct Hfr as (_ & ? & _). lia.
Qed.

(** The frame of an open guard, through the guard. *)
Lemma held_guardFrame s h f fr :
  held_frame (Some h) f fr -> frames s !! f = Some fr -> guardFrame s (h_guard h) = Some (f, fr).
Proof. intros (-> & _) Hf. unfold guardFrame. cbn. by rewrite Hf. Qed.

Lemma session_done s H pid h f fr :
  pool_session s H -> H !! pid = Some h -> pageTable s !! pid = Some f -> frames s !! f = Some fr ->
  held_frame (Some h) f fr ->
  exists s1, unpinPage s pid = Some (true, s1) /\ frames s1 !! f = Some (with_pin fr 0) /\
    let s2 := set_frame s1 f (with_latch (with_pin fr 0) 0) in
    pool_session s2 (delete pid H) /\ (forall q, pool_page s2 q = pool_page s q) /\
    size (frames s2) = size (frames s) /\ disk s2 = disk s.
Proof.
  intros Hs Hh Ht Hf (Hg & Hp & _). pose proof Hs as [Hok _ _ _ _ _ _].
  destruct (unpin_spec s pid f fr Hok Ht Hf ltac:(lia)) as (s1 & Hun & Hok1 & Hpp1 & _ & _ & Ht1 & Hf1).
  rewrite Hp in Hf1. exists s1. split_and!; [done|exact Hf1|].
  assert (s1 = set_replacer (set_frame s f (with_pin fr 0)) (replacer s1)) as Hs1.
  { unfold unpinPage in Hun. rewrite Ht, Hf in Hun. cbn [mbind option_bind with_pin pinCount] in Hun. rewrite Hp in Hun.
    by injection Hun as <-. }
  rewrite <- Ht1 in Ht. destruct (pool_ok_latch s1 pid f (with_pin fr 0) 0 Hok1 Ht Hf1) as [Hok2 Hpp2].
  assert (set_frame s1 f (with_latch (with_pin fr 0) 0) =
    set_replacer (set_frame s f (with_latch (with_pin fr 0) 0)) (replacer s1)) as Heq.
  { rewrite Hs1 at 1. unfold set_frame, set_replacer. cbn. by rewrite insert_insert_eq. }
  rewrite Ht1 in Ht. cbv zeta. split_and!.
  - rewrite Heq in Hok2 |- *. eapply (session_frame s H); [done..| |by rewrite lookup_delete_eq].
    intros q Hq. by rewrite lookup_delete_ne.
  - intros q. by rewrite Hpp2.
  - rewrite Heq. cbn. by rewrite <- !size_dom, dom_insert_lookup_L.
  - rewrite Heq. done.
Qed.

(** Writing through a guard, with the dirty flag set. *)
Lemma session_write s H pid h f fr bytes :
  pool_session s H -> H !! pid = Some h -> pageTable s !! pid = Some f -> frames s !! f = Some fr ->
  held_frame (Some h) f fr -> len bytes = 4096 ->
  let s2 := write_frame s f fr bytes in
  pool_session s2 (<[pid := Hold (h_guard h) (h_excl h) true]> H) /\
  (forall q, pool_page s2 q = if decide (q = pid) then Some bytes else pool_page s q) /\
  size (frames s2) = size (frames s) /\ disk s2 = disk s.
Proof.
  intros Hs Hh Ht Hf (Hg & Hp & Hl & _) Hlen s2.
  destruct (write_frame_spec s pid f fr bytes (ps_ok _ _ Hs) Ht Hf Hlen) as [Hok2 Hpp2]. split_and!; [|done| |done].
  - change s2 with (set_replacer s2 (replacer s)). eapply (session_frame s H); [done..| |].
    + intros q Hq. by rewrite lookup_insert_ne.
    + rewrite lookup_insert_eq. by split_and!.
  - cbn. by rewrite <- !size_dom, dom_insert_lookup_L.
Qed.
End session.

#[export] Instance Pool_view {R D} `{RL : ReplacerLaws R} `{AL : AllocLaws D} : PageStoreView (Pool R D) := {
  session := pool_session;
  store_page := pool_page;
  capacity s := size (frames s);
  room s := disk_room (disk s);
  flush_order s order := order_of (pageTable s) order
}.

Section laws.
Context {R D : Type} `{RL : ReplacerLaws R} `{AL : AllocLaws D}.
Implicit Types (s : Pool R D) (H : gmap Z hold).

Lemma keeps_same_store s s' : size (frames s') = size (frames s) -> disk_keeps (disk s) (disk s') -> same_store s s'.
Proof. intros Hsz (_ & Hm & _ & Hr). by split_and!. Qed.

Lemma same_disk_store s s' : size (frames s') = size (frames s) -> disk s' = disk s -> same_store s s'.
Proof. intros Hsz Hd. split_and!; cbn; rewrite ?Hd; done. Qed.

Lemma pool_page_len s H pid bytes : pool_session s H -> pool_page s pid = Some bytes -> len bytes = 4096.
Proof.
  intros [Hok _ _ _ _ _ _]. unfold pool_page. destruct (pageTable s !! pid) as [f|] eqn:Ht.
  - destruct (ok_table _ Hok _ _ Ht) as (fr & -> & _ & Hlen & _). by intros [= <-].
  - intros Hd. by destruct (disk_page_len _ _ _ Hd).
Qed.

Lemma held_page_spec s H pid h :
  pool_session s H -> H !! pid = Some h ->
  active (h_guard h) = true /\ GetPageId s (h_guard h) = Some pid /\
  exists bytes, pool_page s pid = Some bytes /\ GetPageData s (h_guard h) = Some (Some bytes).
Proof.
  intros Hs Hh. destruct (held_inv s H pid h Hs Hh) as (f & fr & Ht & Hf & Hheld & Hp & _).
  pose proof (held_guardFrame s h f fr Hheld Hf) as Hgf. destruct Hheld as (Hg & _).
  assert (active (h_guard h) = true) as Ha by (by rewrite Hg).
  unfold GetPageId, GetPageData. rewrite Ha, Hgf. cbn. split_and!; [done|by rewrite Hp|].
  exists (data fr). unfold pool_page. by rewrite Ht, Hf.
Qed.

Lemma open_write_spec s H pid :
  pool_session s H -> H !! pid = None -> is_Some (pool_page s pid) -> (size H < size (frames s))%nat ->
  exists g dt s', NewWriteGuard s pid = Some (Done (Ok g), s') /\ pool_session s' (<[pid := Hold g true dt]> H) /\
    (forall q, pool_page s' q = pool_page s q) /\ same_store s s'.
Proof.
  intros Hs HH Hpg Hsz. destruct (session_open s H pid true Hs HH Hpg Hsz) as (f & s1 & fr & Heq & Hf & Hl & Hs2 & Hpp & Hz & Hd).
  eexists _, _, _. split_and!; [|exact Hs2|exact Hpp|by apply keeps_same_store..].
  unfold NewWriteGuard. rewrite Heq. cbn [mbind option_bind]. rewrite Hf. cbn [mbind option_bind]. by rewrite Hl.
Qed.

Lemma open_read_spec s H pid :
  pool_session s H -> H !! pid = None -> is_Some (pool_page s pid) -> (size H < size (frames s))%nat ->
  exists g dt s', NewReadGuard s pid = Some (Done (Ok g), s') /\ pool_session s' (<[pid := Hold g false dt]> H) /\
    (forall q, pool_page s' q = pool_page s q) /\ same_store s s'.
Proof.
  intros Hs HH Hpg Hsz. destruct (session_open s H pid false Hs HH Hpg Hsz) as (f & s1 & fr & Heq & Hf & Hl & Hs2 & Hpp & Hz & Hd).
  eexists _, _, _. split_and!; [|exact Hs2|exact Hpp|by apply keeps_same_store..].
  unfold NewReadGuard. rewrite Heq. cbn [mbind option_bind]. rewrite Hf. cbn [mbind option_bind]. by rewrite Hl.
Qed.

Lemma write_done_spec s H pid h :
  pool_session s H -> H !! pid = Some h -> h_excl h = true ->
  exists s' g', WriteGuardDone s (h_guard h) = Some (true, g', s') /\ pool_session s' (delete pid H) /\
    (forall q, pool_page s' q = pool_page s q) /\ same_store s s'.
Proof.
  intros Hs Hh Hex. destruct (held_inv s H pid h Hs Hh) as (f & fr & Ht & Hf & Hheld & Hp & _).
  destruct (session_done s H pid h f fr Hs Hh Ht Hf Hheld) as (s1 & Hun & Hf1 & Hs2 & Hpp & Hz & Hd).
  eexists _, _. split_and!; [|exact Hs2|exact Hpp|by apply same_disk_store..].
  unfold WriteGuardDone. rewrite (held_guardFrame s h f fr Hheld Hf). destruct Hheld as (-> & _ & Hl & _). rewrite Hex in Hl.
  cbn. rewrite Hp, Hun. cbn. unfold unlock. rewrite Hf1. cbn. by rewrite Hl.
Qed.

Lemma read_done_spec s H pid h :
  pool_session s H -> H !! pid = Some h -> h_excl h = false ->
  exists s' g', ReadGuardDone s (h_guard h) = Some (true, g', s') /\ pool_session s' (delete pid H) /\
    (forall q, pool_page s' q = pool_page s q) /\ same_store s s'.
Proof.
  intros Hs Hh Hex. destruct (held_inv s H pid h Hs Hh) as (f & fr & Ht & Hf & Hheld & Hp & _).
  destruct (session_done s H pid h f fr Hs Hh Ht Hf Hheld) as (s1 & Hun & Hf1 & Hs2 & Hpp & Hz & Hd).
  eexists _, _. split_and!; [|exact Hs2|exact Hpp|by apply same_disk_store..].
  unfold ReadGuardDone. rewrite (held_guardFrame s h f fr Hheld Hf). destruct Hheld as (-> & _ & Hl & _). rewrite Hex in Hl.
  cbn. rewrite Hp, Hun. cbn. unfold runlock. rewrite Hf1. cbn. by rewrite Hl.
Qed.

Lemma dirty_spec s H pid h :
  pool_session s H -> H !! pid = Some h ->
  exists s', SetDirtyFlag s (h_guard h) = Some (true, s') /\
    pool_session s' (<[pid := Hold (h_guard h) (h_excl h) true]> H) /\
    (forall q, pool_page s' q = pool_page s q) /\ same_store s s'.
Proof.
  intros Hs Hh. destruct (held_inv s H pid h Hs Hh) as (f & fr & Ht & Hf & Hheld & Hp & Hlen & _).
  destruct (session_write s H pid h f fr (data fr) Hs Hh Ht Hf Hheld Hlen) as (Hs2 & Hpp & Hz & Hd).
  eexists. split_and!; [|exact Hs2| |by apply same_disk_store..].
  - unfold SetDirtyFlag. rewrite (held_guardFrame s h f fr Hheld Hf). destruct Hheld as (-> & _). done.
  - intros q. rewrite Hpp. case_decide; [|done]. subst q. unfold pool_page. by rewrite Ht, Hf.
Qed.

Lemma write_then_dirty_spec s H pid h bytes :
  pool_session s H -> H !! pid = Some h -> len bytes = 4096 ->
  exists s1 s', writePageData s (h_guard h) bytes = Some s1 /\ GetPageId s1 (h_guard h) = Some pid /\
    SetDirtyFlag s1 (h_guard h) = Some (true, s') /\
    pool_session s' (<[pid := Hold (h_guard h) (h_excl h) true]> H) /\
    (forall q, pool_page s' q = if decide (q = pid) then Some bytes else pool_page s q) /\ same_store s s'.
Proof.
  intros Hs Hh Hlen. destruct (held_inv s H pid h Hs Hh) as (f & fr & Ht & Hf & Hheld & Hp & _).
  destruct (session_write s H pid h f fr bytes Hs Hh Ht Hf Hheld Hlen) as (Hs2 & Hpp & Hz & Hd).
  eexists _, _. split_and!; [| | |exact Hs2|exact Hpp|by apply same_disk_store..].
  - unfold writePageData. rewrite (held_guardFrame s h f fr Hheld Hf). reflexivity.
  - unfold GetPageId. destruct Hheld as (-> & _). unfold guardFrame. cbn. rewrite lookup_insert_eq. cbn. by rewrite Hp.
  - unfold SetDirtyFlag. destruct Hheld as (-> & _). unfold guardFrame. cbn. rewrite lookup_insert_eq. cbn.
    by rewrite set_frame_twice.
Qed.

Lemma guard_write_spec s H pid h bytes :
  pool_session s H -> H !! pid = Some h -> h_dirty h = true -> len bytes = 4096 ->
  exists s', writePageData s (h_guard h) bytes = Some s' /\ pool_session s' H /\
    (forall q, pool_page s' q = if decide (q = pid) then Some bytes else pool_page s q) /\ same_store s s'.
Proof.
  intros Hs Hh Hdi Hlen. destruct (held_inv s H pid h Hs Hh) as (f & fr & Ht & Hf & Hheld & Hp & _).
  destruct (session_write s H pid h f fr bytes Hs Hh Ht Hf Hheld Hlen) as (Hs2 & Hpp & Hz & Hd).
  eexists. split_and!; [| |exact Hpp|by apply same_disk_store..].
  - unfold writePageData, write_frame. rewrite (held_guardFrame s h f fr Hheld Hf). destruct Hheld as (_ & _ & _ & Hdf).
    rewrite Hdi in Hdf. cbn. by rewrite Hdf.
  - rewrite insert_id in Hs2; [exact Hs2|]. rewrite Hh. destruct h as [g x dt]; cbn in *. by rewrite Hdi.
Qed.

Lemma write_same_spec s H pid h bytes :
  pool_session s H -> H !! pid = Some h -> pool_page s pid = Some bytes -> writePageData s (h_guard h) bytes = Some s.
Proof.
  intros Hs Hh. destruct (held_inv s H pid h Hs Hh) as (f & fr & Ht & Hf & Hheld & _).
  unfold pool_page. rewrite Ht, Hf. intros [= <-]. unfold writePageData. rewrite (held_guardFrame s h f fr Hheld Hf).
  cbn. f_equal. unfold set_frame. destruct s, fr. cbn in *. by rewrite insert_id.
Qed.

(** A session on another disk that keeps the pages. *)
Lemma session_disk s H d :
  pool_session s H -> alloc_inv d -> healthy d ->
  (forall q bytes, disk_page (disk s) q = Some bytes -> disk_page d q = Some bytes) -> pool_session (set_disk s d) H.
Proof.
  intros [[Hd Hro Hlk Hda Htab Hfr Hff Hca] Hhe Hal Hcov Hf Hfree Hheld] Hal' Hhe' Hk.
  constructor; cbn; try done. constructor; cbn; try done; [by apply alloc_disk_ok|].
  intros pid f Ht. destruct (Htab _ _ Ht) as (fr & Hfr' & ? & ? & ? & [b Hb] & Hc). exists fr. split; [done|].
  unfold frame_holds. split_and!; try done.
  - eexists. by apply Hk.
  - intros Hdi. by apply Hk, Hc.
Qed.

Lemma new_page_spec s H :
  pool_session s H -> disk_room (disk s) 1 ->
  exists pid src s', NewPage s = (Ok (pid, src), s') /\ pool_session s' H /\
    (forall n, disk_room (disk s) (S n) -> disk_room (disk s') n) /\
    size (frames s') = size (frames s) /\ 0 < pid < 2 ^ 51 /\ ~ md_in_use (disk_metadata (disk s)) pid /\
    is_Some (pool_page s' pid) /\
    (forall q, md_in_use (disk_metadata (disk s')) q <-> md_in_use (disk_metadata (disk s)) q \/ q = pid) /\
    (forall q bytes, pool_page s q = Some bytes -> pool_page s' q = Some bytes) /\
    (forall q bytes, pool_page s' q = Some bytes -> pool_page s q = Some bytes \/ bytes = blank_page).
Proof.
  intros Hs Hr. pose proof Hs as [Hok Hhe Hal _ _ _ _].
  destruct (allocate_law (disk s) Hal Hhe Hr) as (pid & src & d & Heq & Hal' & Hhe' & Hr' & Hp & Hu & Hsome & Hin & Hk & Hb).
  exists pid, src, (set_disk s d). unfold NewPage. rewrite Heq.
  split_and!; try done; [by apply session_disk|lia|lia|..]; unfold pool_page; cbn.
  - destruct (pageTable s !! pid) as [f|] eqn:Ht; [|done]. destruct (ok_table _ Hok _ _ Ht) as (fr & -> & _). done.
  - intros q bytes. destruct (pageTable s !! q); [done|]. apply Hk.
  - intros q bytes. destruct (pageTable s !! q); [by left|]. apply Hb.
Qed.

(** ** Flushing *)

Lemma flush_keeps order : forall s r s',
  pool_ok s -> alloc_inv (disk s) -> healthy (disk s) ->
  (forall pid f, (pid, f) ∈ order -> pageTable s !! pid = Some f) -> flush_loop s order = Some (r, s') ->
  exists d, s' = set_disk s d /\ disk_keeps (disk s) d.
Proof.
  induction order as [|[pid f] order IH]; intros s r s' Hok Hal Hhe Hord; cbn [flush_loop].
  { intros [= <- <-]. exists (disk s). split; [by destruct s|by apply disk_keeps_refl]. }
  assert (pageTable s !! pid = Some f) as Ht by (apply Hord; by left).
  assert (forall q g, (q, g) ∈ order -> pageTable s !! q = Some g) as Hord' by (intros; apply Hord; by right).
  destruct (ok_table _ Hok _ _ Ht) as (fr & Hf & _ & Hlen & _ & Hpg & _). rewrite Hf. cbn [mbind option_bind].
  destruct (dirty fr); [|by apply IH]. pose proof Hpg as [old Hold]. destruct (disk_page_len _ _ _ Hold) as [_ Hb].
  rewrite offset_exact by done.
  destruct (write_law (disk s) pid (data fr) (ok_disk _ Hok) Hpg Hlen) as (w & d & Heq & Hdok & _ & Hw & Hhe'). rewrite Heq.
  destruct (write_keeps _ _ _ _ _ Hal Hpg Hlen Heq) as (Hal' & Hm & Hroom). destruct (Hhe' Hhe) as [Hhe1 ->].
  destruct (pool_ok_sync s d pid f fr Hok Ht Hf Hdok (Hw eq_refl)) as [Hok1 _].
  intros (d' & -> & Hk)%IH; [|done..]. exists d'. split; [done|]. eapply disk_keeps_trans; [|exact Hk]. by split_and!.
Qed.

(** Flushing writes what clients see and changes nothing they see. *)
Lemma flush_session s H order :
  pool_session s H -> order_of (pageTable s) order ->
  exists d, FlushAllPages s order = Some (Ok tt, set_disk s d) /\ pool_session (set_disk s d) H /\
    (forall q, pool_page (set_disk s d) q = pool_page s q) /\ disk_keeps (disk s) d /\
    forall q, disk_page d q = pool_page s q.
Proof.
  intros Hs Hord. pose proof Hs as [Hok Hhe Hal Hcov Hfr Hfree Hheld].
  assert (forall pid f, (pid, f) ∈ order <-> pageTable s !! pid = Some f) as Hin.
  { intros pid f. rewrite Hord. apply elem_of_map_to_list. }
  destruct (flush_loop_spec order s Hok) as (r & s' & Heq & Hok' & Hpp & _ & Hh & Hr); [by intros ? ? ?%Hin|].
  destruct (Hh Hhe) as [-> _]. destruct (Hr eq_refl) as [H1 H2].
  destruct (flush_keeps order s (Ok tt) s' Hok Hal Hhe) as (d & -> & Hk); [by intros ? ? ?%Hin|done|]. exists d.
  split_and!; [done| |done|by apply Hk..|].
  - destruct Hk as (? & _ & ? & _). by constructor.
  - intros q. destruct (pageTable s !! q) as [f|] eqn:Hq; [eapply H1; by apply Hin|].
    apply H2. unfold pool_page. by rewrite Hq.
Qed.
End laws.

#[export] Instance Pool_laws {R D} `{RL : ReplacerLaws R} `{AL : AllocLaws D} : PageStoreLaws (Pool R D).
Proof.
  constructor; cbn.
  - exact pool_page_len.
  - exact page_in_range.
  - exact held_page_spec.
  - exact open_write_spec.
  - exact open_read_spec.
  - exact write_done_spec.
  - exact read_done_spec.
  - exact dirty_spec.
  - intros b H pid h bytes Hs Hh _. by apply guard_write_spec.
  - intros b H pid h bytes Hs Hh Hex Hlen. pose proof (write_then_dirty_spec b H pid h bytes Hs Hh Hlen) as Hw.
    by rewrite Hex in Hw.
  - exact write_same_spec.
  - intros b. apply disk_room_less.
  - exact new_page_spec.
  - intros b H md Hs Hmd. destruct (set_keeps (disk b) md (ps_alloc _ _ Hs) Hmd) as (Hal & Hm & Hpg & Hhe & Hr).
    split_and!; [apply session_disk; [done|done|apply Hhe, Hs|by rewrite Hpg]| |done|done|done].
    intros q. unfold pool_page. cbn. by rewrite Hpg.
  - intros b H order Hs Hord. destruct (flush_session b H order Hs Hord) as (d & Heq & Hs' & Hpp & Hk & _).
    exists (set_disk b d). split; [done|split; [done|split; [done|by apply keeps_same_store]]].
Qed.

(** ** A new pool is a session without guards *)

Lemma new_pool_session {R D} `{RL : ReplacerLaws R} `{AL : AllocLaws D} n (d : D) :
  alloc_inv d -> healthy d -> pool_session (NewSimpleBufferPoolManager n (newReplacer (R := R)) d) ∅.
Proof.
  intros Ha Hh. destruct (new_pool_ok (R := R) n d (alloc_disk_ok d Ha)) as [Hok _].
  constructor; try done; cbn; try (intros *; by rewrite lookup_empty).
  - intros f [fr Hf]. left. apply elem_of_list_to_map_2 in Hf.
    apply list_elem_of_fmap in Hf as (i & [= -> _] & Hi). done.
  - intros f fr _ Hf%elem_of_list_to_map_2. apply list_elem_of_fmap in Hf as (i & [= _ ->] & _). done.
Qed.

(** The pool that the program uses. *)
Abbreviation DbPool := (Pool LRUReplacer DirectIODiskManager).
