(* ===== verification/NodeAccess.v ===== *)
(** * Reading and writing nodes (src/bplustree: readers, writers, cursors)

    The tree works on a state of three parts: the buffer pool, the write-ahead
    log, and the tree's own fields.  Its functions are written in a small
    monad that threads this state, stops at a panic, waits for ever at a lock
    that is never released, and passes returned errors on; [defer] runs a
    deferred call whatever the function returns.

    The log is the Lucario package, which is not part of the repository: it is
    a parameter that takes the operation to log and returns its LSN or an
    error. *)

From S2P Require Export PageStore InternalRouting LeafNodeSpec.

(** What the code asks the log to record, with the arguments it passes. *)
Inductive LogOperation :=
  | BeginOperation (BPlusTreeId : Z)
  | CommitOperation (BPlusTreeId : Z)
  | CreatePage (BPlusTreeId PageId : Z) (PageType AllocationSource : Z)
  | UpdateRootNodePageId (BPlusTreeId RootNodePageId : Z)
  | UpdateFirstLeafNodePageId (BPlusTreeId FirstLeafNodePageId : Z)
  | UpdateLeafNodeEntry (BPlusTreeId PageId : Z) (Key Value : list byte)
  | InsertLeafNodeEntry (BPlusTreeId PageId : Z) (Key Value : list byte)
  | InsertInternalNodeEntry (BPlusTreeId PageId : Z) (Key : list byte) (Left Right : Z)
  | SplitLeafNode (BPlusTreeId Left Right SeparatorKeyIndex NextLeafNodePageId : Z)
      (InsertKey InsertValue : list byte) (ElementListLength : Z) (Elements : list byte)
  | SplitInternalNode (BPlusTreeId Left Right SeparatorKeyIndex : Z)
      (InsertKey : list byte) (InsertLeft InsertRight : Z) (ElementListLength : Z) (Elements : list byte).

Class WAL (W : Type) := wal_log : W -> LogOperation -> result Z * W.

(** A record of the log, with its payload decoded. *)
Record WALRecord := mkRecord { recordLSN : Z; Operation : LogOperation }.

Record BPlusTree := mkBPlusTree {
  BPlusTreeId : Z;
  rootNodePageId : Z;
  firstLeafNodePageId : Z
}.

Record Db (B W : Type) := mkDb { pool : B; wal : W; tree : BPlusTree }.
#[global] Arguments mkDb {B W} _ _ _.
#[global] Arguments pool {B W} _.
#[global] Arguments wal {B W} _.
#[global] Arguments tree {B W} _.

Declare Scope db_scope.
#[global] Open Scope db_scope.

Section access.
Context {B W : Type} `{!BufferPoolManager B} `{!WAL W}.
Implicit Types (st : Db B W) (g : Guard).

(** ** The monad *)

Definition M (A : Type) : Type := Db B W -> option (outcome A * Db B W).

Definition ret {A} (a : A) : M A := fun st => Some (Done (Ok a), st).
Definition fail {A} (e : error) : M A := fun st => Some (Done (Error e), st).

Definition bind {A C} (m : M A) (k : A -> M C) : M C := fun st =>
  match m st with
  | None => None
  | Some (Blocked, st) => Some (Blocked, st)
  | Some (Done (Error e), st) => Some (Done (Error e), st)
  | Some (Done (Ok a), st) => k a st
  end.

(** [defer d()]: [d] runs after [m], whose result is kept. *)
Definition defer {A} (d : M unit) (m : M A) : M A := fun st =>
  match m st with
  | Some (Done r, st) =>
      match d st with
      | Some (Done _, st) => Some (Done r, st)
      | Some (Blocked, st) => Some (Blocked, st)
      | None => None
      end
  | x => x
  end.

Definition get : M (Db B W) := fun st => Some (Done (Ok st), st).
Definition lift {A} (o : option A) : M A := fun st => a ← o; Some (Done (Ok a), st).
Definition with_pool st (b : B) : Db B W := mkDb b (wal st) (tree st).

Definition onPool {A} (f : B -> option (outcome A * B)) : M A := fun st =>
  '(o, b) ← f (pool st); Some (o, with_pool st b).

Definition log (op : LogOperation) : M Z := fun st =>
  let '(r, w) := wal_log (wal st) op in Some (Done r, mkDb (pool st) w (tree st)).

(** A log call whose error is ignored. *)
Definition log_ (op : LogOperation) : M unit := fun st =>
  let '(_, w) := wal_log (wal st) op in Some (Done (Ok tt), mkDb (pool st) w (tree st)).

Definition NewPageM : M (Z * AllocationSource) := onPool (fun b => let '(r, b) := bpm_NewPage b in Some (Done r, b)).
Definition NewReadGuardM (pid : Z) : M Guard := onPool (fun b => bpm_NewReadGuard b pid).

(** When a write guard cannot be had, [cleanup] runs before the error is
    returned. *)
Definition NewWriteGuardM (pid : Z) (cleanup : B -> B) : M Guard := fun st =>
  match bpm_NewWriteGuard (pool st) pid with
  | Some (Done (Error e), b) => Some (Done (Error e), with_pool st (cleanup b))
  | Some (o, b) => Some (o, with_pool st b)
  | None => None
  end.

(** [bptree.metadata.LSN = lsn] *)
Definition setMetaLSN (lsn : Z) : M unit := onPool (fun b =>
  let md := bpm_metadata b in
  Some (Done (Ok tt), bpm_setMetadata b (mkMetaData lsn (CurrBPlusTreeId md) (RootPages md)
    (MaxAllocatedPageId md) (DeallocatedPageIdList md) (FirstLeafNodePages md)))).

Definition setTree (t : BPlusTree) : M unit := fun st => Some (Done (Ok tt), mkDb (pool st) (wal st) t).

(** ** Guards *)

Definition doneWrite g : M unit := onPool (fun b => '(_, _, b) ← guard_WriteDone b g; Some (Done (Ok tt), b)).
Definition doneRead g : M unit := onPool (fun b => '(_, _, b) ← guard_ReadDone b g; Some (Done (Ok tt), b)).
Definition setDirty g : M unit := onPool (fun b => '(_, b) ← guard_SetDirtyFlag b g; Some (Done (Ok tt), b)).
Definition pageIdOf g : M Z := onPool (fun b => pid ← guard_GetPageId b g; Some (Done (Ok pid), b)).

(** [GetPageData()], nil being the empty slice. *)
Definition pageData g : M (list byte) := onPool (fun b =>
  d ← guard_GetPageData b g; Some (Done (Ok (default [] d)), b)).

(** A codec call on the slice of the page: one that only reads, one that also
    writes. *)
Definition codecRead {A} g (f : list byte -> option A) : M A := bind (pageData g) (fun p => lift (f p)).
Definition codecWrite {A} g (f : list byte -> option (list byte * A)) : M A :=
  bind (pageData g) (fun p => bind (lift (f p)) (fun r =>
    onPool (fun b => b ← guard_writePageData b g r.1; Some (Done (Ok r.2), b)))).
End access.

#[global] Arguments M B W A : clear implicits.

Notation "'let!' x := m 'in' k" := (bind m (fun x => k))
  (at level 100, x pattern, m at level 99, k at level 200, right associativity, format "'let!'  x  :=  m  'in' '/' k") : db_scope.
Notation "'do!' m ; k" := (bind m (fun _ => k))
  (at level 100, m at level 99, k at level 200, right associativity, format "'do!'  m ; '/' k") : db_scope.

(** ** Readers and writers

    A writer is a guard with a codec; so is a reader.  [bool] results are
    those of the methods. *)
Section nodes.
Context {B W : Type} `{!BufferPoolManager B} `{!WAL W}.
Implicit Types (g : Guard) (key value : list byte).
Abbreviation M := (M B W).

Definition Writer_GetPageId g : M Z := if negb (active g) then ret 0 else pageIdOf g.

(** *** LeafNodeWriter *)

Definition LeafWriter_SetNodeType g : M unit :=
  do! setDirty g; codecWrite g (fun p => p' ← leafSetNodeType p; Some (p', tt)).

Definition LeafWriter_InsertKeyValue g key value : M bool :=
  if negb (active g) then ret false
  else do! setDirty g; codecWrite g (fun p => InsertElement p key value).

Definition LeafWriter_FindValue g key : M (option (list byte)) :=
  if negb (active g) then ret None else codecRead g (fun p => FindValue p key).

Definition LeafWriter_DeleteKeyValue g key : M bool :=
  if negb (active g) then ret false
  else do! setDirty g; codecWrite g (fun p => leafDeleteElement p key).

Definition LeafWriter_SetValue g key value : M bool :=
  if negb (active g) then ret false
  else do! setDirty g; codecWrite g (fun p => p' ← SetValue p key value; Some (p', true)).

Definition LeafWriter_SetLSN g (lsn : Z) : M unit :=
  do! setDirty g; codecWrite g (fun p => p' ← SetLSN p lsn; Some (p', tt)).

Definition LeafWriter_GetLSN g : M Z := codecRead g GetLSN.

Definition LeafWriter_SetNextLeafNodePageId g (next : Z) : M unit :=
  do! setDirty g; codecWrite g (fun p => p' ← SetNextLeafNodePageId p next; Some (p', tt)).

Definition LeafWriter_GetNextLeafNodePageId g : M Z := codecRead g GetNextLeafNodePageId.

Definition LeafWriter_EncodeAllElements g : M (Z * list byte) :=
  codecRead g (EncodeAllElements (E := LeafNodeElement)).

Definition LeafWriter_PutAllElements g (slots : list Slot) (elements : list LeafNodeElement) : M unit :=
  do! setDirty g; codecWrite g (fun p => p' ← leafPutAllSlotsAndElements p slots elements; Some (p', tt)).

Definition LeafWriter_FindSplitIndex g : M Z := codecRead g leafFindSplitNodeIndex.

(** [SplitNode] writes both pages, the left one last. *)
Definition LeafWriter_Split g (right : Guard) (splitIndex : Z) : M (option (list byte)) :=
  if negb (active g) then ret None
  else
    do! setDirty g;
    do! setDirty right;
    let! p := pageData g in
    let! q := pageData right in
    let! rid := Writer_GetPageId right in
    let! (p', q', extraKey) := lift (SplitNode p q rid splitIndex) in
    do! codecWrite right (fun _ => Some (q', tt));
    do! codecWrite g (fun _ => Some (p', tt));
    ret (Some extraKey).

Definition LeafWriter_HasEnoughSpaceToUpdateValue g key (oldValue newValue : list byte) : M bool :=
  if negb (active g) then ret false
  else codecWrite g (fun p => HasEnoughSpaceToUpdateValue p key oldValue newValue).

Definition LeafWriter_HasEnoughSpaceToInsertElement g key value : M bool :=
  if negb (active g) then ret false
  else codecWrite g (fun p => HasEnoughSpaceToInsertElement p key value).

(** *** InternalNodeWriter *)

Definition InternalWriter_SetNodeType g : M unit :=
  codecWrite g (fun p => p' ← internalSetNodeType p; Some (p', tt)).

Definition InternalWriter_InsertKey g key (left right : Z) : M bool :=
  if negb (active g) then ret false
  else do! setDirty g; codecWrite g (fun p => InternalNodeCodec.InsertElement p key left right).

Definition InternalWriter_FindNextChildNodePageId g key : M Z :=
  if negb (active g) then ret 0 else codecRead g (fun p => FindNextChildNodePageId p key).

Definition InternalWriter_DeleteKey g key : M bool :=
  if negb (active g) then ret false
  else do! setDirty g; codecWrite g (fun p => internalDeleteElement p key).

Definition InternalWriter_HasEnoughSpaceToInsertElement g key : M bool :=
  codecWrite g (fun p => InternalNodeCodec.HasEnoughSpaceToInsertElement p key).

Definition InternalWriter_SetLSN g (lsn : Z) : M unit :=
  do! setDirty g; codecWrite g (fun p => p' ← internalSetLSN p lsn; Some (p', tt)).

Definition InternalWriter_GetLSN g : M Z := codecRead g internalGetLSN.

Definition InternalWriter_EncodeAllElements g : M (Z * list byte) := codecRead g internalEncodeAllElements.

Definition InternalWriter_PutAllElements g (slots : list Slot) (elements : list InternalNodeElement) : M unit :=
  do! setDirty g; codecWrite g (fun p => p' ← internalPutAllSlotsAndElements p slots elements; Some (p', tt)).

Definition InternalWriter_FindSplitIndex g : M Z := codecRead g internalFindSplitNodeIndex.

Definition InternalWriter_Split g (right : Guard) (splitIndex : Z) : M (option (list byte)) :=
  if negb (active g) then ret None
  else
    do! setDirty g;
    do! setDirty right;
    let! p := pageData g in
    let! q := pageData right in
    let! rid := Writer_GetPageId right in
    let! (p', q', extraKey) := lift (InternalNodeCodec.SplitNode p q rid splitIndex) in
    do! codecWrite right (fun _ => Some (q', tt));
    do! codecWrite g (fun _ => Some (p', tt));
    ret (Some extraKey).

(** *** Readers and cursors *)

(** The elements are decoded to be logged. *)
Definition LeafReader_PrintElements g : M unit := do! codecRead g leafGetAllSlotsAndElements; ret tt.
Definition LeafReader_FindValue g key : M (option (list byte)) := codecRead g (fun p => FindValue p key).
Definition InternalReader_PrintElements g : M unit := do! codecRead g internalGetAllSlotsAndElements; ret tt.
Definition InternalReader_FindNextChildNodePageId g key : M Z := codecRead g (fun p => FindNextChildNodePageId p key).

(** A write cursor: the guard of the current node and, below the root, its
    parent's. *)
Record WriteCursor := mkWriteCursor { guard : Guard; parentGuard : option Guard }.

Definition Cursor_IsLeafNode g : M bool := codecRead g IsLeafNode.
End nodes.
