(* ===== verification/BPlusTree.v ===== *)
(** * The B+ tree (src/bplustree/b_plus_tree.go)

    Every operation is given from its beginning to its end.  [Insert] and
    [Delete] hold the tree's mutex exclusively while they work, so each is one
    atomic step; only [Insert] logs its beginning before it takes the lock, and
    [insertLocked] is the rest of it.  [Get] holds the mutex shared, so that
    several run together: this file has one of them run alone, and [ReadRuns]
    interleaves them.  Traversals recurse from the root to a leaf and have no
    other bound than the depth of the tree: they take fuel, and the theorems show
    that the depth of the tree is enough.  The deferred [Done] of the guards run
    when the function returns. *)

From S2P Require Export NodeAccess.

Definition LEAF_NODE_TYPE : Z := 0.
Definition INTERNAL_NODE_TYPE : Z := 1.

Definition sourceByte (a : AllocationSource) : Z :=
  match a with FREELIST_ALLOCATION => 0 | FILE_EXPANSION_ALLOCATION => 1 | ERROR_ALLOCATION => 2 end.

(** [metadata.RootPages[id]], zero when the key is absent. *)
Definition NewBPlusTree (id : Z) (md : MetaData) : BPlusTree :=
  mkBPlusTree id (default 0 (RootPages md !! id)) 0.

(** What a run does that has used up its fuel: a parameter, so that a result that
    does not depend on it is one for which the fuel was enough.  Otherwise it
    never returns, unlike a panic, which is [None]. *)
Class OutOfFuel := outOfFuel : forall {B W A : Type}, M B W A.
#[export] Instance never_returns : OutOfFuel := fun B W A st => Some (Blocked, st).

Section tree.
Context {B W : Type} `{!BufferPoolManager B} `{!WAL W} {OF : OutOfFuel}.
Implicit Types (g : Guard) (key value : list byte).
Abbreviation M := (M B W).

Definition getTree : M BPlusTree := let! st := get in ret (tree st).
Definition noCleanup (b : B) : B := b.

(** ** Search *)

Fixpoint readTraversal (fuel : nat) key g : M (list byte) :=
  match fuel with
  | O => outOfFuel
  | S fuel =>
      let! isLeaf := Cursor_IsLeafNode g in
      if isLeaf : bool then
        do! LeafReader_PrintElements g;
        let! found := LeafReader_FindValue g key in
        match found with
        | None => fail ErrKeyNotFound
        | Some value => ret value
        end
      else
        do! InternalReader_PrintElements g;
        let! childNodePageId := InternalReader_FindNextChildNodePageId g key in
        let! childNodeReadGuard := NewReadGuardM childNodePageId in
        defer (doneRead childNodeReadGuard) (readTraversal fuel key childNodeReadGuard)
  end.

Definition BPlusTree_Get (fuel : nat) key : M (list byte) :=
  let! t := getTree in
  let! rootNodeGuard := NewReadGuardM (rootNodePageId t) in
  defer (doneRead rootNodeGuard) (readTraversal fuel key rootNodeGuard).

(** ** Splits *)

(** The separator and the two children that a split hands to the parent. *)
Definition promotion : Type := option (list byte) * Z * Z.

Definition HandleLeafNodeSplit (leftGuard : Guard) key value : M promotion :=
  let! t := getTree in
  let! (rightChildNodePageId, source) := NewPageM in
  let! rightGuard := NewWriteGuardM rightChildNodePageId (fun b => bpm_CleanupPage b rightChildNodePageId) in
  defer (doneWrite rightGuard) (
    let! lsn := log (CreatePage (BPlusTreeId t) rightChildNodePageId LEAF_NODE_TYPE (sourceByte source)) in
    do! LeafWriter_SetLSN rightGuard lsn;
    let! splitIndex := LeafWriter_FindSplitIndex leftGuard in
    let! (elementListLength, elementListBytes) := LeafWriter_EncodeAllElements leftGuard in
    let! leftId := Writer_GetPageId leftGuard in
    let! rightId := pageIdOf rightGuard in
    let! next := LeafWriter_GetNextLeafNodePageId leftGuard in
    let! lsn := log (SplitLeafNode (BPlusTreeId t) leftId rightId (u16 splitIndex) next key value
                       (u16 elementListLength) elementListBytes) in
    do! LeafWriter_SetLSN rightGuard lsn;
    do! LeafWriter_SetLSN leftGuard lsn;
    let! extraKey := LeafWriter_Split leftGuard rightGuard splitIndex in
    do! (if bytesCompare key (default [] extraKey) <? 0
         then LeafWriter_InsertKeyValue leftGuard key value
         else LeafWriter_InsertKeyValue rightGuard key value);
    let! leftId := Writer_GetPageId leftGuard in
    let! rightId := Writer_GetPageId rightGuard in
    ret (extraKey, leftId, rightId)).

(** A nil parent is a panic. *)
Definition HandleInternalNodeSplit (leftGuard : Guard) (parent : option Guard) (insertKey : list byte)
    (insertLeft insertRight : Z) : M promotion :=
  let! t := getTree in
  let! (rightChildNodePageId, source) := NewPageM in
  let! rightGuard := NewWriteGuardM rightChildNodePageId (fun b => bpm_CleanupPage b rightChildNodePageId) in
  defer (doneWrite rightGuard) (
    let! lsn := log (CreatePage (BPlusTreeId t) rightChildNodePageId INTERNAL_NODE_TYPE (sourceByte source)) in
    do! InternalWriter_SetLSN rightGuard lsn;
    let! splitIndex := InternalWriter_FindSplitIndex leftGuard in
    let! (elementListLength, elementListBytes) := InternalWriter_EncodeAllElements leftGuard in
    let! leftId := Writer_GetPageId leftGuard in
    let! rightId := Writer_GetPageId rightGuard in
    let! lsn := log (SplitInternalNode (BPlusTreeId t) leftId rightId (u16 splitIndex) insertKey
                       insertLeft insertRight (u16 elementListLength) elementListBytes) in
    do! InternalWriter_SetLSN rightGuard lsn;
    do! InternalWriter_SetLSN leftGuard lsn;
    let! parent := lift parent in
    do! InternalWriter_SetLSN parent lsn;
    let! splitKey := InternalWriter_Split leftGuard rightGuard splitIndex in
    do! (if bytesCompare insertKey (default [] splitKey) <? 0
         then InternalWriter_InsertKey leftGuard insertKey insertLeft insertRight
         else InternalWriter_InsertKey rightGuard insertKey insertLeft insertRight);
    let! leftId := Writer_GetPageId leftGuard in
    let! rightId := Writer_GetPageId rightGuard in
    ret (splitKey, leftId, rightId)).

(** The new root gets the separator of the two halves. *)
Definition installRoot (newRoot : Guard) (newRootPageId : Z) (p : promotion) : M unit :=
  let '(extraKey, leftId, rightId) := p in
  let! t := getTree in
  let! newRootId := Writer_GetPageId newRoot in
  let! lsn := log (InsertInternalNodeEntry (BPlusTreeId t) newRootId (default [] extraKey) leftId rightId) in
  do! InternalWriter_SetLSN newRoot lsn;
  do! InternalWriter_InsertKey newRoot (default [] extraKey) leftId rightId;
  let! lsn := log (UpdateRootNodePageId (BPlusTreeId t) newRootPageId) in
  do! setMetaLSN lsn;
  setTree (mkBPlusTree (BPlusTreeId t) newRootPageId (firstLeafNodePageId t)).

Definition HandleLeafRootNodeSplit (oldRoot : Guard) key value : M unit :=
  let! t := getTree in
  let! (newRootPageId, source) := NewPageM in
  let! newRoot := NewWriteGuardM newRootPageId (fun b => bpm_CleanupPage b newRootPageId) in
  defer (doneWrite newRoot) (
    let! lsn := log (CreatePage (BPlusTreeId t) newRootPageId INTERNAL_NODE_TYPE (sourceByte source)) in
    do! InternalWriter_SetLSN newRoot lsn;
    do! InternalWriter_SetNodeType newRoot;
    let! p := HandleLeafNodeSplit oldRoot key value in
    installRoot newRoot newRootPageId p).

(** Unlike the leaf case, the new root's node type is not set. *)
Definition HandleInternalRootNodeSplit (oldRoot : Guard) (insertKey : list byte) (insertLeft insertRight : Z) : M unit :=
  let! t := getTree in
  let! (newRootPageId, source) := NewPageM in
  let! newRoot := NewWriteGuardM newRootPageId (fun b => bpm_CleanupPage b newRootPageId) in
  defer (doneWrite newRoot) (
    let! lsn := log (CreatePage (BPlusTreeId t) newRootPageId INTERNAL_NODE_TYPE (sourceByte source)) in
    do! InternalWriter_SetLSN newRoot lsn;
    let! p := HandleInternalNodeSplit oldRoot (Some newRoot) insertKey insertLeft insertRight in
    installRoot newRoot newRootPageId p).

(** ** Insertion *)

Definition nothingPromoted : promotion := (None, 0, 0).

(** A leaf without room: the root gets a new parent. *)
Definition splitLeaf g key value : M promotion :=
  let! t := getTree in
  let! pid := Writer_GetPageId g in
  if rootNodePageId t =? pid then
    do! HandleLeafRootNodeSplit g key value; ret nothingPromoted
  else HandleLeafNodeSplit g key value.

Definition writeLeaf g key value : M promotion :=
  let! t := getTree in
  let! found := LeafWriter_FindValue g key in
  match found with
  | Some oldValue =>
      let! enough := LeafWriter_HasEnoughSpaceToUpdateValue g key oldValue value in
      if enough : bool then
        let! pid := Writer_GetPageId g in
        let! lsn := log (UpdateLeafNodeEntry (BPlusTreeId t) pid key value) in
        do! LeafWriter_SetLSN g lsn;
        do! LeafWriter_SetValue g key value;
        ret nothingPromoted
      else splitLeaf g key value
  | None =>
      let! enough := LeafWriter_HasEnoughSpaceToInsertElement g key value in
      if enough : bool then
        let! pid := Writer_GetPageId g in
        let! lsn := log (InsertLeafNodeEntry (BPlusTreeId t) pid key value) in
        do! LeafWriter_SetLSN g lsn;
        do! LeafWriter_InsertKeyValue g key value;
        ret nothingPromoted
      else splitLeaf g key value
  end.

(** What a node does with the separator its child hands up. *)
Definition promote g (parent : option Guard) (extraKey : list byte) (leftId rightId : Z) : M promotion :=
  let! t := getTree in
  let! enough := InternalWriter_HasEnoughSpaceToInsertElement g extraKey in
  let! pid := Writer_GetPageId g in
  if enough : bool then
    let! lsn := log (InsertInternalNodeEntry (BPlusTreeId t) pid extraKey leftId rightId) in
    do! InternalWriter_SetLSN g lsn;
    do! InternalWriter_InsertKey g extraKey leftId rightId;
    ret nothingPromoted
  else if rootNodePageId t =? pid then
    do! HandleInternalRootNodeSplit g extraKey leftId rightId; ret nothingPromoted
  else HandleInternalNodeSplit g parent extraKey leftId rightId.

Fixpoint writeTraversal (fuel : nat) key value (cursor : WriteCursor) : M promotion :=
  match fuel with
  | O => outOfFuel
  | S fuel =>
      let g := guard cursor in
      let! isLeaf := Cursor_IsLeafNode g in
      if isLeaf : bool then writeLeaf g key value
      else
        let! nextChildNodePageId := InternalWriter_FindNextChildNodePageId g key in
        let! child := NewWriteGuardM nextChildNodePageId noCleanup in
        defer (doneWrite child) (
          let! (extraKey, leftId, rightId) := writeTraversal fuel key value (mkWriteCursor child (Some g)) in
          match extraKey with
          | None => ret nothingPromoted
          | Some extraKey => promote g (parentGuard cursor) extraKey leftId rightId
          end)
  end.

(** The guard on the root, which is created when the tree is empty.  An error
    after the guard is opened leaves it open. *)
Definition rootGuard : M Guard :=
  let! t := getTree in
  if rootNodePageId t =? 0 then
    let! (rootPageId, source) := NewPageM in
    let! lsn := log (CreatePage (BPlusTreeId t) rootPageId LEAF_NODE_TYPE (sourceByte source)) in
    let! g := NewWriteGuardM rootPageId noCleanup in
    do! LeafWriter_SetLSN g lsn;
    let! lsn := log (UpdateFirstLeafNodePageId (BPlusTreeId t) rootPageId) in
    do! setMetaLSN lsn;
    let! lsn := log (UpdateRootNodePageId (BPlusTreeId t) rootPageId) in
    do! setMetaLSN lsn;
    do! setTree (mkBPlusTree (BPlusTreeId t) rootPageId rootPageId);
    ret g
  else NewWriteGuardM (rootNodePageId t) noCleanup.

(** The part of [Insert] under the tree's lock. *)
Definition insertLocked (id : Z) (fuel : nat) key value : M unit :=
  let! rootNodeGuard := rootGuard in
  defer (doneWrite rootNodeGuard) (
    do! writeTraversal fuel key value (mkWriteCursor rootNodeGuard None);
    log_ (CommitOperation id)).

Definition BPlusTree_Insert (fuel : nat) key value : M unit :=
  let! t := getTree in
  do! log_ (BeginOperation (BPlusTreeId t));
  insertLocked (BPlusTreeId t) fuel key value.

(** ** Deletion *)

Fixpoint findLeafNodePageId (fuel : nat) key (pageId : Z) : M Z :=
  match fuel with
  | O => outOfFuel
  | S fuel =>
      let! readGuard := NewReadGuardM pageId in
      let! isLeaf := Cursor_IsLeafNode readGuard in
      if isLeaf : bool then do! doneRead readGuard; ret pageId
      else
        let! childNodePageId := InternalReader_FindNextChildNodePageId readGuard key in
        do! doneRead readGuard;
        findLeafNodePageId fuel key childNodePageId
  end.

Definition BPlusTree_Delete (fuel : nat) key : M unit :=
  let! t := getTree in
  if rootNodePageId t =? 0 then fail ErrKeyNotFound
  else
    let! leafNodePageId := findLeafNodePageId fuel key (rootNodePageId t) in
    let! leafNodeGuard := NewWriteGuardM leafNodePageId noCleanup in
    defer (doneWrite leafNodeGuard) (
      let! deleted := LeafWriter_DeleteKeyValue leafNodeGuard key in
      if deleted : bool then ret tt else fail ErrKeyNotFound).

(** [Close] stores the roots in the shared metadata. *)
Definition BPlusTree_Close : M unit :=
  let! t := getTree in
  onPool (fun b =>
    let md := bpm_metadata b in
    Some (Done (Ok tt), bpm_setMetadata b (mkMetaData (MetaLSN md) (CurrBPlusTreeId md)
      (<[BPlusTreeId t := rootNodePageId t]> (RootPages md)) (MaxAllocatedPageId md) (DeallocatedPageIdList md)
      (<[BPlusTreeId t := firstLeafNodePageId t]> (FirstLeafNodePages md))))).
End tree.
