(* ===== verification/Recovery.v ===== *)
(** * Recovery from the log (src/storageengine/wal_recovery.go)

    [Recover] collects the records between the begin and the commit of each
    tree's operation and redoes them at the commit; a record changes a page, or
    the metadata, only when its LSN is newer.  The log's iterator belongs to the
    Lucario package: it is the list of the records that [GetRecord] returns, or
    the error of opening the log.  The redo functions work on the pool and the
    metadata that the engine shares with the disk manager; they do not look at
    the open tree of the state. *)

From S2P Require Export BPlusTree.

Section recovery.
Context {B W : Type} `{!BufferPoolManager B} `{!WAL W}.
Implicit Types (lsn : Z) (key value : list byte).
Abbreviation M := (M B W).

Definition getMeta : M MetaData := let! st := get in ret (bpm_metadata (pool st)).
Definition setMeta (md : MetaData) : M unit := onPool (fun b => Some (Done (Ok tt), bpm_setMetadata b md)).

Definition EnsurePageExistsM (pid : Z) : M unit := onPool (fun b => let '(r, b) := bpm_EnsurePageExists b pid in Some (Done r, b)).

(** The first occurrence of the page is overwritten by the last entry, which is
    dropped. *)
Definition dropFromFreelist (l : list Z) (pid : Z) : list Z :=
  match list_find (fun id => id = pid) l with
  | Some (ind, _) => take (length l - 1) (match l !! (length l - 1)%nat with Some x => <[ind := x]> l | None => l end)
  | None => l
  end.

(** What the record says about where the page came from. *)
Definition redoAllocation lsn (pid source : Z) : M unit :=
  let! md := getMeta in
  if source =? sourceByte FILE_EXPANSION_ALLOCATION then
    if MetaLSN md <? lsn then EnsurePageExistsM pid else ret tt
  else if source =? sourceByte FREELIST_ALLOCATION then
    if MetaLSN md <? lsn then
      setMeta (mkMetaData lsn (CurrBPlusTreeId md) (RootPages md) (MaxAllocatedPageId md)
                 (dropFromFreelist (DeallocatedPageIdList md) pid) (FirstLeafNodePages md))
    else ret tt
  else ret tt.

Definition RedoCreatePageOperation lsn (pid pageType source : Z) : M unit :=
  do! redoAllocation lsn pid source;
  let! g := NewWriteGuardM pid noCleanup in
  defer (doneWrite g)
    (if pageType =? LEAF_NODE_TYPE then LeafWriter_SetNodeType g else InternalWriter_SetNodeType g).

Definition RedoUpdateRootNodePageId lsn (id root : Z) : M unit :=
  let! md := getMeta in
  if MetaLSN md <? lsn then
    setMeta (mkMetaData lsn (CurrBPlusTreeId md) (<[id := root]> (RootPages md)) (MaxAllocatedPageId md)
               (DeallocatedPageIdList md) (FirstLeafNodePages md))
  else ret tt.

Definition RedoUpdateFirstLeafNodePageId lsn (id first : Z) : M unit :=
  let! md := getMeta in
  if MetaLSN md <? lsn then
    setMeta (mkMetaData lsn (CurrBPlusTreeId md) (RootPages md) (MaxAllocatedPageId md)
               (DeallocatedPageIdList md) (<[id := first]> (FirstLeafNodePages md)))
  else ret tt.

(** A write to one page, done when the page's LSN is older than the record's. *)
Definition redoOnPage (getLSN : Guard -> M Z) (setLSN : Guard -> Z -> M unit) lsn (pid : Z) (change : Guard -> M bool) : M unit :=
  let! g := NewWriteGuardM pid noCleanup in
  defer (doneWrite g) (
    let! pageLSN := getLSN g in
    if pageLSN <? lsn then do! change g; setLSN g lsn else ret tt).

Definition RedoInsertInternalNodeEntry lsn (pid : Z) key (left right : Z) : M unit :=
  redoOnPage InternalWriter_GetLSN InternalWriter_SetLSN lsn pid (fun g => InternalWriter_InsertKey g key left right).

Definition RedoInsertLeafNodeEntry lsn (pid : Z) key value : M unit :=
  redoOnPage LeafWriter_GetLSN LeafWriter_SetLSN lsn pid (fun g => LeafWriter_InsertKeyValue g key value).

Definition RedoUpdateLeafNodeEntry lsn (pid : Z) key value : M unit :=
  redoOnPage LeafWriter_GetLSN LeafWriter_SetLSN lsn pid (fun g => LeafWriter_SetValue g key value).

(** [l[n:]] and [l[:n]], a panic when [n] is out of range. *)
Definition sliceFrom {A} (l : list A) (n : Z) : option (list A) :=
  if decide (0 <= n <= len l) then Some (drop (Z.to_nat n) l) else None.
Definition sliceTo {A} (l : list A) (n : Z) : option (list A) :=
  if decide (0 <= n <= len l) then Some (take (Z.to_nat n) l) else None.

(** The two sides of a leaf split; [below] says whether the new pair goes left. *)
Definition redoRightLeaf lsn (rightGuard : Guard) (slots : list Slot) (elements : list LeafNodeElement) (sep next : Z)
    (below : bool) key value : M unit :=
  let! rightLSN := LeafWriter_GetLSN rightGuard in
  if rightLSN <? lsn then
    let! rightSlots := lift (sliceFrom slots sep) in
    let! rightElements := lift (sliceFrom elements sep) in
    do! LeafWriter_PutAllElements rightGuard rightSlots rightElements;
    do! LeafWriter_SetNextLeafNodePageId rightGuard next;
    do! (if below then ret false else LeafWriter_InsertKeyValue rightGuard key value);
    do! LeafWriter_SetLSN rightGuard lsn;
    LeafReader_PrintElements rightGuard
  else ret tt.

Definition redoLeftLeaf lsn (leftGuard rightGuard : Guard) (slots : list Slot) (elements : list LeafNodeElement) (sep : Z)
    (below : bool) key value : M unit :=
  let! leftLSN := LeafWriter_GetLSN leftGuard in
  if leftLSN <? lsn then
    let! leftSlots := lift (sliceTo slots sep) in
    let! leftElements := lift (sliceTo elements sep) in
    do! LeafWriter_PutAllElements leftGuard leftSlots leftElements;
    let! rid := Writer_GetPageId rightGuard in
    do! LeafWriter_SetNextLeafNodePageId leftGuard rid;
    do! (if below then LeafWriter_InsertKeyValue leftGuard key value else ret false);
    do! LeafWriter_SetLSN leftGuard lsn;
    LeafReader_PrintElements leftGuard
  else ret tt.

Definition RedoSplitLeafNode lsn (leftId rightId sep next : Z) (insertKey insertValue elementBytes : list byte) : M unit :=
  let! leftGuard := NewWriteGuardM leftId noCleanup in
  defer (doneWrite leftGuard) (
    let! rightGuard := NewWriteGuardM rightId noCleanup in
    defer (doneWrite rightGuard) (
      let! (slots, elements) := lift (DecodeAllSlotsAndElements (E := LeafNodeElement) elementBytes) in
      let! extra := lift (elements !! Z.to_nat sep) in
      let below := bytesCompare insertKey (Key extra) <? 0 in
      do! redoRightLeaf lsn rightGuard slots elements sep next below insertKey insertValue;
      redoLeftLeaf lsn leftGuard rightGuard slots elements sep below insertKey insertValue)).

Definition RedoSplitInternalNode lsn (leftId rightId sep : Z) (insertKey : list byte) (insertLeft insertRight : Z)
    (elementBytes : list byte) : M unit :=
  let! leftGuard := NewWriteGuardM leftId noCleanup in
  defer (doneWrite leftGuard) (
    let! (slots, elements) := lift (internalDecodeAllSlotsAndElements elementBytes) in
    let! extra := lift (elements !! Z.to_nat sep) in
    let below := bytesCompare insertKey (InternalKey extra) <? 0 in
    let! leftLSN := InternalWriter_GetLSN leftGuard in
    do! (if leftLSN <? lsn then
           let! leftSlots := lift (sliceTo slots sep) in
           let! leftElements := lift (sliceTo elements sep) in
           do! InternalWriter_PutAllElements leftGuard leftSlots leftElements;
           do! (if below then InternalWriter_InsertKey leftGuard insertKey insertLeft insertRight else ret false);
           InternalWriter_SetLSN leftGuard lsn
         else ret tt);
    let! rightGuard := NewWriteGuardM rightId noCleanup in
    defer (doneWrite rightGuard) (
      let! rightLSN := InternalWriter_GetLSN rightGuard in
      if rightLSN <? lsn then
        let! rightSlots := lift (sliceFrom slots (u16 (sep + 1))) in
        let! rightElements := lift (sliceFrom elements (u16 (sep + 1))) in
        do! InternalWriter_PutAllElements rightGuard rightSlots rightElements;
        do! (if below then ret false else InternalWriter_InsertKey rightGuard insertKey insertLeft insertRight);
        InternalWriter_SetLSN rightGuard lsn
      else ret tt)).

(** [engine.redoFuncMapping[record.Operation](record)]: there is no function for
    a begin or a commit, and calling nil is a panic. *)
Definition redo (r : WALRecord) : M unit :=
  let lsn := recordLSN r in
  match Operation r with
  | BeginOperation _ | CommitOperation _ => lift None
  | CreatePage _ pid pageType source => RedoCreatePageOperation lsn pid pageType source
  | UpdateRootNodePageId id root => RedoUpdateRootNodePageId lsn id root
  | UpdateFirstLeafNodePageId id first => RedoUpdateFirstLeafNodePageId lsn id first
  | UpdateLeafNodeEntry _ pid key value => RedoUpdateLeafNodeEntry lsn pid key value
  | InsertLeafNodeEntry _ pid key value => RedoInsertLeafNodeEntry lsn pid key value
  | InsertInternalNodeEntry _ pid key leftId rightId => RedoInsertInternalNodeEntry lsn pid key leftId rightId
  | SplitLeafNode _ leftId rightId sep next key value _ elements => RedoSplitLeafNode lsn leftId rightId sep next key value elements
  | SplitInternalNode _ leftId rightId sep key l r _ elements => RedoSplitInternalNode lsn leftId rightId sep key l r elements
  end.

Fixpoint redoAll (rs : list WALRecord) : M unit :=
  match rs with
  | [] => ret tt
  | r :: rs => do! redo r; redoAll rs
  end.

(** [record.BPlusTreeId] *)
Definition recordTree (r : WALRecord) : Z :=
  match Operation r with
  | BeginOperation id | CommitOperation id | CreatePage id _ _ _ | UpdateRootNodePageId id _
  | UpdateFirstLeafNodePageId id _ | UpdateLeafNodeEntry id _ _ _ | InsertLeafNodeEntry id _ _ _
  | InsertInternalNodeEntry id _ _ _ _ | SplitLeafNode id _ _ _ _ _ _ _ _ | SplitInternalNode id _ _ _ _ _ _ _ _ => id
  end.

(** The loop over the log, [pending] being [recoveryOperationsMap]. *)
Fixpoint recoverLoop (pending : gmap Z (list WALRecord)) (records : list (result WALRecord)) : M unit :=
  match records with
  | [] => ret tt
  | Error e :: _ => fail e
  | Ok r :: records =>
      let id := recordTree r in
      match Operation r with
      | BeginOperation _ => recoverLoop (<[id := []]> pending) records
      | CommitOperation _ =>
          match pending !! id with
          | None => fail ErrCommitWithoutBegin
          | Some ops => do! redoAll ops; recoverLoop (delete id pending) records
          end
      | _ =>
          match pending !! id with
          | None => fail ErrNoBegin
          | Some ops => recoverLoop (<[id := ops ++ [r]]> pending) records
          end
      end
  end.

(** [order] is the order of the [range] over the page table at the flush. *)
Definition FlushM (order : B -> list (Z * Z)) : M unit := onPool (fun b =>
  '(r, b) ← bpm_FlushAllPages b (order b); Some (Done r, b)).

Definition Recover (order : B -> list (Z * Z)) (iterator : result (list (result WALRecord))) : M unit :=
  match iterator with
  | Error e => fail e
  | Ok records => do! recoverLoop ∅ records; FlushM order
  end.
End recovery.
