(* ===== verification/NodeSpec.v ===== *)
(** * What the node operations do to the page store

    Symbolic execution of the tree's code: how the monad's operators run, and
    what each operation on an open guard does to the pages.  A session [b, H]
    stays one throughout; [wrote b b' pid p] says that exactly page [pid]
    changed, to [p]. *)

From S2P Require Export BPlusTree.

Section monad.
Context {B W : Type} `{!BufferPoolManager B} `{!WAL W}.
Implicit Types st : Db B W.

Lemma bind_ok {A C} (m : M B W A) (k : A -> M B W C) st a st1 :
  m st = Some (Done (Ok a), st1) -> bind m k st = k a st1.
Proof. unfold bind. by intros ->. Qed.

Lemma defer_ok {A} (d : M B W unit) (m : M B W A) st r st1 st2 :
  m st = Some (Done r, st1) -> d st1 = Some (Done (Ok tt), st2) -> defer d m st = Some (Done r, st2).
Proof. unfold defer. by intros -> ->. Qed.

Lemma run_lift {A} (a : A) st : lift (Some a) st = Some (Done (Ok a), st).
Proof. done. Qed.

Lemma bind_getTree {C} (k : BPlusTree -> M B W C) (b : B) (w : W) t :
  bind getTree k (mkDb b w t) = k t (mkDb b w t).
Proof. done. Qed.

Lemma run_onPool {A} (f : B -> option (outcome A * B)) o b b' (w : W) t :
  f b = Some (o, b') -> onPool f (mkDb b w t) = Some (o, mkDb b' w t).
Proof. unfold onPool. cbn. by intros ->. Qed.
End monad.

Section nodes.
Context {B W : Type} `{PL : PageStoreLaws B} `{!WAL W}.
Implicit Types (b : B) (w : W) (t : BPlusTree) (H : gmap Z hold) (g : Guard).

(** Nothing but the guards changed. *)
Definition kept b b' : Prop := (forall q, store_page b' q = store_page b q) /\ same_store b b'.

(** Exactly one page changed. *)
Definition wrote b b' (pid : Z) (p : list byte) : Prop :=
  (forall q, store_page b' q = if decide (q = pid) then Some p else store_page b q) /\ same_store b b'.

Lemma same_store_refl b : same_store b b.
Proof. by split_and!. Qed.

Lemma same_store_trans b1 b2 b3 : same_store b1 b2 -> same_store b2 b3 -> same_store b1 b3.
Proof. intros (? & ? & ?) (? & ? & ?). split_and!; [congruence..|auto]. Qed.

Lemma kept_refl b : kept b b.
Proof. split; [done|apply same_store_refl]. Qed.

Lemma kept_trans b1 b2 b3 : kept b1 b2 -> kept b2 b3 -> kept b1 b3.
Proof. intros [H1 ?] [H2 ?]. split; [intros q; by rewrite H2, H1|by eapply same_store_trans]. Qed.

Lemma wrote_kept b1 b2 b3 pid p : wrote b1 b2 pid p -> kept b2 b3 -> wrote b1 b3 pid p.
Proof. intros [H1 ?] [H2 ?]. split; [intros q; by rewrite H2, H1|by eapply same_store_trans]. Qed.

Lemma kept_wrote b1 b2 b3 pid p : kept b1 b2 -> wrote b2 b3 pid p -> wrote b1 b3 pid p.
Proof. intros [H1 ?] [H2 ?]. split; [intros q; by rewrite H2, H1|by eapply same_store_trans]. Qed.

Lemma wrote_wrote b1 b2 b3 pid p p' : wrote b1 b2 pid p -> wrote b2 b3 pid p' -> wrote b1 b3 pid p'.
Proof.
  intros [H1 ?] [H2 ?]. split; [|by eapply same_store_trans]. intros q. rewrite H2, H1. by case_decide.
Qed.

Lemma wrote_page b b' pid p : wrote b b' pid p -> store_page b' pid = Some p.
Proof. intros [-> _]. by rewrite decide_True. Qed.

Lemma wrote_other b b' pid p q : wrote b b' pid p -> q <> pid -> store_page b' q = store_page b q.
Proof. intros [-> _] Hne. by rewrite decide_False. Qed.

(** ** Reading through a guard *)

Lemma run_pageIdOf b H pid h w t :
  session b H -> H !! pid = Some h -> pageIdOf (h_guard h) (mkDb b w t) = Some (Done (Ok pid), mkDb b w t).
Proof.
  intros Hs Hh. destruct (held_page b H pid h Hs Hh) as (_ & Hp & _). apply run_onPool. by rewrite Hp.
Qed.

Lemma run_GetPageId b H pid h w t :
  session b H -> H !! pid = Some h -> Writer_GetPageId (h_guard h) (mkDb b w t) = Some (Done (Ok pid), mkDb b w t).
Proof.
  intros Hs Hh. destruct (held_page b H pid h Hs Hh) as (Ha & _). unfold Writer_GetPageId. rewrite Ha.
  by eapply run_pageIdOf.
Qed.

Lemma run_pageData b H pid h p w t :
  session b H -> H !! pid = Some h -> store_page b pid = Some p ->
  pageData (h_guard h) (mkDb b w t) = Some (Done (Ok p), mkDb b w t).
Proof.
  intros Hs Hh Hp. destruct (held_page b H pid h Hs Hh) as (_ & _ & d & Hd & Hg). apply run_onPool.
  rewrite Hg. rewrite Hp in Hd. by injection Hd as <-.
Qed.

Lemma run_codecRead {A} b H pid h p w t (f : list byte -> option A) a :
  session b H -> H !! pid = Some h -> store_page b pid = Some p -> f p = Some a ->
  codecRead (h_guard h) f (mkDb b w t) = Some (Done (Ok a), mkDb b w t).
Proof.
  intros Hs Hh Hp Hf. unfold codecRead. erewrite bind_ok by (by eapply run_pageData). by rewrite Hf.
Qed.

(** ** Writing through a guard *)

Lemma run_setDirty b H pid h w t :
  session b H -> H !! pid = Some h ->
  exists b', setDirty (h_guard h) (mkDb b w t) = Some (Done (Ok tt), mkDb b' w t) /\
    session b' (<[pid := Hold (h_guard h) (h_excl h) true]> H) /\ kept b b'.
Proof.
  intros Hs Hh. destruct (dirty_law b H pid h Hs Hh) as (b' & Hd & Hs' & Hp & Hst). exists b'.
  split_and!; [|done|done|done..]. apply run_onPool. by rewrite Hd.
Qed.

(** A codec call that writes, on a page already dirty. *)
Lemma run_codecWrite {A} b H pid h p w t (f : list byte -> option (list byte * A)) p' a :
  session b H -> H !! pid = Some h -> h_excl h = true -> h_dirty h = true -> store_page b pid = Some p ->
  f p = Some (p', a) -> len p' = 4096 ->
  exists b', codecWrite (h_guard h) f (mkDb b w t) = Some (Done (Ok a), mkDb b' w t) /\ session b' H /\ wrote b b' pid p'.
Proof.
  intros Hs Hh Hex Hdi Hp Hf Hlen. destruct (guard_write_law b H pid h p' Hs Hh Hex Hdi Hlen) as (b' & Hw & Hs' & Hpg & Hst).
  exists b'. split_and!; [|done|done..]. unfold codecWrite. erewrite bind_ok by (by eapply run_pageData).
  rewrite Hf. erewrite bind_ok by apply run_lift. apply run_onPool. cbn. by rewrite Hw.
Qed.

(** A codec call after the dirty flag is set, as in most methods. *)
Lemma run_dirty_write {A} b H pid h p w t (f : list byte -> option (list byte * A)) p' a :
  session b H -> H !! pid = Some h -> h_excl h = true -> store_page b pid = Some p ->
  f p = Some (p', a) -> len p' = 4096 ->
  exists b', (do! setDirty (h_guard h); codecWrite (h_guard h) f) (mkDb b w t) = Some (Done (Ok a), mkDb b' w t) /\
    session b' (<[pid := Hold (h_guard h) true true]> H) /\ wrote b b' pid p'.
Proof.
  intros Hs Hh Hex Hp Hf Hlen. destruct (run_setDirty b H pid h w t Hs Hh) as (b1 & Hd & Hs1 & Hk).
  rewrite Hex in Hs1.
  destruct (run_codecWrite b1 _ pid (Hold (h_guard h) true true) p w t f p' a Hs1) as (b' & Hw & Hs' & Hwr);
    [by rewrite lookup_insert_eq|done|done|by rewrite (proj1 Hk)|done|done|].
  exists b'. split_and!; [|done|by apply (kept_wrote _ _ _ _ _ Hk Hwr)..]. erewrite bind_ok by exact Hd. exact Hw.
Qed.

(** A codec call that leaves the page as it is. *)
Lemma run_codecWrite_same {A} b H pid h p w t (f : list byte -> option (list byte * A)) a :
  session b H -> H !! pid = Some h -> store_page b pid = Some p -> f p = Some (p, a) ->
  codecWrite (h_guard h) f (mkDb b w t) = Some (Done (Ok a), mkDb b w t).
Proof.
  intros Hs Hh Hp Hf. unfold codecWrite. erewrite bind_ok by (by eapply run_pageData).
  rewrite Hf. erewrite bind_ok by apply run_lift. apply run_onPool. cbn. by rewrite (write_same_law b H pid h p Hs Hh Hp).
Qed.

(** A space check that compacts the page without setting the dirty flag, and
    what follows it: the flag is set before anything else looks at the page. *)
Lemma run_check {A} b H pid h p w t (f : list byte -> option (list byte * A)) p' a :
  session b H -> H !! pid = Some h -> h_excl h = true -> store_page b pid = Some p ->
  f p = Some (p', a) -> len p' = 4096 ->
  exists b1, codecWrite (h_guard h) f (mkDb b w t) = Some (Done (Ok a), mkDb b1 w t) /\
    (forall w t, Writer_GetPageId (h_guard h) (mkDb b1 w t) = Some (Done (Ok pid), mkDb b1 w t)) /\
    (forall w t (C : Type) (f2 : list byte -> option (list byte * C)) p2 c, f2 p' = Some (p2, c) -> len p2 = 4096 ->
      exists b', (do! setDirty (h_guard h); codecWrite (h_guard h) f2) (mkDb b1 w t) = Some (Done (Ok c), mkDb b' w t) /\
        session b' (<[pid := Hold (h_guard h) true true]> H) /\ wrote b b' pid p2).
Proof.
  intros Hs Hh Hex Hp Hf Hlen.
  destruct (write_then_dirty_law b H pid h p' Hs Hh Hex Hlen) as (b1 & b2 & Hw & Hid & Hd & Hs2 & Hpg & Hst).
  destruct (held_page b H pid h Hs Hh) as (Ha & _). exists b1. split_and!.
  - unfold codecWrite. erewrite bind_ok by (by eapply run_pageData).
    rewrite Hf. erewrite bind_ok by apply run_lift. apply run_onPool. cbn. by rewrite Hw.
  - intros w' t'. unfold Writer_GetPageId. rewrite Ha. apply run_onPool. by rewrite Hid.
  - intros w' t' C f2 p2 c Hf2 Hlen2. erewrite bind_ok by (apply run_onPool; by rewrite Hd).
    destruct (run_codecWrite b2 _ pid (Hold (h_guard h) true true) p' w' t' f2 p2 c Hs2) as (b' & Hrun & Hs' & Hwr);
      [by rewrite lookup_insert_eq|done|done|by rewrite Hpg, decide_True|done|done|].
    exists b'. split_and!; [exact Hrun|done|..]; by eapply (wrote_wrote b b2).
Qed.

(** ** Opening and closing guards *)

Lemma run_NewReadGuard b H pid w t :
  session b H -> H !! pid = None -> is_Some (store_page b pid) -> (size H < capacity b)%nat ->
  exists g dt b', NewReadGuardM pid (mkDb b w t) = Some (Done (Ok g), mkDb b' w t) /\
    session b' (<[pid := Hold g false dt]> H) /\ kept b b'.
Proof.
  intros Hs HH Hp Hsz. destruct (open_read_law b H pid Hs HH Hp Hsz) as (g & dt & b' & Ho & Hs' & Hpg & Hst).
  exists g, dt, b'. split_and!; [|done..]. by apply run_onPool.
Qed.

Lemma run_NewWriteGuard b H pid w t cleanup :
  session b H -> H !! pid = None -> is_Some (store_page b pid) -> (size H < capacity b)%nat ->
  exists g dt b', NewWriteGuardM pid cleanup (mkDb b w t) = Some (Done (Ok g), mkDb b' w t) /\
    session b' (<[pid := Hold g true dt]> H) /\ kept b b'.
Proof.
  intros Hs HH Hp Hsz. destruct (open_write_law b H pid Hs HH Hp Hsz) as (g & dt & b' & Ho & Hs' & Hpg & Hst).
  exists g, dt, b'. split_and!; [|done..]. unfold NewWriteGuardM. cbn. by rewrite Ho.
Qed.

Lemma run_doneRead b H pid h w t :
  session b H -> H !! pid = Some h -> h_excl h = false ->
  exists b', doneRead (h_guard h) (mkDb b w t) = Some (Done (Ok tt), mkDb b' w t) /\ session b' (delete pid H) /\ kept b b'.
Proof.
  intros Hs Hh Hex. destruct (read_done_law b H pid h Hs Hh Hex) as (b' & g' & Hd & Hs' & Hpg & Hst).
  exists b'. split_and!; [|done..]. apply run_onPool. by rewrite Hd.
Qed.

Lemma run_doneWrite b H pid h w t :
  session b H -> H !! pid = Some h -> h_excl h = true ->
  exists b', doneWrite (h_guard h) (mkDb b w t) = Some (Done (Ok tt), mkDb b' w t) /\ session b' (delete pid H) /\ kept b b'.
Proof.
  intros Hs Hh Hex. destruct (write_done_law b H pid h Hs Hh Hex) as (b' & g' & Hd & Hs' & Hpg & Hst).
  exists b'. split_and!; [|done..]. apply run_onPool. by rewrite Hd.
Qed.
End nodes.
