(* ===== verification/TreeSpec.v ===== *)
(** * What the tree promises: a finite map

    [tree_at Lf pg h pid m ps] says that the pages [pg] hold a tree of height
    [h] rooted at page [pid] that stores the map [m] on exactly the pages [ps]:
    internal pages route each key to the child that holds its part of the map,
    all leaves have the same depth, and no page is used twice.  [Lf] is the
    leaves' predicate, with or without slack. *)

From S2P Require Export NodeSpec.

Implicit Types (l : list InternalNodeElement) (p : list byte) (m : kvmap).

Definition node_type p : Z := fld 1 p 4.

(** A leaf without slack. *)
Definition exact_leaf p m : Prop := exists free g, leaf_page p m free g.

Lemma exact_leaf_slack p m : exact_leaf p m -> leaf_page_slack p m.
Proof. intros (free & g & Hp). by eapply leaf_page_is_slack. Qed.

(** The part of a map that belongs to child [i]. *)
Definition submap l (i : nat) m : kvmap := filter (fun kv => part kv.1 l = i) m.

Lemma lookup_submap l i m k : submap l i m !! k = if decide (part k l = i) then m !! k else None.
Proof.
  unfold submap. case_decide as Hd.
  - destruct (m !! k) eqn:Hk.
    + by apply map_lookup_filter_Some.
    + apply map_lookup_filter_None. by left.
  - apply map_lookup_filter_None. right. intros x _. done.
Qed.

Lemma submap_part l m k : submap l (part k l) m !! k = m !! k.
Proof. rewrite lookup_submap. by rewrite decide_True. Qed.

(** Changing the map at one key changes one part. *)
Lemma submap_partial_alter f k l i m :
  submap l i (partial_alter f k m) =
    if decide (part k l = i) then partial_alter f k (submap l i m) else submap l i m.
Proof.
  apply map_eq. intros k'. rewrite lookup_submap. destruct (decide (k' = k)) as [->|Hne].
  - rewrite lookup_partial_alter_eq. repeat case_decide; subst; rewrite ?lookup_partial_alter_eq, ?lookup_submap;
      repeat case_decide; done.
  - rewrite lookup_partial_alter_ne by done. repeat case_decide; subst; rewrite ?lookup_partial_alter_ne, ?lookup_submap by done;
      repeat case_decide; done.
Qed.

Section tree_at.
Context (Lf : list byte -> kvmap -> Prop).
Implicit Types (pg : Z -> option (list byte)) (ps : gset Z).

Fixpoint tree_at pg (h : nat) (pid : Z) m ps : Prop :=
  match h with
  | O => exists p, pg pid = Some p /\ Lf p m /\ node_type p = 0 /\ ps = {[pid]}
  | S h => exists p l free g Ss,
      pg pid = Some p /\ internal_page p l free g /\ l <> [] /\ node_type p <> 0 /\
      length Ss = length (children l) /\ ps = {[pid]} ∪ (⋃ Ss) /\ (pid ∉ union_list Ss) /\
      (forall i j A C, Ss !! i = Some A -> Ss !! j = Some C -> i <> j -> A ## C) /\
      forall i c A, children l !! i = Some c -> Ss !! i = Some A -> tree_at pg h c (submap l i m) A
  end.

Lemma tree_at_root pg h pid m ps : tree_at pg h pid m ps -> pid ∈ ps /\ is_Some (pg pid).
Proof.
  destruct h as [|h]; cbn.
  - intros (p & Hp & _ & _ & ->). split; [set_solver|by eexists].
  - intros (p & l & free & g & Ss & Hp & _ & _ & _ & _ & -> & _). split; [set_solver|by eexists].
Qed.

(** A tree depends on its own pages only. *)
Lemma tree_at_ext pg pg' h : forall pid m ps,
  (forall q, q ∈ ps -> pg' q = pg q) -> tree_at pg h pid m ps -> tree_at pg' h pid m ps.
Proof.
  induction h as [|h IH]; intros pid m ps Hext; cbn.
  - intros (p & Hp & HL & Ht & ->). exists p. split_and!; try done. rewrite <- Hp. apply Hext. set_solver.
  - intros (p & l & free & g & Ss & Hp & Hi & Hl & Ht & Hlen & -> & Hn & Hdis & Hch).
    exists p, l, free, g, Ss. split_and!; try done; [rewrite <- Hp; apply Hext; set_solver|].
    intros i c A Hc HA. apply IH; [|by apply (Hch i)]. intros q Hq. apply Hext.
    apply elem_of_union_r, elem_of_union_list. exists A. split; [by eapply list_elem_of_lookup_2|done].
Qed.
End tree_at.

Lemma tree_at_mono (Lf Lf' : list byte -> kvmap -> Prop) pg h : (forall p m, Lf p m -> Lf' p m) ->
  forall pid m ps, tree_at Lf pg h pid m ps -> tree_at Lf' pg h pid m ps.
Proof.
  intros HL. induction h as [|h IH]; intros pid m ps; cbn.
  - intros (p & ? & ? & ? & ?). exists p. by auto.
  - intros (p & l & free & g & Ss & ? & ? & ? & ? & ? & ? & ? & ? & Hch).
    exists p, l, free, g, Ss. split_and!; try done. intros i c A Hc HA. apply IH. by apply (Hch i).
Qed.

(** ** Node types *)

Lemma IsLeafNode_eq p : 32 <= len p -> IsLeafNode p = Some ((fld 1 p 5 =? 0) || (node_type p =? 0)).
Proof.
  intros Hlen. unfold IsLeafNode. change (headerSize cfg) with 32. rewrite slice_header by done. cbn [mbind option_bind].
  rewrite decodePageHeader_eq by (rewrite len_sub; lia). rewrite header_of_sub by done. cbn [mbind option_bind].
  f_equal. unfold header_of, node_type. by destruct (fld 1 p 5 =? 0).
Qed.

Lemma leaf_is_leaf p m : leaf_page_slack p m -> node_type p = 0 -> IsLeafNode p = Some true.
Proof.
  intros (es & fse & g & Hr & _) Ht. pose proof (rep_len _ _ _ _ Hr). rewrite IsLeafNode_eq by lia.
  rewrite Ht. by rewrite orb_true_r.
Qed.

Lemma internal_is_not_leaf p l free g : internal_page p l free g -> l <> [] -> node_type p <> 0 -> IsLeafNode p = Some false.
Proof.
  intros [Hp _] Hl Ht. pose proof (node_page_space _ _ _ _ Hp) as (Hlen & _). rewrite IsLeafNode_eq by lia.
  rewrite (proj2 (Z.eqb_neq _ _) Ht), orb_false_r. f_equal. apply Z.eqb_neq. exact (node_page_filled p l free g Hp Hl).
Qed.

Lemma leaf_elements p m : leaf_page_slack p m -> is_Some (leafGetAllSlotsAndElements p).
Proof. intros (es & fse & g & Hr & _). unfold leafGetAllSlotsAndElements. rewrite (getAll_spec _ _ _ _ Hr). by eexists. Qed.

Lemma internal_elements p l free g : internal_page p l free g -> is_Some (internalGetAllSlotsAndElements p).
Proof.
  intros [Hp _]. destruct (node_page_getAll _ _ _ _ Hp) as (ss & Hga & _). unfold internalGetAllSlotsAndElements.
  rewrite Hga. by eexists.
Qed.
