(* ===== verification/TreeSearch.v ===== *)
(** * Searching the tree (Get, readTraversal, findLeafNodePageId) *)

From S2P Require Export TreeSpec.

(** What [Get] returns. *)
Definition lookup_result (o : option (list byte)) : result (list byte) :=
  match o with Some v => Ok v | None => Error ErrKeyNotFound end.

Section search.
Context {B W : Type} `{PL : PageStoreLaws B} `{!WAL W}.
Implicit Types (b : B) (w : W) (t : BPlusTree) (H : gmap Z hold) (g : Guard).

(** The descent from an internal page: the child, its subtree and its pages. *)
Lemma tree_child Lf pg h pid m ps key p :
  tree_at Lf pg (S h) pid m ps -> pg pid = Some p ->
  exists l free gb c A, internal_page p l free gb /\ l <> [] /\ node_type p <> 0 /\
    IsLeafNode p = Some false /\ is_Some (internalGetAllSlotsAndElements p) /\
    FindNextChildNodePageId p key = Some c /\ children l !! part key l = Some c /\
    tree_at Lf pg h c (submap l (part key l) m) A /\ A ⊆ ps /\ (pid ∉ A) /\ pid ∈ ps.
Proof.
  intros (p' & l & free & g & Ss & Hp & Hi & Hl & Ht & Hlen & -> & Hn & _ & Hch) Hp'. rewrite Hp' in Hp. injection Hp as <-.
  pose proof Hi as (Hnp & Hs & Hli). pose proof (findNext_children l key Hs Hli) as Hc.
  destruct (lookup_lt_is_Some_2 Ss (part key l)) as [A HA]; [rewrite Hlen; by apply lookup_lt_Some in Hc|].
  exists l, free, g, (findNext_loop l key 0), A. assert (A ⊆ ⋃ Ss) as Hsub.
  { intros q Hq. apply elem_of_union_list. exists A. split; [by eapply list_elem_of_lookup_2|done]. }
  split_and!; try done; [by eapply internal_is_not_leaf|by eapply internal_elements|by eapply FindNext_page|by apply (Hch _ _ A)|clear -Hsub; set_solver|clear -Hsub Hn; set_solver|apply elem_of_union_l; by apply elem_of_singleton].
Qed.

Lemma readTraversal_spec Lf h : (forall p m, Lf p m -> leaf_page_slack p m) ->
  forall fuel b H (pid : Z) g dt m ps w t key,
  session b H -> H !! pid = Some (Hold g false dt) -> tree_at Lf (store_page b) h pid m ps ->
  (forall q, q ∈ ps -> q <> pid -> H !! q = None) -> (size H + h <= capacity b)%nat -> (h < fuel)%nat ->
  exists b', readTraversal fuel key g (mkDb b w t) = Some (Done (lookup_result (m !! key)), mkDb b' w t) /\
    session b' H /\ kept b b'.
Proof.
  intros HL. induction h as [|h IH]; intros [|fuel] b H pid g dt m ps w t key Hs Hh Ht Hdis Hsz Hfuel; try lia.
  - destruct Ht as (p & Hp & Hleaf%HL & Hty & ->). exists b. split_and!; [|done|apply kept_refl..]. cbn [readTraversal].
    unfold Cursor_IsLeafNode. erewrite bind_ok by (eapply (run_codecRead b H pid (Hold g false dt)); [done..|by eapply leaf_is_leaf]).
    cbn iota. unfold LeafReader_PrintElements. destruct (leaf_elements _ _ Hleaf) as [x Hx].
    erewrite bind_ok by (erewrite bind_ok by (by eapply (run_codecRead b H pid (Hold g false dt))); done).
    unfold LeafReader_FindValue.
    erewrite bind_ok by (eapply (run_codecRead b H pid (Hold g false dt)); [done..|by apply leaf_find]).
    by destruct (m !! key).
  - destruct (tree_at_root _ _ _ _ _ _ Ht) as [_ [p Hp]].
    destruct (tree_child _ _ _ _ _ _ key p Ht Hp) as (l & free & gb & c & A & Hi & Hl & Hty & Hnl & [x Hx] & Hf & Hc & Hch & Hsub & HpA & Hps).
    destruct (tree_at_root _ _ _ _ _ _ Hch) as [HcA Hpc].
    assert (c <> pid) as Hcp by (intros ->; done).
    assert (H !! c = None) as Hcn by (apply Hdis; [by apply Hsub|done]).
    destruct (run_NewReadGuard b H c w t Hs Hcn Hpc ltac:(lia)) as (gc & dc & b1 & Ho & Hs1 & Hk1).
    destruct (IH fuel b1 (<[c := Hold gc false dc]> H) c gc dc (submap l (part key l) m) A w t key Hs1) as (b2 & Hr & Hs2 & Hk2).
    { by rewrite lookup_insert_eq. }
    { eapply tree_at_ext; [|exact Hch]. intros q _. by rewrite (proj1 Hk1). }
    { intros q Hq Hqc. rewrite lookup_insert_ne by done. apply Hdis; [by apply Hsub|]. by intros ->. }
    { rewrite map_size_insert_None by done. destruct Hk1 as [_ (-> & _)]. lia. }
    { lia. }
    destruct (run_doneRead b2 _ c (Hold gc false dc) w t Hs2) as (b3 & Hd & Hs3 & Hk3); [by rewrite lookup_insert_eq|done|].
    rewrite delete_insert_id in Hs3 by done. exists b3.
    split_and!; [|done|by eapply kept_trans, kept_trans..]. cbn [readTraversal].
    unfold Cursor_IsLeafNode. erewrite bind_ok by (by eapply (run_codecRead b H pid (Hold g false dt))). cbn iota.
    unfold InternalReader_PrintElements.
    erewrite bind_ok by (erewrite bind_ok by (by eapply (run_codecRead b H pid (Hold g false dt))); done).
    unfold InternalReader_FindNextChildNodePageId.
    erewrite bind_ok by (by eapply (run_codecRead b H pid (Hold g false dt))).
    erewrite bind_ok by exact Ho. rewrite submap_part in Hr. by eapply defer_ok.
Qed.

(** ** Databases that hold a tree *)

(** The tree's pages are in use, pages not in use are blank, no guard is open. *)
Record tree_db (Lf : list byte -> kvmap -> Prop) (st : Db B W) (h : nat) (m : kvmap) (ps : gset Z) : Prop := {
  td_session : session (pool st) ∅;
  td_tree : tree_at Lf (store_page (pool st)) h (rootNodePageId (tree st)) m ps;
  td_used q : q ∈ ps -> md_in_use (bpm_metadata (pool st)) q;
  td_blank q data : store_page (pool st) q = Some data -> ~ md_in_use (bpm_metadata (pool st)) q -> q <> 0 -> data = blank_page
}.

Lemma tree_db_kept Lf b b' w w' t h m ps :
  tree_db Lf (mkDb b w t) h m ps -> kept b b' -> session b' ∅ -> tree_db Lf (mkDb b' w' t) h m ps.
Proof.
  intros [_ Ht Hu Hb] [Hpg (_ & Hm & _)] Hs. constructor; cbn in *; try done; rewrite ?Hm; [|done|].
  - eapply tree_at_ext; [|exact Ht]. intros q _. by rewrite Hpg.
  - intros q data. rewrite Hpg. apply Hb.
Qed.

(** [Get] on a tree that has a root. *)
Lemma Get_run Lf b w t h m ps fuel key :
  (forall p m, Lf p m -> leaf_page_slack p m) -> tree_db Lf (mkDb b w t) h m ps -> (h < capacity b)%nat -> (h < fuel)%nat ->
  exists b', BPlusTree_Get fuel key (mkDb b w t) = Some (Done (lookup_result (m !! key)), mkDb b' w t) /\ session b' ∅ /\ kept b b'.
Proof.
  intros HL [Hs Ht _ _] Hcap Hfuel. cbn [pool tree wal] in *. destruct (tree_at_root _ _ _ _ _ _ Ht) as [_ Hr].
  destruct (run_NewReadGuard b ∅ (rootNodePageId t) w t Hs (lookup_empty _) Hr) as (g & dt & b1 & Ho & Hs1 & Hk1);
    [rewrite map_size_empty; lia|].
  destruct (readTraversal_spec Lf h HL fuel b1 _ (rootNodePageId t) g dt m ps w t key Hs1) as (b2 & Hrun & Hs2 & Hk2);
    [by rewrite lookup_insert_eq|eapply tree_at_ext; [|exact Ht]; intros q _; by rewrite (proj1 Hk1)
    |intros q _ Hq; by rewrite lookup_insert_ne
    |rewrite map_size_insert_None, map_size_empty by done; destruct Hk1 as [_ (-> & _)]; lia|done|].
  destruct (run_doneRead b2 _ (rootNodePageId t) (Hold g false dt) w t Hs2) as (b3 & Hd & Hs3 & Hk3); [by rewrite lookup_insert_eq|done|].
  rewrite delete_insert_id in Hs3 by done. exists b3. split; [|split; [done|by eapply kept_trans, kept_trans]].
  unfold BPlusTree_Get. rewrite bind_getTree. erewrite bind_ok by exact Ho. by eapply defer_ok.
Qed.

(** C2: [Get] on a tree that holds [m], when it runs alone (no other guard is
    open), no disk error is to come and the pool has a frame for every level of the
    tree: it returns the value that [m] holds at the key, or "key not found"; it
    does not block, panic or fail otherwise, and leaves every page and the log as
    they were, with all guards closed.  Values may have been shortened in place.
    (For [Get]s that run together see [concurrent_gets_correct].) *)
Theorem tree_Get_correct Lf (st : Db B W) h m ps fuel key :
  (forall p m, Lf p m -> leaf_page_slack p m) -> tree_db Lf st h m ps ->
  (h < capacity (pool st))%nat -> (h < fuel)%nat ->
  exists st', BPlusTree_Get fuel key st = Some (Done (lookup_result (m !! key)), st') /\
    tree_db Lf st' h m ps /\ tree st' = tree st /\ wal st' = wal st /\
    forall q, store_page (pool st') q = store_page (pool st) q.
Proof.
  intros HL Hdb Hcap Hfuel. destruct st as [b w t]. cbn [pool wal tree] in *.
  destruct (Get_run Lf b w t h m ps fuel key HL Hdb Hcap Hfuel) as (b' & Hr & Hs & Hk).
  exists (mkDb b' w t). split; [done|split; [by eapply tree_db_kept|split; [done|split; [done|apply Hk]]]].
Qed.
End search.
