(* ===== verification/Iterator.v ===== *)
(** * The iterator over the leaves (src/bplustree: iterative_cursor.go,
      b_plus_tree_iterator.go)

    The cursor keeps a read guard on a leaf and a slot number. *)

From S2P Require Export TreeSearch.

(** ** The code *)

(** The loop from slot [cur], with [n] slots left. *)
Fixpoint nextSlot_loop (page : list byte) (n : nat) (cur : Z) : option Z :=
  match n with
  | O => Some cur
  | S n => deleted ← IsSlotDeleted page cur; if deleted : bool then Some cur else nextSlot_loop page n (cur + 1)
  end.

Definition nextSlot (page : list byte) (cur : Z) : option Z :=
  slots ← GetNumSlots page;
  cur ← nextSlot_loop page (Z.to_nat (slots - cur)) cur;
  Some (if cur =? slots then -1 else cur).

Record IterativeCursor := mkCursor { readGuard : Guard; currentSlotId : Z }.

Section iterator.
Context {B W : Type} `{!BufferPoolManager B} `{!WAL W}.
Implicit Types c : IterativeCursor.
Abbreviation M := (M B W).

(** An error as a value. *)
Definition try {A} (m : M A) : M (result A) := fun st =>
  match m st with
  | Some (Done r, st) => Some (Done (Ok r), st)
  | Some (Blocked, st) => Some (Blocked, st)
  | None => None
  end.

(** [Done] on a guard that stays in use: the guard it leaves. *)
Definition finishRead (g : Guard) : M Guard := onPool (fun b => '(_, g, b) ← guard_ReadDone b g; Some (Done (Ok g), b)).

Definition NewBPlusIterator : M IterativeCursor :=
  let! t := getTree in
  let! g := NewReadGuardM (firstLeafNodePageId t) in
  ret (mkCursor g 0).

Definition CurrentValue c : M (list byte) :=
  codecRead (readGuard c) (fun p => GetValueCorrespondingToSlot p (u16 (currentSlotId c))).

(** The cursor changes also when an error is returned. *)
Definition Iterator_Next c : M (result unit * IterativeCursor) :=
  let! nextSlotId := codecRead (readGuard c) (fun p => nextSlot p (currentSlotId c)) in
  if nextSlotId =? -1 then
    let! next := codecRead (readGuard c) GetNextLeafNodePageId in
    if next =? 0 then ret (Error ErrEndOfIterator, mkCursor (readGuard c) 0)
    else
      let! finished := finishRead (readGuard c) in
      let! r := try (NewReadGuardM next) in
      match r with
      | Error e => ret (Error e, mkCursor finished 0)
      | Ok g => ret (Ok tt, mkCursor g 0)
      end
  else ret (Ok tt, c).

Definition Iterator_Close c : M unit := doneRead (readGuard c).
End iterator.

(** ** What it does *)

Lemma live_slots_length {E} `{NL : NodeElementLaws E} (es : list (entry E)) : length (live_slots es) = length (lives es).
Proof. unfold live_slots, lives. induction es as [|[ptr size e|size] es IH]; cbn; [done|by rewrite IH|done]. Qed.

Lemma live_slot_not_deleted {E} `{NL : NodeElementLaws E} p (es : list (entry E)) fse g i s :
  page_rep p es fse g -> live_slots es !! i = Some s -> isElementDeleted s = false.
Proof.
  intros [_ _ _ Hroom He _ _] Hs%list_elem_of_lookup_2. unfold live_slots in Hs.
  apply list_elem_of_omap in Hs as ([ptr size e|size] & Hin & Heq); [|done]. injection Heq as <-.
  rewrite list.Forall_forall in He. pose proof (len_nonneg es). eapply isElementDeleted_live; [|by apply He]. lia.
Qed.

(** The slots of a leaf: as many as the header says, deleted ones included. *)
Lemma leaf_slots p m :
  leaf_page_slack p m ->
  exists n, GetNumSlots p = Some n /\ Z.of_nat (size m) <= n /\
    forall i, 0 <= i -> IsSlotDeleted p i = if decide (i < Z.of_nat (size m)) then Some false else None.
Proof.
  intros (es & fse & g & Hr & _ & Hu & <-). pose proof Hr as [Hlen Hh _ _ _ _ _]. exists (len es).
  assert (Z.of_nat (size (kv_map (lives es))) = len (lives es)) as Hsz by (by rewrite kv_map_size).
  assert (len (lives es) <= len es) as Hle by (unfold len, lives; pose proof (length_omap_le entry_elt es); lia).
  split_and!; [|lia|].
  - unfold GetNumSlots. change getHeaderSize with 32. rewrite slice_header by lia. cbn [mbind option_bind].
    rewrite decodePageHeader_eq by (rewrite len_sub; lia). rewrite header_of_sub by lia. cbn [mbind option_bind].
    by destruct (hdr_header _ _ _ _ Hh) as (-> & _).
  - intros i Hi. unfold IsSlotDeleted, leafGetAllSlotsAndElements. rewrite (getAll_spec _ _ _ _ Hr). cbn [mbind option_bind].
    unfold index. rewrite (proj2 (Z.leb_le _ _) Hi). rewrite Hsz. pose proof (live_slots_length es) as Hll. unfold len in *.
    destruct (live_slots es !! Z.to_nat i) as [s|] eqn:Hs; cbn [mbind option_bind].
    + apply lookup_lt_Some in Hs as Hlt. rewrite decide_True by lia. by rewrite (live_slot_not_deleted p es fse g _ s Hr Hs).
    + apply lookup_ge_None in Hs. by rewrite decide_False by lia.
Qed.

(** From any slot up to the number of pairs, the loop passes every pair; then it
    is at the end of the page, or indexes past the live slots. *)
Lemma nextSlot_leaf p m cur :
  leaf_page_slack p m -> 0 <= cur <= Z.of_nat (size m) ->
  nextSlot p cur = if decide (GetNumSlots p = Some (Z.of_nat (size m))) then Some (-1) else None.
Proof.
  intros Hp Hcur. destruct (leaf_slots p m Hp) as (n & Hn & Hle & Hdel). unfold nextSlot. rewrite Hn. cbn [mbind option_bind].
  assert (forall k c, 0 <= c <= Z.of_nat (size m) -> c + Z.of_nat k = n ->
    nextSlot_loop p k c = if decide (n = Z.of_nat (size m)) then Some n else None) as Hloop.
  { induction k as [|k IH]; intros c Hc Hk; cbn [nextSlot_loop].
    - rewrite decide_True by lia. f_equal. lia.
    - rewrite Hdel by lia. destruct (decide (c < Z.of_nat (size m))); cbn [mbind option_bind]; [apply IH; lia|].
      by rewrite decide_False by lia. }
  rewrite Hloop by lia. destruct (decide (n = Z.of_nat (size m))) as [->|Hne]; cbn [mbind option_bind].
  - by rewrite Z.eqb_refl, decide_True.
  - rewrite decide_False; [done|]. congruence.
Qed.

Section spec.
Context {B W : Type} `{PL : PageStoreLaws B} `{!WAL W}.
Implicit Types (b : B) (w : W) (t : BPlusTree) (H : gmap Z hold) (g : Guard).

(** [Next] never stops at a pair of its leaf: on a leaf without deleted
    slots it goes straight to the next leaf, or reports the end when there is
    none, however many pairs are left; on a leaf with a deleted slot it
    panics. *)
Theorem iterator_skips_pairs b H pid g dt p m (cur : Z) w t :
  session b H -> H !! pid = Some (Hold g false dt) -> store_page b pid = Some p -> leaf_page_slack p m ->
  0 <= cur <= Z.of_nat (size m) ->
  let next := fld 8 p 16 in
  if decide (GetNumSlots p = Some (Z.of_nat (size m))) then
    (next = 0 -> Iterator_Next (mkCursor g cur) (mkDb b w t) = Some (Done (Ok (Error ErrEndOfIterator, mkCursor g 0)), mkDb b w t)) /\
    (next <> 0 -> delete pid H !! next = None -> is_Some (store_page b next) -> (size (delete pid H) < capacity b)%nat ->
     exists b' g' dt', Iterator_Next (mkCursor g cur) (mkDb b w t) = Some (Done (Ok (Ok tt, mkCursor g' 0)), mkDb b' w t) /\
       session b' (<[next := Hold g' false dt']> (delete pid H)) /\ kept b b')
  else Iterator_Next (mkCursor g cur) (mkDb b w t) = None.
Proof.
  intros Hs Hh Hp Hl Hcur next. pose proof (store_page_len _ _ _ _ Hs Hp) as Hlen.
  assert (GetNextLeafNodePageId p = Some next) as Hnext.
  { unfold GetNextLeafNodePageId. change getHeaderSize with 32. rewrite slice_header by lia. cbn [mbind option_bind].
    unfold getNextLeafNodePageId. change (nextLeafNodePageIdOffset cfg) with 16. rewrite fld_readUint by (rewrite ?len_sub; lia).
    f_equal. unfold next, fld. by rewrite sub_sub by lia. }
  pose proof (nextSlot_leaf p m cur Hl Hcur) as Hns. unfold Iterator_Next. cbn [readGuard currentSlotId]. case_decide as Hfull.
  - assert (codecRead g (fun p => nextSlot p cur) (mkDb b w t) = Some (Done (Ok (-1)), mkDb b w t)) as R1
      by (eapply (run_codecRead b H pid (Hold g false dt)); [done..|exact Hns]).
    assert (codecRead g GetNextLeafNodePageId (mkDb b w t) = Some (Done (Ok next), mkDb b w t)) as R2
      by (by eapply (run_codecRead b H pid (Hold g false dt))).
    split.
    + intros Hz. erewrite bind_ok by exact R1. cbn [Z.eqb Pos.eqb]. erewrite bind_ok by exact R2. by rewrite Hz.
    + intros Hz Hn Hpn Hsz. destruct (read_done_law b H pid (Hold g false dt) Hs Hh eq_refl) as (b1 & g1 & Hd & Hs1 & Hpg1 & Hst1).
      destruct (run_NewReadGuard b1 (delete pid H) next w t Hs1 Hn) as (g2 & dt2 & b2 & Ho & Hs2 & Hk2);
        [by rewrite Hpg1|destruct Hst1 as (-> & _); lia|].
      exists b2, g2, dt2. split; [|split; [done|by eapply kept_trans]]. erewrite bind_ok by exact R1. cbn [Z.eqb Pos.eqb].
      erewrite bind_ok by exact R2. rewrite (proj2 (Z.eqb_neq _ _) Hz).
      assert (finishRead g (mkDb b w t) = Some (Done (Ok g1), mkDb b1 w t)) as R3 by (apply run_onPool; cbn in Hd; by rewrite Hd).
      erewrite bind_ok by exact R3. unfold try. unfold bind at 1. by rewrite Ho.
  - unfold bind, codecRead, bind. erewrite (run_pageData b H pid (Hold g false dt)) by done. by rewrite Hns.
Qed.
End spec.
