(* ===== verification/TreeDelete.v ===== *)
(** * Deleting from the tree (Delete, findLeafNodePageId) *)

From S2P Require Export TreeSearch.

(** The leaf that a key leads to. *)
Fixpoint leaf_of (pg : Z -> option (list byte)) (h : nat) (pid : Z) (key : list byte) (c : Z) : Prop :=
  match h with
  | O => c = pid
  | S h => exists p c', pg pid = Some p /\ FindNextChildNodePageId p key = Some c' /\ leaf_of pg h c' key c
  end.

Lemma leaf_of_ext pg pg' h : (forall q, pg' q = pg q) ->
  forall pid key c, leaf_of pg h pid key c -> leaf_of pg' h pid key c.
Proof.
  intros Hext. induction h as [|h IH]; intros pid key c; cbn; [done|]. intros (p & c' & Hp & Hf & Hl).
  exists p, c'. rewrite Hext. by auto.
Qed.

(** Every key has its leaf, which holds the tree's map at that key; a change of
    the leaf at the key is the same change of the tree. *)
Lemma tree_leaf (Lf Lf' : list byte -> kvmap -> Prop) pg key h : (forall p m, Lf p m -> Lf' p m) ->
  forall pid m ps, tree_at Lf pg h pid m ps ->
  exists c p mc, leaf_of pg h pid key c /\ c ∈ ps /\ pg c = Some p /\ Lf p mc /\ node_type p = 0 /\ mc !! key = m !! key /\
    forall pg' p' f, (forall q, q ∈ ps -> q <> c -> pg' q = pg q) -> pg' c = Some p' ->
      Lf' p' (partial_alter f key mc) -> node_type p' = 0 -> tree_at Lf' pg' h pid (partial_alter f key m) ps.
Proof.
  intros HL. induction h as [|h IH]; intros pid m ps Ht.
  - destruct Ht as (p & Hp & Hl & Hty & ->). exists pid, p, m. cbn.
    split_and!; try done; [by apply elem_of_singleton|]. intros pg' p' f _ Hp' Hl' Hty'. exists p'. by split_and!.
  - pose proof Ht as (p & l & free & g & Ss & Hp & Hi & Hl & Hty & Hlen & -> & Hn & Hdis & Hch).
    destruct (tree_child _ _ _ _ _ _ key p Ht Hp) as (l2 & free2 & g2 & c' & A2 & Hi2 & _ & _ & _ & _ & Hf & _).
    clear l2 free2 g2 A2 Hi2. pose proof Hi as (Hnp & Hs & Hli). pose proof (findNext_children l key Hs Hli) as Hc.
    rewrite (FindNext_page _ _ _ _ key Hnp) in Hf. injection Hf as <-. set (i := part key l) in *.
    destruct (lookup_lt_is_Some_2 Ss i) as [A HA]; [rewrite Hlen; by apply lookup_lt_Some in Hc|].
    destruct (IH _ _ _ (Hch i _ A Hc HA)) as (c & q & mc & Hlo & HcA & Hq & HLq & Htq & Hmc & Hupd).
    assert (forall j C, Ss !! j = Some C -> C ⊆ ⋃ Ss) as Hin.
    { intros j C HC x Hx. apply elem_of_union_list. exists C. split; [by eapply list_elem_of_lookup_2|done]. }
    assert (c ∈ ⋃ Ss) as HcS by (by eapply Hin). exists c, q, mc.
    split_and!; [|by apply elem_of_union_r|done|done|done|rewrite Hmc; apply submap_part|].
    { exists p, (findNext_loop l key 0). split_and!; [done|by eapply FindNext_page|done]. }
    intros pg' p' f Hext Hp' HL' Hty'. exists p, l, free, g, Ss.
    split_and!; try done.
    { rewrite Hext; [done|apply elem_of_union_l; by apply elem_of_singleton|by intros ->]. }
    intros j d C Hd HC. rewrite submap_partial_alter. fold i. destruct (decide (i = j)) as [<-|Hne].
    + rewrite HA in HC. injection HC as <-. rewrite Hc in Hd. injection Hd as <-. eapply Hupd; try done.
      intros x Hx Hxc. apply Hext; [|done]. apply elem_of_union_r. by eapply Hin.
    + apply (tree_at_mono Lf Lf'); [done|]. eapply tree_at_ext; [|by apply (Hch j d C)]. intros x Hx.
      apply Hext; [apply elem_of_union_r; by eapply Hin|]. intros ->.
      specialize (Hdis i j A C HA HC Hne). by apply (Hdis c).
Qed.

Section delete.
Context {B W : Type} `{PL : PageStoreLaws B} `{!WAL W}.
Implicit Types (b : B) (w : W) (t : BPlusTree) (H : gmap Z hold) (g : Guard).

(** A page of the tree rewritten. *)
Lemma tree_db_wrote Lf Lf' b b' w w' t h m m' ps c p' :
  tree_db Lf (mkDb b w t) h m ps -> c ∈ ps -> wrote b b' c p' -> session b' ∅ ->
  tree_at Lf' (store_page b') h (rootNodePageId t) m' ps -> tree_db Lf' (mkDb b' w' t) h m' ps.
Proof.
  intros [_ _ Hu Hb] Hc Hw Hs Ht. pose proof Hw as [_ (_ & Hm & _)]. constructor; cbn in *; rewrite ?Hm; try done.
  intros q data Hq Hn Hz. destruct (decide (q = c)) as [->|Hne]; [by apply Hu in Hc|].
  rewrite (wrote_other _ _ _ _ _ Hw Hne) in Hq. by eapply Hb.
Qed.

Lemma findLeaf_spec Lf h : (forall p m, Lf p m -> leaf_page_slack p m) ->
  forall fuel b (pid : Z) m ps w t key c,
  session b ∅ -> tree_at Lf (store_page b) h pid m ps -> leaf_of (store_page b) h pid key c ->
  (0 < capacity b)%nat -> (h < fuel)%nat ->
  exists b', findLeafNodePageId fuel key pid (mkDb b w t) = Some (Done (Ok c), mkDb b' w t) /\ session b' ∅ /\ kept b b'.
Proof.
  intros HL. induction h as [|h IH]; intros [|fuel] b pid m ps w t key c Hs Ht Hlo Hcap Hfuel; try lia.
  all: destruct (tree_at_root _ _ _ _ _ _ Ht) as [_ Hpg]; pose proof Hpg as [p Hp].
  all: destruct (run_NewReadGuard b ∅ pid w t Hs (lookup_empty _) Hpg) as (g & dt & b1 & Ho & Hs1 & Hk1);
    [by rewrite map_size_empty|].
  all: assert (store_page b1 pid = Some p) as Hp1 by (by rewrite (proj1 Hk1)).
  all: destruct (run_doneRead b1 _ pid (Hold g false dt) w t Hs1) as (b2 & Hd & Hs2 & Hk2); [by rewrite lookup_insert_eq|done|].
  all: rewrite delete_insert_id in Hs2 by done.
  all: cbn [findLeafNodePageId]; unfold Cursor_IsLeafNode, InternalReader_FindNextChildNodePageId.
  - cbn in Hlo. subst c. destruct Ht as (p0 & Hp0 & Hl%HL & Hty & _). rewrite Hp in Hp0. injection Hp0 as <-.
    exists b2. split_and!; [|done|by eapply kept_trans..]. erewrite bind_ok by exact Ho.
    erewrite bind_ok by (eapply (run_codecRead b1 _ pid (Hold g false dt)); [done|by rewrite lookup_insert_eq|done|by eapply leaf_is_leaf]).
    cbn iota. erewrite bind_ok by exact Hd. done.
  - destruct (tree_child _ _ _ _ _ _ key p Ht Hp) as (l & free & gb & c' & A & _ & _ & _ & Hnl & _ & Hf & _ & Hch & _).
    destruct Hlo as (p0 & c0 & Hp0 & Hf0 & Hlo). rewrite Hp in Hp0. injection Hp0 as <-. rewrite Hf in Hf0. injection Hf0 as <-.
    assert (kept b b2) as Hk by (by eapply kept_trans).
    destruct (IH fuel b2 c' (submap l (part key l) m) A w t key c Hs2) as (b3 & Hr & Hs3 & Hk3).
    { eapply tree_at_ext; [|exact Hch]. intros q _. by rewrite (proj1 Hk). }
    { eapply leaf_of_ext; [|exact Hlo]. apply Hk. }
    { by destruct Hk as [_ (-> & _)]. }
    { lia. }
    exists b3. split_and!; [|done|by eapply kept_trans..]. erewrite bind_ok by exact Ho.
    erewrite bind_ok by (eapply (run_codecRead b1 _ pid (Hold g false dt)); [done|by rewrite lookup_insert_eq|done|done]).
    cbn iota.
    erewrite bind_ok by (eapply (run_codecRead b1 _ pid (Hold g false dt)); [done|by rewrite lookup_insert_eq|done|done]).
    erewrite bind_ok by exact Hd. exact Hr.
Qed.

Lemma Delete_run b w t (h : nat) (m : kvmap) (ps : gset Z) (fuel : nat) (key : list byte) :
  tree_db exact_leaf (mkDb b w t) h m ps -> (0 < capacity b)%nat -> (h < fuel)%nat ->
  exists b', BPlusTree_Delete fuel key (mkDb b w t) =
      Some (Done (if decide (is_Some (m !! key)) then Ok tt else Error ErrKeyNotFound), mkDb b' w t) /\
    tree_db exact_leaf (mkDb b' w t) h (delete key m) ps /\ capacity b' = capacity b.
Proof.
  intros Hdb Hcap Hfuel. pose proof Hdb as [Hs Ht Hu Hb]. cbn [pool wal tree] in *.
  destruct (tree_at_root _ _ _ _ _ _ Ht) as [Hroot _].
  assert (rootNodePageId t <> 0) as Hne by (destruct (Hu _ Hroot); lia).
  destruct (tree_leaf exact_leaf exact_leaf (store_page b) key h ltac:(done) _ _ _ Ht)
    as (c & p & mc & Hlo & Hc & Hp & (free & gb & Hl) & Hty & Hmc & Hupd).
  destruct (findLeaf_spec exact_leaf h exact_leaf_slack fuel b (rootNodePageId t) m ps w t key c Hs Ht Hlo Hcap Hfuel)
    as (b1 & Hfind & Hs1 & Hk1).
  assert (store_page b1 c = Some p) as Hp1 by (by rewrite (proj1 Hk1)).
  destruct (run_NewWriteGuard b1 ∅ c w t noCleanup Hs1 (lookup_empty _)) as (g & dt & b2 & Ho & Hs2 & Hk2);
    [by eexists|rewrite map_size_empty; by destruct Hk1 as [_ (-> & _)]|].
  destruct (leaf_delete p mc free gb key Hl) as (p' & g' & Hdel & Hl' & Hmeta & _).
  destruct (run_dirty_write b2 _ c (Hold g true dt) p w t (fun p => leafDeleteElement p key) p'
    (bool_decide (is_Some (mc !! key))) Hs2)
    as (b3 & Hrun & Hs3 & Hw3); [by rewrite lookup_insert_eq|done|by rewrite (proj1 Hk2)|exact Hdel|by eapply leaf_page_len|].
  rewrite insert_insert_eq in Hs3.
  destruct (run_doneWrite b3 _ c (Hold g true true) w t Hs3) as (b4 & Hd & Hs4 & Hk4); [by rewrite lookup_insert_eq|done|].
  rewrite delete_insert_id in Hs4 by done.
  destruct (held_page b2 _ c (Hold g true dt) Hs2) as (Hact & _); [by rewrite lookup_insert_eq|].
  assert (wrote b b4 c p') as Hw by (eapply wrote_kept; [|exact Hk4]; eapply kept_wrote; [|exact Hw3]; by eapply kept_trans).
  exists b4. split; [|split; [|apply Hw]].
  - unfold BPlusTree_Delete. rewrite bind_getTree. rewrite (proj2 (Z.eqb_neq _ _) Hne).
    erewrite bind_ok by exact Hfind. erewrite bind_ok by exact Ho. eapply defer_ok; [|exact Hd].
    unfold LeafWriter_DeleteKeyValue. cbn [h_guard] in Hact. rewrite Hact. cbn [negb].
    erewrite bind_ok by exact Hrun. rewrite Hmc. case_decide as Hd'.
    + by rewrite bool_decide_eq_true_2.
    + by rewrite bool_decide_eq_false_2.
  - eapply tree_db_wrote; [exact Hdb|exact Hc|exact Hw|exact Hs4|].
    apply (Hupd _ p'); [intros q _ Hq; by eapply wrote_other|by eapply wrote_page|by eexists _, _|].
    unfold node_type in *. injection Hmeta as -> _ _. done.
Qed.

(** C3: [Delete] removes exactly the key from the tree's map and reports
    whether it was there; every other key keeps its value, and all guards are
    closed. *)
Theorem tree_Delete_correct (st : Db B W) (h : nat) (m : kvmap) (ps : gset Z) (fuel : nat) (key : list byte) :
  tree_db exact_leaf st h m ps -> (0 < capacity (pool st))%nat -> (h < fuel)%nat ->
  exists st', BPlusTree_Delete fuel key st =
      Some (Done (if decide (is_Some (m !! key)) then Ok tt else Error ErrKeyNotFound), st') /\
    tree_db exact_leaf st' h (delete key m) ps /\ tree st' = tree st /\ wal st' = wal st.
Proof.
  destruct st as [b w t]. intros Hdb Hcap Hfuel.
  destruct (Delete_run b w t h m ps fuel key Hdb Hcap Hfuel) as (b' & Hr & Hdb' & _). exists (mkDb b' w t). by split_and!.
Qed.
End delete.
