(* ===== verification/TreeInsert.v ===== *)
(** * Inserting into a leaf with room (Insert, writeTraversal, writeLeaf)

    The paths of [Insert] that do not split a node: updating a value, adding a
    pair to a leaf that has room for it and its slot, and, as the code is
    written, dropping a pair whose slot does not fit. *)

From S2P Require Export TreeDelete.

(** The log takes every record: an assumption on the Lucario package and the
    disk below it, for the paths without errors. *)
Definition log_reliable (W : Type) `{!WAL W} : Prop :=
  forall (w : W) op, exists lsn w', wal_log w op = (Ok lsn, w').

(** The log goes from one state to another by taking these records. *)
Inductive logged {W : Type} `{!WAL W} : W -> list WALRecord -> W -> Prop :=
  | logged_nil w : logged w [] w
  | logged_cons w op lsn w1 rs w2 :
      wal_log w op = (Ok lsn, w1) -> logged w1 rs w2 -> logged w (mkRecord lsn op :: rs) w2.

Lemma logged_app {W} `{!WAL W} (w1 w2 w3 : W) rs rs' : logged w1 rs w2 -> logged w2 rs' w3 -> logged w1 (rs ++ rs') w3.
Proof. induction 1 as [|w op lsn w0 rs w2 Hl _ IH]; [done|]. intros. cbn. econstructor; [exact Hl|auto]. Qed.

(** The page's LSN. *)
Definition page_lsn (p : list byte) : Z := fld 8 p 24.

Lemma SetLSN_eq p lsn : 32 <= len p -> SetLSN p lsn = Some (write p 24 (le 8 lsn)).
Proof. intros Hl. unfold SetLSN. rewrite headerView_eq by done. cbn [mbind option_bind]. apply setLSN_eq. Qed.

(** Stamping a page with an LSN keeps what it stores. *)
Lemma node_page_lsn {E} `{NL : NodeElementLaws E} p (l : list E) free g lsn :
  node_page p l free g ->
  exists p', SetLSN p lsn = Some p' /\ node_page p' l free g /\ node_type p' = node_type p /\
    fld 8 p' 16 = fld 8 p 16 /\ len p' = 4096 /\ page_lsn p' = u64 lsn.
Proof.
  intros Hp. pose proof (node_page_space _ _ _ _ Hp) as (Hlen & _). exists (write p 24 (le 8 lsn)).
  assert (node_page (write p 24 (le 8 lsn)) l free g) as Hp'.
  { apply node_page_write_meta; [done|]. right. rewrite len_le. lia. }
  split_and!; [apply SetLSN_eq; lia|done| | |by destruct (node_page_space _ _ _ _ Hp')|].
  - unfold node_type. by page_fld.
  - by page_fld.
  - unfold page_lsn, fld.
    destruct (holds_write_same p 24 (le 8 lsn)) as (_ & _ & Hh); [solve_len|solve_len|]. rewrite len_le in Hh.
    change (Z.of_nat 8) with 8 in *. rewrite Hh. apply unle_le.
Qed.

Lemma leaf_page_lsn p m free g lsn :
  leaf_page p m free g ->
  exists p', SetLSN p lsn = Some p' /\ leaf_page p' m free g /\ node_type p' = node_type p /\ len p' = 4096 /\
    page_lsn p' = u64 lsn.
Proof.
  intros (l & Hp & Hu & Hm). destruct (node_page_lsn p l free g lsn Hp) as (p' & ? & ? & ? & _ & ? & ?).
  exists p'. split_and!; try done. by exists l.
Qed.

Lemma leaf_page_fun p m m' : leaf_page_slack p m -> leaf_page_slack p m' -> m = m'.
Proof.
  intros H1 H2. apply map_eq. intros k. pose proof (leaf_find p m k H1) as F1. rewrite (leaf_find p m' k H2) in F1.
  congruence.
Qed.

Lemma leaf_of_unique pg h : forall pid key c c', leaf_of pg h pid key c -> leaf_of pg h pid key c' -> c = c'.
Proof.
  induction h as [|h IH]; cbn; intros pid key c c'; [congruence|].
  intros (p & d & Hp & Hf & Hl) (p' & d' & Hp' & Hf' & Hl'). simplify_eq. by eapply IH.
Qed.

(** [tree_leaf] for a leaf that is known. *)
Lemma tree_leaf_at (Lf : list byte -> kvmap -> Prop) pg key h pid m ps c p mc free g :
  (forall p m, exact_leaf p m -> Lf p m) ->
  tree_at exact_leaf pg h pid m ps -> leaf_of pg h pid key c -> pg c = Some p -> leaf_page p mc free g ->
  c ∈ ps /\ node_type p = 0 /\ mc !! key = m !! key /\
  forall pg' p' f, (forall q, q ∈ ps -> q <> c -> pg' q = pg q) -> pg' c = Some p' ->
    Lf p' (partial_alter f key mc) -> node_type p' = 0 -> tree_at Lf pg' h pid (partial_alter f key m) ps.
Proof.
  intros HL Ht Hlo Hp Hl.
  destruct (tree_leaf exact_leaf Lf pg key h HL _ _ _ Ht) as (c0 & p0 & mc0 & Hlo0 & Hc & Hp0 & Hl0 & Hty & Hmc & Hupd).
  assert (c0 = c) as -> by (by eapply leaf_of_unique). rewrite Hp in Hp0. injection Hp0 as <-.
  assert (mc0 = mc) as -> by (eapply leaf_page_fun; [by apply exact_leaf_slack|by eapply leaf_page_is_slack]).
  by split_and!.
Qed.

(** The leaf takes the pair without a split. *)
Definition leaf_accepts (m : kvmap) (free g : Z) (key value : list byte) : Prop :=
  leaf_need key value < 65536 /\
  match m !! key with
  | Some w => len value <= len w \/ leaf_size_fits key value free g
  | None => leaf_need key value <= free \/ leaf_need key value <= g
  end.

(** The new value is not shorter than the one it replaces. *)
Definition no_shrink (m : kvmap) (key value : list byte) : Prop :=
  forall w, m !! key = Some w -> len w <= len value.

(** The page after the insertion, stamped with the record's LSN. *)
Definition leaf_stores (p : list byte) (m : kvmap) (key value : list byte) (lsn : Z) (p' : list byte) : Prop :=
  leaf_page_slack p' (<[key := value]> m) /\ (no_shrink m key value -> exact_leaf p' (<[key := value]> m)) /\
  node_type p' = node_type p /\ page_lsn p' = u64 lsn.

(** The record of the insertion. *)
Definition leaf_record (id c : Z) (m : kvmap) (key value : list byte) : LogOperation :=
  match m !! key with
  | Some _ => UpdateLeafNodeEntry id c key value
  | None => InsertLeafNodeEntry id c key value
  end.

Section insert.
Context {B W : Type} `{PL : PageStoreLaws B} `{!WAL W} (Hlog : log_reliable W).
Implicit Types (b : B) (w : W) (t : BPlusTree) (H : gmap Z hold) (g : Guard).

Lemma run_logged op b w t :
  exists lsn w', log op (mkDb b w t) = Some (Done (Ok lsn), mkDb b w' t) /\ logged w [mkRecord lsn op] w'.
Proof.
  destruct (Hlog w op) as (lsn & w' & Heq). exists lsn, w'. unfold log. cbn. rewrite Heq.
  split; [done|]. econstructor; [exact Heq|constructor].
Qed.

Lemma run_logged_ op b w t :
  exists lsn w', log_ op (mkDb b w t) = Some (Done (Ok tt), mkDb b w' t) /\ logged w [mkRecord lsn op] w'.
Proof.
  destruct (Hlog w op) as (lsn & w' & Heq). exists lsn, w'. unfold log_. cbn. rewrite Heq.
  split; [done|]. econstructor; [exact Heq|constructor].
Qed.

Lemma run_log op b w t : exists lsn w', log op (mkDb b w t) = Some (Done (Ok lsn), mkDb b w' t).
Proof. destruct (run_logged op b w t) as (lsn & w' & ? & _). by exists lsn, w'. Qed.

Lemma run_log_ op b w t : exists w', log_ op (mkDb b w t) = Some (Done (Ok tt), mkDb b w' t).
Proof. destruct (run_logged_ op b w t) as (_ & w' & ? & _). by exists w'. Qed.

(** Writing to the leaf [c], whose page is [p], logs the record [op] and leaves
    a page with [Q]; no separator is handed up. *)
Definition leaf_step (c : Z) (p key value : list byte) (op : Z -> LogOperation) (Q : Z -> list byte -> Prop) : Prop :=
  forall b H gd dt w t, session b H -> H !! c = Some (Hold gd true dt) -> store_page b c = Some p ->
  exists b' w' p' lsn, writeLeaf gd key value (mkDb b w t) = Some (Done (Ok nothingPromoted), mkDb b' w' t) /\
    session b' (<[c := Hold gd true true]> H) /\ wrote b b' c p' /\ logged w [mkRecord lsn (op (BPlusTreeId t))] w' /\ Q lsn p'.

(** The tail of an insertion or update: log it, stamp the page, store the pair. *)
Lemma store_pair b H pid h p p1 w t op (check : list byte -> option (list byte * bool))
    (store : list byte -> option (list byte * bool)) m free (g1 : Z) key value (Q : Z -> list byte -> Prop) :
  session b H -> H !! pid = Some h -> h_excl h = true -> store_page b pid = Some p ->
  check p = Some (p1, true) -> leaf_page p1 m free g1 -> meta p1 = meta p ->
  (forall p2 lsn, leaf_page p2 m free g1 -> node_type p2 = node_type p -> page_lsn p2 = u64 lsn ->
     exists p3 stored, store p2 = Some (p3, stored) /\ len p3 = 4096 /\ Q lsn p3) ->
  exists b' w' p' lsn, (let! enough := codecWrite (h_guard h) check in
      if enough : bool then
        let! pid := Writer_GetPageId (h_guard h) in
        let! lsn := log (op pid) in
        do! LeafWriter_SetLSN (h_guard h) lsn;
        do! (do! setDirty (h_guard h); codecWrite (h_guard h) store);
        ret nothingPromoted
      else splitLeaf (h_guard h) key value) (mkDb b w t) = Some (Done (Ok nothingPromoted), mkDb b' w' t) /\
    session b' (<[pid := Hold (h_guard h) true true]> H) /\ wrote b b' pid p' /\ logged w [mkRecord lsn (op pid)] w' /\ Q lsn p'.
Proof.
  intros Hs Hh Hex Hp Hck Hp1 Hm1 Hst.
  destruct (run_check b H pid h p w t check p1 true Hs Hh Hex Hp Hck ltac:(by eapply leaf_page_len))
    as (b1 & Hrun & Hid & Hnext).
  destruct (run_logged (op pid) b1 w t) as (lsn & w1 & Hl & Hlg).
  destruct (leaf_page_lsn p1 m free g1 lsn Hp1) as (p2 & Hlsn & Hp2 & Hty2 & Hlen2 & Hls2).
  destruct (Hnext w1 t unit (fun p => p' ← SetLSN p lsn; Some (p', tt)) p2 tt) as (b2 & Hset & Hs2 & Hw2);
    [by rewrite Hlsn|done|].
  destruct (Hst p2 lsn Hp2) as (p3 & stored & Hp3 & Hlen3 & HQ); [rewrite Hty2; by injection Hm1|done|].
  destruct (run_dirty_write b2 _ pid (Hold (h_guard h) true true) p2 w1 t store p3 stored Hs2) as (b3 & Hsto & Hs3 & Hw3);
    [by rewrite lookup_insert_eq|done|by eapply wrote_page|done|done|].
  rewrite insert_insert_eq in Hs3. exists b3, w1, p3, lsn. split; [|split; [done|split; [by eapply wrote_wrote|done]]].
  erewrite bind_ok by exact Hrun. cbn iota. erewrite bind_ok by apply Hid. erewrite bind_ok by exact Hl.
  erewrite bind_ok by exact Hset. erewrite bind_ok by exact Hsto. done.
Qed.

(** The start of [writeLeaf]: the key is looked up. *)
Lemma writeLeaf_find b H pid gd dt p m key value w t :
  session b H -> H !! pid = Some (Hold gd true dt) -> store_page b pid = Some p -> leaf_page_slack p m ->
  writeLeaf gd key value (mkDb b w t) =
    match m !! key with
    | Some old =>
        (let! enough := codecWrite gd (fun p => HasEnoughSpaceToUpdateValue p key old value) in
         if enough : bool then
           let! pid := Writer_GetPageId gd in
           let! lsn := log (UpdateLeafNodeEntry (BPlusTreeId t) pid key value) in
           do! LeafWriter_SetLSN gd lsn;
           do! (do! setDirty gd; codecWrite gd (fun p => p' ← SetValue p key value; Some (p', true)));
           ret nothingPromoted
         else splitLeaf gd key value) (mkDb b w t)
    | None =>
        (let! enough := codecWrite gd (fun p => HasEnoughSpaceToInsertElement p key value) in
         if enough : bool then
           let! pid := Writer_GetPageId gd in
           let! lsn := log (InsertLeafNodeEntry (BPlusTreeId t) pid key value) in
           do! LeafWriter_SetLSN gd lsn;
           do! (do! setDirty gd; codecWrite gd (fun p => InsertElement p key value));
           ret nothingPromoted
         else splitLeaf gd key value) (mkDb b w t)
    end.
Proof.
  intros Hs Hh Hp Hl. destruct (held_page b H pid _ Hs Hh) as (Ha & _). cbn [h_guard] in Ha.
  unfold writeLeaf, LeafWriter_FindValue, LeafWriter_HasEnoughSpaceToUpdateValue, LeafWriter_HasEnoughSpaceToInsertElement,
    LeafWriter_SetValue, LeafWriter_InsertKeyValue. rewrite bind_getTree, Ha. cbn [negb].
  erewrite bind_ok by (eapply (run_codecRead b H pid (Hold gd true dt)); [done..|by eapply leaf_find]).
  by destruct (m !! key).
Qed.

Lemma leaf_size_bound key value : leaf_need key value < 65536 -> leaf_size (mkLeaf key value) < 65536.
Proof. unfold leaf_need, leaf_size; cbn. lia. Qed.

Lemma writeLeaf_inplace c p m free (g1 : Z) key value :
  leaf_page p m free g1 -> leaf_accepts m free g1 key value ->
  leaf_step c p key value (fun id => leaf_record id c m key value) (leaf_stores p m key value).
Proof.
  intros Hl [Hn Hacc] b H gd dt w t Hs Hh Hp. pose proof (leaf_size_bound _ _ Hn) as Hsz.
  rewrite (writeLeaf_find b H c gd dt p m key value w t Hs Hh Hp) by (by eapply leaf_page_is_slack).
  unfold leaf_record. destruct (m !! key) as [old|] eqn:Hk.
  - destruct (leaf_check_update p m free g1 key value old Hl Hsz) as (p1 & f1 & g2 & Hck & Hp1 & Hm1 & Hy & _).
    rewrite bool_decide_eq_true_2 in Hck by done.
    eapply (store_pair b H c (Hold gd true dt) p p1 w t (fun pid => UpdateLeafNodeEntry (BPlusTreeId t) pid key value)
      (fun p => HasEnoughSpaceToUpdateValue p key old value) (fun p => p' ← SetValue p key value; Some (p', true)) m f1 g2);
      [done..|].
    intros p2 lsn Hp2 Hty Hls. destruct (leaf_set_value p2 m f1 g2 key value old Hp2 Hk (Hy Hacc)) as (p3 & -> & Hsl & Hex & Hm & _).
    exists p3, true. unfold leaf_stores. split_and!; [done|by eapply leaf_slack_len|done| |injection Hm as Hm _ _; unfold node_type in *; congruence
      |injection Hm as _ _ Hm; unfold page_lsn in *; congruence].
    intros Hns. by apply Hex, Hns.
  - destruct (leaf_check_insert p m free g1 key value Hl Hsz) as (p1 & f1 & g2 & Hck & Hp1 & Hm1 & Hy & _).
    assert (leaf_size_fits key value free g1) as Hfit.
    { unfold leaf_size_fits, leaf_need, leaf_size in *. cbn in *. lia. }
    rewrite bool_decide_eq_true_2 in Hck by done.
    eapply (store_pair b H c (Hold gd true dt) p p1 w t (fun pid => InsertLeafNodeEntry (BPlusTreeId t) pid key value)
      (fun p => HasEnoughSpaceToInsertElement p key value) (fun p => InsertElement p key value) m f1 g2); [done..|].
    intros p2 lsn Hp2 Hty Hls. destruct (leaf_insert p2 m f1 g2 key value Hp2 Hk Hn) as (p3 & -> & Hp3 & Hm & _).
    assert (leaf_need key value <= f1 \/ leaf_need key value <= g2) as Hok.
    { destruct (Hy Hfit) as [_ Hra]. unfold room_after in Hra. destruct Hl as (l & Hnp & _).
      apply node_page_space in Hnp. destruct (Z.leb_spec (leaf_size (mkLeaf key value)) free); injection Hra as -> ->; lia. }
    rewrite decide_True in Hp3 by done. destruct (room_after _ f1 g2) as [f2 g3]. eexists p3, _. unfold leaf_stores.
    split_and!; [done|by eapply leaf_page_len|by eapply leaf_page_is_slack|intros _; by eexists _, _|..];
      injection Hm as Hm _ Hm'; unfold node_type, page_lsn in *; congruence.
Qed.

(** Only the slot does not fit. *)
Definition slot_gap (free g1 : Z) (key value : list byte) : Prop :=
  leaf_size (mkLeaf key value) <= free < leaf_need key value /\ g1 < leaf_need key value.

Lemma writeLeaf_gap c p m free (g1 : Z) key value :
  leaf_page p m free g1 -> m !! key = None -> slot_gap free g1 key value ->
  leaf_step c p key value (fun id => InsertLeafNodeEntry id c key value) (fun _ p' => exact_leaf p' m /\ node_type p' = node_type p).
Proof.
  intros Hl Hk [Hgap Hg] b H gd dt w t Hs Hh Hp.
  assert (leaf_need key value < 65536) as Hn.
  { destruct Hl as (l & Hnp & _). apply node_page_space in Hnp as (_ & ? & ? & Hsp). pose proof (footprint_nonneg l).
    unfold leaf_need, leaf_size in *. cbn in *. lia. }
  rewrite (writeLeaf_find b H c gd dt p m key value w t Hs Hh Hp) by (by eapply leaf_page_is_slack). rewrite Hk.
  destruct (leaf_check_insert p m free g1 key value Hl (leaf_size_bound _ _ Hn)) as (p1 & f1 & g2 & Hck & Hp1 & Hm1 & Hy & _).
  assert (leaf_size_fits key value free g1) as Hfit by (left; lia).
  rewrite bool_decide_eq_true_2 in Hck by done.
  eapply (store_pair b H c (Hold gd true dt) p p1 w t (fun pid => InsertLeafNodeEntry (BPlusTreeId t) pid key value)
    (fun p => HasEnoughSpaceToInsertElement p key value) (fun p => InsertElement p key value) m f1 g2); [done..|].
  intros p2 lsn Hp2 Hty Hls. destruct (leaf_insert p2 m f1 g2 key value Hp2 Hk Hn) as (p3 & -> & Hp3 & Hm & _).
  destruct (Hy Hfit) as [_ Hra]. unfold room_after in Hra. rewrite (proj2 (Z.leb_le _ _)) in Hra by lia. injection Hra as -> ->.
  rewrite decide_False in Hp3 by lia. eexists p3, _.
  split_and!; [done|by eapply leaf_page_len|by eexists _, _|]. injection Hm as Hm _ _; unfold node_type in *; congruence.
Qed.

(** ** From the root to the leaf and back *)

Lemma writeTraversal_leaf Lf h key value : (forall p m, Lf p m -> leaf_page_slack p m) ->
  forall fuel b H (pid : Z) gd dt m ps w t parent c p op Q,
  session b H -> H !! pid = Some (Hold gd true dt) -> tree_at Lf (store_page b) h pid m ps ->
  leaf_of (store_page b) h pid key c -> store_page b c = Some p -> leaf_step c p key value op Q ->
  (forall q, q ∈ ps -> q <> pid -> H !! q = None) -> (size H + h <= capacity b)%nat -> (h < fuel)%nat ->
  exists b' w' dt' p' lsn, writeTraversal fuel key value (mkWriteCursor gd parent) (mkDb b w t) =
      Some (Done (Ok nothingPromoted), mkDb b' w' t) /\
    session b' (<[pid := Hold gd true dt']> H) /\ wrote b b' c p' /\ logged w [mkRecord lsn (op (BPlusTreeId t))] w' /\ Q lsn p'.
Proof.
  intros HL. induction h as [|h IH];
    intros [|fuel] b H pid gd dt m ps w t parent c p op Q Hs Hh Ht Hlo Hp Hstep Hdis Hsz Hfuel; try lia.
  - cbn in Hlo. subst c. destruct Ht as (p0 & Hp0 & Hleaf%HL & Hty & ->). rewrite Hp in Hp0. injection Hp0 as <-.
    destruct (Hstep b H gd dt w t Hs Hh Hp) as (b' & w' & p' & lsn & Hrun & Hs' & Hw & Hlg & HQ).
    exists b', w', true, p', lsn. split; [|by split; [|split]]. cbn [writeTraversal guard]. unfold Cursor_IsLeafNode.
    erewrite bind_ok by (eapply (run_codecRead b H pid (Hold gd true dt)); [done..|by eapply leaf_is_leaf]). exact Hrun.
  - destruct (tree_at_root _ _ _ _ _ _ Ht) as [_ [p0 Hp0]].
    destruct (tree_child _ _ _ _ _ _ key p0 Ht Hp0) as (l & free & gb & c' & A & Hi & Hl & Hty & Hnl & _ & Hf & Hc & Hch & Hsub & HpA & Hps).
    destruct Hlo as (p1 & c1 & Hp1 & Hf1 & Hlo). rewrite Hp0 in Hp1. injection Hp1 as <-. rewrite Hf in Hf1. injection Hf1 as <-.
    destruct (tree_at_root _ _ _ _ _ _ Hch) as [HcA Hpc].
    assert (c' <> pid) as Hcp by (intros ->; done).
    assert (H !! c' = None) as Hcn by (apply Hdis; [by apply Hsub|done]).
    destruct (run_NewWriteGuard b H c' w t noCleanup Hs Hcn Hpc ltac:(lia)) as (gc & dc & b1 & Ho & Hs1 & Hk1).
    destruct (IH fuel b1 (<[c' := Hold gc true dc]> H) c' gc dc (submap l (part key l) m) A w t (Some gd) c p op Q Hs1)
      as (b2 & w2 & dc2 & p' & lsn & Hr & Hs2 & Hw2 & Hlg & HQ).
    { by rewrite lookup_insert_eq. }
    { eapply tree_at_ext; [|exact Hch]. intros q _. by rewrite (proj1 Hk1). }
    { eapply leaf_of_ext; [|exact Hlo]. apply Hk1. }
    { by rewrite (proj1 Hk1). }
    { done. }
    { intros q Hq Hqc. rewrite lookup_insert_ne by done. apply Hdis; [by apply Hsub|]. by intros ->. }
    { rewrite map_size_insert_None by done. destruct Hk1 as [_ (-> & _)]. lia. }
    { lia. }
    destruct (run_doneWrite b2 _ c' (Hold gc true dc2) w2 t Hs2) as (b3 & Hd & Hs3 & Hk3); [by rewrite lookup_insert_eq|done|].
    rewrite insert_insert_eq, delete_insert_id in Hs3 by done. exists b3, w2, dt, p', lsn.
    destruct (held_page b H pid _ Hs Hh) as (Ha & _). cbn [h_guard] in Ha.
    split; [|split; [by rewrite insert_id|split; [by eapply wrote_kept, Hk3; eapply kept_wrote|done]]].
    cbn [writeTraversal guard parentGuard]. unfold Cursor_IsLeafNode, InternalWriter_FindNextChildNodePageId. rewrite Ha. cbn [negb].
    erewrite bind_ok by (by eapply (run_codecRead b H pid (Hold gd true dt))). cbn iota.
    erewrite bind_ok by (by eapply (run_codecRead b H pid (Hold gd true dt))).
    erewrite bind_ok by exact Ho. eapply defer_ok; [|exact Hd]. by erewrite bind_ok by exact Hr.
Qed.

(** [Insert] on a tree that has a root: the root's guard, the traversal, the end. *)
Lemma Insert_traversal fuel b w t key value :
  session b ∅ -> rootNodePageId t <> 0 -> is_Some (store_page b (rootNodePageId t)) -> (0 < capacity b)%nat ->
  exists g dt b1 w1 lsn, session b1 (<[rootNodePageId t := Hold g true dt]> ∅) /\ kept b b1 /\
    logged w [mkRecord lsn (BeginOperation (BPlusTreeId t))] w1 /\
    forall r dt2 b2 w2 t2,
      writeTraversal fuel key value (mkWriteCursor g None) (mkDb b1 w1 t) = Some (Done (Ok r), mkDb b2 w2 t2) ->
      session b2 (<[rootNodePageId t := Hold g true dt2]> ∅) ->
      exists b3 w3 lsn', BPlusTree_Insert fuel key value (mkDb b w t) = Some (Done (Ok tt), mkDb b3 w3 t2) /\
        session b3 ∅ /\ kept b2 b3 /\ logged w2 [mkRecord lsn' (CommitOperation (BPlusTreeId t))] w3.
Proof.
  intros Hs Hne Hpr Hcap. destruct (run_logged_ (BeginOperation (BPlusTreeId t)) b w t) as (lsn & w1 & Hlb & Hlg).
  destruct (run_NewWriteGuard b ∅ (rootNodePageId t) w1 t noCleanup Hs (lookup_empty _) Hpr) as (g & dt & b1 & Ho & Hs1 & Hk1);
    [by rewrite map_size_empty|].
  exists g, dt, b1, w1, lsn. split; [done|split; [done|split; [done|]]]. intros r dt2 b2 w2 t2 Hrun Hs2.
  destruct (run_logged_ (CommitOperation (BPlusTreeId t)) b2 w2 t2) as (lsn' & w3 & Hlc & Hlg').
  destruct (run_doneWrite b2 _ (rootNodePageId t) (Hold g true dt2) w3 t2 Hs2) as (b3 & Hd & Hs3 & Hk3); [by rewrite lookup_insert_eq|done|].
  rewrite delete_insert_id in Hs3 by done. exists b3, w3, lsn'. split; [|done].
  unfold BPlusTree_Insert, insertLocked, rootGuard. rewrite bind_getTree. erewrite bind_ok by exact Hlb.
  rewrite (bind_ok _ _ _ g (mkDb b1 w1 t)).
  2:{ rewrite bind_getTree. by rewrite (proj2 (Z.eqb_neq _ _) Hne). }
  eapply defer_ok; [|exact Hd]. erewrite bind_ok by exact Hrun. exact Hlc.
Qed.

Lemma root_not_zero Lf b w t h m ps : tree_db Lf (mkDb b w t) h m ps -> rootNodePageId t <> 0.
Proof. intros [_ Ht Hu _]. destruct (tree_at_root _ _ _ _ _ _ Ht) as [Hr _]. cbn in *. destruct (Hu _ Hr). lia. Qed.

(** When the leaf takes the write. *)
Lemma Insert_leaf_step Lf b w t h m ps fuel key value c p op Q :
  (forall p m, Lf p m -> leaf_page_slack p m) -> tree_db Lf (mkDb b w t) h m ps ->
  leaf_of (store_page b) h (rootNodePageId t) key c -> store_page b c = Some p -> leaf_step c p key value op Q ->
  (h < capacity b)%nat -> (h < fuel)%nat ->
  exists b' w' p' lsn0 lsn lsn1, BPlusTree_Insert fuel key value (mkDb b w t) = Some (Done (Ok tt), mkDb b' w' t) /\
    session b' ∅ /\ wrote b b' c p' /\ Q lsn p' /\
    logged w [mkRecord lsn0 (BeginOperation (BPlusTreeId t)); mkRecord lsn (op (BPlusTreeId t));
              mkRecord lsn1 (CommitOperation (BPlusTreeId t))] w'.
Proof.
  intros HL Hdb Hlo Hp Hstep Hcap Hfuel. pose proof (root_not_zero _ _ _ _ _ _ _ Hdb) as Hne.
  destruct Hdb as [Hs Ht _ _]. cbn [pool wal tree] in *. destruct (tree_at_root _ _ _ _ _ _ Ht) as [_ Hpr].
  destruct (Insert_traversal fuel b w t key value Hs Hne Hpr ltac:(lia)) as (g & dt & b1 & w1 & lsn0 & Hs1 & Hk1 & Hlg0 & Hnext).
  destruct (writeTraversal_leaf Lf h key value HL fuel b1 _ (rootNodePageId t) g dt m ps w1 t None c p op Q Hs1)
    as (b2 & w2 & dt2 & p' & lsn & Hrun & Hs2 & Hw2 & Hlg & HQ);
    [by rewrite lookup_insert_eq|eapply tree_at_ext; [|exact Ht]; intros q _; by rewrite (proj1 Hk1)
    |eapply leaf_of_ext; [|exact Hlo]; apply Hk1|by rewrite (proj1 Hk1)|done
    |intros q _ Hq; by rewrite lookup_insert_ne
    |rewrite map_size_insert_None, map_size_empty by done; destruct Hk1 as [_ (-> & _)]; lia|done|].
  rewrite insert_insert_eq in Hs2. destruct (Hnext _ _ _ _ _ Hrun Hs2) as (b3 & w3 & lsn1 & Hins & Hs3 & Hk3 & Hlg1).
  exists b3, w3, p', lsn0, lsn, lsn1. split; [done|split; [done|split; [|split; [done|]]]].
  - eapply wrote_kept, Hk3. by eapply kept_wrote.
  - eapply (logged_app _ _ _ [_] [_; _]); [exact Hlg0|]. by eapply (logged_app _ _ _ [_] [_]).
Qed.

Lemma Insert_in_place_logged (st : Db B W) (h : nat) (m : kvmap) (ps : gset Z) (fuel : nat)
    (key value : list byte) (c : Z) (p : list byte) (mc : kvmap) (free garbage : Z) :
  tree_db exact_leaf st h m ps -> leaf_of (store_page (pool st)) h (rootNodePageId (tree st)) key c ->
  store_page (pool st) c = Some p -> leaf_page p mc free garbage -> leaf_accepts mc free garbage key value ->
  (h < capacity (pool st))%nat -> (h < fuel)%nat ->
  exists st' p' lsn0 lsn lsn1, BPlusTree_Insert fuel key value st = Some (Done (Ok tt), st') /\ tree st' = tree st /\
    session (pool st') ∅ /\ wrote (pool st) (pool st') c p' /\ leaf_stores p mc key value lsn p' /\
    let id := BPlusTreeId (tree st) in
    logged (wal st) [mkRecord lsn0 (BeginOperation id); mkRecord lsn (leaf_record id c mc key value);
                     mkRecord lsn1 (CommitOperation id)] (wal st').
Proof.
  intros Hdb Hlo Hp Hl Hacc Hcap Hfuel. destruct st as [b w t]. cbn [pool wal tree] in *.
  destruct (Insert_leaf_step exact_leaf b w t h m ps fuel key value c p (fun id => leaf_record id c mc key value) (leaf_stores p mc key value))
    as (b' & w' & p' & lsn0 & lsn & lsn1 & Hrun & Hs' & Hw & HQ & Hlg); [exact exact_leaf_slack|done..|by eapply writeLeaf_inplace|done|done|].
  exists (mkDb b' w' t), p', lsn0, lsn, lsn1. split; [exact Hrun|split; [done|split; [done|split; [done|done]]]].
Qed.

Lemma Insert_in_place_run (st : Db B W) (h : nat) (m : kvmap) (ps : gset Z) (fuel : nat)
    (key value : list byte) (c : Z) (p : list byte) (mc : kvmap) (free garbage : Z) :
  tree_db exact_leaf st h m ps -> leaf_of (store_page (pool st)) h (rootNodePageId (tree st)) key c ->
  store_page (pool st) c = Some p -> leaf_page p mc free garbage -> leaf_accepts mc free garbage key value ->
  (h < capacity (pool st))%nat -> (h < fuel)%nat ->
  exists st', BPlusTree_Insert fuel key value st = Some (Done (Ok tt), st') /\ tree st' = tree st /\
    capacity (pool st') = capacity (pool st) /\
    tree_db leaf_page_slack st' h (<[key := value]> m) ps /\
    (no_shrink m key value -> tree_db exact_leaf st' h (<[key := value]> m) ps).
Proof.
  intros Hdb Hlo Hp Hl Hacc Hcap Hfuel.
  destruct (Insert_in_place_logged st h m ps fuel key value c p mc free garbage Hdb Hlo Hp Hl Hacc Hcap Hfuel)
    as (st' & p' & _ & lsn & _ & Hrun & Htr & Hs' & Hw & (Hsl & Hex & Hty & _) & _).
  destruct st as [b w t], st' as [b' w' t']. cbn [pool wal tree] in *. subst t'. pose proof (td_tree _ _ _ _ _ Hdb) as Ht. cbn in Ht.
  exists (mkDb b' w' t). split; [exact Hrun|split; [done|split; [apply Hw|split]]].
  - destruct (tree_leaf_at leaf_page_slack (store_page b) key h _ m ps c p mc free garbage exact_leaf_slack Ht Hlo Hp Hl)
      as (Hc & Hty0 & Hmc & Hupd).
    eapply tree_db_wrote; [exact Hdb|exact Hc|exact Hw|exact Hs'|].
    apply (Hupd _ p' (fun _ => Some value)); [intros q _ Hq; by eapply wrote_other|by eapply wrote_page|exact Hsl|congruence].
  - intros Hns.
    destruct (tree_leaf_at exact_leaf (store_page b) key h _ m ps c p mc free garbage ltac:(done) Ht Hlo Hp Hl)
      as (Hc & Hty0 & Hmc & Hupd).
    eapply tree_db_wrote; [exact Hdb|exact Hc|exact Hw|exact Hs'|].
    apply (Hupd _ p' (fun _ => Some value)); [intros q _ Hq; by eapply wrote_other|by eapply wrote_page| |congruence].
    apply Hex. intros w0 Hw0. apply Hns. congruence.
Qed.

(** [Insert] into a tree whose leaf for the key takes the pair without a
    split (the value does not grow, or the new element, with its slot when the
    key is new, fits): the tree's map gets the pair and nothing else changes;
    unless the value shrinks, the leaves stay free of slack, so that every later
    operation applies. *)
Theorem tree_Insert_in_place (st : Db B W) (h : nat) (m : kvmap) (ps : gset Z) (fuel : nat)
    (key value : list byte) (c : Z) (p : list byte) (mc : kvmap) (free garbage : Z) :
  tree_db exact_leaf st h m ps -> leaf_of (store_page (pool st)) h (rootNodePageId (tree st)) key c ->
  store_page (pool st) c = Some p -> leaf_page p mc free garbage -> leaf_accepts mc free garbage key value ->
  (h < capacity (pool st))%nat -> (h < fuel)%nat ->
  exists st', BPlusTree_Insert fuel key value st = Some (Done (Ok tt), st') /\ tree st' = tree st /\
    tree_db leaf_page_slack st' h (<[key := value]> m) ps /\
    (no_shrink m key value -> tree_db exact_leaf st' h (<[key := value]> m) ps).
Proof.
  intros Hdb Hlo Hp Hl Hacc Hcap Hfuel.
  destruct (Insert_in_place_run st h m ps fuel key value c p mc free garbage Hdb Hlo Hp Hl Hacc Hcap Hfuel) as (st' & Hr & Ht & _ & Hm).
  by exists st'.
Qed.

(** C38: when the element fits in its leaf but the slot does not, [Insert]
    reports success and commits, and the pair is nowhere: the tree holds the
    same map as before. *)
Theorem tree_Insert_slot_gap (st : Db B W) (h : nat) (m : kvmap) (ps : gset Z) (fuel : nat)
    (key value : list byte) (c : Z) (p : list byte) (mc : kvmap) (free garbage : Z) :
  tree_db exact_leaf st h m ps -> leaf_of (store_page (pool st)) h (rootNodePageId (tree st)) key c ->
  store_page (pool st) c = Some p -> leaf_page p mc free garbage -> m !! key = None -> slot_gap free garbage key value ->
  (h < capacity (pool st))%nat -> (h < fuel)%nat ->
  exists st', BPlusTree_Insert fuel key value st = Some (Done (Ok tt), st') /\ tree_db exact_leaf st' h m ps.
Proof.
  intros Hdb Hlo Hp Hl Hk Hgap Hcap Hfuel. destruct st as [b w t]. cbn [pool wal tree] in *. pose proof (td_tree _ _ _ _ _ Hdb) as Ht. cbn in Ht.
  destruct (tree_leaf_at exact_leaf (store_page b) key h _ m ps c p mc free garbage ltac:(done) Ht Hlo Hp Hl)
    as (Hc & Hty0 & Hmc & Hupd).
  destruct (Insert_leaf_step exact_leaf b w t h m ps fuel key value c p (fun id => InsertLeafNodeEntry id c key value)
      (fun _ p' => exact_leaf p' mc /\ node_type p' = node_type p))
    as (b' & w' & p' & _ & _ & _ & Hrun & Hs' & Hw & (Hex & Hty) & _); [exact exact_leaf_slack|done..|eapply writeLeaf_gap; [done|congruence|done]|done|done|].
  exists (mkDb b' w' t). split; [exact Hrun|]. eapply tree_db_wrote; [exact Hdb|exact Hc|exact Hw|exact Hs'|].
  specialize (Hupd (store_page b') p' (fun o => o)). rewrite !partial_alter_id in Hupd by done.
  apply Hupd; [intros q _ Hq; by eapply wrote_other|by eapply wrote_page|exact Hex|congruence].
Qed.
End insert.
