(* ===== verification/TreeSplit.v ===== *)
(** * Splitting a leaf (HandleLeafNodeSplit)

    A full leaf of small elements is split into the keys below the separator
    and those from it on, and the new pair goes to its side.  [evolves b b' X
    news] describes a step that rewrites only pages in [X] and allocates the
    pages [news]. *)

From S2P Require Export TreeInsert.

(** The keys below a separator, and the others. *)
Definition lower (sep : list byte) (m : kvmap) : kvmap := filter (fun kv => ~ key_le sep kv.1) m.
Definition upper (sep : list byte) (m : kvmap) : kvmap := filter (fun kv => key_le sep kv.1) m.

Lemma lookup_lower sep m k : lower sep m !! k = if decide (key_le sep k) then None else m !! k.
Proof.
  unfold lower. case_decide as Hd.
  - apply map_lookup_filter_None. right. intros x _ Hx. by apply Hx.
  - destruct (m !! k) eqn:Hk; [by apply map_lookup_filter_Some|]. apply map_lookup_filter_None. by left.
Qed.

Lemma lookup_upper sep m k : upper sep m !! k = if decide (key_le sep k) then m !! k else None.
Proof.
  unfold upper. case_decide as Hd.
  - destruct (m !! k) eqn:Hk; [by apply map_lookup_filter_Some|]. apply map_lookup_filter_None. by left.
  - apply map_lookup_filter_None. right. intros x _ Hx. by apply Hd.
Qed.

(** A map put together from the two sides of a separator. *)
Lemma cut_union (sep : list byte) (m1 m2 : kvmap) :
  (forall k, is_Some (m1 !! k) -> key_lt k sep) -> (forall k, is_Some (m2 !! k) -> key_le sep k) ->
  lower sep (m1 ∪ m2) = m1 /\ upper sep (m1 ∪ m2) = m2.
Proof.
  intros H1 H2.
  assert (forall k, key_le sep k -> m1 !! k = None) as Hn1.
  { intros k Hk. destruct (m1 !! k) eqn:Hm; [|done]. exfalso. apply (key_not_le sep k); [|done]. apply H1. by eexists. }
  assert (forall k, ~ key_le sep k -> m2 !! k = None) as Hn2.
  { intros k Hk. destruct (m2 !! k) eqn:Hm; [|done]. exfalso. apply Hk, H2. by eexists. }
  split; apply map_eq; intros k; rewrite ?lookup_lower, ?lookup_upper, lookup_union; case_decide as Hk.
  - by rewrite Hn1.
  - rewrite (Hn2 k Hk). by destruct (m1 !! k).
  - rewrite (Hn1 k Hk). apply (left_id None _).
  - by rewrite Hn2.
Qed.

Lemma lower_insert sep m key value :
  lower sep (<[key := value]> m) = if decide (key_le sep key) then lower sep m else <[key := value]> (lower sep m).
Proof.
  apply map_eq. intros k. rewrite lookup_lower. destruct (decide (k = key)) as [->|Hne].
  - case_decide; [by rewrite lookup_lower, decide_True|by rewrite !lookup_insert_eq].
  - rewrite lookup_insert_ne by done. by case_decide; case_decide; rewrite ?lookup_insert_ne, ?lookup_lower by done; case_decide.
Qed.

Lemma upper_insert sep m key value :
  upper sep (<[key := value]> m) = if decide (key_le sep key) then <[key := value]> (upper sep m) else upper sep m.
Proof.
  apply map_eq. intros k. rewrite lookup_upper. destruct (decide (k = key)) as [->|Hne].
  - case_decide; [by rewrite !lookup_insert_eq|by rewrite lookup_upper, decide_False].
  - rewrite lookup_insert_ne by done. by case_decide; case_decide; rewrite ?lookup_insert_ne, ?lookup_upper by done; case_decide.
Qed.

(** A map cut at a separator, with a pair added. *)
Lemma cut_insert (sep : list byte) (m1 m2 : kvmap) (key value : list byte) :
  (forall k, is_Some (m1 !! k) -> key_lt k sep) -> (forall k, is_Some (m2 !! k) -> key_le sep k) ->
  lower sep (<[key := value]> (m1 ∪ m2)) = (if decide (key_le sep key) then m1 else <[key := value]> m1) /\
  upper sep (<[key := value]> (m1 ∪ m2)) = (if decide (key_le sep key) then <[key := value]> m2 else m2).
Proof. intros H1 H2. rewrite lower_insert, upper_insert. by destruct (cut_union sep m1 m2 H1 H2) as [-> ->]. Qed.

(** Every element is at most 500 bytes long, the new one included. *)
Definition small_elements (m : kvmap) (key value : list byte) : Prop :=
  leaf_size (mkLeaf key value) <= 500 /\ forall k v, m !! k = Some v -> leaf_size (mkLeaf k v) <= 500.

Lemma small_elements_list l key value :
  unique_keys l -> small_elements (kv_map l) key value -> Forall (fun e => leaf_size e <= 500) l.
Proof.
  intros Hu [_ Hs]. apply list.Forall_forall. intros [k v] He. apply (Hs k v). unfold kv_map.
  apply elem_of_list_to_map_1.
  - rewrite <- list_fmap_compose. exact Hu.
  - apply list_elem_of_fmap. by exists (mkLeaf k v).
Qed.

(** The split and the insertion into the right half, on the pages. *)
Lemma leaf_split_store (p q : list byte) (l : list LeafNodeElement) (free g rid i : Z) (key value : list byte) :
  node_page p l free g -> unique_keys l -> len q = 4096 -> 0 <= rid < 2 ^ 64 -> 0 < i < len l ->
  footprint (take (Z.to_nat i) l) <= 3560 -> footprint (drop (Z.to_nat i) l) <= 3560 ->
  leaf_size (mkLeaf key value) <= 500 -> kv_map l !! key = None ->
  exists p2 q2 sep, SplitNode p q rid i = Some (p2, q2, sep) /\ len p2 = 4096 /\ len q2 = 4096 /\
    is_Some (kv_map l !! sep) /\ (exists k, is_Some (kv_map l !! k) /\ key_lt k sep) /\
    exists p3 q3, (if decide (key_le sep key) then p3 = p2 /\ InsertElement q2 key value = Some (q3, true)
                   else q3 = q2 /\ InsertElement p2 key value = Some (p3, true)) /\
      exact_leaf p3 (lower sep (<[key := value]> (kv_map l))) /\ exact_leaf q3 (upper sep (<[key := value]> (kv_map l))) /\
      node_type p3 = node_type p /\ node_type q3 = node_type q.
Proof.
  intros Hp Hu Hq Hrid Hi Hf1 Hf2 Hsz Hk.
  destruct (leaf_split p q l free g rid i Hp Hu Hq Hrid Hi)
    as (p2 & q2 & sep & Hsp & Hp2 & Hq2 & Hun & Hdis & Hne & Hsep & Hlo & Hup & _ & _ & _ & _ & Htp & Htq).
  set (m1 := kv_map (take (Z.to_nat i) l)) in *. set (m2 := kv_map (drop (Z.to_nat i) l)) in *.
  exists p2, q2, sep. split_and!; [done|by eapply leaf_page_len|by eapply leaf_page_len|..].
  { rewrite Hun. destruct Hsep as [v Hv]. exists v. by apply lookup_union_Some_r. }
  { apply map_choose in Hne as (k & v & Hkv). exists k. split; [|apply Hlo; by eexists].
    rewrite Hun. exists v. by apply lookup_union_Some_l. }
  rewrite Hun in Hk |- *. apply lookup_union_None in Hk as [Hk1 Hk2].
  destruct (cut_insert sep m1 m2 key value Hlo Hup) as [-> ->].
  assert (leaf_need key value <= 504) as Hneed by (unfold leaf_need, leaf_size in *; cbn in *; lia).
  destruct (decide (key_le sep key)) as [Hle|Hgt].
  - destruct (leaf_insert q2 m2 _ 0 key value Hq2 Hk2 ltac:(lia)) as (q3 & Heq & Hq3 & Hm & _).
    rewrite bool_decide_eq_true_2 in Heq by lia. rewrite decide_True in Hq3 by lia.
    destruct (room_after _ _ _). exists p2, q3. split_and!; [done|done|by eexists _, _|by eexists _, _|done|].
    injection Hm as Hm _ _. unfold node_type. congruence.
  - destruct (leaf_insert p2 m1 _ 0 key value Hp2 Hk1 ltac:(lia)) as (p3 & Heq & Hp3 & Hm & _).
    rewrite bool_decide_eq_true_2 in Heq by lia. rewrite decide_True in Hp3 by lia.
    destruct (room_after _ _ _). exists p3, q2. split_and!; [done|done|by eexists _, _|by eexists _, _| |done].
    injection Hm as Hm _ _. unfold node_type. congruence.
Qed.

Section split.
Context {B W : Type} `{PL : PageStoreLaws B} `{!WAL W} (Hlog : log_reliable W).
Implicit Types (b : B) (w : W) (t : BPlusTree) (H : gmap Z hold) (g : Guard).

(** Only pages in [X] changed, and the pages [news] were allocated. *)
Definition evolves b b' (X : gset Z) (news : list Z) : Prop :=
  (forall q p, q ∉ X -> store_page b q = Some p -> store_page b' q = Some p) /\
  (forall q p, q ∉ X -> store_page b' q = Some p -> store_page b q = Some p \/ p = blank_page) /\
  (forall q, md_in_use (bpm_metadata b') q <-> md_in_use (bpm_metadata b) q \/ q ∈ news) /\
  capacity b' = capacity b /\ (forall n, room b (length news + n) -> room b' n).

Lemma evolves_trans X n1 n2 b1 b2 b3 : evolves b1 b2 X n1 -> evolves b2 b3 X n2 -> evolves b1 b3 X (n1 ++ n2).
Proof.
  intros (Hk & Hb & Hm & Hc & Hr) (Hk' & Hb' & Hm' & Hc' & Hr'). split_and!; [auto| | |congruence|].
  - intros q p Hq Hp. destruct (Hb' q p Hq Hp) as [Hp2| ->]; [by apply Hb|by right].
  - intros q. rewrite Hm', Hm, elem_of_app. tauto.
  - intros n Hn. apply Hr', Hr. by rewrite length_app, <- Nat.add_assoc in Hn.
Qed.

Lemma evolves_weaken X Y news b b' : evolves b b' X news -> X ⊆ Y -> evolves b b' Y news.
Proof. intros (Hk & Hb & Hm) HXY. split_and!; try apply Hm; intros q p Hq; [apply Hk|apply Hb]; intros Hx; by apply Hq, HXY. Qed.

Lemma evolves_same X b b' : (forall q, q ∉ X -> store_page b' q = store_page b q) -> same_store b b' -> evolves b b' X [].
Proof.
  intros Ho (Hc & Hm & Hr). split_and!; [..|done|done].
  - intros q p Hq. by rewrite Ho.
  - intros q p Hq. rewrite Ho by done. by left.
  - intros q. rewrite Hm. pose proof (not_elem_of_nil q). tauto.
Qed.

Lemma evolves_kept X b b' : kept b b' -> evolves b b' X [].
Proof. intros [H1 ?]. by apply evolves_same. Qed.

Lemma evolves_wrote X b b' pid p : wrote b b' pid p -> pid ∈ X -> evolves b b' X [].
Proof. intros Hw Hin. apply evolves_same; [|apply Hw]. intros q Hq. eapply wrote_other; [done|]. by intros ->. Qed.

(** A fresh page. *)
Lemma run_NewPage b H w t :
  session b H -> room b 1 ->
  exists rid src b', NewPageM (mkDb b w t) = Some (Done (Ok (rid, src)), mkDb b' w t) /\ session b' H /\
    evolves b b' ∅ [rid] /\ 0 < rid < 2 ^ 51 /\ ~ md_in_use (bpm_metadata b) rid /\ is_Some (store_page b' rid).
Proof.
  intros Hs Hr. destruct (new_page_law b H Hs Hr) as (rid & src & b' & Heq & Hs' & Hr' & Hc & Hb & Hu & Hp & Hin & Hk & Hbl).
  exists rid, src, b'. split; [unfold NewPageM; apply run_onPool; by rewrite Heq|]. split; [done|].
  split; [|split_and!; (done || lia)]. unfold evolves. split_and!; try done.
  - intros q p _ Hq. by apply Hk.
  - intros q p _ Hq. by apply Hbl.
  - intros q. rewrite Hin, list_elem_of_singleton. tauto.
Qed.

(** Writing to a page that is already dirty keeps the open guards. *)
Lemma run_write_again {A} b H pid gd p w t (f : list byte -> option (list byte * A)) p' a :
  session b H -> H !! pid = Some (Hold gd true true) -> store_page b pid = Some p ->
  f p = Some (p', a) -> len p' = 4096 ->
  exists b', (do! setDirty gd; codecWrite gd f) (mkDb b w t) = Some (Done (Ok a), mkDb b' w t) /\
    session b' H /\ wrote b b' pid p'.
Proof.
  intros Hs Hh Hp Hf Hlen.
  destruct (run_dirty_write b H pid (Hold gd true true) p w t f p' a Hs Hh eq_refl Hp Hf Hlen) as (b' & Hr & Hs' & Hw).
  rewrite insert_id in Hs' by done. by exists b'.
Qed.

Lemma run_dirty_again b H pid gd w t :
  session b H -> H !! pid = Some (Hold gd true true) ->
  exists b', setDirty gd (mkDb b w t) = Some (Done (Ok tt), mkDb b' w t) /\ session b' H /\ kept b b'.
Proof.
  intros Hs Hh. destruct (run_setDirty b H pid (Hold gd true true) w t Hs Hh) as (b' & Hr & Hs' & Hk).
  rewrite insert_id in Hs' by done. by exists b'.
Qed.

Lemma LeafWriter_Split_spec b H pid rid gd gr p q i p' q' sep w t :
  session b H -> H !! pid = Some (Hold gd true true) -> H !! rid = Some (Hold gr true true) -> pid <> rid ->
  store_page b pid = Some p -> store_page b rid = Some q -> SplitNode p q rid i = Some (p', q', sep) ->
  len p' = 4096 -> len q' = 4096 ->
  exists b', LeafWriter_Split gd gr i (mkDb b w t) = Some (Done (Ok (Some sep)), mkDb b' w t) /\ session b' H /\
    evolves b b' {[pid; rid]} [] /\ store_page b' pid = Some p' /\ store_page b' rid = Some q'.
Proof.
  intros Hs Hh Hh' Hne Hp Hq Hsp Hlp Hlq. destruct (held_page b H pid _ Hs Hh) as (Ha & _). cbn [h_guard] in Ha.
  destruct (run_dirty_again b H pid gd w t Hs Hh) as (b1 & R1 & Hs1 & Hk1).
  destruct (run_dirty_again b1 H rid gr w t Hs1 Hh') as (b2 & R2 & Hs2 & Hk2).
  assert (kept b b2) as Hk by (by eapply kept_trans).
  assert (store_page b2 pid = Some p) as Hp2 by (by rewrite (proj1 Hk)).
  assert (store_page b2 rid = Some q) as Hq2 by (by rewrite (proj1 Hk)).
  destruct (run_codecWrite b2 H rid (Hold gr true true) q w t (fun _ => Some (q', tt)) q' tt Hs2 Hh') as (b3 & R3 & Hs3 & Hw3);
    [done..|].
  destruct (run_codecWrite b3 H pid (Hold gd true true) p w t (fun _ => Some (p', tt)) p' tt Hs3 Hh) as (b4 & R4 & Hs4 & Hw4);
    [done|done|by rewrite (wrote_other _ _ _ _ _ Hw3)|done..|].
  exists b4. split_and!; [|done| |..].
  - unfold LeafWriter_Split. rewrite Ha. cbn [negb]. erewrite bind_ok by exact R1. erewrite bind_ok by exact R2.
    erewrite bind_ok by (by eapply (run_pageData b2 H pid (Hold gd true true))).
    erewrite bind_ok by (by eapply (run_pageData b2 H rid (Hold gr true true))).
    erewrite bind_ok by (by eapply (run_GetPageId b2 H rid (Hold gr true true))).
    rewrite Hsp. erewrite bind_ok by apply run_lift. cbv beta iota. erewrite bind_ok by exact R3. by erewrite bind_ok by exact R4.
  - eapply (evolves_trans _ [] []); [by eapply evolves_kept|].
    eapply (evolves_trans _ [] []); eapply evolves_wrote; [exact Hw3|set_solver|exact Hw4|set_solver].
  - by eapply wrote_page.
  - rewrite (wrote_other _ _ _ _ _ Hw4) by done. by eapply wrote_page.
Qed.

(** Stamping a node's page. *)
Lemma run_SetLSN {E} `{NL : NodeElementLaws E} b H pid gd dt p (l : list E) free (g1 lsn : Z) w t :
  session b H -> H !! pid = Some (Hold gd true dt) -> store_page b pid = Some p -> node_page p l free g1 ->
  exists b' p', LeafWriter_SetLSN gd lsn (mkDb b w t) = Some (Done (Ok tt), mkDb b' w t) /\
    session b' (<[pid := Hold gd true true]> H) /\ wrote b b' pid p' /\ node_page p' l free g1 /\ node_type p' = node_type p.
Proof.
  intros Hs Hh Hp Hnp. destruct (node_page_lsn p l free g1 lsn Hnp) as (p' & Heq & Hnp' & Hty & _ & Hlen & _).
  destruct (run_dirty_write b H pid (Hold gd true dt) p w t (fun p => p' ← SetLSN p lsn; Some (p', tt)) p' tt Hs Hh)
    as (b' & Hr & Hs' & Hw); [done|done|by rewrite Heq|done|]. by exists b', p'.
Qed.

(** The open guards are on pages in use, and the pages not in use are blank. *)
Definition tidy b H : Prop :=
  (forall q, is_Some (H !! q) -> md_in_use (bpm_metadata b) q) /\
  (forall q data, store_page b q = Some data -> ~ md_in_use (bpm_metadata b) q -> q <> 0 -> data = blank_page).

(** A fresh page, opened for writing, logged and stamped: an empty leaf. *)
Lemma open_fresh {E} `{NL : NodeElementLaws E} b H w t (op : Z -> AllocationSource -> LogOperation) :
  session b H -> tidy b H -> room b 1 -> (size H < capacity b)%nat ->
  exists rid src gr b1 b2 b3 w' lsn q,
    NewPageM (mkDb b w t) = Some (Done (Ok (rid, src)), mkDb b1 w t) /\
    (forall cleanup w, NewWriteGuardM rid cleanup (mkDb b1 w t) = Some (Done (Ok gr), mkDb b2 w t)) /\
    (forall b, log (op rid src) (mkDb b w t) = Some (Done (Ok lsn), mkDb b w' t)) /\
    LeafWriter_SetLSN gr lsn (mkDb b2 w' t) = Some (Done (Ok tt), mkDb b3 w' t) /\
    session b3 (<[rid := Hold gr true true]> H) /\ evolves b b3 {[rid]} [rid] /\ store_page b3 rid = Some q /\
    node_page q ([] : list E) 4064 0 /\ node_type q = 0 /\ H !! rid = None /\ 0 < rid < 2 ^ 51 /\ ~ md_in_use (bpm_metadata b) rid.
Proof.
  intros Hs [Hu Hbl] Hr Hsz. destruct (run_NewPage b H w t Hs Hr) as (rid & src & b1 & Hnew & Hs1 & Hev & Hrid & Hn & Hp1).
  assert (H !! rid = None) as HH. { destruct (H !! rid) eqn:He; [|done]. by destruct Hn; apply Hu; eexists. }
  pose proof Hev as (_ & Hback & _ & Hc1 & _).
  destruct (open_write_law b1 H rid Hs1 HH Hp1) as (gr & dr & b2 & Ho & Hs2 & Hpg2 & Hst2); [by rewrite Hc1|].
  assert (store_page b2 rid = Some blank_page) as Hq0.
  { rewrite Hpg2. destruct Hp1 as [q Hq]. rewrite Hq. f_equal. destruct (Hback rid q (not_elem_of_empty _) Hq) as [Hq'| ->]; [|done].
    apply (Hbl rid q); (done || lia). }
  destruct (Hlog w (op rid src)) as (lsn & w' & Hlg).
  destruct (run_SetLSN (E := E) b2 _ rid gr dr blank_page [] 4064 0 lsn w' t Hs2) as (b3 & q & Hset & Hs3 & Hw & Hnq & Hty);
    [by rewrite lookup_insert_eq|done|exact node_page_zero|].
  rewrite insert_insert_eq in Hs3. exists rid, src, gr, b1, b2, b3, w', lsn, q.
  split_and!; [done| | |done|done| |by eapply wrote_page|done| |done|lia|lia|done].
  - intros cleanup w0. unfold NewWriteGuardM. cbn. by rewrite Ho.
  - intros b0. unfold log. cbn. by rewrite Hlg.
  - eapply (evolves_trans _ [rid] []); [by eapply evolves_weaken, empty_subseteq|].
    eapply (evolves_trans _ [] []); [by apply evolves_kept|]. eapply evolves_wrote; [done|by apply elem_of_singleton].
  - rewrite Hty. by vm_compute.
Qed.

(** The pages [pid] and [rid] hold the two sides of [m] at [sep]. *)
Definition halves b (pid rid : Z) (sep : list byte) (m : kvmap) : Prop :=
  exists p q, store_page b pid = Some p /\ store_page b rid = Some q /\
    exact_leaf p (lower sep m) /\ exact_leaf q (upper sep m) /\ node_type p = 0 /\ node_type q = 0.

Lemma compare_below key sep : (bytesCompare key sep <? 0) = negb (bool_decide (key_le sep key)).
Proof.
  pose proof (bytesCompare_cases key sep) as Hc. pose proof (bytesCompare_sym key sep) as Hsym.
  case_bool_decide as Hle; unfold key_le in Hle; cbn; [apply Z.ltb_ge|apply Z.ltb_lt]; lia.
Qed.

(** The split and the insertion into one of the halves. *)
Lemma split_and_store b H pid rid gd gr p q l free (g1 i : Z) key value w t :
  session b H -> H !! pid = Some (Hold gd true true) -> H !! rid = Some (Hold gr true true) -> pid <> rid ->
  store_page b pid = Some p -> store_page b rid = Some q -> node_page p l free g1 -> unique_keys l -> len q = 4096 ->
  0 < rid < 2 ^ 51 -> 0 < i < len l ->
  footprint (take (Z.to_nat i) l) <= 3560 -> footprint (drop (Z.to_nat i) l) <= 3560 ->
  leaf_size (mkLeaf key value) <= 500 -> kv_map l !! key = None -> node_type p = 0 -> node_type q = 0 ->
  exists b' sep, (let! extraKey := LeafWriter_Split gd gr i in
      do! (if bytesCompare key (default [] extraKey) <? 0
           then LeafWriter_InsertKeyValue gd key value else LeafWriter_InsertKeyValue gr key value);
      let! leftId := Writer_GetPageId gd in
      let! rightId := Writer_GetPageId gr in
      ret (extraKey, leftId, rightId)) (mkDb b w t) = Some (Done (Ok (Some sep, pid, rid)), mkDb b' w t) /\
    session b' H /\ evolves b b' {[pid; rid]} [] /\ halves b' pid rid sep (<[key := value]> (kv_map l)) /\
    is_Some (kv_map l !! sep) /\ (exists k, is_Some (kv_map l !! k) /\ key_lt k sep).
Proof.
  intros Hs Hh Hr Hne Hp Hq Hnp Hu Hlq Hrid Hi Hf1 Hf2 Hsz Hk Htp Htq.
  destruct (leaf_split_store p q l free g1 rid i key value Hnp Hu Hlq ltac:(lia) Hi Hf1 Hf2 Hsz Hk)
    as (p6 & q6 & sep & Hsp & Hlp6 & Hlq6 & Hsep & Hbelow & p7 & q7 & Hins & Hlow & Hupp & Htp7 & Htq7).
  destruct (LeafWriter_Split_spec b H pid rid gd gr p q i p6 q6 sep w t Hs Hh Hr Hne) as (b6 & Hsplit & Hs6 & Hev6 & Hp6 & Hq6);
    [done..|].
  destruct (held_page b H pid _ Hs Hh) as (Hag & _). destruct (held_page b H rid _ Hs Hr) as (Har & _). cbn [h_guard] in Hag, Har.
  assert (exists b', (if bytesCompare key sep <? 0 then LeafWriter_InsertKeyValue gd key value else LeafWriter_InsertKeyValue gr key value)
      (mkDb b6 w t) = Some (Done (Ok true), mkDb b' w t) /\ session b' H /\ evolves b6 b' {[pid; rid]} [] /\
      store_page b' pid = Some p7 /\ store_page b' rid = Some q7) as (b7 & Hrun & Hs7 & Hev7 & Hp7 & Hq7).
  { unfold LeafWriter_InsertKeyValue. rewrite Hag, Har. cbn [negb].
    rewrite compare_below. case_bool_decide as Hle; cbn [negb].
    2:{ rewrite decide_False in Hins by done. destruct Hins as [-> Hins].
      destruct (run_write_again b6 H pid gd p6 w t (fun p => InsertElement p key value) p7 true Hs6 Hh Hp6 Hins) as (b7 & Hr7 & Hs7 & Hw7);
        [apply exact_leaf_slack in Hlow; by eapply leaf_slack_len|].
      exists b7. split_and!; [done|done| |by eapply wrote_page|by rewrite (wrote_other _ _ _ _ _ Hw7)].
      eapply evolves_wrote; [done|apply elem_of_union_l; by apply elem_of_singleton]. }
    rewrite decide_True in Hins by done. destruct Hins as [-> Hins].
    destruct (run_write_again b6 H rid gr q6 w t (fun p => InsertElement p key value) q7 true Hs6 Hr Hq6 Hins) as (b7 & Hr7 & Hs7 & Hw7);
        [apply exact_leaf_slack in Hupp; by eapply leaf_slack_len|].
      exists b7. split_and!; [done|done| |by rewrite (wrote_other _ _ _ _ _ Hw7)|by eapply wrote_page].
      eapply evolves_wrote; [done|apply elem_of_union_r; by apply elem_of_singleton]. }
  exists b7, sep. split_and!; [|done|by eapply (evolves_trans _ [] [])| |done|done].
  - erewrite bind_ok by exact Hsplit. cbn [default]. erewrite bind_ok by exact Hrun.
    erewrite bind_ok by (by eapply (run_GetPageId b7 H pid (Hold gd true true))).
    by erewrite bind_ok by (by eapply (run_GetPageId b7 H rid (Hold gr true true))).
  - exists p7, q7. split_and!; (done || congruence).
Qed.

Lemma HandleLeafNodeSplit_spec b H pid gd dt p m free (g1 : Z) key value w t :
  session b H -> tidy b H -> room b 1 -> (size H < capacity b)%nat ->
  H !! pid = Some (Hold gd true dt) -> store_page b pid = Some p -> leaf_page p m free g1 -> node_type p = 0 ->
  m !! key = None -> small_elements m key value -> free < 500 -> g1 < 500 ->
  exists b' w' rid sep, HandleLeafNodeSplit gd key value (mkDb b w t) = Some (Done (Ok (Some sep, pid, rid)), mkDb b' w' t) /\
    session b' (<[pid := Hold gd true true]> H) /\ evolves b b' {[pid; rid]} [rid] /\
    halves b' pid rid sep (<[key := value]> m) /\ 0 < rid < 2 ^ 51 /\ ~ md_in_use (bpm_metadata b) rid /\
    is_Some (m !! sep) /\ (exists k, is_Some (m !! k) /\ key_lt k sep).
Proof.
  intros Hs Htidy Hroom Hsz Hh Hp (l & Hnp & Hu & <-) Hty Hk Hsmall Hfree Hg.
  destruct (open_fresh (E := LeafNodeElement) b H w t
      (fun rid src => CreatePage (BPlusTreeId t) rid LEAF_NODE_TYPE (sourceByte src)) Hs Htidy Hroom Hsz)
    as (rid & src & gr & b1 & b2 & b3 & w1 & lsn1 & q & Hnew & Hopen & Hlog1 & Hset1 & Hs3 & Hev3 & Hq & Hnq & Htq & HHr & Hrid & Hnu).
  assert (pid <> rid) as Hne by (intros ->; congruence).
  assert (store_page b3 pid = Some p) as Hp3 by (apply Hev3; [by intros ?%elem_of_singleton|done]).
  set (H3 := <[rid := Hold gr true true]> H) in *.
  assert (H3 !! pid = Some (Hold gd true dt)) as Hh3 by (unfold H3; by rewrite lookup_insert_ne).
  assert (H3 !! rid = Some (Hold gr true true)) as Hr3 by (unfold H3; by rewrite lookup_insert_eq).
  destruct (node_page_FindSplitNodeIndex _ _ _ _ Hnp) as (i & Hfi & _).
  destruct (leaf_split_room p l free g1 i Hnp Hfi (small_elements_list _ _ _ Hu Hsmall) Hfree Hg) as (Hi & Hf1 & Hf2).
  destruct (node_page_EncodeAll _ _ _ _ Hnp) as (bytes & Henc & _).
  destruct (run_log Hlog (SplitLeafNode (BPlusTreeId t) pid rid (u16 i) (fld 8 p 16) key value (u16 (len l)) bytes) b3 w1 t)
    as (lsn2 & w2 & Hlog2).
  destruct (run_SetLSN b3 H3 rid gr true q ([] : list LeafNodeElement) 4064 0 lsn2 w2 t Hs3 Hr3 Hq Hnq)
    as (b4 & q4 & Hset2 & Hs4 & Hw4 & Hnq4 & Htq4). rewrite insert_id in Hs4 by done.
  assert (store_page b4 pid = Some p) as Hp4 by (by rewrite (wrote_other _ _ _ _ _ Hw4)).
  destruct (run_SetLSN b4 H3 pid gd dt p l free g1 lsn2 w2 t Hs4 Hh3 Hp4 Hnp) as (b5 & p5 & Hset3 & Hs5 & Hw5 & Hnp5 & Htp5).
  destruct (split_and_store b5 _ pid rid gd gr p5 q4 l free g1 i key value w2 t Hs5) as (b6 & sep & Hrun & Hs6 & Hev6 & Hhalf & Hsep);
    [by rewrite lookup_insert_eq|by rewrite lookup_insert_ne|done|by eapply wrote_page
    |rewrite (wrote_other _ _ _ _ _ Hw5) by done; by eapply wrote_page|done|done
    |by apply node_page_space in Hnq4 as (? & _)|done|done|done|done|exact (proj1 Hsmall)|done|congruence|congruence|].
  destruct (run_doneWrite b6 _ rid (Hold gr true true) w2 t Hs6) as (b7 & Hd & Hs7 & Hk7); [by rewrite lookup_insert_ne|done|].
  unfold H3 in Hs7. rewrite delete_insert_ne, delete_insert_id in Hs7 by done.
  exists b7, w2, rid, sep. split_and!; [|done| | |lia|lia|done|apply Hsep|apply Hsep].
  - unfold HandleLeafNodeSplit. rewrite bind_getTree. erewrite bind_ok by exact Hnew. cbv beta iota.
    erewrite bind_ok by apply Hopen. eapply defer_ok; [|exact Hd]. erewrite bind_ok by apply Hlog1. erewrite bind_ok by exact Hset1.
    unfold LeafWriter_FindSplitIndex, LeafWriter_EncodeAllElements, LeafWriter_GetNextLeafNodePageId.
    erewrite bind_ok by (by eapply (run_codecRead b3 H3 pid (Hold gd true dt))).
    erewrite bind_ok by (by eapply (run_codecRead b3 H3 pid (Hold gd true dt))). cbv beta iota.
    erewrite bind_ok by (by eapply (run_GetPageId b3 H3 pid (Hold gd true dt))).
    erewrite bind_ok by (by eapply (run_pageIdOf b3 H3 rid (Hold gr true true))).
    erewrite bind_ok by (eapply (run_codecRead b3 H3 pid (Hold gd true dt)); [done..|by eapply node_page_next]).
    erewrite bind_ok by exact Hlog2. erewrite bind_ok by exact Hset2. erewrite bind_ok by exact Hset3. exact Hrun.
  - assert (forall x, x ∈ ({[pid; rid]} : gset Z) <-> x = pid \/ x = rid) as Hel by (intros; by rewrite elem_of_union, !elem_of_singleton).
    eapply (evolves_trans _ [rid] []); [eapply evolves_weaken; [exact Hev3|]; intros x ->%elem_of_singleton; apply Hel; by right|].
    eapply (evolves_trans _ [] []); [eapply evolves_wrote; [exact Hw4|apply Hel; by right]|].
    eapply (evolves_trans _ [] []); [eapply evolves_wrote; [exact Hw5|apply Hel; by left]|].
    eapply (evolves_trans _ [] []); [exact Hev6|by apply evolves_kept].
  - destruct Hhalf as (p6 & q6 & Hp6 & Hq6 & Hh6). exists p6, q6. by rewrite !(proj1 Hk7).
Qed.
End split.
