(* ===== verification/RecoverySpec.v ===== *)
(** * What recovery guarantees

    Replaying the log: which records are redone; that a redone record brings its
    page to the state it describes whether or not the page had reached the disk;
    and that an insertion committed before a crash is there after recovery. *)

From S2P Require Export Recovery TreeInsert TreeSplit.

(** ** Which records are redone *)

Section replay.
Context {B W : Type} `{!BufferPoolManager B} `{!WAL W}.
Implicit Types (st : Db B W) (r : WALRecord).

Lemma bind_assoc {A C D} (m : M B W A) (f : A -> M B W C) (g : C -> M B W D) st :
  bind (bind m f) g st = bind m (fun a => bind (f a) g) st.
Proof. unfold bind. by destruct (m st) as [[[[a|e]|] st']|]. Qed.

Lemma bind_ret_l {A C} (a : A) (f : A -> M B W C) st : bind (ret a) f st = f a st.
Proof. done. Qed.

Lemma bind_ext {A C} (m : M B W A) (f g : A -> M B W C) st :
  (forall a st', f a st' = g a st') -> bind m f st = bind m g st.
Proof. intros Hfg. unfold bind. by destruct (m st) as [[[[a|e]|] st']|]. Qed.

Lemma redoAll_app rs rs' st : redoAll (rs ++ rs') st = (do! redoAll rs; redoAll rs') st.
Proof.
  revert st. induction rs as [|r rs IH]; intros st; [done|]. cbn [redoAll app]. rewrite bind_assoc.
  apply bind_ext. intros [] st'. apply IH.
Qed.

(** A record of the work of an operation on tree [id]. *)
Definition work_of (id : Z) r : Prop :=
  recordTree r = id /\ match Operation r with BeginOperation _ | CommitOperation _ => False | _ => True end.

(** A committed operation in the log: its begin and commit, and its work. *)
Record committed := mkCommitted { op_tree : Z; begin_lsn : Z; work : list WALRecord; commit_lsn : Z }.

Definition op_records (c : committed) : list WALRecord :=
  mkRecord (begin_lsn c) (BeginOperation (op_tree c)) :: work c ++ [mkRecord (commit_lsn c) (CommitOperation (op_tree c))].

Definition op_ok (c : committed) : Prop := Forall (work_of (op_tree c)) (work c).

Lemma recoverLoop_work id rs : forall pending ops rest st,
  Forall (work_of id) rs -> pending !! id = Some ops ->
  recoverLoop pending ((Ok <$> rs) ++ rest) st = recoverLoop (<[id := ops ++ rs]> pending) rest st.
Proof.
  induction rs as [|r rs IH]; intros pending ops rest st Hall Hp.
  { cbn. rewrite app_nil_r. by rewrite insert_id. }
  inversion Hall as [|? ? [Hid Hop] Hall']; subst. cbn [fmap list_fmap app recoverLoop].
  rewrite Hp. destruct (Operation r); try done; (rewrite (IH _ (ops ++ [r])) by (done || apply lookup_insert_eq));
    by rewrite insert_insert_eq, <- app_assoc.
Qed.

(** The work of one operation, after its begin. *)
Lemma recoverLoop_op c pending rest st :
  op_ok c -> recoverLoop pending ((Ok <$> op_records c) ++ rest) st =
    (do! redoAll (work c); recoverLoop (delete (op_tree c) pending) rest) st.
Proof.
  intros Hc. unfold op_records. rewrite fmap_cons, fmap_app, <- app_comm_cons, <- app_assoc.
  cbn [recoverLoop Operation recordTree]. rewrite (recoverLoop_work (op_tree c) (work c) _ []) by (done || apply lookup_insert_eq).
  cbn [fmap list_fmap app recoverLoop Operation recordTree]. rewrite insert_insert_eq, lookup_insert_eq, delete_insert_eq.
  done.
Qed.

(** An operation whose end did not reach the log. *)
Definition unfinished (tail : list WALRecord) : Prop :=
  tail = [] \/ exists id lsn rs, tail = mkRecord lsn (BeginOperation id) :: rs /\ Forall (work_of id) rs.

Lemma recoverLoop_tail pending tail st : unfinished tail -> recoverLoop pending (Ok <$> tail) st = ret tt st.
Proof.
  intros [->|(id & lsn & rs & -> & Hrs)]; [done|]. rewrite fmap_cons. cbn [recoverLoop Operation recordTree].
  rewrite <- (app_nil_r (Ok <$> rs)), (recoverLoop_work id rs _ []) by (done || apply lookup_insert_eq). done.
Qed.

Lemma recoverLoop_ops cs : forall tail pending st,
  Forall op_ok cs -> unfinished tail ->
  recoverLoop pending (Ok <$> (concat (op_records <$> cs) ++ tail)) st = redoAll (concat (work <$> cs)) st.
Proof.
  induction cs as [|c cs IH]; intros tail pending st Hok Ht; cbn [fmap list_fmap concat].
  { apply recoverLoop_tail. done. }
  inversion Hok as [|? ? Hc Hcs]; subst. rewrite <- app_assoc, fmap_app, recoverLoop_op by done. rewrite redoAll_app.
  apply bind_ext. intros [] st'. by apply IH.
Qed.

Lemma recover_committed (order : B -> list (Z * Z)) cs tail st :
  Forall op_ok cs -> unfinished tail ->
  Recover order (Ok (Ok <$> (concat (op_records <$> cs) ++ tail))) st =
    (do! redoAll (concat (work <$> cs)); FlushM order) st.
Proof.
  intros Hok Ht. unfold Recover, bind. by rewrite recoverLoop_ops.
Qed.

(** *** Operations of different trees may overlap *)

Definition records_of (id : Z) (log : list WALRecord) : list WALRecord := filter (fun r => recordTree r = id) log.
Definition ops_of (id : Z) (cs : list committed) : list committed := filter (fun c => op_tree c = id) cs.

Definition isCommit r : Prop := match Operation r with CommitOperation _ => True | _ => False end.
#[global] Instance isCommit_dec r : Decision (isCommit r).
Proof. unfold isCommit. destruct (Operation r); apply _. Defined.

Definition commit_record (c : committed) : WALRecord := mkRecord (commit_lsn c) (CommitOperation (op_tree c)).

(** What the log still has of one tree: outside an operation, inside one that
    commits, inside one that does not. *)
Inductive tree_log (id : Z) : list committed -> option (list WALRecord) -> list WALRecord -> Prop :=
  | log_outside cs tail : Forall op_ok cs -> unfinished tail -> tree_log id cs None (concat (op_records <$> cs) ++ tail)
  | log_inside c cs ops rs tail : work c = ops ++ rs -> op_ok c -> Forall op_ok cs -> unfinished tail ->
      tree_log id (c :: cs) (Some ops) (rs ++ commit_record c :: concat (op_records <$> cs) ++ tail)
  | log_last ops id' rs : Forall (work_of id') rs -> tree_log id [] (Some ops) rs.

Lemma tree_log_step id cs o r rs :
  tree_log id cs o (r :: rs) ->
  match Operation r with
  | BeginOperation _ => tree_log id cs (Some []) rs
  | CommitOperation _ => exists c cs', cs = c :: cs' /\ o = Some (work c) /\ tree_log id cs' None rs
  | _ => exists ops, o = Some ops /\ tree_log id cs (Some (ops ++ [r])) rs
  end.
Proof.
  intros Hl. inversion Hl as [cs' tail Hcs Ht He Ho Heq|c cs' ops rs' tail Hw Hc Hcs Ht He Ho Heq|ops id' rs' Hrs He Ho Heq]; subst.
  - destruct cs as [|c cs]; cbn in Heq.
    + destruct Ht as [->|(id' & lsn & rs' & -> & Hrs)]; [done|]. injection Heq as <- <-. cbn. by eapply log_last.
    + injection Heq as <- <-. cbn. inversion Hcs; subst. rewrite <- !app_assoc. by apply (log_inside id c cs [] (work c)).
  - destruct rs' as [|r' rs']; cbn in Heq; injection Heq as <- <-.
    + cbn. exists c, cs'. rewrite Hw, app_nil_r. split_and!; [done..|]. by apply log_outside.
    + pose proof Hc as Hc'. unfold op_ok in Hc'. rewrite Hw in Hc'. apply Forall_app in Hc' as [_ [[_ Hr] _]%list.Forall_cons].
      assert (work c = (ops ++ [r']) ++ rs') as Hw' by (by rewrite <- app_assoc).
      destruct (Operation r'); try done; exists ops; (split; [done|]); by apply log_inside.
  - apply list.Forall_cons in Hrs as [[_ Hr] Hrs]. destruct (Operation r); try done; exists ops; (split; [done|]); by eapply log_last.
Qed.

Lemma recoverLoop_overlap log : forall pending cs st,
  (forall id, tree_log id (ops_of id cs) (pending !! id) (records_of id log)) ->
  filter isCommit log = commit_record <$> cs ->
  recoverLoop pending (Ok <$> log) st = redoAll (concat (work <$> cs)) st.
Proof.
  induction log as [|r log IH]; intros pending cs st Hlog Hcommits.
  { destruct cs; [done|discriminate]. }
  rewrite list.filter_cons in Hcommits. pose proof (Hlog (recordTree r)) as Hr. unfold records_of in Hr. rewrite list.filter_cons, decide_True in Hr by done.
  apply tree_log_step in Hr. fold (records_of (recordTree r) log) in Hr.
  assert (forall id, id <> recordTree r -> tree_log id (ops_of id cs) (pending !! id) (records_of id log)) as Hother.
  { intros id Hne. specialize (Hlog id). unfold records_of in Hlog. by rewrite list.filter_cons, decide_False in Hlog by done. }
  assert (forall o cs', tree_log (recordTree r) (ops_of (recordTree r) cs) o (records_of (recordTree r) log) -> cs' = cs ->
    forall id, tree_log id (ops_of id cs') (<[recordTree r := default [] o]> pending !! id) (records_of id log) \/ o = None) as Hset.
  { intros [ops|] cs' Ho ->; [|by right]. left. destruct (decide (id = recordTree r)) as [->|Hne]; [by rewrite lookup_insert_eq|].
    rewrite lookup_insert_ne by done. by apply Hother. }
  rewrite fmap_cons. cbn [recoverLoop].
  destruct (Operation r) as [id0|id0| | | | | | | |] eqn:Hop;
    try (rewrite decide_False in Hcommits by (unfold isCommit; rewrite Hop; tauto); destruct Hr as (ops & -> & Hl); apply IH; [|done];
      intros id; by destruct (Hset (Some (ops ++ [r])) cs Hl eq_refl id)).
  - rewrite decide_False in Hcommits by (unfold isCommit; rewrite Hop; tauto). apply IH; [|done]. intros id. by destruct (Hset (Some []) cs Hr eq_refl id).
  - rewrite decide_True in Hcommits by (unfold isCommit; by rewrite Hop). destruct cs as [|c cs]; [discriminate|]. injection Hcommits as -> Hcommits.
    destruct Hr as (c' & cs' & Hcs & Ho & Hl). cbn [recordTree Operation commit_record] in *. unfold ops_of in Hcs.
    rewrite list.filter_cons, decide_True in Hcs by done. injection Hcs as <- <-. rewrite Ho. cbn [fmap list_fmap concat]. rewrite redoAll_app.
    apply bind_ext. intros [] st'. apply IH; [|done]. intros id. destruct (decide (id = op_tree c)) as [->|Hne].
    + by rewrite lookup_delete_eq.
    + rewrite lookup_delete_ne by done. specialize (Hother id Hne). unfold ops_of in Hother. by rewrite list.filter_cons, decide_False in Hother by congruence.
Qed.

(** C11: [Recover] redoes exactly the committed operations, in the order of their
    commits, and then flushes the pool; an operation whose commit did not reach
    the log is ignored.  This holds for every log in which the operations of one
    tree follow each other, as a tree's mutex orders their work, while those of
    different trees overlap in any way: for each tree the log has the begin, the
    work and the commit of one operation after the other, and at the end perhaps
    an operation without commit.  (A log in which two operations of one tree
    overlap, their begins being logged outside the mutex, is not recovered: see
    [recover_overlapping_fails].) *)
Theorem recover_redoes_committed (order : B -> list (Z * Z)) log cs (tails : Z -> list WALRecord) st :
  Forall op_ok cs -> (forall id, unfinished (tails id)) ->
  (forall id, records_of id log = concat (op_records <$> ops_of id cs) ++ tails id) ->
  filter isCommit log = commit_record <$> cs ->
  Recover order (Ok (Ok <$> log)) st = (do! redoAll (concat (work <$> cs)); FlushM order) st.
Proof.
  intros Hok Ht Hlog Hc. unfold Recover, bind. rewrite (recoverLoop_overlap log ∅ cs); [done| |done].
  intros id. rewrite lookup_empty, Hlog. apply log_outside; [|done].
  rewrite list.Forall_forall in Hok |- *. intros c [_ Hin]%list_elem_of_filter. by apply Hok.
Qed.

(** Two operations of one tree whose begins are both logged before the work. *)
Definition overlapping (id : Z) (rs1 rs2 : list WALRecord) (b1 b2 c1 c2 : Z) : list WALRecord :=
  [mkRecord b1 (BeginOperation id); mkRecord b2 (BeginOperation id)] ++ rs1 ++ [mkRecord c1 (CommitOperation id)] ++
  rs2 ++ [mkRecord c2 (CommitOperation id)].

Lemma recoverLoop_overlapping id rs1 rs2 b1 b2 c1 c2 rest st :
  Forall (work_of id) rs1 -> Forall (work_of id) rs2 -> rs2 <> [] ->
  recoverLoop ∅ ((Ok <$> overlapping id rs1 rs2 b1 b2 c1 c2) ++ rest) st = (do! redoAll rs1; fail ErrNoBegin) st.
Proof.
  intros H1 H2 Hne. unfold overlapping. rewrite !fmap_app, <- !app_assoc. cbn [fmap list_fmap app recoverLoop Operation recordTree].
  rewrite insert_insert_eq, (recoverLoop_work id rs1 _ []) by (done || apply lookup_insert_eq).
  cbn [recoverLoop Operation recordTree]. rewrite insert_insert_eq, lookup_insert_eq, delete_insert_eq, delete_empty.
  apply bind_ext. intros [] st'. destruct rs2 as [|r rs2]; [done|]. inversion H2 as [|? ? [Hid Hop] _]; subst.
  cbn [fmap list_fmap app recoverLoop]. rewrite lookup_empty. by destruct (Operation r).
Qed.

(** Two concurrent [Insert]s on a tree: both log their begin, then one after the
    other takes the lock. *)
Definition two_inserts (id : Z) (fuel : nat) (key1 value1 key2 value2 : list byte) : M B W unit :=
  do! log_ (BeginOperation id);
  do! log_ (BeginOperation id);
  do! insertLocked id fuel key1 value1;
  insertLocked id fuel key2 value2.

(** C37: A log in which two operations of one tree overlap, as two concurrent
    insertions write it, cannot be recovered: the commit of the first ends the
    second too, [Recover] redoes the first and then fails on the second's work,
    without a flush and without looking at the rest of the log. *)
Theorem recover_overlapping_fails (order : B -> list (Z * Z)) id rs1 rs2 b1 b2 c1 c2 rest st :
  Forall (work_of id) rs1 -> Forall (work_of id) rs2 -> rs2 <> [] ->
  Recover order (Ok (Ok <$> (overlapping id rs1 rs2 b1 b2 c1 c2 ++ rest))) st = (do! redoAll rs1; fail ErrNoBegin) st.
Proof.
  intros H1 H2 Hne. unfold Recover, bind. rewrite fmap_app, recoverLoop_overlapping by done. unfold bind.
  by destruct (redoAll rs1 st) as [[[[[]|e]|] st']|].
Qed.
End replay.

(** ** Redoing a record on its page *)

Lemma GetLSN_page p : len p = 4096 -> GetLSN p = Some (page_lsn p).
Proof.
  intros Hl. unfold GetLSN. change getHeaderSize with 32. rewrite slice_header by lia. cbn [mbind option_bind].
  unfold getLSN. change (LSNOffset cfg) with 24. rewrite fld_readUint by (rewrite ?len_sub; lia). f_equal.
  unfold page_lsn, fld. by rewrite sub_sub by lia.
Qed.

Section redo.
Context {B W : Type} `{PL : PageStoreLaws B} `{!WAL W}.
Implicit Types (b : B) (w : W) (t : BPlusTree) (H : gmap Z hold) (g : Guard).

(** A change of one page: done when the page is older than the record. *)
Lemma redo_page b pid p lsn w t (f : list byte -> option (list byte * bool)) (Q : list byte -> Prop) :
  session b ∅ -> (0 < capacity b)%nat -> store_page b pid = Some p ->
  (page_lsn p < lsn -> exists p1 ok p2, f p = Some (p1, ok) /\ len p1 = 4096 /\ SetLSN p1 lsn = Some p2 /\ len p2 = 4096 /\ Q p2) ->
  (lsn <= page_lsn p -> Q p) ->
  exists b' p', redoOnPage LeafWriter_GetLSN LeafWriter_SetLSN lsn pid
      (fun g => if negb (active g) then ret false else do! setDirty g; codecWrite g f) (mkDb b w t) = Some (Done (Ok tt), mkDb b' w t) /\
    session b' ∅ /\ wrote b b' pid p' /\ Q p'.
Proof.
  intros Hs Hcap Hp Hnew Hsame. pose proof (store_page_len _ _ _ _ Hs Hp) as Hlen.
  destruct (run_NewWriteGuard b ∅ pid w t noCleanup Hs (lookup_empty _)) as (g & dt & b1 & Ho & Hs1 & Hk1);
    [by eexists|by rewrite map_size_empty|].
  set (H1 := <[pid := Hold g true dt]> ∅) in *.
  assert (H1 !! pid = Some (Hold g true dt)) as Hh by (unfold H1; by rewrite lookup_insert_eq).
  assert (store_page b1 pid = Some p) as Hp1 by (by rewrite (proj1 Hk1)).
  destruct (held_page b1 H1 pid _ Hs1 Hh) as (Ha & _). cbn [h_guard] in Ha.
  unfold redoOnPage. destruct (Z.ltb_spec (page_lsn p) lsn) as [Hlt|Hge].
  - destruct (Hnew Hlt) as (p1 & ok & p2 & Hf & Hl1 & Hset & Hl2 & HQ).
    destruct (run_dirty_write b1 H1 pid (Hold g true dt) p w t f p1 ok Hs1 Hh eq_refl Hp1 Hf Hl1) as (b2 & R2 & Hs2 & Hw2).
    destruct (run_write_again b2 _ pid g p1 w t (fun p => p' ← SetLSN p lsn; Some (p', tt)) p2 tt Hs2) as (b3 & R3 & Hs3 & Hw3);
      [by rewrite lookup_insert_eq|by eapply wrote_page|by rewrite Hset|done|].
    destruct (run_doneWrite b3 _ pid (Hold g true true) w t Hs3) as (b4 & Hd & Hs4 & Hk4); [by rewrite lookup_insert_eq|done|].
    unfold H1 in Hs4. rewrite insert_insert_eq, delete_insert_id in Hs4 by done. exists b4, p2. split; [|split; [done|split; [|done]]].
    + erewrite bind_ok by exact Ho. eapply defer_ok; [|exact Hd]. unfold LeafWriter_GetLSN.
      erewrite bind_ok by (eapply (run_codecRead b1 H1 pid (Hold g true dt)); [done..|by apply GetLSN_page]).
      rewrite (proj2 (Z.ltb_lt _ _) Hlt), Ha. cbn [negb]. erewrite bind_ok by exact R2. exact R3.
    + eapply wrote_kept, Hk4. eapply wrote_wrote, Hw3. by eapply kept_wrote.
  - destruct (run_doneWrite b1 _ pid (Hold g true dt) w t Hs1) as (b4 & Hd & Hs4 & Hk4); [done|done|].
    unfold H1 in Hs4. rewrite delete_insert_id in Hs4 by done. exists b4, p. split; [|split; [done|split; [|by apply Hsame]]].
    + erewrite bind_ok by exact Ho. eapply defer_ok; [|exact Hd]. unfold LeafWriter_GetLSN.
      erewrite bind_ok by (eapply (run_codecRead b1 H1 pid (Hold g true dt)); [done..|by apply GetLSN_page]).
      by rewrite (proj2 (Z.ltb_ge _ _) Hge).
    + assert (kept b b4) as [Hpg Hst] by (by eapply kept_trans). split; [|done]. intros q. rewrite Hpg. case_decide; [by subst|done].
Qed.
(** The leaf takes the record as it is, without a compaction before. *)
Definition redo_takes (m : kvmap) (free g1 : Z) (key value : list byte) : Prop :=
  leaf_need key value < 65536 /\
  match m !! key with
  | Some w => len w <= len value /\ (len value <= len w \/ leaf_size (mkLeaf key value) <= free)
  | None => leaf_need key value <= free \/ leaf_need key value <= g1
  end.

Lemma redo_leaf b id c p0 p m free (g1 : Z) lsn key value w t :
  session b ∅ -> (0 < capacity b)%nat -> leaf_page p m free g1 -> redo_takes m free g1 key value -> page_lsn p < lsn < 2 ^ 64 ->
  store_page b c = Some p0 -> p0 = p \/ leaf_stores p m key value lsn p0 ->
  exists b' p', redo (mkRecord lsn (leaf_record id c m key value)) (mkDb b w t) = Some (Done (Ok tt), mkDb b' w t) /\
    session b' ∅ /\ wrote b b' c p' /\ leaf_stores p m key value lsn p'.
Proof.
  intros Hs Hcap Hl [Hn Htk] Hlsn Hp Hcase.
  assert (0 <= page_lsn p) by (unfold page_lsn, fld; apply unle_range).
  assert (u64 lsn = lsn) as Hu by (apply u64_id; lia).
  assert (lsn <= page_lsn p0 -> leaf_stores p m key value lsn p0) as Hsame by (intros Hge; destruct Hcase as [->|?]; [lia|done]).
  assert (page_lsn p0 < lsn -> p0 = p) as Hold.
  { intros Hlt. destruct Hcase as [?|(_ & _ & _ & Heq)]; [done|]. lia. }
  unfold redo, leaf_record. cbn [recordLSN Operation]. destruct (m !! key) as [old|] eqn:Hk; cbn [recordLSN Operation].
  - apply (redo_page b c p0 lsn w t (fun p => p' ← SetValue p key value; Some (p', true))); [done..| |done].
    intros ->%Hold. destruct Htk as [Hns Hfit].
    destruct (leaf_set_value p m free g1 key value old Hl Hk Hfit) as (p1 & -> & Hsl & Hex & Hm & _).
    destruct (Hex Hns) as (f1 & g2 & Hl1). destruct (leaf_page_lsn p1 _ f1 g2 lsn Hl1) as (p2 & Hset & Hp2 & Hty & Hlen & Hls).
    exists p1, true, p2. split; [done|]. split; [by eapply leaf_page_len|]. split; [done|]. split; [done|].
    split; [by eapply leaf_page_is_slack|]. split; [intros _; by eexists _, _|]. split; [|done].
    rewrite Hty. injection Hm as Hm _ _. done.
  - apply (redo_page b c p0 lsn w t (fun p => InsertElement p key value)); [done..| |done].
    intros ->%Hold. destruct (leaf_insert p m free g1 key value Hl Hk Hn) as (p1 & Hins & Hp1 & Hm & _).
    rewrite decide_True in Hp1 by done. destruct (room_after _ _ _) as [f1 g2].
    destruct (leaf_page_lsn p1 _ _ g2 lsn Hp1) as (p2 & Hset & Hp2 & Hty & Hlen & Hls).
    eexists p1, _, p2. split; [exact Hins|]. split; [by eapply leaf_page_len|]. split; [done|]. split; [done|].
    split; [by eapply leaf_page_is_slack|]. split; [intros _; by eexists _, _|]. split; [|done].
    rewrite Hty. injection Hm as Hm _ _. done.
Qed.
End redo.
