(* ===== verification/CrashSafety.v ===== *)
(** * Insertions and crashes

    An insertion into a leaf with room, a crash at any moment, and recovery from
    the records that reached the log: when the commit did, the pair is there;
    when it did not, the tree holds the map before or after the insertion. *)

From S2P Require Export RecoverySpec.

Section crash.
Context {B W : Type} `{PL : PageStoreLaws B} `{!WAL W} (Hlog : log_reliable W).
Implicit Types (b : B) (w : W) (t : BPlusTree) (st : Db B W).

(** The file after a crash during a step from [b] to [b'], opened again: every
    page is as it was before or after the step, and the metadata page gives out
    the same pages as when the step began. *)
Record crashed b b' b0 : Prop := {
  cr_session : session b0 ∅;
  cr_frame : (0 < capacity b0)%nat;
  cr_page q : store_page b0 q = store_page b q \/ store_page b0 q = store_page b' q;
  cr_meta q : md_in_use (bpm_metadata b0) q <-> md_in_use (bpm_metadata b) q
}.

Lemma FlushM_run order b w t :
  session b ∅ -> flush_order b (order b) ->
  exists b', FlushM order (mkDb b w t) = Some (Done (Ok tt), mkDb b' w t) /\ session b' ∅ /\ kept b b'.
Proof.
  intros Hs Ho. destruct (flush_law b ∅ (order b) Hs Ho) as (b' & Hf & Hs' & Hpg & Hst). exists b'.
  split; [|done]. apply run_onPool. by rewrite Hf.
Qed.

(** A tree on the pages of another pool that gives out the same ids. *)
Lemma tree_db_crashed Lf st b b' b0 b1 w t h m m' ps c p' :
  tree_db Lf st h m ps -> pool st = b -> crashed b b' b0 -> (forall q, q <> c -> store_page b' q = store_page b q) -> c ∈ ps ->
  wrote b0 b1 c p' -> session b1 ∅ -> tree_at Lf (store_page b1) h (rootNodePageId t) m' ps -> tree_db Lf (mkDb b1 w t) h m' ps.
Proof.
  intros [_ _ Hu Hbl] <- Hcr Hother Hc Hw Hs Ht.
  assert (forall q, md_in_use (bpm_metadata b1) q <-> md_in_use (bpm_metadata (pool st)) q) as Hm.
  { intros q. destruct Hw as [_ (_ & -> & _)]. apply (cr_meta _ _ _ Hcr). }
  constructor; cbn [pool tree]; [done|done|intros q Hq; by apply Hm, Hu|]. intros q bytes Hq Hn.
  rewrite Hm in Hn. assert (q <> c) as Hqc by (intros ->; by apply Hn, Hu).
  rewrite (wrote_other _ _ _ _ _ Hw Hqc) in Hq. apply Hbl; [|done].
  destruct (cr_page _ _ _ Hcr q) as [Heq|Heq]; rewrite Heq in Hq; [done|by rewrite Hother in Hq].
Qed.

(** Pages other than the leaf's are those of before. *)
Lemma crashed_other b b' b0 c p' q :
  crashed b b' b0 -> wrote b b' c p' -> q <> c -> store_page b0 q = store_page b q.
Proof. intros Hcr Hw Hq. destruct (cr_page _ _ _ Hcr q) as [->| ->]; [done|by eapply wrote_other]. Qed.

(** What is left when the leaf's page is the new one, and when it is the old one. *)
Lemma crashed_new st b' b0 b1 w h m ps key value c p p' p1 mc free garbage (lsn : Z) :
  tree_db exact_leaf st h m ps -> leaf_of (store_page (pool st)) h (rootNodePageId (tree st)) key c ->
  store_page (pool st) c = Some p -> leaf_page p mc free garbage -> no_shrink mc key value ->
  crashed (pool st) b' b0 -> wrote (pool st) b' c p' -> wrote b0 b1 c p1 -> leaf_stores p mc key value lsn p1 -> session b1 ∅ ->
  tree_db exact_leaf (mkDb b1 w (tree st)) h (<[key := value]> m) ps.
Proof.
  intros Hdb Hlo Hp Hl Hns Hcr Hw Hw1 (_ & Hex & Hty1 & _) Hs1.
  destruct (tree_leaf_at exact_leaf (store_page (pool st)) key h _ m ps c p mc free garbage ltac:(done) (td_tree _ _ _ _ _ Hdb) Hlo Hp Hl)
    as (Hc & Hty0 & Hmc & Hupd).
  eapply tree_db_crashed; [exact Hdb|done|exact Hcr|intros; by eapply wrote_other|exact Hc|exact Hw1|done|].
  apply (Hupd _ p1 (fun _ => Some value)); [|by eapply wrote_page|by apply Hex|congruence].
  intros q _ Hq. rewrite (wrote_other _ _ _ _ _ Hw1 Hq). by eapply crashed_other.
Qed.

Lemma crashed_old st b' b0 b1 w h m ps key c p p' mc free garbage :
  tree_db exact_leaf st h m ps -> leaf_of (store_page (pool st)) h (rootNodePageId (tree st)) key c ->
  store_page (pool st) c = Some p -> leaf_page p mc free garbage ->
  crashed (pool st) b' b0 -> wrote (pool st) b' c p' -> wrote b0 b1 c p -> session b1 ∅ ->
  tree_db exact_leaf (mkDb b1 w (tree st)) h m ps.
Proof.
  intros Hdb Hlo Hp Hl Hcr Hw Hw1 Hs1.
  destruct (tree_leaf_at exact_leaf (store_page (pool st)) key h _ m ps c p mc free garbage ltac:(done) (td_tree _ _ _ _ _ Hdb) Hlo Hp Hl)
    as (Hc & _). eapply tree_db_crashed; [exact Hdb|done|exact Hcr|intros; by eapply wrote_other|exact Hc|exact Hw1|done|].
  eapply tree_at_ext; [|apply (td_tree _ _ _ _ _ Hdb)]. intros q _. destruct (decide (q = c)) as [->|Hq].
  - rewrite Hp. by eapply wrote_page.
  - rewrite (wrote_other _ _ _ _ _ Hw1 Hq). by eapply crashed_other.
Qed.

(** C5: An insertion or update survives a crash when the leaf takes it as it is:
    a new key for which the leaf has room (in its free space or its garbage), or an
    update that is not shorter than the old value and that the old slot or the free
    space takes without a compaction before.  The tree's leaves have never had a
    value shortened in place, no guard is open, no disk error is to come, the log
    takes every record, and the record's LSN is above that of the leaf and below
    2^64.  Every page may have reached the disk in its old or its new version; the
    log has the begin, the record and perhaps the commit.  With the commit,
    [Recover] ends with a tree that holds the pair; without it, the tree holds the
    map of before or of after, and nothing in between.  The root is that of before,
    which such an insertion leaves alone.  (An update that needs a compaction first
    is not recovered: see [recovery_panics_on_compacted_update].) *)
Theorem insert_survives_crash st h m ps fuel key value c p mc free garbage :
  tree_db exact_leaf st h m ps -> leaf_of (store_page (pool st)) h (rootNodePageId (tree st)) key c ->
  store_page (pool st) c = Some p -> leaf_page p mc free garbage ->
  leaf_accepts mc free garbage key value -> redo_takes mc free garbage key value ->
  (h < capacity (pool st))%nat -> (h < fuel)%nat ->
  exists st' r0 r r1, BPlusTree_Insert fuel key value st = Some (Done (Ok tt), st') /\ logged (wal st) [r0; r; r1] (wal st') /\
    (page_lsn p < recordLSN r < 2 ^ 64 ->
     forall order b0 w0 t0, crashed (pool st) (pool st') b0 -> (forall b, flush_order b (order b)) ->
     (exists b1, Recover order (Ok (Ok <$> [r0; r; r1])) (mkDb b0 w0 t0) = Some (Done (Ok tt), mkDb b1 w0 t0) /\
        tree_db exact_leaf (mkDb b1 w0 (tree st)) h (<[key := value]> m) ps) /\
     (exists b1, Recover order (Ok (Ok <$> [r0; r])) (mkDb b0 w0 t0) = Some (Done (Ok tt), mkDb b1 w0 t0) /\
        (tree_db exact_leaf (mkDb b1 w0 (tree st)) h m ps \/
         tree_db exact_leaf (mkDb b1 w0 (tree st)) h (<[key := value]> m) ps))).
Proof.
  intros Hdb Hlo Hp Hl Hacc Htk Hcap Hfuel.
  destruct (Insert_in_place_logged Hlog st h m ps fuel key value c p mc free garbage Hdb Hlo Hp Hl Hacc Hcap Hfuel)
    as (st' & p' & lsn0 & lsn & lsn1 & Hrun & Htr & Hs' & Hw & Hstores & Hlg). set (id := BPlusTreeId (tree st)) in *.
  eexists st', _, _, _. split; [exact Hrun|split; [exact Hlg|]]. cbn [recordLSN]. intros Hlsn order b0 w0 t0 Hcr Hord.
  assert (exists p0, store_page b0 c = Some p0 /\ (p0 = p \/ leaf_stores p mc key value lsn p0)) as (p0 & Hp0 & Hcase).
  { destruct (cr_page _ _ _ Hcr c) as [->| ->]; [exists p; auto|exists p'; split; [by eapply wrote_page|by right]]. }
  assert (no_shrink mc key value) as Hns by (intros old Ho; destruct Htk as [_ Htk]; rewrite Ho in Htk; tauto).
  assert (work_of id (mkRecord lsn (leaf_record id c mc key value))) as Hwork.
  { unfold work_of, recordTree, leaf_record. cbn. by destruct (mc !! key). }
  split.
  - destruct (redo_leaf b0 id c p0 p mc free garbage lsn key value w0 t0 (cr_session _ _ _ Hcr) (cr_frame _ _ _ Hcr) Hl Htk Hlsn Hp0 Hcase)
      as (b1 & p1 & Hredo & Hs1 & Hw1 & Hst1).
    destruct (FlushM_run order b1 w0 t0 Hs1 (Hord b1)) as (b2 & Hfl & Hs2 & Hk2). exists b2.
    split; [|by eapply crashed_new; [..|eapply wrote_kept|exact Hst1|]].
    etransitivity; [apply (recover_committed order [mkCommitted id lsn0 [mkRecord lsn (leaf_record id c mc key value)] lsn1] []);
      [by apply list.Forall_singleton, list.Forall_singleton|by left]|].
    cbn [fmap list_fmap concat work app redoAll]. erewrite bind_ok by (erewrite bind_ok by exact Hredo; done). exact Hfl.
  - destruct (FlushM_run order b0 w0 t0 (cr_session _ _ _ Hcr) (Hord b0)) as (b2 & Hfl & Hs2 & Hk2). exists b2. split.
    + etransitivity; [apply (recover_committed order [] [mkRecord lsn0 (BeginOperation id); mkRecord lsn (leaf_record id c mc key value)]);
        [constructor|right; eexists id, lsn0, _; split; [done|by apply list.Forall_singleton]]|exact Hfl].
    + assert (wrote b0 b2 c p0) as Hw2.
      { destruct Hk2 as [Hpg Hst2]. split; [|done]. intros q. rewrite Hpg. case_decide; [by subst|done]. }
      destruct Hcase as [->|Hst0]; [left; by eapply crashed_old|right; by eapply crashed_new].
Qed.
End crash.
