(* ===== verification/CrashRuns.v ===== *)
(** * Many insertions, one crash

    A history of insertions leaves many versions of each leaf, and a crash leaves
    each page in any of them.  Redoing the log in order brings every page to its
    last version, because a record is skipped on a page that is not older: the
    page need not be byte for byte the one that was lost, but it is a leaf with
    the same pairs, the same room and the same LSN ([like]). *)

From S2P Require Export CrashSafety.

Section history.
Context {B W : Type} `{PL : PageStoreLaws B} `{!WAL W} (Hlog : log_reliable W).
Implicit Types (b : B) (w : W) (t : BPlusTree) (st : Db B W) (V : list B) (rs : list WALRecord).

(** A new key with room for it, without a compaction. *)
Definition takes_new (mc : kvmap) (free : Z) (key value : list byte) : Prop :=
  mc !! key = None /\ leaf_need key value <= free.

(** The leaf with one pair more. *)
Definition leaf_grows (p : list byte) mc free g key value (lsn : Z) p' : Prop :=
  leaf_page p' (<[key := value]> mc) (free - leaf_need key value) g /\ node_type p' = node_type p /\ page_lsn p' = u64 lsn.

Lemma takes_new_bounds p mc free (g : Z) key value :
  leaf_page p mc free g -> takes_new mc free key value ->
  leaf_need key value < 65536 /\ leaf_size (mkLeaf key value) <= free /\ room_after (leaf_need key value) free g = (free, g).
Proof.
  intros (l & Hp & _) [_ Hn]. apply node_page_space in Hp as (_ & ? & ? & Hsp). pose proof (footprint_nonneg l).
  unfold room_after. rewrite (proj2 (Z.leb_le _ _)) by done. unfold leaf_need, leaf_size in *. cbn in *. split_and!; [lia|lia|done].
Qed.

(** Storing the pair on a page of the leaf. *)
Lemma store_new p mc free (g : Z) key value :
  leaf_page p mc free g -> takes_new mc free key value ->
  exists p', InsertElement p key value = Some (p', true) /\ leaf_page p' (<[key := value]> mc) (free - leaf_need key value) g /\ meta p' = meta p.
Proof.
  intros Hl Htk. destruct (takes_new_bounds _ _ _ _ _ _ Hl Htk) as (Hn & _ & Hra). destruct Htk as [Hk Hfit].
  destruct (leaf_insert p mc free g key value Hl Hk Hn) as (p' & Hins & Hp' & Hm & _).
  rewrite bool_decide_eq_true_2 in Hins by (by left). rewrite decide_True, Hra in Hp' by (by left). by exists p'.
Qed.

Lemma writeLeaf_new c p mc free (g : Z) key value :
  leaf_page p mc free g -> takes_new mc free key value ->
  leaf_step c p key value (fun id => InsertLeafNodeEntry id c key value) (leaf_grows p mc free g key value).
Proof.
  intros Hl Htk b H gd dt w t Hs Hh Hp. destruct (takes_new_bounds _ _ _ _ _ _ Hl Htk) as (Hn & Hsz & _).
  rewrite (writeLeaf_find b H c gd dt p mc key value w t Hs Hh Hp), (proj1 Htk) by (by eapply leaf_page_is_slack).
  destruct (leaf_check_insert p mc free g key value Hl (leaf_size_bound _ _ Hn)) as (p1 & f1 & g1 & Hck & Hp1 & Hm1 & Hy & _).
  assert (leaf_size_fits key value free g) as Hfit by (left; lia). rewrite bool_decide_eq_true_2 in Hck by done.
  destruct (Hy Hfit) as [_ Hra]. unfold room_after in Hra. rewrite (proj2 (Z.leb_le _ _) Hsz) in Hra. injection Hra as -> ->.
  eapply (store_pair Hlog b H c (Hold gd true dt) p p1 w t (fun pid => InsertLeafNodeEntry (BPlusTreeId t) pid key value)
    (fun p => HasEnoughSpaceToInsertElement p key value) (fun p => InsertElement p key value) mc free g); [done..|].
  intros p2 lsn Hp2 Hty Hls. destruct (store_new p2 mc free g key value Hp2 Htk) as (p3 & Hins & Hp3 & Hm3). exists p3, true.
  split; [done|]. split; [by eapply leaf_page_len|]. split; [done|]. injection Hm3 as Hm _ Hm'. unfold node_type, page_lsn in *. split; congruence.
Qed.

(** ** Versions of a page *)

(** A page tells the room it has. *)
Lemma leaf_page_room p m m' free free' (g g' : Z) : leaf_page p m free g -> leaf_page p m' free' g' -> m = m' /\ free = free' /\ g = g'.
Proof.
  intros H1 H2. split; [exact (leaf_page_fun _ _ _ (leaf_page_is_slack _ _ _ _ H1) (leaf_page_is_slack _ _ _ _ H2))|].
  destruct H1 as (l & (es & fse & Hr & _ & _ & _ & ->) & _), H2 as (l' & (es' & fse' & Hr' & _ & _ & _ & ->) & _).
  destruct (rep_hdr _ _ _ _ Hr) as (Hg & Hh), (rep_hdr _ _ _ _ Hr') as (Hg' & Hh'). unfold free_space. intuition lia.
Qed.

Definition same_leaf (p p' : list byte) : Prop :=
  exists mc free g, leaf_page p mc free g /\ leaf_page p' mc free g /\ node_type p = 0 /\ node_type p' = 0 /\ page_lsn p' = page_lsn p.

(** The page [q] of a version, as it is or rebuilt. *)
Definition like (ps : gset Z) (q : Z) (v v' : option (list byte)) : Prop :=
  v' = v \/ q ∈ ps /\ exists p p', v = Some p /\ v' = Some p' /\ same_leaf p p'.

Lemma like_Some ps q v p' : like ps q v (Some p') -> exists p, v = Some p /\ page_lsn p' = page_lsn p.
Proof. intros [<-|(_ & p & p1 & -> & [= <-] & (_ & _ & _ & _ & _ & _ & _ & Hl))]; [by exists p'|by exists p]. Qed.

(** A tree on rebuilt pages. *)
Lemma tree_at_like pg pg' PS h : forall pid m ps,
  (forall q, q ∈ ps -> like PS q (pg q) (pg' q)) -> tree_at exact_leaf pg h pid m ps -> tree_at exact_leaf pg' h pid m ps.
Proof.
  induction h as [|h IH]; intros pid m ps Hext; cbn.
  - intros (p & Hp & HL & Ht & ->). destruct (Hext pid ltac:(set_solver)) as [Heq|(_ & p0 & p' & Hp0 & Hp' & mc & free & g & H1 & H2 & _ & Hty & _)].
    + exists p. rewrite Heq. by split_and!.
    + rewrite Hp in Hp0. injection Hp0 as <-. exists p'. split_and!; [done| |done|done]. exists free, g.
      by rewrite (leaf_page_fun p m mc (exact_leaf_slack _ _ HL) (leaf_page_is_slack _ _ _ _ H1)).
  - intros (p & l & free & g & Ss & Hp & Hi & Hl & Ht & Hlen & -> & Hn & Hdis & Hch).
    exists p, l, free, g, Ss. split_and!; try done.
    + destruct (Hext pid ltac:(set_solver)) as [->|(_ & p0 & p' & Hp0 & _ & mc & f & gg & _ & _ & Hty & _)]; [done|]. congruence.
    + intros i c A Hc HA. apply IH; [|by apply (Hch i)]. intros q Hq. apply Hext.
      apply elem_of_union_r, elem_of_union_list. exists A. split; [by eapply list_elem_of_lookup_2|done].
Qed.

(** From one version of all pages to the next, with the record between. *)
Record version_step (ps : gset Z) b b' (r : WALRecord) (c : Z) (key value p p' : list byte) (mc : kvmap) (free g : Z) : Prop := {
  vs_record : exists id, r = mkRecord (page_lsn p') (InsertLeafNodeEntry id c key value);
  vs_in : c ∈ ps;
  vs_old : store_page b c = Some p;
  vs_new : store_page b' c = Some p';
  vs_leaf : leaf_page p mc free g;
  vs_takes : takes_new mc free key value;
  vs_type : node_type p = 0;
  vs_grows : leaf_grows p mc free g key value (page_lsn p') p';
  vs_lsn : page_lsn p < page_lsn p' < 2 ^ 64;
  vs_other q : q <> c -> store_page b' q = store_page b q
}.

Inductive versions (ps : gset Z) : list B -> list WALRecord -> Prop :=
  | versions_last b : versions ps [b] []
  | versions_step b b' V r rs c key value p p' mc free g :
      version_step ps b b' r c key value p p' mc free g -> versions ps (b' :: V) rs -> versions ps (b :: b' :: V) (r :: rs).

(** LSNs only grow. *)
Lemma versions_lsn ps V rs : versions ps V rs -> forall b q p, head V = Some b -> store_page b q = Some p ->
  forall v, v ∈ V -> exists pv, store_page v q = Some pv /\ page_lsn p <= page_lsn pv.
Proof.
  induction 1 as [b|b b' V r rs c key value p p' mc free g Hst Hv IH]; intros b1 q p1 [= <-] Hp1 v Hin.
  - apply list_elem_of_singleton in Hin as ->. exists p1. split; [done|lia].
  - apply elem_of_cons in Hin as [->|Hin]; [exists p1; split; [done|lia]|]. destruct (decide (q = c)) as [->|Hne].
    + destruct Hst as [_ _ Ho Hn _ _ _ _ Hl _]. rewrite Ho in Hp1. injection Hp1 as <-.
      destruct (IH b' c p' eq_refl Hn v Hin) as (pv & ? & ?). exists pv. split; [done|lia].
    + destruct (IH b' q p1 eq_refl) with (v := v) as (pv & ? & ?); [by rewrite (vs_other _ _ _ _ _ _ _ _ _ _ _ _ Hst)|done|by exists pv].
Qed.

(** Each page is as in one of the versions. *)
Definition among (ps : gset Z) V (q : Z) (v' : option (list byte)) : Prop := exists b, b ∈ V /\ like ps q (store_page b q) v'.

(** ** Redoing the records *)

Lemma redo_new b c p0 lsn id key value w t (Q : list byte -> Prop) :
  session b ∅ -> (0 < capacity b)%nat -> store_page b c = Some p0 ->
  (page_lsn p0 < lsn -> exists mc free g, leaf_page p0 mc free g /\ takes_new mc free key value /\
     forall p', leaf_grows p0 mc free g key value lsn p' -> Q p') -> (lsn <= page_lsn p0 -> Q p0) ->
  exists b' p', redo (mkRecord lsn (InsertLeafNodeEntry id c key value)) (mkDb b w t) = Some (Done (Ok tt), mkDb b' w t) /\
    session b' ∅ /\ wrote b b' c p' /\ Q p'.
Proof.
  intros Hs Hcap Hp Hnew Hold. apply (redo_page b c p0 lsn w t (fun p => InsertElement p key value)); [done..| |done].
  intros Hlt. destruct (Hnew Hlt) as (mc & free & g & Hl & Htk & HQ).
  destruct (store_new p0 mc free g key value Hl Htk) as (p1 & Hins & Hp1 & Hm).
  destruct (leaf_page_lsn p1 _ _ g lsn Hp1) as (p2 & Hset & Hp2 & Hty & Hlen & Hls).
  exists p1, true, p2. split; [done|]. split; [by eapply leaf_page_len|]. split; [done|]. split; [done|]. apply HQ.
  split; [done|]. split; [|done]. rewrite Hty. injection Hm as Hm _ _. unfold node_type in *. congruence.
Qed.

(** One record brings its page to the version after it, or finds it there. *)
Lemma redo_version ps b b' V r rs c key value p p' mc free g b0 w t :
  version_step ps b b' r c key value p p' mc free g -> versions ps (b' :: V) rs ->
  session b0 ∅ -> (0 < capacity b0)%nat -> (forall q, among ps (b :: b' :: V) q (store_page b0 q)) ->
  exists b1, redo r (mkDb b0 w t) = Some (Done (Ok tt), mkDb b1 w t) /\ session b1 ∅ /\ same_store b0 b1 /\
    forall q, among ps (b' :: V) q (store_page b1 q).
Proof.
  intros [(id & ->) Hin Ho Hn Hl Htk Hty (Hg1 & Hg2 & Hg3) Hlsn Hother] Hv Hs Hcap Ham.
  destruct (Ham c) as (v & Hvin & Hlike).
  assert (exists p0, store_page b0 c = Some p0) as [p0 Hp0].
  { assert (is_Some (store_page v c)) as [pv Hpv].
    { apply elem_of_cons in Hvin as [->|Hvin]; [by exists p|].
      destruct (versions_lsn ps _ _ Hv b' c p' eq_refl Hn v Hvin) as (pv & ? & _). by exists pv. }
    destruct Hlike as [Heq|(_ & ? & p0 & _ & ? & _)]; [exists pv; congruence|by exists p0]. }
  assert (page_lsn p0 < page_lsn p' -> v = b \/ False) as Hcase.
  { intros Hlt. apply elem_of_cons in Hvin as [->|Hvin]; [by left|]. exfalso. rewrite Hp0 in Hlike.
    destruct (versions_lsn ps _ _ Hv b' c p' eq_refl Hn v Hvin) as (pv & Hpv & Hge).
    destruct (like_Some _ _ _ _ Hlike) as (p1 & Hp1 & Heq). rewrite Hpv in Hp1. injection Hp1 as <-. lia. }
  destruct (redo_new b0 c p0 (page_lsn p') id key value w t (fun p1 => among ps (b' :: V) c (Some p1)) Hs Hcap Hp0)
    as (b1 & p1 & Hredo & Hs1 & [Hw1 Hss] & HQ).
  - intros Hlt. destruct (Hcase Hlt) as [->|[]]. rewrite Hp0, Ho in Hlike. exists mc, free, g.
    assert (leaf_page p0 mc free g /\ node_type p0 = 0) as [Hl0 Hty0].
    { destruct Hlike as [[= ->]|(_ & pa & pb & [= <-] & [= <-] & (mc2 & f2 & g2 & H1 & H2 & _ & Ht & _))]; [done|]. split; [|done].
      by destruct (leaf_page_room _ _ _ _ _ _ _ Hl H1) as (-> & -> & ->). }
    split; [done|split; [done|]]. intros p2 (Hq1 & Hq2 & Hq3). exists b'. split; [by left|]. right. split; [done|]. exists p', p2.
    split; [done|split; [done|]]. eexists _, _, _. split_and!; [exact Hg1|exact Hq1|congruence|congruence|congruence].
  - intros Hge. rewrite Hp0 in Hlike. apply elem_of_cons in Hvin as [->|Hvin]; [|by exists v].
    exfalso. rewrite Ho in Hlike. destruct (like_Some _ _ _ _ Hlike) as (pa & [= <-] & Heq). lia.
  - exists b1. split; [done|split; [done|split; [done|]]]. intros q. rewrite Hw1. case_decide as Hq; [by subst|].
    destruct (Ham q) as (u & Hu & Hlk). apply elem_of_cons in Hu as [->|Hu]; [|by exists u].
    exists b'. split; [by left|]. by rewrite Hother.
Qed.

Lemma redo_versions ps V rs : versions ps V rs -> forall rs1 rs2 b0 w t, rs = rs1 ++ rs2 ->
  session b0 ∅ -> (0 < capacity b0)%nat -> (forall q, among ps V q (store_page b0 q)) ->
  exists b1, redoAll rs1 (mkDb b0 w t) = Some (Done (Ok tt), mkDb b1 w t) /\ session b1 ∅ /\ same_store b0 b1 /\
    forall q, among ps (drop (length rs1) V) q (store_page b1 q).
Proof.
  induction 1 as [b|b b' V r rs c key value p p' mc free g Hst Hv IH]; intros [|r1 rs1] rs2 b0 w t Heq Hs Hcap Ham; try done.
  1, 2: exists b0; by split_and!.
  injection Heq as <- Heq. destruct (redo_version _ _ _ _ _ _ _ _ _ _ _ _ _ _ b0 w t Hst Hv Hs Hcap Ham) as (b1 & Hr & Hs1 & Hss1 & Ham1).
  destruct (IH rs1 rs2 b1 w t Heq Hs1) as (b2 & Hr2 & Hs2 & Hss2 & Ham2); [destruct Hss1 as [-> _]; done|done|].
  exists b2. split; [|split; [done|split; [by eapply same_store_trans|done]]]. cbn [redoAll]. by erewrite bind_ok by exact Hr.
Qed.

(** ** Histories of insertions *)

Definition insert_all (kvs : list (list byte * list byte)) (m : kvmap) : kvmap := foldl (fun m kv => <[kv.1 := kv.2]> m) m kvs.

(** The operation in the log whose record the leaf's new page [p'] bears. *)
Definition insert_op (id c : Z) (key value p' : list byte) (lsn0 lsn1 : Z) : committed :=
  mkCommitted id lsn0 [mkRecord (page_lsn p') (InsertLeafNodeEntry id c key value)] lsn1.

(** [Insert] is called for one pair after the other: each has a new key, for
    which its leaf has room, and the log's LSNs grow.  [V] are the pools before,
    between and after. *)
Inductive inserts (h fuel : nat) : Db B W -> list (list byte * list byte) -> list committed -> list B -> Db B W -> Prop :=
  | inserts_nil st : inserts h fuel st [] [] [pool st] st
  | inserts_cons st key value kvs c p p' mc free g st1 lsn0 lsn1 cs V st' :
      leaf_of (store_page (pool st)) h (rootNodePageId (tree st)) key c -> store_page (pool st) c = Some p ->
      leaf_page p mc free g -> takes_new mc free key value ->
      BPlusTree_Insert fuel key value st = Some (Done (Ok tt), st1) -> store_page (pool st1) c = Some p' ->
      logged (wal st) (op_records (insert_op (BPlusTreeId (tree st)) c key value p' lsn0 lsn1)) (wal st1) ->
      page_lsn p < page_lsn p' -> inserts h fuel st1 kvs cs V st' ->
      inserts h fuel st ((key, value) :: kvs) (insert_op (BPlusTreeId (tree st)) c key value p' lsn0 lsn1 :: cs) (pool st :: V) st'.

(** One of them: the tree after it, and the step between the versions. *)
Lemma insert_version h m ps fuel st key value c p p' mc free g st1 id :
  tree_db exact_leaf st h m ps -> (h < capacity (pool st))%nat -> (h < fuel)%nat ->
  leaf_of (store_page (pool st)) h (rootNodePageId (tree st)) key c -> store_page (pool st) c = Some p ->
  leaf_page p mc free g -> takes_new mc free key value ->
  BPlusTree_Insert fuel key value st = Some (Done (Ok tt), st1) -> store_page (pool st1) c = Some p' -> page_lsn p < page_lsn p' ->
  tree_db exact_leaf st1 h (<[key := value]> m) ps /\ tree st1 = tree st /\ same_store (pool st) (pool st1) /\
  version_step ps (pool st) (pool st1) (mkRecord (page_lsn p') (InsertLeafNodeEntry id c key value)) c key value p p' mc free g.
Proof.
  intros Hdb Hcap Hfuel Hlo Hp Hl Htk Hrun Hp' Hlsn. destruct st as [b w t]. cbn [pool wal tree] in *.
  destruct (Insert_leaf_step Hlog exact_leaf b w t h m ps fuel key value c p (fun id => InsertLeafNodeEntry id c key value)
    (leaf_grows p mc free g key value)) as (b' & w' & p1 & lsn0 & lsn & lsn1 & Hrun2 & Hs' & Hw & (Hg1 & Hg2 & Hg3) & _);
    [exact exact_leaf_slack|done..|by apply writeLeaf_new|done|done|].
  rewrite Hrun in Hrun2. injection Hrun2 as ->. cbn [pool tree] in *.
  rewrite (wrote_page _ _ _ _ Hw) in Hp'. injection Hp' as <-.
  destruct (tree_leaf_at exact_leaf (store_page b) key h _ m ps c p mc free g ltac:(done) (td_tree _ _ _ _ _ Hdb) Hlo Hp Hl)
    as (Hc & Hty & Hmc & Hupd). cbn [pool tree] in *.
  assert (0 <= page_lsn p1 < 2 ^ 64) as Hrange by (apply (fld_range 8 p1 24); [lia|]; rewrite (leaf_page_len _ _ _ _ Hg1); lia).
  split; [|split; [done|split; [apply Hw|]]].
  - eapply tree_db_wrote; [exact Hdb|exact Hc|exact Hw|exact Hs'|].
    apply (Hupd _ p1 (fun _ => Some value)); [intros q _ Hq; by eapply wrote_other|by eapply wrote_page|by eexists _, _|congruence].
  - constructor; [by eexists|done|done|by eapply wrote_page|done|done|done| |lia|intros q Hq; by eapply wrote_other].
    split; [done|split; [done|]]. by rewrite u64_id.
Qed.

(** A pair that its leaf takes makes a history, when its LSN is above the page's. *)
Lemma insert_continues h m ps fuel st key value c p mc free g :
  tree_db exact_leaf st h m ps -> (h < capacity (pool st))%nat -> (h < fuel)%nat ->
  leaf_of (store_page (pool st)) h (rootNodePageId (tree st)) key c -> store_page (pool st) c = Some p ->
  leaf_page p mc free g -> takes_new mc free key value ->
  exists st1 p' lsn0 lsn lsn1, wrote (pool st) (pool st1) c p' /\ tree st1 = tree st /\
    leaf_grows p mc free g key value lsn p' /\ tree_db exact_leaf st1 h (<[key := value]> m) ps /\
    logged (wal st) (op_records (mkCommitted (BPlusTreeId (tree st)) lsn0
      [mkRecord lsn (InsertLeafNodeEntry (BPlusTreeId (tree st)) c key value)] lsn1)) (wal st1) /\
    (page_lsn p < lsn < 2 ^ 64 -> forall kvs cs V st', inserts h fuel st1 kvs cs V st' ->
       inserts h fuel st ((key, value) :: kvs) (insert_op (BPlusTreeId (tree st)) c key value p' lsn0 lsn1 :: cs) (pool st :: V) st').
Proof.
  intros Hdb Hcap Hfuel Hlo Hp Hl Htk. destruct st as [b w t]. cbn [pool wal tree] in *.
  destruct (Insert_leaf_step Hlog exact_leaf b w t h m ps fuel key value c p (fun id => InsertLeafNodeEntry id c key value)
    (leaf_grows p mc free g key value)) as (b' & w' & p' & lsn0 & lsn & lsn1 & Hrun & Hs' & Hw & Hg & Hlg);
    [exact exact_leaf_slack|done..|by apply writeLeaf_new|done|done|].
  destruct (takes_new_bounds _ _ _ _ _ _ Hl Htk) as (Hn & _ & _). destruct Htk as [Hk Hfit].
  destruct (Insert_in_place_run Hlog (mkDb b w t) h m ps fuel key value c p mc free g Hdb Hlo Hp Hl) as (st2 & Hrun2 & _ & _ & _ & Hex);
    [split; [done|rewrite Hk; by left]|done|done|]. rewrite Hrun in Hrun2. injection Hrun2 as <-.
  assert (m !! key = None) as Hkm.
  { destruct (tree_leaf_at exact_leaf (store_page b) key h _ m ps c p mc free g ltac:(done) (td_tree _ _ _ _ _ Hdb) Hlo Hp Hl) as (_ & _ & Hmc & _). congruence. }
  exists (mkDb b' w' t), p', lsn0, lsn, lsn1. cbn [pool tree wal].
  split; [done|split; [done|split; [done|split; [apply Hex; intros old Ho; congruence|split; [done|]]]]].
  intros Hlsn kvs cs V st' Hins. assert (0 <= page_lsn p) by (unfold page_lsn, fld; apply unle_range).
  assert (page_lsn p' = lsn) as Heq by (destruct Hg as (_ & _ & ->); apply u64_id; lia).
  eapply (inserts_cons h fuel (mkDb b w t) key value kvs c p p' mc free g (mkDb b' w' t)); try done; [by eapply wrote_page| |lia].
  unfold insert_op. by rewrite Heq.
Qed.

(** What a history leaves. *)
Lemma inserts_run h fuel st kvs cs V st' : inserts h fuel st kvs cs V st' -> forall m ps,
  tree_db exact_leaf st h m ps -> (h < capacity (pool st))%nat -> (h < fuel)%nat ->
  tree_db exact_leaf st' h (insert_all kvs m) ps /\ tree st' = tree st /\ versions ps V (concat (work <$> cs)) /\
  (exists V', V = pool st :: V') /\ Forall (same_store (pool st)) V /\ Forall op_ok cs /\ length cs = length kvs /\
  length V = S (length kvs) /\ logged (wal st) (concat (op_records <$> cs)) (wal st').
Proof.
  induction 1 as [st|st key value kvs c p p' mc free g st1 lsn0 lsn1 cs V st' Hlo Hp Hl Htk Hrun Hp' Hlg Hlsn Hins IH]; intros m ps Hdb Hcap Hfuel.
  { split_and!; first [done|apply versions_last|by eexists|apply list.Forall_singleton, same_store_refl|by constructor]. }
  destruct (insert_version h m ps fuel st key value c p p' mc free g st1 (BPlusTreeId (tree st)) Hdb Hcap Hfuel Hlo Hp Hl Htk Hrun Hp' Hlsn)
    as (Hdb1 & Ht1 & Hss & Hvs).
  destruct (IH (<[key := value]> m) ps Hdb1) as (Hdb' & Ht' & Hv & (V' & ->) & HV & Hok & Hlen & HlenV & Hlg'); [destruct Hss as [-> _]; done|done|].
  split_and!; [done|congruence| |by eexists| | |cbn; congruence|cbn in *; congruence|by eapply logged_app].
  - cbn [fmap list_fmap concat work insert_op app]. by eapply versions_step.
  - constructor; [apply same_store_refl|]. eapply Forall_impl; [|exact HV]. intros b. by apply same_store_trans.
  - constructor; [|done]. apply list.Forall_singleton. by split.
Qed.

(** The last insertion of a history. *)
Lemma inserts_snoc h fuel st kvs kv cs op V st' : length cs = length kvs -> inserts h fuel st (kvs ++ [kv]) (cs ++ [op]) V st' ->
  exists stm V0, inserts h fuel st kvs cs V0 stm /\ inserts h fuel stm [kv] [op] [pool stm; pool st'] st' /\ V = V0 ++ [pool st'].
Proof.
  revert st cs V. induction kvs as [|kv1 kvs IH]; intros st [|op1 cs] V Hlen Hins; try done; cbn [app] in Hins.
  - exists st, [pool st]. inversion Hins as [|? ? ? ? ? ? ? ? ? ? ? ? ? ? ? ? ? ? ? ? ? ? ? ? Htl]; subst.
    inversion Htl; subst. split; [constructor|split; [exact Hins|done]].
  - inversion Hins as [|? ? ? ? ? ? ? ? ? ? ? ? ? ? ? ? ? ? ? ? ? ? ? ? Htl]; subst.
    destruct (IH _ cs _ ltac:(by injection Hlen) Htl) as (stm & Vm & Hfirst & Hlast & ->). exists stm, (pool st :: Vm).
    split; [by econstructor|split; [done|done]].
Qed.

(** ** Crashes *)

(** The file after a crash, opened again: every page is in one of its versions. *)
Record crashed_among V b0 : Prop := {
  ca_session : session b0 ∅;
  ca_frame : (0 < capacity b0)%nat;
  ca_page q : exists b, b ∈ V /\ store_page b0 q = store_page b q;
  ca_meta : exists b, b ∈ V /\ forall q, md_in_use (bpm_metadata b0) q <-> md_in_use (bpm_metadata b) q
}.

Lemma tree_db_like st h m ps b1 w t :
  tree_db exact_leaf st h m ps -> session b1 ∅ -> (forall q, like ps q (store_page (pool st) q) (store_page b1 q)) ->
  (forall q, md_in_use (bpm_metadata b1) q <-> md_in_use (bpm_metadata (pool st)) q) -> t = tree st ->
  tree_db exact_leaf (mkDb b1 w t) h m ps.
Proof.
  intros [_ Ht Hu Hb] Hs Hlike Hmd ->. constructor; cbn [pool tree]; [done| |intros q Hq; by apply Hmd, Hu|].
  - eapply tree_at_like; [|exact Ht]. intros q _. apply Hlike.
  - intros q data Hq Hn. rewrite Hmd in Hn. destruct (Hlike q) as [Heq|(Hin & _)]; [apply Hb; [congruence|done]|by destruct Hn; apply Hu].
Qed.

(** Redoing the first operations of a history, whatever the versions on disk. *)
Lemma recover_versions h fuel st kvs cs V st' m ps cs1 cs2 tail order b0 w0 t0 :
  inserts h fuel st kvs cs V st' -> tree_db exact_leaf st h m ps -> (h < capacity (pool st))%nat -> (h < fuel)%nat ->
  cs = cs1 ++ cs2 -> unfinished tail -> crashed_among V b0 -> (forall b, flush_order b (order b)) ->
  exists b1, Recover order (Ok (Ok <$> (concat (op_records <$> cs1) ++ tail))) (mkDb b0 w0 t0) = Some (Done (Ok tt), mkDb b1 w0 t0) /\
    session b1 ∅ /\ (forall q, md_in_use (bpm_metadata b1) q <-> md_in_use (bpm_metadata (pool st)) q) /\
    forall q, among ps (drop (length (concat (work <$> cs1))) V) q (store_page b1 q).
Proof.
  intros Hins Hdb Hcap Hfuel Heq Htail Hcr Hord.
  destruct (inserts_run _ _ _ _ _ _ _ Hins m ps Hdb Hcap Hfuel) as (_ & _ & Hv & _ & HV & Hok & _). subst cs.
  rewrite fmap_app, concat_app in Hv. apply Forall_app in Hok as [Hok1 _].
  destruct (redo_versions ps V _ Hv _ _ b0 w0 t0 eq_refl (ca_session _ _ Hcr) (ca_frame _ _ Hcr)) as (b1 & Hr & Hs1 & Hss & Ham).
  { intros q. destruct (ca_page _ _ Hcr q) as (b & Hb & Hq). exists b. split; [done|by left]. }
  destruct (FlushM_run order b1 w0 t0 Hs1 (Hord b1)) as (b2 & Hfl & Hs2 & [Hpg Hst2]). exists b2.
  split; [rewrite recover_committed by done; by erewrite bind_ok by exact Hr|]. split; [done|]. split.
  - intros q. destruct (ca_meta _ _ Hcr) as (b & Hb & Hmd). destruct (proj1 (Forall_forall _ _) HV b) as (_ & Hm & _); [by apply list_elem_of_In|].
    destruct Hss as (_ & Hm1 & _), Hst2 as (_ & Hm2 & _). rewrite Hm2, Hm1, <- Hm. apply Hmd.
  - intros q. rewrite Hpg. apply Ham.
Qed.

Lemma inserts_ends h fuel st kvs cs V st' : inserts h fuel st kvs cs V st' ->
  (exists V', V = V' ++ [pool st'] /\ length V' = length kvs) /\ length (concat (work <$> cs)) = length kvs.
Proof.
  induction 1 as [st|st key value kvs c p p' mc free g st1 lsn0 lsn1 cs V st' _ _ _ _ _ _ _ _ _ [(V' & -> & Hlen) Hw]]; [by split; [exists []|]|].
  split; [exists (pool st :: V'); cbn; by rewrite Hlen|]. cbn. by rewrite Hw.
Qed.

Lemma among_one ps b q v : among ps [b] q v -> like ps q (store_page b q) v.
Proof. by intros (b' & ->%list_elem_of_singleton & Hl). Qed.

(** Two versions of the tree that differ in one page. *)
Lemma among_two ps b b' r c key value p p' mc free g b1 :
  version_step ps b b' r c key value p p' mc free g -> (forall q, among ps [b; b'] q (store_page b1 q)) ->
  (forall q, like ps q (store_page b q) (store_page b1 q)) \/ (forall q, like ps q (store_page b' q) (store_page b1 q)).
Proof.
  intros Hst Ham.
  assert (forall q, q <> c -> like ps q (store_page b q) (store_page b1 q) /\ like ps q (store_page b' q) (store_page b1 q)) as Hq.
  { intros q Hne. rewrite (vs_other _ _ _ _ _ _ _ _ _ _ _ _ Hst q Hne).
    destruct (Ham q) as (v & [->|[->|Hv]%elem_of_cons]%elem_of_cons & Hl); [done| |by apply elem_of_nil in Hv].
    by rewrite (vs_other _ _ _ _ _ _ _ _ _ _ _ _ Hst q Hne) in Hl. }
  destruct (Ham c) as (v & [->|[->|Hv]%elem_of_cons]%elem_of_cons & Hl); [left|right|by apply elem_of_nil in Hv];
    intros q; (destruct (decide (q = c)) as [->|Hne]; [done|by apply Hq]).
Qed.

End history.
