(* ===== verification/RedoSplit.v ===== *)
(** * Redoing a leaf split (RedoSplitLeafNode)

    The record of a split carries the elements of the leaf before it.  Redoing it
    brings both pages to the halves the split made, the new pair included,
    whichever of the two had reached the disk. *)

From S2P Require Export RecoverySpec.

(** One half, on its page: the elements, the link, perhaps the new pair, the LSN. *)
Lemma rebuild_half p0 (l : list LeafNodeElement) (next lsn : Z) (key value : list byte) (ins : bool) :
  len p0 = 4096 -> Forall elt_ok l -> sorted_elts l -> unique_keys l -> footprint l <= 3560 ->
  leaf_size (mkLeaf key value) <= 500 -> kv_map l !! key = None ->
  exists p1 p2 p3 p4, leafPutAllSlotsAndElements p0 ((fun e => mkSlot (elt_size e) 0) <$> l) l = Some p1 /\
    SetNextLeafNodePageId p1 next = Some p2 /\
    (if ins then InsertElement p2 key value = Some (p3, true) else p3 = p2) /\ SetLSN p3 lsn = Some p4 /\
    len p1 = 4096 /\ len p2 = 4096 /\ len p3 = 4096 /\ len p4 = 4096 /\
    exact_leaf p4 (if ins then <[key := value]> (kv_map l) else kv_map l) /\ node_type p4 = node_type p0.
Proof.
  intros Hlen Hok Hsort Hu Hf Hsz Hk.
  destruct (node_page_PutAll p0 _ l Hlen (sizes_match_record l) Hok Hsort ltac:(lia)) as (p1 & Hput & Hn1 & Hm1).
  pose proof (node_page_space _ _ _ _ Hn1) as (Hl1 & _).
  assert (node_page (write p1 16 (le 8 next)) l (4064 - footprint l) 0) as Hn2.
  { apply node_page_write_meta; [done|]. right. rewrite len_le. lia. }
  assert (SetNextLeafNodePageId p1 next = Some (write p1 16 (le 8 next))) as Hset.
  { unfold SetNextLeafNodePageId. rewrite headerView_eq by lia. cbn [mbind option_bind]. apply setNextLeafNodePageId_eq. }
  assert (node_type (write p1 16 (le 8 next)) = node_type p0) as Hty.
  { unfold node_type. page_fld. by injection Hm1. }
  set (p2 := write p1 16 (le 8 next)) in *. pose proof (node_page_space _ _ _ _ Hn2) as (Hl2 & _).
  assert (leaf_page p2 (kv_map l) (4064 - footprint l) 0) as Hp2 by (by exists l).
  assert (exists p3 f3 g3, (if ins then InsertElement p2 key value = Some (p3, true) else p3 = p2) /\
      leaf_page p3 (if ins then <[key := value]> (kv_map l) else kv_map l) f3 g3 /\ node_type p3 = node_type p0) as (p3 & f3 & g3 & Hins & Hp3 & Hty3).
  { destruct ins; [|by eexists _, _, _].
    assert (leaf_need key value <= 504) as Hneed by (unfold leaf_need, leaf_size in *; cbn in *; lia).
    destruct (leaf_insert p2 _ _ 0 key value Hp2 Hk ltac:(lia)) as (p3 & Heq & Hp3 & Hm3 & _).
    rewrite bool_decide_eq_true_2 in Heq by lia. rewrite decide_True in Hp3 by lia. destruct (room_after _ _ _).
    eexists p3, _, _. split; [done|split; [done|]]. rewrite <- Hty. injection Hm3 as Hm3 _ _. done. }
  destruct (leaf_page_lsn p3 _ f3 g3 lsn Hp3) as (p4 & Hls & Hp4 & Hty4 & Hl4 & _).
  exists p1, p2, p3, p4. split_and!; try done; [by eapply leaf_page_len|by eexists _, _|congruence].
Qed.

Section redo.
Context {B W : Type} `{PL : PageStoreLaws B} `{!WAL W}.
Implicit Types (b : B) (w : W) (t : BPlusTree) (H : gmap Z hold) (g : Guard).

(** The code for one half; [nextId] computes the link. *)
Definition rebuild g (slots : list Slot) (elements : list LeafNodeElement) (nextId : M B W Z) (ins : bool)
    (key value : list byte) (lsn : Z) : M B W unit :=
  do! LeafWriter_PutAllElements g slots elements;
  let! next := nextId in
  do! LeafWriter_SetNextLeafNodePageId g next;
  do! (if ins then LeafWriter_InsertKeyValue g key value else ret false);
  do! LeafWriter_SetLSN g lsn;
  LeafReader_PrintElements g.

Lemma rebuild_run b H pid gd dt p0 l nextId next ins key value lsn w t :
  session b H -> H !! pid = Some (Hold gd true dt) -> store_page b pid = Some p0 ->
  (forall b1, session b1 (<[pid := Hold gd true true]> H) -> nextId (mkDb b1 w t) = Some (Done (Ok next), mkDb b1 w t)) ->
  Forall elt_ok l -> sorted_elts l -> unique_keys l -> footprint l <= 3560 ->
  leaf_size (mkLeaf key value) <= 500 -> kv_map l !! key = None ->
  exists b' p4, rebuild gd ((fun e => mkSlot (elt_size e) 0) <$> l) l nextId ins key value lsn (mkDb b w t) =
      Some (Done (Ok tt), mkDb b' w t) /\
    session b' (<[pid := Hold gd true true]> H) /\ wrote b b' pid p4 /\
    exact_leaf p4 (if ins then <[key := value]> (kv_map l) else kv_map l) /\ node_type p4 = node_type p0.
Proof.
  intros Hs Hh Hp Hnx Hok Hsort Hu Hf Hsz Hk. pose proof (store_page_len _ _ _ _ Hs Hp) as Hlen.
  destruct (rebuild_half p0 l next lsn key value ins Hlen Hok Hsort Hu Hf Hsz Hk)
    as (p1 & p2 & p3 & p4 & Hput & Hset & Hins & Hls & Hl1 & Hl2 & Hl3 & Hl4 & Hex & Hty).
  destruct (run_dirty_write b H pid (Hold gd true dt) p0 w t
    (fun p => p' ← leafPutAllSlotsAndElements p ((fun e => mkSlot (elt_size e) 0) <$> l) l; Some (p', tt)) p1 tt Hs Hh eq_refl Hp)
    as (b1 & R1 & Hs1 & Hw1); [by rewrite Hput|done|]. cbn [h_guard] in *. set (H1 := <[pid := Hold gd true true]> H) in *.
  assert (H1 !! pid = Some (Hold gd true true)) as Hh1 by (unfold H1; by rewrite lookup_insert_eq).
  destruct (held_page b1 H1 pid _ Hs1 Hh1) as (Ha & _). cbn [h_guard] in Ha.
  destruct (run_write_again b1 H1 pid gd p1 w t (fun p => p' ← SetNextLeafNodePageId p next; Some (p', tt)) p2 tt Hs1 Hh1)
    as (b2 & R2 & Hs2 & Hw2); [by eapply wrote_page|by rewrite Hset|done|].
  assert (exists b3 x, (if ins then LeafWriter_InsertKeyValue gd key value else ret false) (mkDb b2 w t) = Some (Done (Ok x), mkDb b3 w t) /\
      session b3 H1 /\ wrote b b3 pid p3) as (b3 & x & R3 & Hs3 & Hw3).
  { destruct ins.
    - destruct (run_write_again b2 H1 pid gd p2 w t (fun p => InsertElement p key value) p3 true Hs2 Hh1) as (b3 & R3 & Hs3 & Hw3);
        [by eapply wrote_page|done|done|]. exists b3, true. unfold LeafWriter_InsertKeyValue. rewrite Ha.
      split; [done|split; [done|]]. eapply wrote_wrote; [|exact Hw3]. by eapply wrote_wrote.
    - subst p3. exists b2, false. split; [done|split; [done|]]. by eapply wrote_wrote. }
  destruct (run_write_again b3 H1 pid gd p3 w t (fun p => p' ← SetLSN p lsn; Some (p', tt)) p4 tt Hs3 Hh1) as (b4 & R4 & Hs4 & Hw4);
    [by eapply wrote_page|by rewrite Hls|done|].
  exists b4, p4. split; [|split; [done|split; [by eapply wrote_wrote|done]]].
  unfold rebuild, LeafWriter_PutAllElements, LeafWriter_SetNextLeafNodePageId, LeafReader_PrintElements.
  erewrite bind_ok by exact R1. erewrite bind_ok by (by apply Hnx). erewrite bind_ok by exact R2.
  erewrite bind_ok by exact R3. erewrite bind_ok by exact R4.
  destruct (leaf_elements p4 _ (exact_leaf_slack _ _ Hex)) as [y Hy].
  by erewrite bind_ok by (eapply (run_codecRead b4 H1 pid (Hold gd true true)); [done|done|by eapply wrote_page|exact Hy]).
Qed.

(** One side of the split: rebuilt when its page is older than the record. *)
Lemma redo_side b H pid gd dt p0 (l : list LeafNodeElement) nextId next (ins : bool) key value lsn w t (body : M B W unit) :
  session b H -> H !! pid = Some (Hold gd true dt) -> store_page b pid = Some p0 ->
  (forall b1, session b1 (<[pid := Hold gd true true]> H) -> nextId (mkDb b1 w t) = Some (Done (Ok next), mkDb b1 w t)) ->
  Forall elt_ok l -> sorted_elts l -> unique_keys l -> footprint l <= 3560 ->
  leaf_size (mkLeaf key value) <= 500 -> kv_map l !! key = None ->
  let side (p : list byte) := exact_leaf p (if ins then <[key := value]> (kv_map l) else kv_map l) /\ node_type p = node_type p0 in
  (lsn <= page_lsn p0 -> side p0) ->
  (forall st, body st = rebuild gd ((fun e => mkSlot (elt_size e) 0) <$> l) l nextId ins key value lsn st) ->
  exists b' dt' p', (let! pageLSN := LeafWriter_GetLSN gd in if pageLSN <? lsn then body else ret tt) (mkDb b w t) =
      Some (Done (Ok tt), mkDb b' w t) /\
    session b' (<[pid := Hold gd true dt']> H) /\ wrote b b' pid p' /\ side p'.
Proof.
  intros Hs Hh Hp Hnx Hok Hsort Hu Hf Hsz Hk side Hsame Hbody. pose proof (store_page_len _ _ _ _ Hs Hp) as Hlen.
  unfold LeafWriter_GetLSN. erewrite bind_ok by (eapply (run_codecRead b H pid (Hold gd true dt)); [done..|by apply GetLSN_page]).
  destruct (Z.ltb_spec (page_lsn p0) lsn) as [Hlt|Hge].
  - destruct (rebuild_run b H pid gd dt p0 l nextId next ins key value lsn w t Hs Hh Hp Hnx Hok Hsort Hu Hf Hsz Hk)
      as (b' & p' & Hrun & Hs' & Hw & Hside). exists b', true, p'. by rewrite Hbody.
  - exists b, dt, p0. rewrite insert_id by done. split; [done|split; [done|split; [|by apply Hsame]]].
    split; [|apply same_store_refl]. intros q. case_decide; [by subst|done].
Qed.

(** The deferred [Done]s, right page first. *)
Lemma release_two b pid rid gl gr dl dl' dr dr' w t :
  pid <> rid -> session b (<[pid := Hold gl true dl']> (<[rid := Hold gr true dr']> (<[rid := Hold gr true dr]> (<[pid := Hold gl true dl]> ∅)))) ->
  exists b1 b2, doneWrite gr (mkDb b w t) = Some (Done (Ok tt), mkDb b1 w t) /\
    doneWrite gl (mkDb b1 w t) = Some (Done (Ok tt), mkDb b2 w t) /\ session b2 ∅ /\ kept b b2.
Proof.
  intros Hne Hs. destruct (run_doneWrite b _ rid (Hold gr true dr') w t Hs) as (b1 & Hd1 & Hs1 & Hk1);
    [by rewrite lookup_insert_ne, lookup_insert_eq|done|].
  assert (delete rid (<[pid := Hold gl true dl']> (<[rid := Hold gr true dr']> (<[rid := Hold gr true dr]> (<[pid := Hold gl true dl]> (∅ : gmap Z hold))))) =
    <[pid := Hold gl true dl']> (∅ : gmap Z hold)) as Hdel.
  { rewrite delete_insert_ne, insert_insert_eq, delete_insert_id by (done || by rewrite lookup_insert_ne). by rewrite insert_insert_eq. }
  rewrite Hdel in Hs1. destruct (run_doneWrite b1 _ pid (Hold gl true dl') w t Hs1) as (b2 & Hd2 & Hs2 & Hk2); [by rewrite lookup_insert_eq|done|].
  rewrite delete_insert_id in Hs2 by done. exists b1, b2. split_and!; [done|done|done|by eapply kept_trans].
Qed.

Abbreviation slots_of l := ((fun e : LeafNodeElement => mkSlot (elt_size e) 0) <$> l).

Lemma redoRight_run b H rid g dt q0 l (k : nat) (below : bool) (next lsn : Z) key value w t :
  session b H -> H !! rid = Some (Hold g true dt) -> store_page b rid = Some q0 -> (k <= length l)%nat ->
  Forall elt_ok (drop k l) -> sorted_elts (drop k l) -> unique_keys (drop k l) -> footprint (drop k l) <= 3560 ->
  leaf_size (mkLeaf key value) <= 500 -> kv_map (drop k l) !! key = None -> node_type q0 = 0 ->
  let half := if below then kv_map (drop k l) else <[key := value]> (kv_map (drop k l)) in
  (lsn <= page_lsn q0 -> exact_leaf q0 half) ->
  exists b' dt' q', redoRightLeaf lsn g (slots_of l) l (Z.of_nat k) next below key value (mkDb b w t) =
      Some (Done (Ok tt), mkDb b' w t) /\
    session b' (<[rid := Hold g true dt']> H) /\ wrote b b' rid q' /\ exact_leaf q' half /\ node_type q' = 0.
Proof.
  intros Hs Hh Hq Hkl Hok Hso Hu Hf Hsz Hk Hty half Hsame.
  assert (half = if negb below then <[key := value]> (kv_map (drop k l)) else kv_map (drop k l)) as Heq by (by destruct below).
  edestruct (redo_side b H rid g dt q0 (drop k l) (ret next) next (negb below) key value lsn w t)
    as (b' & dt' & q' & R & Hs' & Hw & Hex & Hty'); [exact Hs|done..| | |exists b', dt', q'; split; [exact R|]].
  - intros Hge. rewrite <- Heq. auto.
  - intros st. unfold sliceFrom, rebuild. rewrite !decide_True by (unfold len; rewrite ?length_fmap; lia).
    rewrite Nat2Z.id, fmap_drop. by destruct below.
  - rewrite Heq. split_and!; (done || congruence).
Qed.

Lemma redoLeft_run b H pid rid gl gr dt hr p0 l (k : nat) (below : bool) (lsn : Z) key value w t :
  session b H -> H !! pid = Some (Hold gl true dt) -> H !! rid = Some hr -> h_guard hr = gr -> pid <> rid ->
  store_page b pid = Some p0 -> (k <= length l)%nat ->
  Forall elt_ok (take k l) -> sorted_elts (take k l) -> unique_keys (take k l) -> footprint (take k l) <= 3560 ->
  leaf_size (mkLeaf key value) <= 500 -> kv_map (take k l) !! key = None -> node_type p0 = 0 ->
  let half := if below then <[key := value]> (kv_map (take k l)) else kv_map (take k l) in
  (lsn <= page_lsn p0 -> exact_leaf p0 half) ->
  exists b' dt' p', redoLeftLeaf lsn gl gr (slots_of l) l (Z.of_nat k) below key value (mkDb b w t) =
      Some (Done (Ok tt), mkDb b' w t) /\
    session b' (<[pid := Hold gl true dt']> H) /\ wrote b b' pid p' /\ exact_leaf p' half /\ node_type p' = 0.
Proof.
  intros Hs Hh Hr Hg Hne Hp Hkl Hok Hso Hu Hf Hsz Hk Hty half Hsame.
  edestruct (redo_side b H pid gl dt p0 (take k l) (Writer_GetPageId gr) rid below key value lsn w t)
    as (b' & dt' & p' & R & Hs' & Hw & Hex & Hty'); [exact Hs|done|done| |done..| | |exists b', dt', p'; split; [exact R|]].
  - intros b5 Hs5. subst gr. eapply (run_GetPageId b5 _ rid hr); [done|]. by rewrite lookup_insert_ne.
  - auto.
  - intros st. unfold sliceTo, rebuild. rewrite !decide_True by (unfold len; rewrite ?length_fmap; lia).
    by rewrite Nat2Z.id, fmap_take.
  - split_and!; (done || congruence).
Qed.

(** The two sides, from the decoded elements. *)
Lemma redo_split_run b pid rid l (k : nat) e bytes p0 q0 (next lsn : Z) key value w t :
  session b ∅ -> (1 < capacity b)%nat -> pid <> rid ->
  DecodeAllSlotsAndElements bytes = Some ((fun e => mkSlot (elt_size e) 0) <$> l, l) ->
  Forall elt_ok l -> sorted_elts l -> unique_keys l -> l !! k = Some e -> (0 < k)%nat -> len l < 65536 ->
  footprint (take k l) <= 3560 -> footprint (drop k l) <= 3560 ->
  leaf_size (mkLeaf key value) <= 500 -> kv_map l !! key = None ->
  store_page b pid = Some p0 -> store_page b rid = Some q0 -> node_type p0 = 0 -> node_type q0 = 0 ->
  (lsn <= page_lsn p0 -> exact_leaf p0 (lower (Key e) (<[key := value]> (kv_map l)))) ->
  (lsn <= page_lsn q0 -> exact_leaf q0 (upper (Key e) (<[key := value]> (kv_map l)))) ->
  exists b', RedoSplitLeafNode lsn pid rid (Z.of_nat k) next key value bytes (mkDb b w t) = Some (Done (Ok tt), mkDb b' w t) /\
    session b' ∅ /\ halves b' pid rid (Key e) (<[key := value]> (kv_map l)) /\ evolves b b' {[pid; rid]} [].
Proof.
  intros Hs Hcap Hne Hdec Hok Hsort Hu He Hk0 Hl Hf1 Hf2 Hsz Hk Hp Hq Htp Htq Hsp Hsq.
  destruct (leaf_cut l k e Hu Hsort He Hk0) as (Hu1 & Hu2 & Hun & _ & _ & _ & Hlo & Hup).
  destruct (cut_insert (Key e) _ _ key value Hlo Hup) as [Hlow Hupp]. rewrite Hun in Hk, Hsp, Hsq |- *. rewrite Hlow in Hsp. rewrite Hupp in Hsq.
  apply lookup_union_None in Hk as [Hk1 Hk2]. pose proof (lookup_lt_Some _ _ _ He) as Hkl.
  set (below := bytesCompare key (Key e) <? 0).
  assert (below = negb (bool_decide (key_le (Key e) key))) as Hbelow by apply compare_below.
  assert (Forall elt_ok (take k l) /\ Forall elt_ok (drop k l)) as [Hok1 Hok2] by (apply list.Forall_app; by rewrite take_drop).
  assert (sorted_elts (take k l) /\ sorted_elts (drop k l)) as [Hso1 Hso2].
  { rewrite <- (take_drop k l) in Hsort. by apply StronglySorted_app_inv in Hsort as (? & ? & _). }
  destruct (run_NewWriteGuard b ∅ pid w t noCleanup Hs (lookup_empty _)) as (gl & dl & b1 & Ho1 & Hs1 & Hk1'); [by eexists|rewrite map_size_empty; lia|].
  destruct (run_NewWriteGuard b1 _ rid w t noCleanup Hs1) as (gr & dr & b2 & Ho2 & Hs2 & Hk2');
    [by rewrite lookup_insert_ne|rewrite (proj1 Hk1'); by eexists
    |rewrite map_size_insert_None, map_size_empty by done; destruct Hk1' as [_ (-> & _)]; lia|].
  assert (kept b b2) as Hk12 by (by eapply kept_trans).
  set (H2 := <[rid := Hold gr true dr]> (<[pid := Hold gl true dl]> ∅)) in *.
  destruct (redoRight_run b2 H2 rid gr dr q0 l k below next lsn key value w t Hs2) as (b3 & dr3 & q3 & R3 & Hs3 & Hw3 & Hex3 & Hty3); try (done || lia).
  { unfold H2. by rewrite lookup_insert_eq. }
  { by rewrite (proj1 Hk12). }
  { intros Hge. specialize (Hsq Hge). rewrite Hbelow. by case_bool_decide; case_decide. }
  set (H3 := <[rid := Hold gr true dr3]> H2) in *.
  destruct (redoLeft_run b3 H3 pid rid gl gr dl (Hold gr true dr3) p0 l k below lsn key value w t Hs3)
    as (b4 & dl4 & p4 & R4 & Hs4 & Hw4 & Hex4 & Hty4); try (done || lia).
  { unfold H3, H2. rewrite !lookup_insert_ne by done. by rewrite lookup_insert_eq. }
  { unfold H3. by rewrite lookup_insert_eq. }
  { rewrite (wrote_other _ _ _ _ _ Hw3) by done. by rewrite (proj1 Hk12). }
  { intros Hge. specialize (Hsp Hge). rewrite Hbelow. by case_bool_decide; case_decide. }
  destruct (release_two b4 pid rid gl gr dl dl4 dr dr3 w t Hne Hs4) as (b5 & b6 & Hd5 & Hd6 & Hs6 & Hk46).
  exists b6. split; [|split; [done|split]].
  - unfold RedoSplitLeafNode. erewrite bind_ok by exact Ho1. eapply defer_ok; [|exact Hd6]. erewrite bind_ok by exact Ho2.
    eapply defer_ok; [|exact Hd5]. rewrite Hdec. erewrite bind_ok by apply run_lift. cbv beta iota.
    rewrite Nat2Z.id, He. erewrite bind_ok by apply run_lift. cbv zeta. fold below.
    erewrite bind_ok by exact R3. exact R4.
  - exists p4, q3. split_and!; [rewrite (proj1 Hk46); by eapply wrote_page| | | |done|done].
    + rewrite (proj1 Hk46), (wrote_other _ _ _ _ _ Hw4) by done. by eapply wrote_page.
    + rewrite Hlow. rewrite Hbelow in Hex4. by case_bool_decide; case_decide.
    + rewrite Hupp. rewrite Hbelow in Hex3. by case_bool_decide; case_decide.
  - eapply (evolves_trans _ [] []); [by apply evolves_kept|].
    eapply (evolves_trans _ [] []); [eapply evolves_wrote; [exact Hw3|set_solver]|].
    eapply (evolves_trans _ [] []); [eapply evolves_wrote; [exact Hw4|set_solver]|]. by apply evolves_kept.
Qed.

End redo.
