(* ===== verification/TreePromote.v ===== *)
(** * Separators going up (promote, the parent of a split leaf)

    When a leaf is split below a parent with room, the parent gets the
    separator and the new child: the tree has one page more and the same
    height, and every other part of it is as before. *)

From S2P Require Export TreeSplit.

Implicit Types (l : list InternalNodeElement) (m : kvmap).
Abbreviation strict := InternalRouting.strict.

(** ** The parts of the map after a separator is added *)

Lemma submap_insert_separator l e m (j : nat) :
  strict l ->
  submap (insert_separator e l) j m =
    let i := part (InternalKey e) l in
    if decide (j < i)%nat then submap l j m
    else if decide (j = i) then lower (InternalKey e) (submap l i m)
    else if decide (j = S i) then upper (InternalKey e) (submap l i m)
    else submap l (pred j) m.
Proof.
  intros Hs. cbn zeta. set (sep := InternalKey e). set (i := part sep l). apply map_eq. intros k.
  assert (key_le sep k -> (i <= part k l)%nat) as Hup by apply part_mono.
  assert (~ key_le sep k -> (part k l <= i)%nat) as Hlo.
  { intros Hn%key_not_le. by apply part_mono, key_lt_le. }
  rewrite lookup_submap, part_insert by done. fold sep.
  destruct (decide (key_le sep k)) as [Hle|Hgt]; [specialize (Hup Hle)|specialize (Hlo Hgt)];
    repeat case_decide; try lia; rewrite ?lookup_lower, ?lookup_upper, ?lookup_submap; repeat case_decide;
    first [done|lia|congruence].
Qed.

Lemma submap_insert l (i : nat) m key value :
  submap l i (<[key := value]> m) = if decide (part key l = i) then <[key := value]> (submap l i m) else submap l i m.
Proof. apply submap_partial_alter. Qed.

(** A key strictly above another one of the same part is no separator. *)
Lemma fresh_between l k sep : strict l -> key_lt k sep -> part k l = part sep l -> fresh_key sep l.
Proof.
  intros Hs Hlt. unfold part. induction Hs as [|a l Hs IH Hf]; [intros _ b []%elem_of_nil|]. cbn.
  rewrite list.Forall_forall in Hf. destruct (Z.eqb_spec (bytesCompare (InternalKey a) sep) 1) as [Hg|Hg].
  - apply key_gt_lt in Hg. intros _ b Hb Heq. apply (key_lt_irrefl sep). apply elem_of_cons in Hb as [->|Hb]; [congruence|].
    rewrite <- Heq at 2. eapply key_lt_trans; [exact Hg|by apply Hf].
  - destruct (Z.eqb_spec (bytesCompare (InternalKey a) k) 1) as [Hak|Hak]; [done|]. cbn. intros [= Hp] b [->|Hb]%elem_of_cons.
    + intros Heq. apply (key_lt_irrefl k). eapply key_lt_le_trans; [exact Hlt|]. by rewrite <- Heq.
    + by apply IH.
Qed.

(** ** One element of a list made two *)

Lemma lookup_expand {A} (x : list A) (i j : nat) (a a' : A) :
  (i < length x)%nat ->
  (take i x ++ [a; a'] ++ drop (S i) x) !! j =
    if decide (j < i)%nat then x !! j else if decide (j = i) then Some a
    else if decide (j = S i) then Some a' else x !! pred j.
Proof.
  intros Hi. assert (length (take i x) = i) as Hlen by (rewrite length_take; lia). repeat case_decide; subst.
  - rewrite lookup_app_l by lia. by apply lookup_take_lt.
  - rewrite lookup_app_r by lia. by rewrite Hlen, Nat.sub_diag.
  - rewrite lookup_app_r by lia. rewrite Hlen. by replace (S i - i)%nat with 1%nat by lia.
  - rewrite lookup_app_r by lia. rewrite Hlen, lookup_app_r by (cbn; lia). rewrite lookup_drop. f_equal. cbn. lia.
Qed.

Section replace.
Implicit Types (Ss : list (gset Z)) (pg : Z -> option (list byte)).

(** The page sets of the children are disjoint. *)
Definition disjoint_sets Ss : Prop := forall i j A C, Ss !! i = Some A -> Ss !! j = Some C -> i <> j -> A ## C.

Lemma in_union Ss i A : Ss !! i = Some A -> A ⊆ ⋃ Ss.
Proof. intros HA x Hx. apply elem_of_union_list. exists A. split; [by eapply list_elem_of_lookup_2|done]. Qed.

Lemma apart_union Ss N : N ## ⋃ Ss -> forall i A, Ss !! i = Some A -> N ## A.
Proof. intros HN i A HA x Hx Hy. apply (HN x Hx). by eapply in_union. Qed.

(** A set grows by pages outside of all of them. *)
Lemma grow_sets Ss i A N :
  Ss !! i = Some A -> disjoint_sets Ss -> N ## ⋃ Ss ->
  disjoint_sets (<[i := N ∪ A]> Ss) /\ ⋃ (<[i := N ∪ A]> Ss) = N ∪ ⋃ Ss.
Proof.
  intros HA Hd HN. pose proof (apart_union Ss N HN) as HNC.
  assert (forall j C, <[i := N ∪ A]> Ss !! j = Some C -> (j = i /\ C = N ∪ A) \/ (j <> i /\ Ss !! j = Some C)) as Hcase.
  { intros j C. rewrite list_lookup_insert_Some. intros [(<- & <- & _)|[? ?]]; [by left|by right]. }
  split.
  - intros j k C D [[-> ->]|[Hj HC]]%Hcase [[-> ->]|[Hk HD]]%Hcase Hne; [done| | |by eapply Hd].
    + apply disjoint_union_l. split; [by eapply HNC|by eapply Hd].
    + apply disjoint_union_r. split; [symmetry; by eapply HNC|by eapply Hd].
  - apply set_eq. intros x. rewrite elem_of_union, !elem_of_union_list. split.
    + intros (C & [j [[-> ->]|[Hj HC]]%Hcase]%list_elem_of_lookup & Hx).
      * apply elem_of_union in Hx as [Hx|Hx]; [by left|right]. exists A. split; [by eapply list_elem_of_lookup_2|done].
      * right. exists C. split; [by eapply list_elem_of_lookup_2|done].
    + intros [Hx|(C & [j HC]%list_elem_of_lookup & Hx)].
      * exists (N ∪ A). split; [|by apply elem_of_union_l]. eapply list_elem_of_lookup_2, list_lookup_insert_eq. by eapply lookup_lt_Some.
      * destruct (decide (j = i)) as [->|Hj].
        -- exists (N ∪ A). rewrite HA in HC. injection HC as <-. split; [|by apply elem_of_union_r].
           eapply list_elem_of_lookup_2, list_lookup_insert_eq. by eapply lookup_lt_Some.
        -- exists C. split; [|done]. eapply list_elem_of_lookup_2. by rewrite list_lookup_insert_ne.
Qed.

(** A set more. *)
Lemma expand_sets Ss i A N :
  Ss !! i = Some A -> disjoint_sets Ss -> N ## ⋃ Ss ->
  let Ss' := take i Ss ++ [A; N] ++ drop (S i) Ss in
  disjoint_sets Ss' /\ ⋃ Ss' = N ∪ ⋃ Ss /\ length Ss' = S (length Ss).
Proof.
  intros HA Hd HN Ss'. pose proof (lookup_lt_Some _ _ _ HA) as Hi.
  pose proof (apart_union Ss N HN) as HNC.
  assert (forall j C, Ss' !! j = Some C -> (j = S i /\ C = N) \/ (j <> S i /\ Ss !! (if decide (j <= i)%nat then j else pred j) = Some C)) as Hcase.
  { intros j C. unfold Ss'. rewrite lookup_expand by done. repeat case_decide; try lia; subst; intros HC;
      first [right; split; [lia|congruence]|left; split; congruence]. }
  split_and!.
  - intros j k C D [[-> ->]|[Hj HC]]%Hcase [[-> ->]|[Hk HD]]%Hcase Hne; [done|by eapply HNC|symmetry; by eapply HNC|].
    eapply Hd; [done|done|]. repeat case_decide; lia.
  - apply set_eq. intros x. rewrite elem_of_union, !elem_of_union_list. split.
    + intros (C & [j [[-> ->]|[Hj HC]]%Hcase]%list_elem_of_lookup & Hx); [by left|].
      right. exists C. split; [by eapply list_elem_of_lookup_2|done].
    + intros [Hx|(C & [j HC]%list_elem_of_lookup & Hx)].
      * exists N. split; [|done]. apply (list_elem_of_lookup_2 _ (S i)). unfold Ss'. rewrite lookup_expand by done. by repeat case_decide; try lia.
      * exists C. split; [|done]. apply (list_elem_of_lookup_2 _ (if decide (j <= i)%nat then j else S j)). unfold Ss'.
        rewrite lookup_expand by done. repeat case_decide; try lia; subst; first [done|congruence].
  - unfold Ss'. rewrite !length_app, length_take, length_drop. cbn. lia.
Qed.
End replace.

Lemma union_swap (N P U : gset Z) : N ∪ (P ∪ U) = P ∪ (N ∪ U).
Proof. rewrite !(assoc_L (∪)). by rewrite (comm_L (∪) N). Qed.

(** ** A node whose child changes *)
Section child.
Context (Lf : list byte -> kvmap -> Prop) (pg pg' : Z -> option (list byte)) (h : nat) (pid : Z) (m : kvmap)
  (l : list InternalNodeElement) (Ss : list (gset Z)) (key value : list byte) (c : Z) (A N : gset Z).
Hypotheses (Hlen : length Ss = length (children l)) (Hn : pid ∉ ⋃ Ss) (Hdis : disjoint_sets Ss)
  (Hch : forall i c A, children l !! i = Some c -> Ss !! i = Some A -> tree_at Lf pg h c (submap l i m) A)
  (Hc : children l !! part key l = Some c) (HA : Ss !! part key l = Some A) (HN : N ## {[pid]} ∪ ⋃ Ss)
  (Hsame : forall q, q ∈ ⋃ Ss -> q ∉ A -> pg' q = pg q).

Lemma other_child j d C :
  children l !! j = Some d -> Ss !! j = Some C -> j <> part key l -> tree_at Lf pg' h d (submap l j m) C.
Proof using Hch Hdis HA Hsame.
  intros Hd HC Hne. eapply tree_at_ext; [|by apply (Hch j d C)]. intros x Hx. apply Hsame; [by eapply in_union|].
  intros Hx'. by apply (Hdis j (part key l) C A HC HA Hne x).
Qed.

Lemma pages_apart : N ## ⋃ Ss /\ (pid ∉ N).
Proof using HN.
  split; [intros x Hx Hy; apply (HN x Hx); by apply elem_of_union_r|].
  intros Hx. apply (HN pid Hx). apply elem_of_union_l. by apply elem_of_singleton.
Qed.

(** The child's subtree has new pages. *)
Lemma tree_child_grows p free g1 :
  pg' pid = Some p -> internal_page p l free g1 -> l <> [] -> node_type p <> 0 ->
  tree_at Lf pg' h c (<[key := value]> (submap l (part key l) m)) (N ∪ A) ->
  tree_at Lf pg' (S h) pid (<[key := value]> m) (N ∪ ({[pid]} ∪ ⋃ Ss)).
Proof using All.
  intros Hp Hi Hl Hty Ht. destruct pages_apart as [HNS HpN]. destruct (grow_sets Ss _ A N HA Hdis HNS) as [Hd' HU].
  exists p, l, free, g1, (<[part key l := N ∪ A]> Ss). split_and!; try done.
  - by rewrite length_insert.
  - rewrite HU. apply union_swap.
  - rewrite HU. intros [?|?]%elem_of_union; done.
  - intros j d C Hd HC. rewrite submap_insert. case_decide as Hj.
    + subst j. rewrite list_lookup_insert_eq in HC by (by eapply lookup_lt_Some). congruence.
    + rewrite list_lookup_insert_ne in HC by done. by apply other_child.
Qed.

(** The child is split in two. *)
Lemma tree_child_splits p sep rid free g1 :
  InternalRouting.strict l -> part sep l = part key l ->
  pg' pid = Some p -> internal_page p (insert_separator (mkInternal sep c rid) l) free g1 -> node_type p <> 0 ->
  tree_at Lf pg' h c (lower sep (<[key := value]> (submap l (part key l) m))) A ->
  tree_at Lf pg' h rid (upper sep (<[key := value]> (submap l (part key l) m))) N ->
  tree_at Lf pg' (S h) pid (<[key := value]> m) (N ∪ ({[pid]} ∪ ⋃ Ss)).
Proof using All.
  intros Hs Hpart Hp Hi Hty Ht1 Ht2. destruct pages_apart as [HNS HpN].
  destruct (expand_sets Ss _ A N HA Hdis HNS) as (Hd' & HU & HL).
  assert (part key l < length (children l))%nat as Hlt by (by eapply lookup_lt_Some).
  eexists p, _, free, g1, _. split_and!; [exact Hp|exact Hi|..|exact Hd'|]; try done.
  - unfold insert_separator. by destruct (set_last_right _ _).
  - rewrite HL, Hlen. rewrite children_insert. cbn [InternalKey LeftChildNodePageId RightChildNodePageId]. rewrite Hpart.
    rewrite !length_app, length_take, length_drop. cbn [length]. lia.
  - rewrite HU. apply union_swap.
  - rewrite HU. intros [?|?]%elem_of_union; done.
  - intros j d C. rewrite children_insert, submap_insert_separator by done.
    cbn [InternalKey LeftChildNodePageId RightChildNodePageId]. rewrite Hpart. cbn zeta.
    rewrite !lookup_expand by lia. rewrite !submap_insert, (decide_True (P := part key l = part key l)) by done.
    repeat case_decide; try lia; intros Hd HC; [..| |]; try congruence; by apply other_child.
Qed.
End child.

(** A parent with room for the separator and its slot. *)
Definition separator_fits (sep : list byte) (free g : Z) : Prop :=
  internal_need sep < 65536 /\ (internal_need sep <= free \/ internal_need sep <= g).

Lemma internal_check_insert p l free g sep :
  internal_page p l free g -> separator_fits sep free g ->
  exists p1 f1 g1, InternalNodeCodec.HasEnoughSpaceToInsertElement p sep = Some (p1, true) /\
    internal_page p1 l f1 g1 /\ separator_fits sep f1 g1 /\ node_type p1 = node_type p /\ len p1 = 4096.
Proof.
  intros (Hp & Hs & Hl) [Hn Hfit]. unfold InternalNodeCodec.HasEnoughSpaceToInsertElement. pose proof (len_nonneg sep).
  unfold separator_fits, internal_need in *.
  destruct (node_page_hasEnoughSpace p l free g (2 + len sep + 8 + 8) Hp ltac:(lia)) as (p1 & f1 & g1 & Heq & Hp1 & Hm & Hfg).
  rewrite bool_decide_eq_true_2 in Heq by lia. rewrite decide_True in Hfg by lia. exists p1, f1, g1.
  split_and!; try done; [|by injection Hm|by apply node_page_space in Hp1 as (? & _)].
  apply node_page_space in Hp. unfold room_after in Hfg.
  destruct (Z.leb_spec (2 + len sep + 8 + 8) free); injection Hfg as -> ->; lia.
Qed.

Section promote.
Context {B W : Type} `{PL : PageStoreLaws B} `{!WAL W} (Hlog : log_reliable W).
Implicit Types (b : B) (w : W) (t : BPlusTree) (H : gmap Z hold) (g : Guard).

Lemma InsertKey_spec b H pid gd dt p l free (g1 : Z) sep c rid w t :
  session b H -> H !! pid = Some (Hold gd true dt) -> store_page b pid = Some p -> internal_page p l free g1 ->
  separator_fits sep free g1 -> fresh_key sep l -> 0 <= c < 2 ^ 64 -> 0 <= rid < 2 ^ 64 ->
  exists b' p' f' (g2 : Z), InternalWriter_InsertKey gd sep c rid (mkDb b w t) = Some (Done (Ok true), mkDb b' w t) /\
    session b' (<[pid := Hold gd true true]> H) /\ wrote b b' pid p' /\
    internal_page p' (insert_separator (mkInternal sep c rid) l) f' g2 /\ node_type p' = node_type p.
Proof.
  intros Hs Hh Hp (Hnp & Hst & Hli) [Hn Hfit] Hfr Hc Hr. destruct (held_page b H pid _ Hs Hh) as (Ha & _). cbn [h_guard] in Ha.
  pose proof (internal_InsertElement_node _ _ _ _ sep c rid Hnp Hfr Hn Hc Hr) as Hins. rewrite decide_True in Hins by done.
  destruct Hins as (p' & Heq & Hp' & Hm & _).
  destruct (run_dirty_write b H pid (Hold gd true dt) p w t (fun p => InternalNodeCodec.InsertElement p sep c rid) p' true Hs Hh)
    as (b' & Hrun & Hs' & Hw); [done..|by apply node_page_space in Hp' as (? & _)|].
  eexists b', p', _, _. split; [unfold InternalWriter_InsertKey; rewrite Ha; exact Hrun|].
  split; [done|split; [done|split; [|by injection Hm]]]. split; [exact Hp'|]. split; [by apply strict_insert|by apply linked_insert].
Qed.

Lemma promote_room b H pid gd dt p l free (g1 : Z) sep c rid parent w t :
  session b H -> H !! pid = Some (Hold gd true dt) -> store_page b pid = Some p -> internal_page p l free g1 ->
  separator_fits sep free g1 -> fresh_key sep l -> 0 <= c < 2 ^ 64 -> 0 <= rid < 2 ^ 64 ->
  exists b' w' p' f' (g2 : Z), promote gd parent sep c rid (mkDb b w t) = Some (Done (Ok nothingPromoted), mkDb b' w' t) /\
    session b' (<[pid := Hold gd true true]> H) /\ wrote b b' pid p' /\
    internal_page p' (insert_separator (mkInternal sep c rid) l) f' g2 /\ node_type p' = node_type p.
Proof.
  intros Hs Hh Hp Hi Hfit Hfr Hc Hr.
  destruct (internal_check_insert p l free g1 sep Hi Hfit) as (p1 & f1 & g2 & Hck & Hi1 & Hfit1 & Ht1 & Hlen1).
  destruct (run_check b H pid (Hold gd true dt) p w t
    (fun p => InternalNodeCodec.HasEnoughSpaceToInsertElement p sep) p1 true Hs Hh eq_refl Hp Hck Hlen1) as (b1 & Hrun & Hid & Hnext).
  destruct (run_log Hlog (InsertInternalNodeEntry (BPlusTreeId t) pid sep c rid) b1 w t) as (lsn & w1 & Hl).
  destruct Hi1 as (Hnp1 & Hst1 & Hli1). destruct (node_page_lsn p1 l f1 g2 lsn Hnp1) as (p2 & Hlsn & Hnp2 & Hty2 & _ & Hlen2 & _).
  destruct (Hnext w1 t unit (fun p => p' ← SetLSN p lsn; Some (p', tt)) p2 tt) as (b2 & Hset & Hs2 & Hw2); [by rewrite Hlsn|done|].
  destruct (InsertKey_spec b2 _ pid gd true p2 l f1 g2 sep c rid w1 t Hs2) as (b3 & p3 & f3 & g3 & Hins & Hs3 & Hw3 & Hi3 & Hty3);
    [by rewrite lookup_insert_eq|by eapply wrote_page|done..|].
  rewrite insert_insert_eq in Hs3. exists b3, w1, p3, f3, g3.
  split; [|split; [done|split; [by eapply wrote_wrote|split; [done|congruence]]]].
  unfold promote. rewrite bind_getTree. unfold InternalWriter_HasEnoughSpaceToInsertElement.
  erewrite bind_ok by exact Hrun. erewrite bind_ok by apply Hid. cbn iota. erewrite bind_ok by exact Hl.
  erewrite bind_ok by exact Hset. by erewrite bind_ok by exact Hins.
Qed.

(** A leaf without room for a new pair. *)
Definition leaf_full (m : kvmap) (free g1 : Z) (key value : list byte) : Prop :=
  m !! key = None /\ ~ leaf_size_fits key value free g1 /\ small_elements m key value.

Lemma writeLeaf_full b H pid gd dt p m free (g1 : Z) key value w t :
  session b H -> H !! pid = Some (Hold gd true dt) -> store_page b pid = Some p -> leaf_page p m free g1 ->
  leaf_full m free g1 key value ->
  writeLeaf gd key value (mkDb b w t) = splitLeaf gd key value (mkDb b w t) /\ free < 500 /\ g1 < 500.
Proof.
  intros Hs Hh Hp Hl (Hk & Hno & [Hsz _]).
  rewrite (writeLeaf_find b H pid gd dt p m key value w t Hs Hh Hp) by (by eapply leaf_page_is_slack). rewrite Hk.
  destruct (leaf_check_insert p m free g1 key value Hl ltac:(lia)) as (p1 & f1 & g2 & Hck & _ & _ & _ & Hn).
  rewrite (Hn Hno), bool_decide_eq_false_2 in Hck by done. split.
  - by erewrite bind_ok by (by eapply (run_codecWrite_same b H pid (Hold gd true dt))).
  - unfold leaf_size_fits in Hno. lia.
Qed.

(** One step down: the child is opened. *)
Lemma writeTraversal_down b H pid gd dt p key value parent c w t :
  session b H -> H !! pid = Some (Hold gd true dt) -> store_page b pid = Some p ->
  IsLeafNode p = Some false -> FindNextChildNodePageId p key = Some c ->
  H !! c = None -> is_Some (store_page b c) -> (size H < capacity b)%nat ->
  exists gc dc b1, session b1 (<[c := Hold gc true dc]> H) /\ kept b b1 /\ forall (N : OutOfFuel) fuel,
    writeTraversal (S fuel) key value (mkWriteCursor gd parent) (mkDb b w t) =
      defer (doneWrite gc) (
        let! (extraKey, leftId, rightId) := writeTraversal fuel key value (mkWriteCursor gc (Some gd)) in
        match extraKey with
        | None => ret nothingPromoted
        | Some extraKey => promote gd parent extraKey leftId rightId
        end) (mkDb b1 w t).
Proof.
  intros Hs Hh Hp Hnl Hf Hc Hpc Hsz. destruct (held_page b H pid _ Hs Hh) as (Ha & _). cbn [h_guard] in Ha.
  destruct (run_NewWriteGuard b H c w t noCleanup Hs Hc Hpc Hsz) as (gc & dc & b1 & Ho & Hs1 & Hk1).
  exists gc, dc, b1. split; [done|split; [done|]]. intros N fuel. cbn [writeTraversal guard parentGuard].
  unfold Cursor_IsLeafNode, InternalWriter_FindNextChildNodePageId. rewrite Ha. cbn [negb].
  erewrite bind_ok by (by eapply (run_codecRead b H pid (Hold gd true dt))). cbn iota.
  erewrite bind_ok by (by eapply (run_codecRead b H pid (Hold gd true dt))). by erewrite bind_ok by exact Ho.
Qed.

Lemma tidy_open b b1 H c h : tidy b H -> kept b b1 -> md_in_use (bpm_metadata b) c -> tidy b1 (<[c := h]> H).
Proof.
  intros [Hu Hb] [Hpg (_ & Hm & _)] Hc. split; rewrite Hm.
  - intros q. destruct (decide (q = c)) as [->|Hne]; [done|]. rewrite lookup_insert_ne by done. apply Hu.
  - intros q data. rewrite Hpg. apply Hb.
Qed.

(** A full leaf below the root hands a separator up. *)
Lemma writeTraversal_full fuel b H c gc dc p m free (g1 : Z) key value parent w t :
  session b H -> tidy b H -> room b 1 -> (size H < capacity b)%nat -> H !! c = Some (Hold gc true dc) ->
  store_page b c = Some p -> leaf_page p m free g1 -> node_type p = 0 -> leaf_full m free g1 key value ->
  rootNodePageId t <> c ->
  exists b' w' rid sep,
    writeTraversal (S fuel) key value (mkWriteCursor gc parent) (mkDb b w t) = Some (Done (Ok (Some sep, c, rid)), mkDb b' w' t) /\
    session b' (<[c := Hold gc true true]> H) /\ evolves b b' {[c; rid]} [rid] /\
    halves b' c rid sep (<[key := value]> m) /\ 0 < rid < 2 ^ 51 /\ ~ md_in_use (bpm_metadata b) rid /\
    is_Some (m !! sep) /\ (exists k, is_Some (m !! k) /\ key_lt k sep).
Proof.
  intros Hs Htidy Hroom Hsz Hh Hp Hl Hty Hfull Hroot.
  destruct (writeLeaf_full b H c gc dc p m free g1 key value w t Hs Hh Hp Hl Hfull) as (Heq & Hf & Hg).
  destruct Hfull as (Hk & _ & Hsmall).
  destruct (HandleLeafNodeSplit_spec Hlog b H c gc dc p m free g1 key value w t Hs Htidy Hroom Hsz Hh Hp Hl Hty Hk Hsmall Hf Hg)
    as (b' & w' & rid & sep & Hrun & Hpost). exists b', w', rid, sep. split; [|exact Hpost].
  cbn [writeTraversal guard]. unfold Cursor_IsLeafNode.
  erewrite bind_ok by (eapply (run_codecRead b H c (Hold gc true dc)); [done..|eapply leaf_is_leaf; [by eapply leaf_page_is_slack|done]]).
  cbn iota. rewrite Heq. unfold splitLeaf. rewrite bind_getTree.
  erewrite bind_ok by (by eapply (run_GetPageId b H c (Hold gc true dc))). by rewrite (proj2 (Z.eqb_neq _ _) Hroot).
Qed.
End promote.
