(* ===== verification/TreeInsertSplit.v ===== *)
(** * Inserting into a full leaf (Insert, writeTraversal, the root's split)

    The paths of [Insert] that split a leaf: below a parent that has room for
    a separator, at the root, and the creation of the first leaf. *)

From S2P Require Export TreePromote.

Implicit Types (l : list InternalNodeElement) (m : kvmap).

Lemma internal_page_fun p l l' free g free' g' : internal_page p l free g -> internal_page p l' free' g' -> l = l'.
Proof.
  intros [(ss & H1 & _)%node_page_getAll _] [(ss' & H2 & _)%node_page_getAll _]. rewrite H1 in H2. by injection H2.
Qed.

Lemma children_bound p l free g c : internal_page p l free g -> c ∈ children l -> 0 <= c < 2 ^ 64.
Proof.
  intros [Hok%node_page_ok _] Hc. rewrite list.Forall_forall in Hok. unfold children in Hc.
  apply elem_of_cons in Hc as [->|(e & -> & He)%list_elem_of_fmap]; [|by apply Hok in He as (_ & _ & ?)].
  destruct l as [|a l]; cbn; [lia|]. by destruct (Hok a ltac:(by left)) as (_ & ? & _).
Qed.

(** A node of the tree, its children and the one a key leads to. *)
Lemma tree_node Lf pg h pid m ps key p l free g :
  tree_at Lf pg (S h) pid m ps -> pg pid = Some p -> internal_page p l free g ->
  exists Ss c A, length Ss = length (children l) /\ ps = {[pid]} ∪ ⋃ Ss /\ (pid ∉ ⋃ Ss) /\ disjoint_sets Ss /\
    (forall i c A, children l !! i = Some c -> Ss !! i = Some A -> tree_at Lf pg h c (submap l i m) A) /\
    children l !! part key l = Some c /\ Ss !! part key l = Some A /\ FindNextChildNodePageId p key = Some c /\
    IsLeafNode p = Some false /\ l <> [] /\ node_type p <> 0 /\ tree_at Lf pg h c (submap l (part key l) m) A /\
    c ∈ A /\ is_Some (pg c) /\ c <> pid /\ A ⊆ ⋃ Ss.
Proof.
  intros (p' & l' & f' & g' & Ss & Hp' & Hi' & Hln & Hty & Hlen & -> & Hn & Hd & Hch) Hp Hi.
  rewrite Hp in Hp'. injection Hp' as <-. rewrite <- (internal_page_fun _ _ _ _ _ _ _ Hi Hi') in *.
  pose proof Hi as (Hnp & Hst & Hli). pose proof (findNext_children l key Hst Hli) as Hc.
  destruct (lookup_lt_is_Some_2 Ss (part key l)) as [A HA]; [rewrite Hlen; by eapply lookup_lt_Some|].
  pose proof (Hch _ _ _ Hc HA) as Ht. destruct (tree_at_root _ _ _ _ _ _ Ht) as [HcA Hpc].
  exists Ss, (findNext_loop l key 0), A. split_and!; try done; [by eapply FindNext_page|by eapply internal_is_not_leaf| |by eapply in_union].
  intros Heq. apply Hn. rewrite Heq in HcA. by eapply in_union.
Qed.

Lemma tree_at_pages Lf pg h : forall pid m ps, tree_at Lf pg h pid m ps -> forall q, q ∈ ps -> is_Some (pg q).
Proof.
  induction h as [|h IH]; intros pid m ps; cbn [tree_at].
  - intros (p & Hp & _ & _ & ->) q ->%elem_of_singleton. by eexists.
  - intros (p & l & free & g & Ss & Hp & _ & _ & _ & Hlen & -> & _ & _ & Hch) q [->%elem_of_singleton|Hq]%elem_of_union; [by eexists|].
    apply elem_of_union_list in Hq as (A & [i HA]%list_elem_of_lookup & Hq).
    destruct (lookup_lt_is_Some_2 (children l) i) as [c Hc]; [rewrite <- Hlen; by eapply lookup_lt_Some|].
    by eapply IH; [apply (Hch i c A)|].
Qed.

Lemma submap_part_eq l i m k : is_Some (submap l i m !! k) -> part k l = i.
Proof. intros [v Hv]. rewrite lookup_submap in Hv. by case_decide. Qed.

(** Room for any separator that a leaf of small elements can hand up. *)
Definition parent_room (free g : Z) : Prop := 518 <= free \/ 518 <= g.

Lemma small_separator m key value sep free g :
  small_elements m key value -> is_Some (m !! sep) -> parent_room free g -> separator_fits sep free g.
Proof.
  intros [_ Hs] [v Hv] Hr. apply Hs in Hv. unfold leaf_size in Hv. cbn in Hv. pose proof (len_nonneg v).
  unfold separator_fits, internal_need, parent_room in *. lia.
Qed.

Section split.
Context {B W : Type} `{PL : PageStoreLaws B} `{!WAL W} (Hlog : log_reliable W).
Implicit Types (b : B) (w : W) (t : BPlusTree) (H : gmap Z hold) (g : Guard).

Lemma evolves_wrote_after X b1 b2 b3 pid p news : evolves b1 b2 X news -> wrote b2 b3 pid p -> pid ∈ X -> evolves b1 b3 X news.
Proof. intros He Hw Hin. rewrite <- (app_nil_r news). eapply evolves_trans; [done|by eapply evolves_wrote]. Qed.

Lemma evolves_kept_after X b1 b2 b3 news : evolves b1 b2 X news -> kept b2 b3 -> evolves b1 b3 X news.
Proof. intros He Hk. rewrite <- (app_nil_r news). eapply evolves_trans; [done|by eapply evolves_kept]. Qed.

Lemma evolves_kept_before X b1 b2 b3 news : kept b1 b2 -> evolves b2 b3 X news -> evolves b1 b3 X news.
Proof. intros Hk He. change news with ([] ++ news). eapply evolves_trans; [by eapply evolves_kept|done]. Qed.

Lemma evolves_page X b b' news q p : evolves b b' X news -> q ∉ X -> store_page b q = Some p -> store_page b' q = Some p.
Proof. intros (Hk & _). apply Hk. Qed.

(** The state after an insertion that split a leaf below [pid]. *)
Definition split_below b b' (n : nat) (pid : Z) m ps key value (rid : Z) : Prop :=
  evolves b b' ({[rid]} ∪ ps) [rid] /\ ~ md_in_use (bpm_metadata b) rid /\ 0 < rid /\
  tree_at exact_leaf (store_page b') n pid (<[key := value]> m) ({[rid]} ∪ ps).

Lemma split_below_parent fuel b H pid gd dt m ps w t parent c p mc free (g1 : Z) pp l pf (pg : Z) key value :
  session b H -> tidy b H -> room b 1 -> (S (size H) < capacity b)%nat -> H !! pid = Some (Hold gd true dt) ->
  tree_at exact_leaf (store_page b) 1 pid m ps -> (forall q, q ∈ ps -> md_in_use (bpm_metadata b) q) ->
  (forall q, q ∈ ps -> q <> pid -> H !! q = None) ->
  store_page b pid = Some pp -> internal_page pp l pf pg -> parent_room pf pg -> FindNextChildNodePageId pp key = Some c ->
  store_page b c = Some p -> leaf_page p mc free g1 -> leaf_full mc free g1 key value -> rootNodePageId t <> c ->
  exists b' w' rid, writeTraversal (S (S fuel)) key value (mkWriteCursor gd parent) (mkDb b w t) =
      Some (Done (Ok nothingPromoted), mkDb b' w' t) /\
    session b' (<[pid := Hold gd true true]> H) /\ split_below b b' 1 pid m ps key value rid.
Proof.
  intros Hs Htidy Hroom Hsz Hh Ht Hu Hdis Hpp Hi Hpr Hf Hp Hl Hfull Hroot.
  destruct (tree_node _ _ _ _ _ _ key _ _ _ _ Ht Hpp Hi)
    as (Ss & c' & A & Hlen & -> & Hn & Hd & Hch & Hc & HA & Hf' & Hnl & Hln & Hty & Hcc & HcA & Hpc & Hcp & HAS).
  rewrite Hf in Hf'. injection Hf' as <-. set (ps := {[pid]} ∪ ⋃ Ss) in *.
  assert (c ∈ ps) as Hcps by (apply elem_of_union_r; by apply HAS).
  destruct Hcc as (p0 & Hp0 & Hl0%exact_leaf_slack & Htc & ->). rewrite Hp in Hp0. injection Hp0 as <-.
  assert (mc = submap l (part key l) m) as -> by (eapply leaf_page_fun; [by eapply leaf_page_is_slack|done]).
  destruct (writeTraversal_down b H pid gd dt pp key value parent c w t Hs Hh Hpp Hnl Hf (Hdis c Hcps Hcp) Hpc ltac:(lia))
    as (gc & dc & b1 & Hs1 & Hk1 & Hdown). specialize (Hdown _ (S fuel)).
  assert (room b1 1) as Hr1 by (by apply Hk1).
  destruct (writeTraversal_full Hlog fuel b1 _ c gc dc p (submap l (part key l) m) free g1 key value (Some gd) w t Hs1)
    as (b2 & w2 & rid & sep & Hrun & Hs2 & Hev2 & Hhalf & Hrid & Hnu & Hsep & (k & Hk & Hlt));
    [eapply tidy_open; [done..|by apply Hu]|done|rewrite map_size_insert_None by (by apply Hdis); by destruct Hk1 as [_ (-> & _)]
    |by rewrite lookup_insert_eq|by rewrite (proj1 Hk1)|done..|].
  rewrite insert_insert_eq in Hs2. pose proof Hk1 as [Hpg1 (_ & Hm1 & _)]. rewrite Hm1 in Hnu.
  assert (rid ∉ ps) as Hrps by (intros Hin; by apply Hnu, Hu).
  assert (pid <> rid) as Hpr' by (intros ->; apply Hrps, elem_of_union_l; by apply elem_of_singleton).
  pose proof (evolves_kept_before _ _ _ _ _ Hk1 Hev2) as Hev. destruct Hfull as (_ & _ & Hsmall).
  assert (store_page b2 pid = Some pp) as Hpp2.
  { eapply evolves_page; [exact Hev| |done]. intros [->%elem_of_singleton| ->%elem_of_singleton]%elem_of_union; done. }
  pose proof (submap_part_eq _ _ _ _ Hsep) as Hps. pose proof (submap_part_eq _ _ _ _ Hk) as Hpk.
  destruct (promote_room Hlog b2 _ pid gd dt pp l pf pg sep c rid parent w2 t Hs2)
    as (b3 & w3 & p3 & f3 & g3 & Hprom & Hs3 & Hw3 & Hi3 & Hty3);
    [by rewrite lookup_insert_ne|done|done|by eapply small_separator|eapply fresh_between; [apply Hi|done|congruence]
    |eapply children_bound; [done|by eapply list_elem_of_lookup_2]|lia|].
  destruct (run_doneWrite b3 _ c (Hold gc true true) w3 t Hs3) as (b4 & Hdone & Hs4 & Hk4);
    [by rewrite lookup_insert_ne, lookup_insert_eq|done|].
  rewrite delete_insert_ne, delete_insert_id in Hs4 by (done || by apply Hdis).
  exists b4, w3, rid. split; [|split; [done|]].
  { rewrite Hdown. eapply defer_ok; [|exact Hdone]. erewrite bind_ok by exact Hrun. exact Hprom. }
  assert (evolves b b4 ({[rid]} ∪ ps) [rid]) as Hev4.
  { eapply evolves_kept_after; [|exact Hk4]. eapply evolves_wrote_after; [|exact Hw3|apply elem_of_union_r, elem_of_union_l; by apply elem_of_singleton].
    eapply evolves_weaken; [exact Hev|]. intros x [->%elem_of_singleton| ->%elem_of_singleton]%elem_of_union;
      [by apply elem_of_union_r|apply elem_of_union_l; by apply elem_of_singleton]. }
  split; [done|split; [done|split; [lia|]]]. destruct Hhalf as (pl & pr & Hpl & Hpr2 & Hel & Her & Htl & Htr).
  assert (forall q, q <> pid -> store_page b4 q = store_page b2 q) as Hq4 by (intros q Hq; rewrite (proj1 Hk4); by eapply wrote_other).
  eapply (tree_child_splits exact_leaf (store_page b) (store_page b4) 0 pid m l Ss key value c {[c]} {[rid]} Hlen Hn Hd Hch Hc HA)
    with (p := p3) (sep := sep); [..|apply Hi|congruence| |exact Hi3|congruence| |].
  - intros x ->%elem_of_singleton. done.
  - intros q Hq Hqc. destruct (tree_at_pages _ _ _ _ _ _ Ht q) as [y Hy]; [by apply elem_of_union_r|].
    rewrite Hy, Hq4 by (by intros ->). eapply evolves_page; [exact Hev| |done].
    intros [Hx| ->%elem_of_singleton]%elem_of_union; [done|]. apply Hrps. by apply elem_of_union_r.
  - rewrite (proj1 Hk4). by eapply wrote_page.
  - exists pl. rewrite Hq4 by done. by split_and!.
  - exists pr. rewrite Hq4 by done. by split_and!.
Qed.

(** The leaf [c] that a key leads to is full, and its parent, [h] levels below
    [pid], has room for a separator. *)
Definition split_ready b (h : nat) (pid : Z) (key value : list byte) (c : Z) : Prop :=
  exists par pp l (pf pg : Z) p mc (free g1 : Z),
    leaf_of (store_page b) h pid key par /\ store_page b par = Some pp /\ internal_page pp l pf pg /\ parent_room pf pg /\
    FindNextChildNodePageId pp key = Some c /\
    store_page b c = Some p /\ leaf_page p mc free g1 /\ leaf_full mc free g1 key value.

Lemma split_ready_kept b b' h pid key value c : kept b b' -> split_ready b h pid key value c -> split_ready b' h pid key value c.
Proof.
  intros [Hk _] (par & pp & l & pf & pg & p & mc & free & g1 & Hlo & Hpp & Hi & Hr & Hf & Hp & Hl).
  exists par, pp, l, pf, pg, p, mc, free, g1. rewrite !Hk. split; [by eapply leaf_of_ext|done].
Qed.

Lemma writeTraversal_split h key value c :
  forall fuel b H pid gd dt m ps w t parent,
  session b H -> tidy b H -> room b 1 -> (size H + S h < capacity b)%nat -> (S h < fuel)%nat ->
  H !! pid = Some (Hold gd true dt) -> tree_at exact_leaf (store_page b) (S h) pid m ps ->
  (forall q, q ∈ ps -> md_in_use (bpm_metadata b) q) -> (forall q, q ∈ ps -> q <> pid -> H !! q = None) ->
  split_ready b h pid key value c -> rootNodePageId t <> c ->
  exists b' w' rid dt', writeTraversal fuel key value (mkWriteCursor gd parent) (mkDb b w t) =
      Some (Done (Ok nothingPromoted), mkDb b' w' t) /\
    session b' (<[pid := Hold gd true dt']> H) /\ split_below b b' (S h) pid m ps key value rid.
Proof.
  induction h as [|h IH]; intros [|[|fuel]] b H pid gd dt m ps w t parent Hs Htidy Hroom Hsz Hfuel Hh Ht Hu Hdis Hready Hroot; try lia.
  { destruct Hready as (par & pp & l & pf & pg & p & mc & free & g1 & Hlo & Hpp & Hi & Hr & Hf & Hp & Hl & Hfull).
    cbn in Hlo. subst par.
    destruct (split_below_parent fuel b H pid gd dt m ps w t parent c p mc free g1 pp l pf pg key value)
      as (b' & w' & rid & Hrun & Hs' & Hb); [try done; try lia..|]. by exists b', w', rid, true. }
  pose proof (tree_at_root _ _ _ _ _ _ Ht) as [_ [p0 Hp0]].
  destruct (tree_child _ _ _ _ _ _ key p0 Ht Hp0) as (l & f0 & gb & _ & _ & Hi & _).
  destruct (tree_node _ _ _ _ _ _ key _ _ _ _ Ht Hp0 Hi)
    as (Ss & c' & A & Hlen & -> & Hn & Hd & Hch & Hc & HA & Hf & Hnl & Hln & Hty & Hcc & HcA & Hpc & Hcp & HAS).
  set (ps := {[pid]} ∪ ⋃ Ss) in *.
  assert (forall q, q ∈ A -> q ∈ ps) as HAps by (intros q Hq; apply elem_of_union_r; by apply HAS).
  assert (H !! c' = None) as Hcn by (apply Hdis; auto).
  destruct (writeTraversal_down b H pid gd dt p0 key value parent c' w t Hs Hh Hp0 Hnl Hf Hcn Hpc ltac:(lia))
    as (gc & dc & b1 & Hs1 & Hk1 & Hdown). specialize (Hdown _ (S fuel)). pose proof Hk1 as [Hpg1 (Hcap1 & Hm1 & Hr1)].
  assert (split_ready b1 h c' key value c) as Hready1.
  { eapply split_ready_kept; [done|].
    destruct Hready as (par & pp & l2 & pf & pg & p & mc & free & g1 & (p1 & c1 & Hp1 & Hf1 & Hlo) & Hrest).
    rewrite Hp0 in Hp1. injection Hp1 as <-. rewrite Hf in Hf1. injection Hf1 as <-. by exists par, pp, l2, pf, pg, p, mc, free, g1. }
  destruct (IH (S fuel) b1 _ c' gc dc (submap l (part key l) m) A w t (Some gd) Hs1)
    as (b2 & w2 & rid & dc2 & Hrun & Hs2 & Hev2 & Hnu & Hrid & Ht2); clear IH;
    [by eapply tidy_open, Hu, HAps|auto|rewrite map_size_insert_None by done; lia|lia|by rewrite lookup_insert_eq
    |eapply tree_at_ext; [|exact Hcc]; intros q _; by rewrite Hpg1|rewrite Hm1; auto
    |intros q Hq Hqc; rewrite lookup_insert_ne by done; apply Hdis; [auto|intros ->; by apply Hn, HAS]|done|done|].
  rewrite Hm1 in Hnu. assert (rid ∉ ps) as Hrps by (intros Hin; by apply Hnu, Hu).
  destruct (run_doneWrite b2 _ c' (Hold gc true dc2) w2 t Hs2) as (b3 & Hdone & Hs3 & Hk3); [by rewrite lookup_insert_eq|done|].
  rewrite insert_insert_eq, delete_insert_id in Hs3 by done.
  exists b3, w2, rid, dt. split; [|split; [by rewrite insert_id|]].
  { rewrite Hdown. eapply defer_ok; [|exact Hdone]. by erewrite bind_ok by exact Hrun. }
  pose proof (evolves_kept_after _ _ _ _ _ (evolves_kept_before _ _ _ _ _ Hk1 Hev2) Hk3) as Hev.
  assert (forall q, q ∈ ps -> q ∉ A -> store_page b3 q = store_page b q) as Hsame.
  { intros q Hq HqA. destruct (tree_at_pages _ _ _ _ _ _ Ht q Hq) as [y Hy]. rewrite Hy.
    eapply evolves_page; [exact Hev| |done]. intros [->%elem_of_singleton|Hx]%elem_of_union; done. }
  split; [eapply evolves_weaken; [exact Hev|apply union_mono_l; intros q; apply HAps]|split; [done|split; [done|]]].
  eapply (tree_child_grows exact_leaf (store_page b) (store_page b3) (S h) pid m l Ss key value c' A {[rid]} Hlen Hn Hd Hch Hc HA)
    with (p := p0); [by intros x ->%elem_of_singleton|..|exact Hi|done|done|].
  - intros q Hq. apply Hsame. by apply elem_of_union_r.
  - rewrite Hsame; [done|apply elem_of_union_l; by apply elem_of_singleton|]. intros Hx. by apply Hn, HAS.
  - eapply tree_at_ext; [|exact Ht2]. intros q _. apply Hk3.
Qed.

Lemma leaf_of_snoc pg h : forall pid key par pp c,
  leaf_of pg h pid key par -> pg par = Some pp -> FindNextChildNodePageId pp key = Some c -> leaf_of pg (S h) pid key c.
Proof.
  induction h as [|h IH]; cbn; intros pid key par pp c.
  - intros -> Hp Hf. by exists pp, c.
  - intros (p & d & Hp & Hf & Hl) Hpp Hfc. exists p, d. split_and!; [done..|]. by eapply IH.
Qed.

(** The leaf is not the root. *)
Lemma split_ready_root b h pid m ps key value c :
  tree_at exact_leaf (store_page b) (S h) pid m ps -> split_ready b h pid key value c -> pid <> c.
Proof.
  intros Ht (par & pp & l & pf & pg & p & mc & free & g1 & Hlo & Hpp & Hi & _ & Hf & Hp & Hl & _) ->.
  destruct (tree_leaf_at exact_leaf (store_page b) key (S h) c m ps c p mc free g1) as (_ & Hty & _);
    [done..|by eapply leaf_of_snoc|done|done|].
  destruct Ht as (p' & l' & f' & g' & Ss & Hp' & _ & _ & Hty' & _). congruence.
Qed.

(** ** The tree in its database *)

Lemma tidy_evolves b b' H H' X news :
  tidy b H -> evolves b b' X news -> (forall q, q ∈ X -> md_in_use (bpm_metadata b') q) ->
  (forall q, is_Some (H' !! q) -> md_in_use (bpm_metadata b') q) -> tidy b' H'.
Proof.
  intros [_ Hb] (_ & Hback & Hm & _) HX HH. split; [done|]. intros q data Hq Hn Hz.
  assert (q ∉ X) as HqX by (intros Hin; by apply Hn, HX).
  destruct (Hback q data HqX Hq) as [Hq'|]; [|done]. apply (Hb q data Hq'); [|done]. intros Hin. apply Hn, Hm. by left.
Qed.

Lemma tree_db_tidy Lf b w t h m ps : tree_db Lf (mkDb b w t) h m ps -> tidy b ∅.
Proof. intros [_ _ _ Hb]. split; [|exact Hb]. intros q []. by rewrite lookup_empty in *. Qed.

(** A database whose tree changed. *)
Lemma tree_db_evolves Lf Lf' b b' w w' t t' h h' m m' ps ps' news :
  tree_db Lf (mkDb b w t) h m ps -> session b' ∅ -> evolves b b' ps' news -> (forall q, q ∈ ps' -> q ∈ ps \/ q ∈ news) ->
  tree_at Lf' (store_page b') h' (rootNodePageId t') m' ps' -> tree_db Lf' (mkDb b' w' t') h' m' ps'.
Proof.
  intros Hdb Hs Hev Hps Ht. pose proof (tree_db_tidy _ _ _ _ _ _ _ Hdb) as Htidy. destruct Hdb as [_ _ Hu _]. cbn in Hu.
  assert (forall q, q ∈ ps' -> md_in_use (bpm_metadata b') q) as Hu'.
  { intros q Hq. destruct Hev as (_ & _ & Hm & _). apply Hm. destruct (Hps q Hq); auto. }
  constructor; cbn; [done..|]. apply (tidy_evolves b b' ∅ ∅ ps' news Htidy Hev Hu'). intros q []. by rewrite lookup_empty in *.
Qed.

(** A new key into a full leaf whose parent has room: the tree grows by exactly
    one page, which was not in use before, and stays balanced. *)
Lemma Insert_split_run (st : Db B W) (h : nat) (m : kvmap) (ps : gset Z) (fuel : nat) (key value : list byte) (c : Z) :
  tree_db exact_leaf st (S h) m ps -> split_ready (pool st) h (rootNodePageId (tree st)) key value c ->
  room (pool st) 1 -> (S (S h) < capacity (pool st))%nat -> (S h < fuel)%nat ->
  exists st' rid, BPlusTree_Insert fuel key value st = Some (Done (Ok tt), st') /\ tree st' = tree st /\ (rid ∉ ps) /\
    capacity (pool st') = capacity (pool st) /\
    tree_db exact_leaf st' (S h) (<[key := value]> m) ({[rid]} ∪ ps).
Proof.
  intros Hdb Hready Hroom Hcap Hfuel. destruct st as [b w t]. cbn [pool wal tree] in *.
  pose proof (root_not_zero _ _ _ _ _ _ _ Hdb) as Hne. pose proof (tree_db_tidy _ _ _ _ _ _ _ Hdb) as Htidy.
  pose proof Hdb as [Hs Ht Hu _]. cbn [pool wal tree] in *. destruct (tree_at_root _ _ _ _ _ _ Ht) as [Hrps Hpr].
  destruct (Insert_traversal Hlog fuel b w t key value Hs Hne Hpr ltac:(lia)) as (g & dt & b1 & w1 & _ & Hs1 & Hk1 & _ & Hnext).
  pose proof Hk1 as [Hpg1 (Hcap1 & Hm1 & Hr1)].
  destruct (writeTraversal_split h key value c fuel b1 _ (rootNodePageId t) g dt m ps w1 t None Hs1)
    as (b2 & w2 & rid & dt2 & Hrun & Hs2 & Hev & Hnu & Hrid & Ht2);
    [eapply tidy_open; [done|done|by apply Hu]|auto
    |rewrite map_size_insert_None, map_size_empty by done; lia|done|by rewrite lookup_insert_eq
    |eapply tree_at_ext; [|exact Ht]; intros q _; by rewrite Hpg1|by rewrite Hm1|intros q _ Hq; by rewrite lookup_insert_ne
    |by eapply split_ready_kept|by eapply split_ready_root|].
  rewrite insert_insert_eq in Hs2. destruct (Hnext _ _ _ _ _ Hrun Hs2) as (b3 & w3 & _ & Hins & Hs3 & Hk3 & _).
  rewrite Hm1 in Hnu. exists (mkDb b3 w3 t), rid. split; [done|split; [done|split; [intros Hin; by apply Hnu, Hu|]]].
  split; [cbn; destruct Hk3 as [_ (-> & _)]; destruct Hev as (_ & _ & _ & -> & _); exact Hcap1|].
  eapply tree_db_evolves; [exact Hdb|done|eapply evolves_kept_after; [by eapply evolves_kept_before|exact Hk3]| |].
  - intros q [->%elem_of_singleton|Hq]%elem_of_union; [right; by left|by left].
  - eapply tree_at_ext; [|exact Ht2]. intros q _. apply Hk3.
Qed.
End split.
