(* ===== verification/TreeRootSplit.v ===== *)
(** * New roots (HandleLeafRootNodeSplit, installRoot, rootGuard)

    The split of a root that is a leaf, which makes the tree one level higher,
    and the first insertion into an empty tree. *)

From S2P Require Export TreeInsertSplit.

Implicit Types (l : list InternalNodeElement) (m : kvmap).

Lemma internal_type_page p l free g :
  internal_page p l free g ->
  exists p', internalSetNodeType p = Some p' /\ internal_page p' l free g /\ node_type p' = 1 /\ len p' = 4096.
Proof.
  intros (Hp & Hs & Hl). pose proof (node_page_space _ _ _ _ Hp) as (Hlen & _). exists (write p 4 [x01]).
  assert (node_page (write p 4 [x01]) l free g) as Hp' by (apply node_page_write_meta; [done|]; by left).
  split_and!; try done; [| |by apply node_page_space in Hp' as (? & _)].
  - unfold internalSetNodeType. rewrite headerView_eq by lia. cbn [mbind option_bind]. by rewrite SetNodeType_eq by lia.
  - unfold node_type. by page_fld.
Qed.

Lemma submap_nil m : submap [] 0 m = m.
Proof. apply map_eq. intros k. rewrite lookup_submap. by rewrite decide_True. Qed.

(** A root over two leaves. *)
Lemma two_leaf_tree pg nid pid rid sep m p free g :
  pg nid = Some p -> internal_page p [mkInternal sep pid rid] free g -> node_type p <> 0 ->
  nid <> pid -> nid <> rid -> pid <> rid ->
  tree_at exact_leaf pg 0 pid (lower sep m) {[pid]} -> tree_at exact_leaf pg 0 rid (upper sep m) {[rid]} ->
  tree_at exact_leaf pg 1 nid m {[nid; pid; rid]}.
Proof.
  intros Hp Hi Hty H1 H2 H3 Hl Hr. exists p, [mkInternal sep pid rid], free, g, [{[pid]}; {[rid]}].
  assert (submap [mkInternal sep pid rid] 0 m = lower sep m /\ submap [mkInternal sep pid rid] 1 m = upper sep m) as [Hs0 Hs1].
  { change [mkInternal sep pid rid] with (insert_separator (mkInternal sep pid rid) []).
    rewrite !submap_insert_separator by constructor. cbn. by rewrite submap_nil. }
  split_and!; try done.
  - cbn. by rewrite (right_id_L ∅ (∪)), (assoc_L (∪)).
  - cbn. rewrite (right_id_L ∅ (∪)), elem_of_union, !elem_of_singleton. by intros [?|?].
  - intros [|[|i]] [|[|j]] A C; cbn; intros [= <-] [= <-] Hne; try done; apply disjoint_singleton_l; by rewrite elem_of_singleton.
  - intros [|[|i]] c A; cbn; intros [= <-] [= <-]; by rewrite ?Hs0, ?Hs1.
Qed.

Section root.
Context {B W : Type} `{PL : PageStoreLaws B} `{!WAL W} (Hlog : log_reliable W).
Implicit Types (b : B) (w : W) (t : BPlusTree) (H : gmap Z hold) (g : Guard).

(** [metadata.LSN = lsn] *)
Lemma run_setMetaLSN b H (lsn : Z) w t :
  session b H ->
  exists b', setMetaLSN lsn (mkDb b w t) = Some (Done (Ok tt), mkDb b' w t) /\ session b' H /\ evolves b b' ∅ [] /\
    forall q, store_page b' q = store_page b q.
Proof.
  intros Hs. set (md := bpm_metadata b).
  set (md' := mkMetaData lsn (CurrBPlusTreeId md) (RootPages md) (MaxAllocatedPageId md) (DeallocatedPageIdList md) (FirstLeafNodePages md)).
  assert (same_alloc md md') as Ha by done.
  destruct (metadata_law b H md' Hs Ha) as (Hs' & Hpg & Hc & Hm & Hr). exists (bpm_setMetadata b md').
  split; [by apply run_onPool|split; [done|split; [|done]]]. unfold evolves. split_and!; try done.
  - intros q p _. by rewrite Hpg.
  - intros q p _. rewrite Hpg. by left.
  - intros q. rewrite Hm, (same_alloc_in_use md md' q Ha). pose proof (not_elem_of_nil q). tauto.
Qed.

Lemma installRoot_spec b H nid gn dt q sep pid rid w t :
  session b H -> H !! nid = Some (Hold gn true dt) -> store_page b nid = Some q -> internal_page q [] 4064 0 ->
  len sep <= 500 -> 0 <= pid < 2 ^ 64 -> 0 <= rid < 2 ^ 64 ->
  exists b' w' q' f' (g2 : Z), installRoot gn nid (Some sep, pid, rid) (mkDb b w t) =
      Some (Done (Ok tt), mkDb b' w' (mkBPlusTree (BPlusTreeId t) nid (firstLeafNodePageId t))) /\
    session b' (<[nid := Hold gn true true]> H) /\ evolves b b' {[nid]} [] /\ store_page b' nid = Some q' /\
    (forall x, x <> nid -> store_page b' x = store_page b x) /\
    internal_page q' [mkInternal sep pid rid] f' g2 /\ node_type q' = node_type q.
Proof.
  intros Hs Hh Hq Hi Hsep Hpid Hrid. destruct Hi as (Hnq & Hst & Hli).
  destruct (run_log Hlog (InsertInternalNodeEntry (BPlusTreeId t) nid sep pid rid) b w t) as (lsn & w1 & Hl1).
  destruct (run_SetLSN b H nid gn dt q ([] : list InternalNodeElement) 4064 0 lsn w1 t Hs Hh Hq Hnq)
    as (b1 & q1 & Hset & Hs1 & Hw1 & Hnq1 & Hty1).
  destruct (InsertKey_spec b1 _ nid gn true q1 [] 4064 0 sep pid rid w1 t Hs1)
    as (b2 & q2 & f2 & g2 & Hins & Hs2 & Hw2 & Hi2 & Hty2);
    [by rewrite lookup_insert_eq|by eapply wrote_page|done|unfold separator_fits, internal_need; lia|intros a []%elem_of_nil|done|done|].
  rewrite insert_insert_eq in Hs2.
  destruct (run_log Hlog (UpdateRootNodePageId (BPlusTreeId t) nid) b2 w1 t) as (lsn2 & w2 & Hl2).
  destruct (run_setMetaLSN b2 _ lsn2 w2 t Hs2) as (b3 & Hmeta & Hs3 & Hev3 & Hpg3).
  exists b3, w2, q2, f2, g2. split; [|split; [done|split; [|split; [|split; [|split; [done|congruence]]]]]].
  - unfold installRoot. rewrite bind_getTree. erewrite bind_ok by (by eapply (run_GetPageId b H nid (Hold gn true dt))).
    erewrite bind_ok by exact Hl1. erewrite bind_ok by exact Hset. erewrite bind_ok by exact Hins.
    erewrite bind_ok by exact Hl2. by erewrite bind_ok by exact Hmeta.
  - eapply (evolves_trans _ [] []); [|by eapply evolves_weaken, empty_subseteq].
    eapply evolves_wrote; [by eapply wrote_wrote|by apply elem_of_singleton].
  - rewrite Hpg3. by eapply wrote_page.
  - intros x Hx. rewrite Hpg3. eapply wrote_other; [by eapply wrote_wrote|done].
Qed.

(** An internal page of its own, empty and marked as internal. *)
Lemma open_internal b H w t :
  session b H -> tidy b H -> room b 2 -> (size H < capacity b)%nat ->
  exists nid src gn b1 b2 b3 b4 w' lsn q,
    NewPageM (mkDb b w t) = Some (Done (Ok (nid, src)), mkDb b1 w t) /\
    (forall cleanup w, NewWriteGuardM nid cleanup (mkDb b1 w t) = Some (Done (Ok gn), mkDb b2 w t)) /\
    (forall b, log (CreatePage (BPlusTreeId t) nid INTERNAL_NODE_TYPE (sourceByte src)) (mkDb b w t) = Some (Done (Ok lsn), mkDb b w' t)) /\
    InternalWriter_SetLSN gn lsn (mkDb b2 w' t) = Some (Done (Ok tt), mkDb b3 w' t) /\
    InternalWriter_SetNodeType gn (mkDb b3 w' t) = Some (Done (Ok tt), mkDb b4 w' t) /\
    session b4 (<[nid := Hold gn true true]> H) /\ evolves b b4 {[nid]} [nid] /\ store_page b4 nid = Some q /\
    internal_page q [] 4064 0 /\ node_type q = 1 /\ H !! nid = None /\ ~ md_in_use (bpm_metadata b) nid /\
    room b4 1 /\ tidy b4 (<[nid := Hold gn true true]> H).
Proof.
  intros Hs Htidy Hroom Hsz.
  destruct (open_fresh Hlog (E := InternalNodeElement) b H w t
      (fun nid src => CreatePage (BPlusTreeId t) nid INTERNAL_NODE_TYPE (sourceByte src)) Hs Htidy)
    as (nid & src & gn & b1 & b2 & b3 & w1 & lsn & q0 & Hnew & Hopen & Hlog1 & Hset & Hs3 & Hev3 & Hq0 & Hnq & _ & HHn & Hnid & Hnu);
    [by apply room_less|done|].
  destruct (internal_type_page q0 [] 4064 0) as (q & Hsty & Hi & Hty & Hlen); [by split_and!; [|constructor|]|].
  destruct (run_codecWrite b3 _ nid (Hold gn true true) q0 w1 t (fun p => p' ← internalSetNodeType p; Some (p', tt)) q tt Hs3)
    as (b4 & Hsn & Hs4 & Hw4); [by rewrite lookup_insert_eq|done|done|done|by rewrite Hsty|done|].
  assert (evolves b b4 {[nid]} [nid]) as Hev by (eapply evolves_wrote_after; [exact Hev3|exact Hw4|by apply elem_of_singleton]).
  pose proof Hev as (_ & _ & Hm & _ & Hr).
  exists nid, src, gn, b1, b2, b3, b4, w1, lsn, q. do 5 (split; [done|]). split; [done|split; [done|split; [by eapply wrote_page|]]].
  do 4 (split; [done|]). split; [by apply Hr|]. eapply tidy_evolves; [exact Htidy|exact Hev|..].
  - intros x ->%elem_of_singleton. apply Hm. right. by left.
  - intros x. destruct (decide (x = nid)) as [->|Hx]; [intros _; apply Hm; right; by left|].
    rewrite lookup_insert_ne by done. intros Hx'. apply Hm. left. by apply Htidy.
Qed.

Lemma HandleLeafRootNodeSplit_spec b H pid gd dt p m free (g1 : Z) key value w t :
  session b H -> tidy b H -> room b 2 -> (S (size H) < capacity b)%nat ->
  H !! pid = Some (Hold gd true dt) -> store_page b pid = Some p -> leaf_page p m free g1 -> node_type p = 0 ->
  m !! key = None -> small_elements m key value -> free < 500 -> g1 < 500 ->
  exists b' w' nid rid, HandleLeafRootNodeSplit gd key value (mkDb b w t) =
      Some (Done (Ok tt), mkDb b' w' (mkBPlusTree (BPlusTreeId t) nid (firstLeafNodePageId t))) /\
    session b' (<[pid := Hold gd true true]> H) /\ evolves b b' {[nid; pid; rid]} [nid; rid] /\
    tree_at exact_leaf (store_page b') 1 nid (<[key := value]> m) {[nid; pid; rid]}.
Proof.
  intros Hs Htidy Hroom Hsz Hh Hp Hl Hty Hk Hsmall Hf Hg.
  destruct (open_internal b H w t Hs Htidy Hroom ltac:(lia))
    as (nid & src & gn & b1 & b2 & b3 & b4 & w1 & lsn & q & Hnew & Hopen & Hlog1 & Hset & Hsn & Hs4 & Hev4 & Hq & Hi & Htq & HHn & Hnu & Hr4 & Htidy4).
  assert (pid <> nid) as Hpn by (intros ->; congruence).
  assert (store_page b4 pid = Some p) as Hp4 by (eapply evolves_page; [done|by intros ?%elem_of_singleton|done]).
  pose proof Hev4 as (_ & _ & Hm4 & Hc4 & _).
  destruct (HandleLeafNodeSplit_spec Hlog b4 _ pid gd dt p m free g1 key value w1 t Hs4 Htidy4 Hr4)
    as (b5 & w5 & rid & sep & Hrun & Hs5 & Hev5 & (pl & pr & Hpl & Hpr & Hel & Her & Htl & Htr) & Hrid & Hnr & [v Hsep] & _);
    [rewrite map_size_insert_None by done; lia|by rewrite lookup_insert_ne|done..|].
  assert (nid <> rid) as Hnr' by (intros ->; apply Hnr, Hm4; right; by left).
  assert (pid <> rid) as Hpr' by (intros ->; apply Hnr, Hm4; left; apply Htidy; by eexists).
  assert (store_page b5 nid = Some q) as Hq5.
  { eapply evolves_page; [exact Hev5| |done]. rewrite elem_of_union, !elem_of_singleton. by intros [?|?]. }
  pose proof (store_page_range b H pid Hs ltac:(by eexists)) as Hpid.
  destruct (installRoot_spec b5 _ nid gn true q sep pid rid w5 t Hs5)
    as (b6 & w6 & q6 & f6 & g6 & Hinst & Hs6 & Hev6 & Hq6 & Hoth & Hi6 & Ht6);
    [by rewrite lookup_insert_ne, lookup_insert_eq|done|done| |lia|lia|].
  { apply Hsmall in Hsep. unfold leaf_size in Hsep. cbn in Hsep. pose proof (len_nonneg v). lia. }
  destruct (run_doneWrite b6 _ nid (Hold gn true true) w6 (mkBPlusTree (BPlusTreeId t) nid (firstLeafNodePageId t)) Hs6)
    as (b7 & Hdone & Hs7 & Hk7); [by rewrite lookup_insert_eq|done|].
  rewrite insert_id in Hs7 by (by rewrite lookup_insert_ne, lookup_insert_eq). rewrite delete_insert_ne, delete_insert_id in Hs7 by done.
  exists b7, w6, nid, rid. split; [|split; [done|split]].
  - unfold HandleLeafRootNodeSplit. rewrite bind_getTree. erewrite bind_ok by exact Hnew. cbv beta iota.
    erewrite bind_ok by apply Hopen. eapply defer_ok; [|exact Hdone]. erewrite bind_ok by apply Hlog1. erewrite bind_ok by exact Hset.
    erewrite bind_ok by exact Hsn. erewrite bind_ok by exact Hrun. exact Hinst.
  - assert (forall x, x ∈ ({[nid; pid; rid]} : gset Z) <-> x = nid \/ x = pid \/ x = rid) as Hel3
      by (intros; rewrite !elem_of_union, !elem_of_singleton; tauto).
    eapply evolves_kept_after; [|exact Hk7]. eapply (evolves_trans _ [nid; rid] []).
    + eapply (evolves_trans _ [nid] [rid]); eapply evolves_weaken; [exact Hev4| |exact Hev5|]; intros x; rewrite Hel3.
      * intros ->%elem_of_singleton. by left.
      * rewrite elem_of_union, !elem_of_singleton. tauto.
    + eapply evolves_weaken; [exact Hev6|]. intros x. rewrite Hel3. intros ->%elem_of_singleton. by left.
  - assert (forall x, x <> nid -> store_page b7 x = store_page b5 x) as H75 by (intros x Hx; rewrite (proj1 Hk7); by apply Hoth).
    eapply two_leaf_tree; [rewrite (proj1 Hk7); exact Hq6|exact Hi6|lia|done|done|done|exists pl|exists pr];
      rewrite H75 by done; by split_and!.
Qed.

(** A new key into a tree that is one full leaf: the tree gets one level higher. *)
Lemma Insert_root_run (st : Db B W) (m : kvmap) (ps : gset Z) (fuel : nat) (key value p : list byte) (free garbage : Z) :
  tree_db exact_leaf st 0 m ps -> store_page (pool st) (rootNodePageId (tree st)) = Some p -> leaf_page p m free garbage ->
  leaf_full m free garbage key value -> room (pool st) 2 -> (2 < capacity (pool st))%nat -> (0 < fuel)%nat ->
  exists st' nid rid, BPlusTree_Insert fuel key value st = Some (Done (Ok tt), st') /\
    tree st' = mkBPlusTree (BPlusTreeId (tree st)) nid (firstLeafNodePageId (tree st)) /\
    capacity (pool st') = capacity (pool st) /\ tree_db exact_leaf st' 1 (<[key := value]> m) {[nid; rootNodePageId (tree st); rid]}.
Proof.
  intros Hdb Hp Hl Hfull Hroom Hcap Hfuel. destruct st as [b w t]. cbn [pool wal tree] in *. set (root := rootNodePageId t) in *.
  pose proof (root_not_zero _ _ _ _ _ _ _ Hdb) as Hne. pose proof (tree_db_tidy _ _ _ _ _ _ _ Hdb) as Htidy.
  pose proof Hdb as [Hs Ht Hu _]. cbn [pool wal tree] in *. destruct (tree_at_root _ _ _ _ _ _ Ht) as [Hrps Hpr].
  destruct Ht as (p0 & Hp0 & _ & Hty & Hps). fold root in Hp0. rewrite Hp in Hp0. injection Hp0 as <-.
  destruct (Insert_traversal Hlog fuel b w t key value Hs Hne Hpr ltac:(lia)) as (g & dt & b1 & w1 & _ & Hs1 & Hk1 & _ & Hnext). fold root in Hs1, Hnext.
  pose proof Hk1 as [Hpg1 (Hcap1 & Hm1 & Hr1)]. assert (store_page b1 root = Some p) as Hp1 by (by rewrite Hpg1).
  assert ((<[root := Hold g true dt]> ∅ : gmap Z hold) !! root = Some (Hold g true dt)) as Hh1 by (by rewrite lookup_insert_eq).
  destruct (writeLeaf_full b1 _ root g dt p m free garbage key value w1 t Hs1 Hh1 Hp1 Hl Hfull) as (Hwl & Hf & Hg).
  destruct Hfull as (Hk & _ & Hsmall).
  destruct (HandleLeafRootNodeSplit_spec b1 _ root g dt p m free garbage key value w1 t Hs1) as (b2 & w2 & nid & rid & Hrun & Hs2 & Hev & Ht2);
    [eapply tidy_open; [done|done|by apply Hu]|auto|rewrite map_size_insert_None, map_size_empty by done; lia|done..|].
  rewrite insert_insert_eq in Hs2. destruct fuel as [|fuel]; [lia|].
  destruct (Hnext nothingPromoted true b2 w2 (mkBPlusTree (BPlusTreeId t) nid (firstLeafNodePageId t))) as (b3 & w3 & _ & Hins & Hs3 & Hk3 & _); [|done|].
  { cbn [writeTraversal guard]. unfold Cursor_IsLeafNode.
    erewrite bind_ok by (eapply (run_codecRead b1 _ root (Hold g true dt)); [done..|eapply leaf_is_leaf; [by eapply leaf_page_is_slack|done]]).
    cbn iota. rewrite Hwl. unfold splitLeaf. rewrite bind_getTree.
    erewrite bind_ok by (by eapply (run_GetPageId b1 _ root (Hold g true dt))). fold root. rewrite Z.eqb_refl. by erewrite bind_ok by exact Hrun. }
  eexists _, nid, rid. split; [exact Hins|split; [done|split]].
  { cbn. destruct Hk3 as [_ (-> & _)]. destruct Hev as (_ & _ & _ & -> & _). exact Hcap1. }
  eapply tree_db_evolves; [exact Hdb|done|eapply evolves_kept_after; [by eapply evolves_kept_before|exact Hk3]| |].
  - intros q. rewrite Hps, !elem_of_union, !elem_of_singleton, !elem_of_cons. tauto.
  - eapply tree_at_ext; [|exact Ht2]. intros q _. apply Hk3.
Qed.

(** [rootGuard] on an empty tree creates the first leaf. *)
Lemma rootGuard_first b w t :
  session b ∅ -> tidy b ∅ -> room b 1 -> (0 < capacity b)%nat -> rootNodePageId t = 0 ->
  exists rid g b' w' q, rootGuard (mkDb b w t) = Some (Done (Ok g), mkDb b' w' (mkBPlusTree (BPlusTreeId t) rid rid)) /\
    session b' (<[rid := Hold g true true]> ∅) /\ evolves b b' {[rid]} [rid] /\ store_page b' rid = Some q /\
    leaf_page q ∅ 4064 0 /\ node_type q = 0.
Proof.
  intros Hs Htidy Hroom Hcap Hz.
  destruct (open_fresh Hlog (E := LeafNodeElement) b ∅ w t
      (fun rid src => CreatePage (BPlusTreeId t) rid LEAF_NODE_TYPE (sourceByte src)) Hs Htidy Hroom)
    as (rid & src & g & b1 & b2 & b3 & w1 & lsn & q & Hnew & Hopen & Hlog1 & Hset & Hs3 & Hev3 & Hq & Hnq & Hty & _ & Hrid & Hnu);
    [by rewrite map_size_empty|].
  destruct (run_log Hlog (UpdateFirstLeafNodePageId (BPlusTreeId t) rid) b3 w1 t) as (lsn2 & w2 & Hl2).
  destruct (run_setMetaLSN b3 _ lsn2 w2 t Hs3) as (b4 & Hmeta4 & Hs4 & Hev4 & Hpg4).
  destruct (run_log Hlog (UpdateRootNodePageId (BPlusTreeId t) rid) b4 w2 t) as (lsn3 & w3 & Hl3).
  destruct (run_setMetaLSN b4 _ lsn3 w3 t Hs4) as (b5 & Hmeta5 & Hs5 & Hev5 & Hpg5).
  exists rid, g, b5, w3, q. split; [|split; [done|split; [|split; [by rewrite Hpg5, Hpg4|split; [|done]]]]].
  - unfold rootGuard. rewrite bind_getTree, Hz. cbn [Z.eqb]. erewrite bind_ok by exact Hnew. cbv beta iota.
    erewrite bind_ok by apply Hlog1. erewrite bind_ok by apply Hopen. erewrite bind_ok by exact Hset.
    erewrite bind_ok by exact Hl2. erewrite bind_ok by exact Hmeta4. erewrite bind_ok by exact Hl3. by erewrite bind_ok by exact Hmeta5.
  - eapply (evolves_trans _ [rid] []); [exact Hev3|].
    eapply (evolves_trans _ [] []); eapply evolves_weaken, empty_subseteq; done.
  - exists []. by split_and!; [|constructor|].
Qed.

Lemma Insert_first_run (st : Db B W) (fuel : nat) (key value : list byte) :
  session (pool st) ∅ -> tidy (pool st) ∅ -> rootNodePageId (tree st) = 0 -> leaf_need key value <= 4064 ->
  room (pool st) 1 -> (0 < capacity (pool st))%nat -> (0 < fuel)%nat ->
  exists st' rid, BPlusTree_Insert fuel key value st = Some (Done (Ok tt), st') /\
    tree st' = mkBPlusTree (BPlusTreeId (tree st)) rid rid /\ tree_db exact_leaf st' 0 {[key := value]} {[rid]}.
Proof.
  intros Hs Htidy Hz Hneed Hroom Hcap Hfuel. destruct st as [b w t]. cbn [pool wal tree] in *.
  destruct (run_log_ Hlog (BeginOperation (BPlusTreeId t)) b w t) as (w1 & Hlb).
  destruct (rootGuard_first b w1 t Hs Htidy Hroom Hcap Hz) as (rid & g & b2 & w2 & q & Hroot & Hs2 & Hev2 & Hq & Hl & Hty).
  set (t2 := mkBPlusTree (BPlusTreeId t) rid rid) in *.
  destruct (writeLeaf_inplace Hlog rid q ∅ 4064 0 key value Hl ltac:(split; [lia|left; lia]) b2 _ g true w2 t2 Hs2)
    as (b3 & w3 & p' & _ & Hrun & Hs3 & Hw3 & _ & _ & Hex & Hty' & _); [by rewrite lookup_insert_eq|done|]. rewrite insert_insert_eq in Hs3.
  destruct (run_log_ Hlog (CommitOperation (BPlusTreeId t)) b3 w3 t2) as (w4 & Hlc).
  destruct (run_doneWrite b3 _ rid (Hold g true true) w4 t2 Hs3) as (b4 & Hd & Hs4 & Hk4); [by rewrite lookup_insert_eq|done|].
  rewrite delete_insert_id in Hs4 by done. destruct fuel as [|fuel]; [lia|].
  exists (mkDb b4 w4 t2), rid. split; [|split; [done|]].
  { unfold BPlusTree_Insert, insertLocked. rewrite bind_getTree. erewrite bind_ok by exact Hlb. erewrite bind_ok by exact Hroot.
    eapply defer_ok; [|exact Hd]. cbn [writeTraversal guard]. unfold Cursor_IsLeafNode.
    rewrite (bind_ok _ _ _ nothingPromoted (mkDb b3 w3 t2)); [exact Hlc|].
    erewrite bind_ok by (eapply (run_codecRead b2 _ rid (Hold g true true)); [done|by rewrite lookup_insert_eq|done
      |eapply leaf_is_leaf; [by eapply leaf_page_is_slack|done]]). exact Hrun. }
  assert (evolves b b4 {[rid]} [rid]) as Hev.
  { eapply evolves_kept_after; [|exact Hk4]. eapply evolves_wrote_after; [exact Hev2|exact Hw3|by apply elem_of_singleton]. }
  assert (md_in_use (bpm_metadata b4) rid) as Hu by (destruct Hev as (_ & _ & Hm & _); apply Hm; right; by left).
  constructor; cbn; [done| |intros x ->%elem_of_singleton; done|].
  - exists p'. rewrite (proj1 Hk4). split_and!; [by eapply wrote_page|apply Hex; intros v0 Hv0; by rewrite lookup_empty in Hv0|congruence|done].
  - apply (tidy_evolves b b4 ∅ ∅ {[rid]} [rid] Htidy Hev); [intros x ->%elem_of_singleton; done|].
    intros x []. by rewrite lookup_empty in *.
Qed.

(** [Insert] into an empty tree creates a leaf that is the root and the
    first leaf, and holds the pair. *)
Theorem tree_Insert_first (st : Db B W) (fuel : nat) (key value : list byte) :
  session (pool st) ∅ -> tidy (pool st) ∅ -> rootNodePageId (tree st) = 0 -> leaf_need key value <= 4064 ->
  room (pool st) 1 -> (0 < capacity (pool st))%nat -> (0 < fuel)%nat ->
  exists st' rid, BPlusTree_Insert fuel key value st = Some (Done (Ok tt), st') /\
    tree st' = mkBPlusTree (BPlusTreeId (tree st)) rid rid /\ tree_db exact_leaf st' 0 {[key := value]} {[rid]}.
Proof. intros. by apply Insert_first_run. Qed.
End root.
