(* ===== verification/TreeMap.v ===== *)
(** * The tree as a map: every insertion that the tree can take

    [insert_ready] lists the situations in which the code inserts correctly: the
    leaf takes the pair, or it is full and its parent has room for a separator,
    or it is full and is the root.  What is missing is a full parent, see
    [HandleInternalNodeSplit], and pairs of more than 500 bytes in full leaves. *)

From S2P Require Export TreeRootSplit.

Section map.
Context {B W : Type} `{PL : PageStoreLaws B} `{!WAL W}.
Implicit Types (st : Db B W) (m : kvmap).

Inductive insert_ready st (m : kvmap) (key value : list byte) : nat -> Prop :=
  | ready_in_place h c p mc free garbage :
      leaf_of (store_page (pool st)) h (rootNodePageId (tree st)) key c -> store_page (pool st) c = Some p ->
      leaf_page p mc free garbage -> leaf_accepts mc free garbage key value -> no_shrink m key value ->
      insert_ready st m key value h
  | ready_split h c :
      split_ready (pool st) h (rootNodePageId (tree st)) key value c -> room (pool st) 1 -> insert_ready st m key value (S h)
  | ready_root p free garbage :
      store_page (pool st) (rootNodePageId (tree st)) = Some p -> leaf_page p m free garbage ->
      leaf_full m free garbage key value -> room (pool st) 2 -> insert_ready st m key value 0.

Lemma Insert_run (Hlog : log_reliable W) st h m ps fuel key value :
  tree_db exact_leaf st h m ps -> insert_ready st m key value h -> (h + 2 < capacity (pool st))%nat -> (h < fuel)%nat ->
  exists st' h' ps', BPlusTree_Insert fuel key value st = Some (Done (Ok tt), st') /\ (h' <= S h)%nat /\
    capacity (pool st') = capacity (pool st) /\ tree_db exact_leaf st' h' (<[key := value]> m) ps'.
Proof.
  intros Hdb Hready Hcap Hfuel. destruct Hready as [h c p mc free garbage Hlo Hp Hl Hacc Hns|h c Hsr Hroom|p free garbage Hp Hl Hfull Hroom].
  - destruct (Insert_in_place_run Hlog st h m ps fuel key value c p mc free garbage) as (st' & Hr & _ & Hc & _ & Hm); [done..|lia|done|].
    exists st', h, ps. split; [done|split; [lia|split; [done|by apply Hm]]].
  - destruct (Insert_split_run Hlog st h m ps fuel key value c) as (st' & rid & Hr & _ & _ & Hc & Hm); [done..|lia|done|].
    exists st', (S h), ({[rid]} ∪ ps). split; [done|split; [lia|done]].
  - destruct (Insert_root_run Hlog st m ps fuel key value p free garbage) as (st' & nid & rid & Hr & _ & Hc & Hm); [done..|lia|done|].
    eexists st', 1%nat, _. split; [done|split; [lia|split; [done|exact Hm]]].
Qed.

End map.
