(* ===== verification/TreeTermination.v ===== *)
(** * Traversals end (src/bplustree/b_plus_tree.go)

    The traversals recurse, or loop, without a bound of their own.  On a tree
    they go down one level per call, so that with fuel for the height of the tree
    a run does not come to the end of its fuel: what it does there, [N], is not
    part of the outcome, which is a result, an error, a panic in a codec or a
    wait of the pool. *)

From S2P Require Export TreeRootSplit.

Section termination.
Context {B W : Type} `{PL : PageStoreLaws B} `{!WAL W}.
Implicit Types (b : B) (w : W) (t : BPlusTree) (st : Db B W) (H : gmap Z hold) (N : OutOfFuel).

(** Runs that agree on a part agree. *)
Lemma defer_same {A} (d : M B W unit) (m m' : M B W A) st : m st = m' st -> defer d m st = defer d m' st.
Proof. unfold defer. by intros ->. Qed.

Lemma bind_same {A C} (m m' : M B W A) (k : A -> M B W C) st : m st = m' st -> bind m k st = bind m' k st.
Proof. unfold bind. by intros ->. Qed.

Lemma bind_eq {A C} (m : M B W A) (k k' : A -> M B W C) st a st1 :
  m st = Some (Done (Ok a), st1) -> k a st1 = k' a st1 -> bind m k st = bind m k' st.
Proof. unfold bind. by intros ->. Qed.

(** Going down: the child's tree in the pool where the child is held. *)
Lemma step_down Lf b b1 H pid c (A : gset Z) m h (gc : hold) (ps : gset Z) :
  kept b b1 -> tree_at Lf (store_page b) h c m A -> (forall q, q ∈ A -> q ∈ ps /\ q <> pid) ->
  (forall q, q ∈ ps -> q <> pid -> H !! q = None) -> (size H + S h <= capacity b)%nat ->
  tree_at Lf (store_page b1) h c m A /\ (forall q, q ∈ A -> q <> c -> <[c := gc]> H !! q = None) /\
  (size (<[c := gc]> H) + h <= capacity b1)%nat.
Proof.
  intros [Hpg (Hcap & _)] Ht Hsub Hdis Hsz. destruct (tree_at_root _ _ _ _ _ _ Ht) as [Hc _].
  assert (H !! c = None) as Hn by (apply Hdis; apply Hsub; done). split_and!.
  - eapply tree_at_ext; [|exact Ht]. intros q _. apply Hpg.
  - intros q Hq Hne. rewrite lookup_insert_ne by done. by apply Hdis; apply Hsub.
  - rewrite map_size_insert_None by done. rewrite Hcap. lia.
Qed.

Lemma writeTraversal_fuel Lf h : (forall p m, Lf p m -> leaf_page_slack p m) ->
  forall b H (pid : Z) gd dt m ps w t parent key value fuel fuel' N N',
  session b H -> H !! pid = Some (Hold gd true dt) -> tree_at Lf (store_page b) h pid m ps ->
  (forall q, q ∈ ps -> q <> pid -> H !! q = None) -> (size H + h <= capacity b)%nat -> (h < fuel)%nat -> (h < fuel')%nat ->
  writeTraversal (OF := N) fuel key value (mkWriteCursor gd parent) (mkDb b w t) =
  writeTraversal (OF := N') fuel' key value (mkWriteCursor gd parent) (mkDb b w t).
Proof.
  intros HL. induction h as [|h IH]; intros b H pid gd dt m ps w t parent key value [|fuel] [|fuel'] N N' Hs Hh Ht Hdis Hsz Hfuel Hfuel'; try lia.
  - destruct Ht as (p & Hp & Hleaf%HL & Hty & _). cbn [writeTraversal guard]. unfold Cursor_IsLeafNode.
    eapply bind_eq; [eapply (run_codecRead b H pid (Hold gd true dt)); [done..|by eapply leaf_is_leaf]|done].
  - destruct (tree_at_root _ _ _ _ _ _ Ht) as [_ [p Hp]].
    destruct (tree_child _ _ _ _ _ _ key p Ht Hp) as (l & free & gb & c & A & Hi & Hl & Hty & Hnl & _ & Hf & Hc & Hch & Hsub & HpA & Hps).
    destruct (tree_at_root _ _ _ _ _ _ Hch) as [HcA Hpc].
    assert (forall q, q ∈ A -> q ∈ ps /\ q <> pid) as Hin by (intros q Hq; split; [by apply Hsub|by intros ->]).
    destruct (writeTraversal_down b H pid gd dt p key value parent c w t Hs Hh Hp Hnl Hf) as (gc & dc & b1 & Hs1 & Hk1 & Hdown);
      [by apply Hdis; apply Hin|done|lia|]. rewrite !Hdown. apply defer_same, bind_same.
    destruct (step_down Lf b b1 H pid c A _ h (Hold gc true dc) ps Hk1 Hch Hin Hdis Hsz) as (Ht1 & Hdis1 & Hsz1).
    eapply IH; [exact Hs1|by rewrite lookup_insert_eq|exact Ht1|exact Hdis1|exact Hsz1|lia|lia].
Qed.

Lemma readTraversal_fuel Lf h : (forall p m, Lf p m -> leaf_page_slack p m) ->
  forall b H (pid : Z) g dt m ps w t key fuel fuel' N N',
  session b H -> H !! pid = Some (Hold g false dt) -> tree_at Lf (store_page b) h pid m ps ->
  (forall q, q ∈ ps -> q <> pid -> H !! q = None) -> (size H + h <= capacity b)%nat -> (h < fuel)%nat -> (h < fuel')%nat ->
  readTraversal (OF := N) fuel key g (mkDb b w t) = readTraversal (OF := N') fuel' key g (mkDb b w t).
Proof.
  intros HL. induction h as [|h IH]; intros b H pid g dt m ps w t key [|fuel] [|fuel'] N N' Hs Hh Ht Hdis Hsz Hfuel Hfuel'; try lia.
  - destruct Ht as (p & Hp & Hleaf%HL & Hty & _). cbn [readTraversal]. unfold Cursor_IsLeafNode.
    eapply bind_eq; [eapply (run_codecRead b H pid (Hold g false dt)); [done..|by eapply leaf_is_leaf]|done].
  - destruct (tree_at_root _ _ _ _ _ _ Ht) as [_ [p Hp]].
    destruct (tree_child _ _ _ _ _ _ key p Ht Hp) as (l & free & gb & c & A & Hi & Hl & Hty & Hnl & [x Hx] & Hf & Hc & Hch & Hsub & HpA & Hps).
    destruct (tree_at_root _ _ _ _ _ _ Hch) as [HcA Hpc].
    assert (forall q, q ∈ A -> q ∈ ps /\ q <> pid) as Hin by (intros q Hq; split; [by apply Hsub|by intros ->]).
    destruct (run_NewReadGuard b H c w t Hs) as (gc & dc & b1 & Ho & Hs1 & Hk1); [by apply Hdis; apply Hin|done|lia|].
    destruct (step_down Lf b b1 H pid c A _ h (Hold gc false dc) ps Hk1 Hch Hin Hdis Hsz) as (Ht1 & Hdis1 & Hsz1).
    cbn [readTraversal]. unfold Cursor_IsLeafNode, InternalReader_PrintElements, InternalReader_FindNextChildNodePageId.
    eapply bind_eq; [by eapply (run_codecRead b H pid (Hold g false dt))|]. cbn iota.
    eapply bind_eq; [erewrite bind_ok by (by eapply (run_codecRead b H pid (Hold g false dt))); done|].
    eapply bind_eq; [by eapply (run_codecRead b H pid (Hold g false dt))|]. eapply bind_eq; [exact Ho|]. apply defer_same.
    eapply IH; [exact Hs1|by rewrite lookup_insert_eq|exact Ht1|exact Hdis1|exact Hsz1|lia|lia].
Qed.

(** The loop of [Delete] closes each guard before it goes on. *)
Lemma findLeaf_fuel Lf h : (forall p m, Lf p m -> leaf_page_slack p m) ->
  forall b (pid : Z) m ps w t key fuel fuel' N N',
  session b ∅ -> tree_at Lf (store_page b) h pid m ps -> (0 < capacity b)%nat -> (h < fuel)%nat -> (h < fuel')%nat ->
  findLeafNodePageId (OF := N) fuel key pid (mkDb b w t) = findLeafNodePageId (OF := N') fuel' key pid (mkDb b w t).
Proof.
  intros HL. induction h as [|h IH]; intros b pid m ps w t key [|fuel] [|fuel'] N N' Hs Ht Hcap Hfuel Hfuel'; try lia;
    destruct (tree_at_root _ _ _ _ _ _ Ht) as [_ [p Hp]];
    destruct (run_NewReadGuard b ∅ pid w t Hs (lookup_empty _)) as (g & dt & b1 & Ho & Hs1 & Hk1); try (by eexists);
    try (by rewrite map_size_empty); cbn [findLeafNodePageId]; (eapply bind_eq; [exact Ho|]); unfold Cursor_IsLeafNode;
    assert (store_page b1 pid = Some p) as Hp1 by (by rewrite (proj1 Hk1));
    assert (<[pid := Hold g false dt]> (∅ : gmap Z hold) !! pid = Some (Hold g false dt)) as Hh by (by rewrite lookup_insert_eq).
  - destruct Ht as (p0 & Hp0 & Hleaf%HL & Hty & _). rewrite Hp in Hp0. injection Hp0 as <-.
    eapply bind_eq; [eapply (run_codecRead b1 _ pid (Hold g false dt)); [done..|by eapply leaf_is_leaf]|done].
  - destruct (tree_child _ _ _ _ _ _ key p Ht Hp) as (l & free & gb & c & A & Hi & Hl & Hty & Hnl & _ & Hf & Hc & Hch & _).
    eapply bind_eq; [by eapply (run_codecRead b1 _ pid (Hold g false dt))|]. cbn iota. unfold InternalReader_FindNextChildNodePageId.
    eapply bind_eq; [by eapply (run_codecRead b1 _ pid (Hold g false dt))|].
    destruct (run_doneRead b1 _ pid (Hold g false dt) w t Hs1 Hh eq_refl) as (b2 & Hd & Hs2 & Hk2).
    rewrite delete_insert_id in Hs2 by done. eapply bind_eq; [exact Hd|].
    assert (kept b b2) as [Hpg (Hcap2 & _)] by (by eapply kept_trans).
    eapply IH; [done|eapply tree_at_ext; [|exact Hch]; intros q _; apply Hpg|by rewrite Hcap2|lia|lia].
Qed.

(** C12: The traversals of [Get], [Insert] and [Delete] end, on a tree of height
    [h] in a pool with a frame for each of its levels, no open guard and no disk
    error to come: fuel for [h + 1] levels is never used up.  With that much or
    more, the outcome is the same for any amount and for anything that a run
    might do at the end of its fuel ([N], [N']), so that no run gets there, be
    the outcome a result, an error, a panic or a wait; the log may fail at any
    record.  A loop that does not come down the tree would end in [N]. *)
Theorem tree_operations_terminate N N' Lf st h m ps fuel fuel' key value :
  (forall p m, Lf p m -> leaf_page_slack p m) -> tree_db Lf st h m ps -> (h < capacity (pool st))%nat ->
  (h < fuel)%nat -> (h < fuel')%nat ->
  BPlusTree_Get (OF := N) fuel key st = BPlusTree_Get (OF := N') fuel' key st /\
  BPlusTree_Insert (OF := N) fuel key value st = BPlusTree_Insert (OF := N') fuel' key value st /\
  BPlusTree_Delete (OF := N) fuel key st = BPlusTree_Delete (OF := N') fuel' key st.
Proof.
  intros HL Hdb Hcap Hfuel Hfuel'. destruct st as [b w t]. pose proof (root_not_zero _ _ _ _ _ _ _ Hdb) as Hnz.
  destruct Hdb as [Hs Ht _ _]. cbn [pool tree wal] in *. destruct (tree_at_root _ _ _ _ _ _ Ht) as [_ Hr].
  assert (0 < capacity b)%nat as Hc0 by lia.
  assert (forall b1 (hd : hold), kept b b1 -> tree_at Lf (store_page b1) h (rootNodePageId t) m ps /\
    (forall q, q ∈ ps -> q <> rootNodePageId t -> <[rootNodePageId t := hd]> (∅ : gmap Z hold) !! q = None) /\
    (size (<[rootNodePageId t := hd]> (∅ : gmap Z hold)) + h <= capacity b1)%nat) as Hopen.
  { intros b1 hd [Hpg (-> & _)]. split_and!.
    - eapply tree_at_ext; [|exact Ht]. intros q _. apply Hpg.
    - intros q _ Hq. by rewrite lookup_insert_ne.
    - rewrite map_size_insert_None, map_size_empty by done. lia. }
  split_and!.
  - destruct (run_NewReadGuard b ∅ (rootNodePageId t) w t Hs (lookup_empty _) Hr) as (g & dt & b1 & Ho & Hs1 & Hk1);
      [by rewrite map_size_empty|]. destruct (Hopen b1 (Hold g false dt) Hk1) as (Ht1 & Hdis1 & Hsz1).
    unfold BPlusTree_Get. rewrite !bind_getTree. eapply bind_eq; [exact Ho|]. apply defer_same.
    eapply readTraversal_fuel; [exact HL|exact Hs1|by rewrite lookup_insert_eq|exact Ht1|exact Hdis1|exact Hsz1|lia|lia].
  - unfold BPlusTree_Insert. rewrite !bind_getTree. unfold bind at 1 2, log_.
    destruct (wal_log w (BeginOperation (BPlusTreeId t))) as [r w1] eqn:Hw. cbn [pool wal tree]. rewrite Hw.
    destruct (run_NewWriteGuard b ∅ (rootNodePageId t) w1 t noCleanup Hs (lookup_empty _) Hr) as (g & dt & b1 & Ho & Hs1 & Hk1);
      [by rewrite map_size_empty|]. destruct (Hopen b1 (Hold g true dt) Hk1) as (Ht1 & Hdis1 & Hsz1).
    unfold insertLocked, rootGuard. eapply (bind_eq _ _ _ _ g (mkDb b1 w1 t)).
    { rewrite bind_getTree. by rewrite (proj2 (Z.eqb_neq _ _) Hnz). }
    apply defer_same, bind_same.
    eapply writeTraversal_fuel; [exact HL|exact Hs1|by rewrite lookup_insert_eq|exact Ht1|exact Hdis1|exact Hsz1|lia|lia].
  - unfold BPlusTree_Delete. rewrite !bind_getTree, (proj2 (Z.eqb_neq _ _) Hnz). apply bind_same.
    by eapply findLeaf_fuel.
Qed.
End termination.
