(* ===== verification/ServerCodec.v ===== *)
(** * The wire protocol (src/server: request_decoder.go, response_encoder.go)

    A connection is the bytes the client has sent and the server has not read,
    what the client does after them, and the bytes the server has sent.  A read
    that runs out of bytes waits: it ends at the deadline, when one is set, or
    when the client hangs up, and never when the client stays silent. *)

From S2P Require Export BufferPool.

Inductive Peer := Silent | HungUp.

Record Conn := mkConn {
  inbox : list byte;
  afterwards : Peer;
  deadline : bool;
  outbox : list byte;
  writeFaults : list bool;   (* which of the next writes fail *)
  connOpen : bool
}.

Definition set_inbox (c : Conn) (bs : list byte) : Conn :=
  mkConn bs (afterwards c) (deadline c) (outbox c) (writeFaults c) (connOpen c).
Definition set_deadline (c : Conn) (d : bool) : Conn :=
  mkConn (inbox c) (afterwards c) d (outbox c) (writeFaults c) (connOpen c).

(** [conn.Write]; the code only logs its errors. *)
Definition connWrite (c : Conn) (bs : list byte) : Conn :=
  match writeFaults c with
  | true :: fs => mkConn (inbox c) (afterwards c) (deadline c) (outbox c) fs (connOpen c)
  | _ => mkConn (inbox c) (afterwards c) (deadline c) (outbox c ++ bs) (tail (writeFaults c)) (connOpen c)
  end.

Definition connClose (c : Conn) : Conn :=
  mkConn (inbox c) (afterwards c) (deadline c) (outbox c) (writeFaults c) false.

(** [conn.SetReadDeadline], with a time or with the zero time. *)
Definition SetReadDeadline (c : Conn) (d : bool) : result unit * Conn :=
  if connOpen c then (Ok tt, set_deadline c d) else (Error ErrConnClosed, c).

(** ** Requests *)

Record Request := mkRequest { opCode : byte; body : list byte }.

Definition noBodyOpCodes : list byte := [x50; x53; x43].   (* P, S, C *)

(** [io.ReadFull] into a buffer of [N] bytes. *)
Definition readNBytes (c : Conn) (N : Z) : outcome (list byte) * Conn :=
  if N <=? len (inbox c) then (Done (Ok (sub (inbox c) 0 N)), set_inbox c (drop (Z.to_nat N) (inbox c)))
  else match afterwards c with
       | HungUp => (Done (Error (if len (inbox c) =? 0 then ErrEOF else ErrUnexpectedEOF)), set_inbox c [])
       | Silent => if deadline c then (Done (Error ErrTimeout), set_inbox c []) else (Blocked, set_inbox c [])
       end.

Definition readUInt32 (c : Conn) : outcome Z * Conn :=
  match readNBytes c 4 with
  | (Done (Ok data), c) => (Done (Ok (unle data)), c)
  | (Done (Error e), c) => (Done (Error e), c)
  | (Blocked, c) => (Blocked, c)
  end.

Definition readRequest (c : Conn) : outcome Request * Conn :=
  match readNBytes c 1 with
  | (Done (Ok data), c) =>
      let opCode := nth 0 data x00 in
      match SetReadDeadline c false with
      | (Error e, c) => (Done (Error e), c)
      | (Ok _, c) =>
          if bool_decide (opCode ∈ noBodyOpCodes) then (Done (Ok (mkRequest opCode [])), c)
          else
            match readUInt32 c with
            | (Done (Ok requestBodyLength), c) =>
                match readNBytes c requestBodyLength with
                | (Done (Ok requestBody), c) => (Done (Ok (mkRequest opCode requestBody)), c)
                | (Done (Error e), c) => (Done (Error e), c)
                | (Blocked, c) => (Blocked, c)
                end
            | (Done (Error e), c) => (Done (Error e), c)
            | (Blocked, c) => (Blocked, c)
            end
      end
  | (Done (Error e), c) => (Done (Error e), c)
  | (Blocked, c) => (Blocked, c)
  end.

Definition decodeInsertRequestBody (body : list byte) : option (list byte * list byte) :=
  let pointer := 0 in
  keyLength ← readUint 4 body pointer;
  let pointer := pointer + 4 in
  key ← slice body pointer (pointer + keyLength);
  let pointer := pointer + keyLength in
  valueLength ← readUint 4 body pointer;
  let pointer := pointer + 4 in
  value ← slice body pointer (pointer + valueLength);
  Some (key, value).

Definition decodeGetRequestBody (body : list byte) : option (list byte) :=
  keyLength ← readUint 4 body 0;
  slice body 4 (4 + keyLength).

Definition decodeDeleteRequestBody (body : list byte) : option (list byte) :=
  keyLength ← readUint 4 body 0;
  slice body 4 (4 + keyLength).

(** ** Responses, written into a buffer of their length *)

Definition encodeGetResponse (key value : list byte) : list byte :=
  let responseLength := 1 + 4 + 4 + len key + 4 + len value in
  let response := replicate (Z.to_nat responseLength) x00 in
  let responseBodyLength := 4 + len key + 4 + len value in
  let pointer := 0 in
  let response := GoBytes.write response pointer [x4f] in
  let pointer := pointer + 1 in
  let response := GoBytes.write response pointer (le 4 (u32 responseBodyLength)) in
  let pointer := pointer + 4 in
  let response := GoBytes.write response pointer (le 4 (u32 (len key))) in
  let pointer := pointer + 4 in
  let response := GoBytes.write response pointer key in
  let pointer := pointer + len key in
  let response := GoBytes.write response pointer (le 4 (u32 (len value))) in
  let pointer := pointer + 4 in
  GoBytes.write response pointer value.

(** [message] is [err.Error()]. *)
Definition encodeErrorResponse (message : list byte) : list byte :=
  let responseLength := 1 + 4 + len message in
  let response := replicate (Z.to_nat responseLength) x00 in
  let response := GoBytes.write response 0 [x45] in
  let response := GoBytes.write response 1 (le 4 (u32 (len message))) in
  GoBytes.write response 5 message.

Definition encodeOKResponse : list byte := [x4f].
Definition encodeShutdownMessage : list byte := [x53].
Definition encodeDeleteResponse : list byte := [x4f].
Definition encodeInsertResponse : list byte := [x4f].

(** ** The protocol

    A field is its length in four bytes and its content; a request with a body
    is the op code, the body as a field. *)

Definition field (bs : list byte) : list byte := le 4 (len bs) ++ bs.
Definition wire (op : byte) (body : list byte) : list byte := op :: field body.
Definition insert_body (key value : list byte) : list byte := field key ++ field value.

Definition fits (bs : list byte) : Prop := len bs < 2 ^ 32.

Lemma len_field bs : len (field bs) = 4 + len bs.
Proof. unfold field. rewrite len_app, len_le. lia. Qed.

(** A field in the middle of a message, read back. *)
Lemma read_field pre bs rest off :
  off = len pre -> fits bs ->
  readUint 4 (pre ++ field bs ++ rest) off = Some (len bs) /\
  slice (pre ++ field bs ++ rest) (off + 4) (off + 4 + len bs) = Some bs.
Proof.
  intros -> Hb. unfold field, fits in *. pose proof (len_nonneg bs). rewrite <- (app_assoc (le 4 (len bs))). split.
  - rewrite readUint_middle by done. change (256 ^ Z.of_nat 4) with (2 ^ 32). by rewrite Z.mod_small by lia.
  - rewrite app_assoc. apply slice_middle; rewrite len_app, len_le; lia.
Qed.

Lemma readNBytes_ready c N bs rest :
  inbox c = bs ++ rest -> len bs = N -> readNBytes c N = (Done (Ok bs), set_inbox c rest).
Proof.
  intros Hi <-. unfold readNBytes. rewrite Hi, len_app. pose proof (len_nonneg rest).
  rewrite (proj2 (Z.leb_le _ _)) by lia. unfold sub. rewrite drop_0.
  unfold len. rewrite Nat2Z.id, take_app_length, drop_app_length. done.
Qed.

Definition has_body (op : byte) : Prop := op ∉ noBodyOpCodes.

(** A request is read exactly: those bytes and no more, the rest of it without
    a deadline. *)
Lemma readRequest_wire c op bs rest :
  connOpen c = true -> has_body op -> fits bs -> inbox c = wire op bs ++ rest ->
  readRequest c = (Done (Ok (mkRequest op bs)), set_inbox (set_deadline c false) rest).
Proof.
  intros Ho Hop Hf Hi. unfold readRequest. destruct c as [i a d o w op']. cbn in Ho. subst op'. cbn [inbox] in Hi.
  cbn [app wire] in Hi. erewrite (readNBytes_ready _ 1 [op] (field bs ++ rest)) by done.
  cbn [nth set_inbox SetReadDeadline connOpen set_deadline]. rewrite bool_decide_eq_false_2 by done.
  unfold readUInt32. erewrite (readNBytes_ready _ 4 (le 4 (len bs)) (bs ++ rest)) by (cbn; unfold field; rewrite ?len_le, <- ?app_assoc; done).
  rewrite unle_le. change (256 ^ Z.of_nat 4) with (2 ^ 32). pose proof (len_nonneg bs). unfold fits in Hf. rewrite Z.mod_small by lia.
  by erewrite (readNBytes_ready _ (len bs) bs rest) by done.
Qed.

Lemma readRequest_bare c op rest :
  connOpen c = true -> op ∈ noBodyOpCodes -> inbox c = op :: rest ->
  readRequest c = (Done (Ok (mkRequest op [])), set_inbox (set_deadline c false) rest).
Proof.
  intros Ho Hop Hi. unfold readRequest. destruct c as [i a d o w op']. cbn in Ho. subst op'. cbn [inbox] in Hi.
  erewrite (readNBytes_ready _ 1 [op] rest) by done. cbn. by rewrite bool_decide_eq_true_2.
Qed.

Lemma decode_insert_body key value :
  fits key -> fits value -> decodeInsertRequestBody (insert_body key value) = Some (key, value).
Proof.
  intros Hk Hv. unfold decodeInsertRequestBody, insert_body.
  destruct (read_field [] key (field value) 0 eq_refl Hk) as [Hr1 Hs1].
  destruct (read_field (field key) value [] (0 + 4 + len key)) as [Hr2 Hs2]; [rewrite len_field; lia|done|]. rewrite app_nil_r in Hr2, Hs2.
  cbn [app] in Hr1, Hs1. rewrite Hr1. cbn [mbind option_bind]. rewrite Hs1. cbn [mbind option_bind].
  rewrite Hr2. cbn [mbind option_bind]. by rewrite Hs2.
Qed.

Lemma decode_key_body key : fits key -> decodeGetRequestBody (field key) = Some key /\ decodeDeleteRequestBody (field key) = Some key.
Proof.
  intros Hk. destruct (read_field [] key [] 0 eq_refl Hk) as [Hr Hs]. cbn [app] in Hr, Hs. rewrite app_nil_r in Hr, Hs.
  unfold decodeGetRequestBody, decodeDeleteRequestBody. rewrite Hr. cbn [mbind option_bind]. split; exact Hs.
Qed.

(** A request written in the protocol's format is read back exactly: the
    server gets the op code and the body, consumes those bytes and no more, and
    the body decodes to the key and the value it was made of. *)
Theorem request_roundtrip (c : Conn) (op : byte) (key value rest : list byte) :
  connOpen c = true -> has_body op -> fits (insert_body key value) ->
  (inbox c = wire op (insert_body key value) ++ rest ->
    exists r, readRequest c = (Done (Ok r), set_inbox (set_deadline c false) rest) /\ opCode r = op /\
      decodeInsertRequestBody (body r) = Some (key, value)) /\
  (inbox c = wire op (field key) ++ rest ->
    exists r, readRequest c = (Done (Ok r), set_inbox (set_deadline c false) rest) /\ opCode r = op /\
      decodeGetRequestBody (body r) = Some key /\ decodeDeleteRequestBody (body r) = Some key).
Proof.
  intros Ho Hop Hf. pose proof Hf as Hf'. unfold fits, insert_body in Hf'. rewrite len_app, !len_field in Hf'.
  pose proof (len_nonneg key). pose proof (len_nonneg value).
  assert (fits key /\ fits value /\ fits (field key)) as (Hk & Hv & Hfk) by (unfold fits; rewrite len_field; lia).
  split; intros Hi; eexists.
  - split; [exact (readRequest_wire c op _ rest Ho Hop Hf Hi)|split; [done|by apply decode_insert_body]].
  - split; [exact (readRequest_wire c op _ rest Ho Hop Hfk Hi)|split; [done|by apply decode_key_body]].
Qed.

(** Writing the next part of a buffer whose rest is zero. *)
Definition zeros (n : Z) : list byte := replicate (Z.to_nat n) x00.

Lemma write_zeros pre bs off n :
  off = len pre -> len bs <= n -> GoBytes.write (pre ++ zeros n) off bs = (pre ++ bs) ++ zeros (n - len bs).
Proof.
  intros -> Hn. unfold GoBytes.write, zeros, len in *. rewrite Nat2Z.id, take_app_length, <- app_assoc.
  do 2 f_equal. rewrite drop_app_add, drop_replicate. f_equal. lia.
Qed.

Ltac next_part := rewrite write_zeros by (rewrite ?len_app, ?len_le; change (len [x4f]) with 1; change (len [x45]) with 1;
  change (len []) with 0; lia).

Lemma encodeGetResponse_wire key value :
  fits (insert_body key value) -> encodeGetResponse key value = wire x4f (insert_body key value).
Proof.
  intros Hf. unfold fits, insert_body in Hf. rewrite len_app, !len_field in Hf.
  pose proof (len_nonneg key). pose proof (len_nonneg value).
  assert (forall n, n = 0 -> zeros n = []) as Hz by (intros n ->; done).
  unfold encodeGetResponse. rewrite !u32_id by lia. fold (zeros (1 + 4 + 4 + len key + 4 + len value)).
  rewrite <- (app_nil_l (zeros _)). do 6 next_part. rewrite Hz by (rewrite !len_le; change (len [x4f]) with 1; lia).
  unfold wire, field at 1, insert_body. rewrite len_app, !len_field. unfold field. rewrite app_nil_r, <- !app_assoc. cbn [app].
  do 2 f_equal. f_equal. lia.
Qed.

Lemma encodeErrorResponse_wire message : fits message -> encodeErrorResponse message = wire x45 message.
Proof.
  intros Hm. unfold fits in Hm. pose proof (len_nonneg message).
  assert (forall n, n = 0 -> zeros n = []) as Hz by (intros n ->; done).
  unfold encodeErrorResponse. rewrite u32_id by lia. fold (zeros (1 + 4 + len message)).
  rewrite <- (app_nil_l (zeros _)). do 3 next_part. rewrite Hz by (rewrite !len_le; change (len [x45]) with 1; lia).
  unfold wire, field. by rewrite app_nil_r, <- !app_assoc.
Qed.

(** A get response is the byte O, then one field that holds the key's and
    the value's fields, and decodes like an insert request; an error response is
    the byte E and the message's field. *)
Theorem responses_roundtrip (key value message : list byte) :
  fits (insert_body key value) -> fits message ->
  encodeGetResponse key value = wire x4f (insert_body key value) /\
  decodeInsertRequestBody (insert_body key value) = Some (key, value) /\ encodeErrorResponse message = wire x45 message.
Proof.
  intros Hf Hm. split; [by apply encodeGetResponse_wire|split; [|by apply encodeErrorResponse_wire]].
  unfold fits, insert_body in Hf. rewrite len_app, !len_field in Hf. pose proof (len_nonneg key). pose proof (len_nonneg value).
  apply decode_insert_body; unfold fits; lia.
Qed.

Lemma request_roundtrip_witness :
  exists r, readRequest (mkConn (wire x49 (insert_body [x61] [x62; x63]) ++ [x50]) Silent true [] [] true) =
      (Done (Ok r), mkConn [x50] Silent false [] [] true) /\ decodeInsertRequestBody (body r) = Some ([x61], [x62; x63]).
Proof.
  destruct (request_roundtrip (mkConn (wire x49 (insert_body [x61] [x62; x63]) ++ [x50]) Silent true [] [] true) x49
    [x61] [x62; x63] [x50] eq_refl) as [Hi _];
    [exact (bool_decide_eq_true_1 (x49 ∉ noBodyOpCodes) eq_refl)|vm_compute; reflexivity|].
  destruct (Hi eq_refl) as (r & Hr & _ & Hd). exists r. split; [exact Hr|exact Hd].
Defined.

Lemma responses_roundtrip_witness :
  encodeGetResponse [x61] [x62; x63] = wire x4f (insert_body [x61] [x62; x63]) /\ encodeErrorResponse [x7a] = wire x45 [x7a].
Proof.
  destruct (responses_roundtrip [x61] [x62; x63] [x7a]) as (H1 & _ & H2); [vm_compute; reflexivity..|]. split; [exact H1|exact H2].
Defined.
