(* ===== verification/Server.v ===== *)
(** * The server (src/server/server.go)

    One goroutine per client reads a request, runs it on the tree and replies,
    until the client is done or the server shuts down.  A handler works on the
    server's shared state, the tree and the shutdown channel, and on its own
    connection.  The goroutines interleave at requests: [server_step] is one half
    of a pass of some client's loop, and a request with its tree operation is one
    step, as are the acceptance of a client with the start of its goroutine, and
    the closing of the tree, the listener and the channel in [Shutdown].  Insertions
    and deletions exclude each other by the tree's mutex; lookups only share it, and
    those that overlap are the subject of [ReadRuns]. *)

From S2P Require Export ServerCodec BPlusTree.

(** A request body that does not decode is a panic, which nothing recovers. *)
Section server.
Context {B W : Type} `{!BufferPoolManager B} `{!WAL W}.

(** [errorText] is [Error()] of an error; [fuel] bounds the tree's height. *)
Context (errorText : error -> list byte) (fuel : nat).

Record Server := mkServer {
  bPlusTree : Db B W;
  listening : bool;     (* the listener is open *)
  shutdown : bool       (* the channel is closed, and [shutdownOnce] is done *)
}.

Definition with_tree (s : Server) (db : Db B W) : Server := mkServer db (listening s) (shutdown s).

Definition handleShutdown (c : Conn) : Conn := connClose (connWrite c encodeShutdownMessage).

Definition sendErrorResponse (c : Conn) (e : error) : Conn := connWrite c (encodeErrorResponse (errorText e)).

(** [Shutdown]: the first call closes the tree, the listener and the channel. *)
Definition Shutdown (s : Server) : option (outcome unit * Server) :=
  if shutdown s then Some (Done (Ok tt), s)
  else '(o, db) ← BPlusTree_Close (bPlusTree s); Some (o, mkServer db false true).

(** A tree operation in a handler: its error is the response, its value makes
    the response. *)
Definition serve {A} (op : M B W A) (response : A -> list byte) (s : Server) (c : Conn)
    : option (outcome unit * Server * Conn) :=
  '(o, db) ← op (bPlusTree s);
  match o with
  | Blocked => Some (Blocked, with_tree s db, c)
  | Done (Error e) => Some (Done (Ok tt), with_tree s db, sendErrorResponse c e)
  | Done (Ok a) => Some (Done (Ok tt), with_tree s db, connWrite c (response a))
  end.

(** [Done (Ok tt)] is a nil error: the connection goes on. *)
Definition handleRequest (s : Server) (c : Conn) : option (outcome unit * Server * Conn) :=
  match readRequest c with
  | (Blocked, c) => Some (Blocked, s, c)
  | (Done (Error e), c) =>
      if decide (e = ErrTimeout) then Some (Done (Ok tt), s, c) else Some (Done (Error e), s, c)
  | (Done (Ok request), c) =>
      match opCode request with
      | x50 => Some (Done (Ok tt), s, connWrite c encodeOKResponse)                   (* P *)
      | x49 =>                                                                          (* I *)
          '(key, value) ← decodeInsertRequestBody (body request);
          serve (BPlusTree_Insert fuel key value) (fun _ => encodeOKResponse) s c
      | x44 =>                                                                          (* D *)
          key ← decodeDeleteRequestBody (body request);
          serve (BPlusTree_Delete fuel key) (fun _ => encodeOKResponse) s c
      | x47 =>                                                                          (* G *)
          key ← decodeGetRequestBody (body request);
          serve (BPlusTree_Get fuel key) (encodeGetResponse key) s c
      | x43 => Some (Done (Error ErrClientClosed), s, connWrite c encodeOKResponse)    (* C *)
      | x53 => '(o, s) ← Shutdown s; Some (o, s, c)                                     (* S *)
      | _ => Some (Done (Ok tt), s, sendErrorResponse c ErrInvalidOpCode)
      end
  end.

(** ** The client loop

    A pass of [handleClient]'s loop looks at the shutdown channel and sets the
    deadline, then handles a request; the client is [AtLoop] before it and
    [Reading] in between, where other goroutines can run. *)

Inductive ClientState := AtLoop | Reading | Finished.

Definition checkShutdown (s : Server) (c : Conn) : ClientState * Conn :=
  if shutdown s then (Finished, handleShutdown c)
  else match SetReadDeadline c true with
       | (Error _, c) => (Finished, connClose c)
       | (Ok _, c) => (Reading, c)
       end.

(** [None] when the handler panics, [Some None] when it waits for ever. *)
Definition finishPass (s : Server) (c : Conn) : option (option (ClientState * Server * Conn)) :=
  '(o, s, c) ← handleRequest s c;
  Some (match o with
        | Done (Ok _) => Some (AtLoop, s, c)
        | Done (Error _) => Some (Finished, s, connClose c)
        | Blocked => None
        end).

(** [handleClient] with no other client, for at most [n] passes. *)
Fixpoint handleClient (n : nat) (s : Server) (c : Conn) : option (option (ClientState * Server * Conn)) :=
  match n with
  | O => Some (Some (AtLoop, s, c))
  | S n =>
      match checkShutdown s c with
      | (Reading, c) =>
          r ← finishPass s c;
          match r with
          | Some (AtLoop, s, c) => handleClient n s c
          | _ => Some r
          end
      | (st, c) => Some (Some (st, s, c))
      end
  end.

(** ** All clients: the server, and each client's state and connection *)

Definition World : Type := Server * list (ClientState * Conn).

Inductive Event := Accepted | Handler (i : nat) | FromClient (i : nat).

(** [listen] accepts while the listener is open; a request is handled when the
    bytes it needs are there.  A panic ends the process and is no step. *)
Inductive server_step : Event -> World -> World -> Prop :=
  | step_accept s cs c : listening s = true -> connOpen c = true -> server_step Accepted (s, cs) (s, cs ++ [(AtLoop, c)])
  | step_check s cs i c : cs !! i = Some (AtLoop, c) -> server_step (Handler i) (s, cs) (s, <[i := checkShutdown s c]> cs)
  | step_request s cs i c st' s' c' :
      cs !! i = Some (Reading, c) -> finishPass s c = Some (Some (st', s', c')) ->
      server_step (Handler i) (s, cs) (s', <[i := (st', c')]> cs)
  (** the client sends more, or hangs up *)
  | step_arrive s cs i st c more peer :
      cs !! i = Some (st, c) -> afterwards c = Silent ->
      server_step (FromClient i) (s, cs)
        (s, <[i := (st, mkConn (inbox c ++ more) peer (deadline c) (outbox c) (writeFaults c) (connOpen c))]> cs).

Inductive run : list Event -> World -> World -> Prop :=
  | run_nil w : run [] w w
  | run_cons e es w1 w2 w3 : server_step e w1 w2 -> run es w2 w3 -> run (e :: es) w1 w3.
End server.

#[global] Arguments Server B W : clear implicits.
#[global] Arguments World B W : clear implicits.
