(* ===== verification/ServerSpec.v ===== *)
(** * What the server promises

    A server in front of a tree is a finite map behind the wire protocol:
    [Command] is what a client can ask, [answer] what it should get, and
    [server_refines_map] and [server_session] say that it does.  The rest is
    about the goroutines: the invariants of their interleavings, and how they
    end. *)

From S2P Require Export Server TreeMap.

Inductive Command :=
  | Put (key value : list byte)
  | Lookup (key : list byte)
  | Remove (key : list byte)
  | Ping.

Definition encode (cmd : Command) : list byte :=
  match cmd with
  | Put key value => wire x49 (insert_body key value)
  | Lookup key => wire x47 (field key)
  | Remove key => wire x44 (field key)
  | Ping => [x50]
  end.

Definition encodable (cmd : Command) : Prop :=
  match cmd with
  | Put key value => fits (insert_body key value)
  | Lookup key | Remove key => fits (field key)
  | Ping => True
  end.

Definition effect (cmd : Command) (m : kvmap) : kvmap :=
  match cmd with
  | Put key value => <[key := value]> m
  | Remove key => delete key m
  | Lookup _ | Ping => m
  end.

Section spec.
Context {B W : Type} `{PL : PageStoreLaws B} `{!WAL W} (errorText : error -> list byte) (fuel : nat).
Implicit Types (s : Server B W) (c : Conn) (m : kvmap).

Definition answer (cmd : Command) m : list byte :=
  match cmd with
  | Put _ _ | Ping => encodeOKResponse
  | Lookup key => match m !! key with
                  | Some v => encodeGetResponse key v
                  | None => encodeErrorResponse (errorText ErrKeyNotFound)
                  end
  | Remove key => if decide (is_Some (m !! key)) then encodeOKResponse else encodeErrorResponse (errorText ErrKeyNotFound)
  end.

(** The tree holds the map, and fits into the pool. *)
Definition serves s m : Prop :=
  exists h ps, tree_db exact_leaf (bPlusTree s) h m ps /\ (h + 2 < capacity (pool (bPlusTree s)))%nat /\ (h < fuel)%nat.

(** The tree can take the command. *)
Definition can_run s m (cmd : Command) : Prop :=
  match cmd with
  | Put key value => exists h ps, tree_db exact_leaf (bPlusTree s) h m ps /\ insert_ready (bPlusTree s) m key value h /\
      (h + 3 < capacity (pool (bPlusTree s)))%nat /\ (S h < fuel)%nat
  | _ => True
  end.

(** A connection with [rest] to read, after replying [out]. *)
Definition after c (rest out : list byte) : Conn := mkConn rest (afterwards c) false (outbox c ++ out) [] (connOpen c).

Lemma connWrite_after c rest out :
  writeFaults c = [] -> connWrite (set_inbox (set_deadline c false) rest) out = after c rest out.
Proof. destruct c as [i a d o f op]. cbn. intros ->. done. Qed.

Lemma serve_ok {A} (op : M B W A) resp s c a db :
  op (bPlusTree s) = Some (Done (Ok a), db) -> serve errorText op resp s c = Some (Done (Ok tt), with_tree s db, connWrite c (resp a)).
Proof. intros Ho. unfold serve. by rewrite Ho. Qed.

Lemma serve_error {A} (op : M B W A) resp s c e db :
  op (bPlusTree s) = Some (Done (Error e), db) ->
  serve errorText op resp s c = Some (Done (Ok tt), with_tree s db, connWrite c (encodeErrorResponse (errorText e))).
Proof. intros Ho. unfold serve. by rewrite Ho. Qed.

(** One command, served. *)
Lemma handle_command (Hlog : log_reliable W) s c m cmd rest :
  serves s m -> can_run s m cmd -> encodable cmd -> connOpen c = true -> writeFaults c = [] -> inbox c = encode cmd ++ rest ->
  exists s', handleRequest errorText fuel s c = Some (Done (Ok tt), s', after c rest (answer cmd m)) /\
    serves s' (effect cmd m) /\ listening s' = listening s /\ shutdown s' = shutdown s.
Proof.
  intros (h & ps & Hdb & Hcap & Hfuel) Hrun Henc Ho Hw Hi. destruct s as [[b w t] li sh]. cbn [bPlusTree pool] in *.
  unfold handleRequest. destruct cmd as [key value|key|key|]; cbn [encode encodable can_run] in *.
  - destruct Hrun as (h2 & ps2 & Hdb2 & Hready & Hcap2 & Hfuel2).
    rewrite (readRequest_wire c x49 _ rest Ho) by (done || exact (bool_decide_eq_true_1 (x49 ∉ noBodyOpCodes) eq_refl)).
    cbn [opCode body]. unfold fits, insert_body in Henc. rewrite len_app, !len_field in Henc.
    pose proof (len_nonneg key). pose proof (len_nonneg value). rewrite decode_insert_body by (unfold fits; lia). cbn [mbind option_bind].
    destruct (Insert_run Hlog _ h2 m ps2 fuel key value Hdb2 Hready) as (st' & h' & ps' & Hr & Hh & Hc & Hm); [cbn [pool]; lia|lia|].
    rewrite (serve_ok _ _ _ _ tt st') by exact Hr. rewrite connWrite_after by done. eexists. split; [done|].
    split; [|done]. exists h', ps'. cbn [bPlusTree with_tree pool] in *. rewrite Hc. split; [done|lia].
  - rewrite (readRequest_wire c x47 _ rest Ho) by (done || exact (bool_decide_eq_true_1 (x47 ∉ noBodyOpCodes) eq_refl)).
    cbn [opCode body]. unfold fits in Henc. rewrite len_field in Henc.
    rewrite (proj1 (decode_key_body key ltac:(unfold fits; lia))). cbn [mbind option_bind].
    destruct (Get_run exact_leaf b w t h m ps fuel key exact_leaf_slack Hdb) as (b' & Hr & Hs & Hk); [lia|done|].
    exists (mkServer (mkDb b' w t) li sh). unfold lookup_result in Hr. cbn [answer]. split.
    + destruct (m !! key) as [v|]; [rewrite (serve_ok _ _ _ _ v (mkDb b' w t)) by exact Hr
        |rewrite (serve_error _ _ _ _ ErrKeyNotFound (mkDb b' w t)) by exact Hr]; by rewrite connWrite_after.
    + split; [|done]. exists h, ps. cbn. split; [by eapply tree_db_kept|]. destruct Hk as [_ (-> & _)]. done.
  - rewrite (readRequest_wire c x44 _ rest Ho) by (done || exact (bool_decide_eq_true_1 (x44 ∉ noBodyOpCodes) eq_refl)).
    cbn [opCode body]. unfold fits in Henc. rewrite len_field in Henc.
    rewrite (proj2 (decode_key_body key ltac:(unfold fits; lia))). cbn [mbind option_bind].
    destruct (Delete_run b w t h m ps fuel key Hdb) as (b' & Hr & Hdb' & Hc); [lia|done|].
    exists (mkServer (mkDb b' w t) li sh). cbn [answer]. split.
    + case_decide; [rewrite (serve_ok _ _ _ _ tt (mkDb b' w t)) by exact Hr
        |rewrite (serve_error _ _ _ _ ErrKeyNotFound (mkDb b' w t)) by exact Hr]; by rewrite connWrite_after.
    + split; [|done]. exists h, ps. cbn. rewrite Hc. done.
  - rewrite (readRequest_bare c x50 rest Ho) by (done || exact (bool_decide_eq_true_1 (x50 ∈ noBodyOpCodes) eq_refl)).
    cbn [opCode answer]. rewrite connWrite_after by done. eexists. split; [done|]. split; [|done]. by exists h, ps.
Qed.

(** A server over a tree is a finite map: a pass of the client loop on a
    well-formed request to put, look up or remove a key, or to ping, sends
    exactly the answer of the map the tree holds, takes exactly the request off
    the connection, and leaves the tree holding the map after the command. *)
Theorem server_refines_map (Hlog : log_reliable W) s c m cmd rest :
  serves s m -> can_run s m cmd -> encodable cmd -> shutdown s = false -> connOpen c = true -> writeFaults c = [] ->
  inbox c = encode cmd ++ rest ->
  exists s', handleClient errorText fuel 1 s c = Some (Some (AtLoop, s', after c rest (answer cmd m))) /\ serves s' (effect cmd m).
Proof.
  intros Hs Hrun Henc Hsh Ho Hw Hi. unfold handleClient, checkShutdown, SetReadDeadline, finishPass. rewrite Hsh, Ho.
  destruct (handle_command Hlog s (set_deadline c true) m cmd rest Hs Hrun Henc Ho Hw Hi) as (s' & Hr & Hs' & _).
  rewrite Hr. by exists s'.
Qed.

Definition no_put (cmd : Command) : Prop := match cmd with Put _ _ => False | _ => True end.

Fixpoint answers (cmds : list Command) m : list byte :=
  match cmds with [] => [] | cmd :: cmds => answer cmd m ++ answers cmds (effect cmd m) end.

Definition effects (cmds : list Command) m : kvmap := foldl (fun m cmd => effect cmd m) m cmds.

(** A client that sends any number of lookups, removals and pings in one go
    gets all the answers in order, each as of its place in the sequence, and the
    tree ends with the map they lead to. *)
Theorem server_session (Hlog : log_reliable W) cmds : forall s c m rest,
  serves s m -> Forall (fun cmd => no_put cmd /\ encodable cmd) cmds -> shutdown s = false -> connOpen c = true -> writeFaults c = [] ->
  inbox c = concat (encode <$> cmds) ++ rest ->
  exists s' c', handleClient errorText fuel (length cmds) s c = Some (Some (AtLoop, s', c')) /\ serves s' (effects cmds m) /\
    inbox c' = rest /\ outbox c' = outbox c ++ answers cmds m.
Proof.
  induction cmds as [|cmd cmds IH]; intros s c m rest Hs Hall Hsh Ho Hw Hi.
  { exists s, c. cbn in *. by rewrite app_nil_r. }
  inversion Hall as [|? ? [Hnp Henc] Hall']; subst. cbn [fmap list_fmap concat] in Hi. rewrite <- app_assoc in Hi.
  destruct (handle_command Hlog s (set_deadline c true) m cmd _ Hs ltac:(by destruct cmd) Henc Ho Hw Hi) as (s1 & Hr & Hs1 & _ & Hsh1).
  destruct (IH s1 (after (set_deadline c true) (concat (encode <$> cmds) ++ rest) (answer cmd m)) (effect cmd m) rest)
    as (s2 & c2 & Hr2 & Hs2 & Hi2 & Ho2); try done; [congruence|].
  exists s2, c2. split; [|split; [done|split; [done|]]].
  - cbn [length handleClient]. unfold checkShutdown, SetReadDeadline, finishPass. rewrite Hsh, Ho, Hr. exact Hr2.
  - rewrite Ho2. cbn. by rewrite app_assoc.
Qed.
End spec.
