(* ===== verification/ServerRuns.v ===== *)
(** * The server's goroutines: invariants, shutdown, and clients that stall *)

From S2P Require Export ServerSpec.

Section runs.
Context {B W : Type} `{!BufferPoolManager B} `{!WAL W} (errorText : error -> list byte) (fuel : nat).
Implicit Types (s : Server B W) (c : Conn) (w : World B W).
Abbreviation server_step := (server_step errorText fuel).
Abbreviation run := (run errorText fuel).

(** ** What reading and handling a request leave alone *)

Definition same_conn c c' : Prop := connOpen c' = connOpen c /\ afterwards c' = afterwards c /\ outbox c `prefix_of` outbox c'.

Lemma same_conn_refl c : same_conn c c.
Proof. by split_and!. Qed.

Lemma same_conn_trans c1 c2 c3 : same_conn c1 c2 -> same_conn c2 c3 -> same_conn c1 c3.
Proof. intros (? & ? & ?) (? & ? & ?). split_and!; [congruence..|by etrans]. Qed.

Lemma connWrite_same c bs : same_conn c (connWrite c bs).
Proof. unfold connWrite. destruct (writeFaults c) as [|[] fs]; (split_and!; [done|done|cbn]); [by apply prefix_app_r|done|by apply prefix_app_r]. Qed.

Lemma readNBytes_same c N : same_conn c (readNBytes c N).2.
Proof. unfold readNBytes. repeat case_match; by split_and!. Qed.

Lemma readRequest_same c : same_conn c (readRequest c).2.
Proof.
  unfold readRequest, readUInt32, SetReadDeadline. pose proof (readNBytes_same c 1) as H1.
  destruct (readNBytes c 1) as [[[d|e]|] c1]; cbn in H1 |- *; try exact H1. destruct (connOpen c1); cbn; [|exact H1].
  assert (same_conn c (set_deadline c1 false)) as H2 by (eapply same_conn_trans; [exact H1|by split_and!]).
  case_bool_decide; cbn; [exact H2|].
  pose proof (readNBytes_same (set_deadline c1 false) 4) as H3. destruct (readNBytes (set_deadline c1 false) 4) as [[[d'|e]|] c2];
    cbn in H3 |- *; try (by eapply same_conn_trans).
  pose proof (readNBytes_same c2 (unle d')) as H4. destruct (readNBytes c2 (unle d')) as [[[d2|e]|] c3]; cbn in H4 |- *;
    (eapply same_conn_trans; [exact H2|by eapply same_conn_trans]).
Qed.

(** The server's flags after a request: shut down, or as before. *)
Definition flags_ok s s' : Prop :=
  (listening s' = listening s /\ shutdown s' = shutdown s) \/ (listening s' = false /\ shutdown s' = true).

Lemma serve_same {A} (op : M B W A) resp s c o s' c' :
  serve errorText op resp s c = Some (o, s', c') -> flags_ok s s' /\ same_conn c c'.
Proof.
  unfold serve. destruct (op (bPlusTree s)) as [[[[a|e]|] db]|]; [..|done]; intros [= <- <- <-];
    (split; [by left|first [apply connWrite_same|apply same_conn_refl]]).
Qed.

Lemma handleRequest_same s c o s' c' :
  handleRequest errorText fuel s c = Some (o, s', c') -> flags_ok s s' /\ same_conn c c'.
Proof.
  unfold handleRequest. pose proof (readRequest_same c) as Hr. destruct (readRequest c) as [[[[op bs]|e]|] c1]; cbn in Hr.
  - assert (forall bs, same_conn c (connWrite c1 bs)) as Hw by (intros; eapply same_conn_trans; [exact Hr|apply connWrite_same]).
    assert (forall A (op : M B W A) resp, serve errorText op resp s c1 = Some (o, s', c') -> flags_ok s s' /\ same_conn c c') as Hse.
    { intros A op' resp Hse. destruct (serve_same _ _ _ _ _ _ _ Hse). split; [done|by eapply same_conn_trans]. }
    cbn [opCode body]. destruct op; try (intros [= <- <- <-]; split; [by left|apply Hw]).
    + destruct (decodeDeleteRequestBody bs); cbn [mbind option_bind]; [apply Hse|done].
    + destruct (decodeGetRequestBody bs); cbn [mbind option_bind]; [apply Hse|done].
    + destruct (decodeInsertRequestBody bs) as [[k v]|]; cbn [mbind option_bind]; [apply Hse|done].
    + unfold Shutdown. destruct (shutdown s) eqn:Hsh; cbn [mbind option_bind]; [intros [= <- <- <-]; split; [by left|done]|].
      destruct (BPlusTree_Close (bPlusTree s)) as [[o' db]|]; cbn [mbind option_bind]; [|done]. intros [= <- <- <-]. split; [by right|done].
  - case_decide; intros [= <- <- <-]; (split; [by left|done]).
  - intros [= <- <- <-]. split; [by left|done].
Qed.

(** ** Invariants of every interleaving *)

(** The listener is closed exactly when the server is shut down, and a client's
    connection exactly when its goroutine has ended. *)
Definition world_ok w : Prop :=
  let '(s, cs) := w in
  listening s = negb (shutdown s) /\
  forall i st c, cs !! i = Some (st, c) -> (connOpen c = true <-> st <> Finished).

Lemma step_conn (cs : list (ClientState * Conn)) (i : nat) x y (P : ClientState -> Conn -> Prop) :
  cs !! i = Some x -> P y.1 y.2 -> (forall j st c, cs !! j = Some (st, c) -> P st c) ->
  forall j st c, <[i := y]> cs !! j = Some (st, c) -> P st c.
Proof.
  intros Hi Hy Hall j st c. destruct (decide (j = i)) as [->|Hne]; [|rewrite list_lookup_insert_ne by done; apply Hall].
  rewrite list_lookup_insert_eq by (by eapply lookup_lt_Some). by intros [= ->].
Qed.

Lemma server_step_ok e w w' : server_step e w w' -> world_ok w -> world_ok w'.
Proof.
  intros Hst. destruct Hst as [s cs c Hl Ho|s cs i c Hi|s cs i c st' s' c' Hi Hf|s cs i st c more peer Hi Ha]; intros [Hfl Hcs].
  - split; [done|]. intros i st c' [Hi|[_ Hi]]%lookup_app_Some; [by eapply Hcs|].
    destruct (i - length cs)%nat; [|done]. injection Hi as <- <-. done.
  - split; [done|]. eapply (step_conn cs i _ _ (fun st c => connOpen c = true <-> st <> Finished)); [exact Hi| |exact Hcs].
    unfold checkShutdown, SetReadDeadline. assert (connOpen c = true) as Ho by (by apply (Hcs i AtLoop)).
    destruct (shutdown s); [done|]. rewrite Ho. done.
  - unfold finishPass in Hf. destruct (handleRequest errorText fuel s c) as [[[o s1] c1]|] eqn:Hr; [|done]. cbn in Hf.
    destruct (handleRequest_same _ _ _ _ _ Hr) as (Hflags & Ho & _). assert (connOpen c = true) as Hoc by (by apply (Hcs i Reading)).
    assert (s1 = s' /\ (connOpen c' = true <-> st' <> Finished)) as [-> Hc'].
    { destruct o as [[|]|]; [..|done]; injection Hf as <- <- <-; (split; [done|]); [rewrite Ho, Hoc|cbn]; done. }
    split; [destruct Hflags as [[-> ->]|[-> ->]]; done|].
    by eapply (step_conn cs i _ _ (fun st c => connOpen c = true <-> st <> Finished)).
  - split; [done|]. eapply (step_conn cs i _ _ (fun st c => connOpen c = true <-> st <> Finished)); [exact Hi|exact (Hcs i st c Hi)|exact Hcs].
Qed.

(** Nobody is let in after the shutdown, which is final. *)
Lemma server_step_closing e s cs s' cs' :
  server_step e (s, cs) (s', cs') -> world_ok (s, cs) -> shutdown s = true -> shutdown s' = true /\ length cs' = length cs.
Proof.
  intros Hst [Hfl _] Hsh. rewrite Hsh in Hfl. cbn in Hfl. inversion Hst as [? ? c Hl|? ? i c Hi|? ? i c st' ? c' Hi Hf|]; subst.
  - congruence.
  - by rewrite length_insert.
  - rewrite length_insert. split; [|done]. unfold finishPass in Hf.
    destruct (handleRequest errorText fuel s c) as [[[o s1] c1]|] eqn:Hr; [|done]. cbn in Hf.
    destruct (handleRequest_same _ _ _ _ _ Hr) as (Hflags & _).
    assert (s1 = s') as -> by (destruct o as [[|]|]; by injection Hf). destruct Hflags as [[_ ->]|[_ ->]]; done.
  - by rewrite length_insert.
Qed.

(** C32: In every interleaving of any number of clients, the listener is open
    exactly until the shutdown, a connection is open exactly while its goroutine
    runs, and after a shutdown, which is final, no client is let in. *)
Theorem server_invariant es s cs s' cs' :
  run es (s, cs) (s', cs') -> world_ok (s, cs) ->
  world_ok (s', cs') /\ (shutdown s = true -> shutdown s' = true /\ length cs' = length cs).
Proof.
  intros Hrun. remember (s, cs) as w eqn:Hw. remember (s', cs') as w' eqn:Hw'. revert s cs Hw s' cs' Hw'.
  induction Hrun as [w|e es w1 [s2 cs2] w3 Hst Hrun IH]; intros s cs -> s' cs' Heq Hok; [injection Heq as <- <-; done|].
  pose proof (server_step_ok _ _ _ Hst Hok) as Hok2. destruct (IH s2 cs2 eq_refl s' cs' Heq Hok2) as [Hok3 Hsh3]. split; [done|].
  intros Hsh. destruct (server_step_closing _ _ _ _ _ Hst Hok Hsh) as [Hsh2 Hlen]. destruct (Hsh3 Hsh2). split; [done|congruence].
Qed.

Lemma run_app es1 es2 w1 w2 w3 : run es1 w1 w2 -> run es2 w2 w3 -> run (es1 ++ es2) w1 w3.
Proof. induction 1 as [|e es w1 w2' w2 Hst Hrun IH]; intros Hr; [done|]. econstructor; [exact Hst|by apply IH]. Qed.

(** ** Shutdown *)

(** Nothing to read: the pass ends at the deadline, or because the client is gone. *)
Definition idle c : Prop := inbox c = [] /\ (deadline c = true \/ afterwards c = HungUp).

Lemma idle_pass s c : idle c ->
  exists st c', finishPass errorText fuel s c = Some (Some (st, s, c')) /\ (st = AtLoop \/ st = Finished) /\ outbox c' = outbox c.
Proof.
  intros [Hi Hd]. unfold finishPass, handleRequest, readRequest, readNBytes. rewrite Hi. cbn.
  destruct (afterwards c); cbn; [|eexists _, _; split; [done|split; [by right|done]]].
  destruct Hd as [->|]; [|done]. cbn. eexists _, _. split; [done|split; [by left|done]].
Qed.

Definition is_handler (e : Event) : bool := match e with Handler _ => true | _ => false end.

(** One client comes to its end. *)
Lemma client_ends s cs i st c :
  shutdown s = true -> cs !! i = Some (st, c) -> (st = Reading -> idle c) ->
  exists es c', run es (s, cs) (s, <[i := (Finished, c')]> cs) /\ Forall is_handler es.
Proof.
  intros Hsh Hi Hidle. pose proof (lookup_lt_Some _ _ _ Hi) as Hlt.
  assert (forall cs c, cs !! i = Some (AtLoop, c) -> run [Handler i] (s, cs) (s, <[i := (Finished, handleShutdown c)]> cs)) as Hloop.
  { intros cs' c' Hi'. econstructor; [|constructor]. pose proof (step_check errorText fuel s cs' i c' Hi') as Hst.
    unfold checkShutdown in Hst. by rewrite Hsh in Hst. }
  destruct st.
  - eexists [Handler i], _. split; [by apply Hloop|by repeat constructor].
  - destruct (idle_pass s c (Hidle eq_refl)) as (st & c1 & Hf & Hst & _).
    assert (run [Handler i] (s, cs) (s, <[i := (st, c1)]> cs)) as H1 by (econstructor; [by eapply step_request|constructor]).
    destruct Hst as [->| ->]; [|exists [Handler i], c1; split; [done|by repeat constructor]].
    exists ([Handler i] ++ [Handler i]), (handleShutdown c1). split; [|by repeat constructor]. eapply run_app; [exact H1|].
    pose proof (Hloop (<[i := (AtLoop, c1)]> cs) c1 (list_lookup_insert_eq _ _ _ Hlt)) as H2. by rewrite list_insert_insert_eq in H2.
  - exists [], c. rewrite list_insert_id by done. split; constructor.
Qed.

(** The steps a goroutine can still make after a shutdown. *)
Definition steps_left (st : ClientState) : nat := match st with AtLoop => 1 | Reading => 2 | Finished => 0 end.
Definition remaining (cs : list (ClientState * Conn)) : nat := sum_list (steps_left <$> cs.*1).
Definition handler_steps (es : list Event) : nat := length (filter is_handler es).

Lemma remaining_insert cs i st c st' c' : cs !! i = Some (st, c) ->
  (remaining (<[i := (st', c')]> cs) + steps_left st = remaining cs + steps_left st')%nat.
Proof.
  revert i. induction cs as [|x cs IH]; intros [|i] Hi; [done|done| |].
  - injection Hi as ->. unfold remaining. cbn. lia.
  - apply IH in Hi. change (remaining (<[S i := (st', c')]> (x :: cs))) with (steps_left x.1 + remaining (<[i := (st', c')]> cs))%nat.
    change (remaining (x :: cs)) with (steps_left x.1 + remaining cs)%nat. lia.
Qed.

Lemma closing_step e s cs s' cs' :
  server_step e (s, cs) (s', cs') -> world_ok (s, cs) -> shutdown s = true ->
  (handler_steps [e] + remaining cs' <= remaining cs)%nat.
Proof.
  intros Hst [Hfl _] Hsh. rewrite Hsh in Hfl. cbn in Hfl.
  inversion Hst as [? ? c Hl|? ? i c Hi|? ? i c st' ? c' Hi Hf|? ? i st c more peer Hi Ha]; subst.
  - congruence.
  - unfold checkShutdown. rewrite Hsh. pose proof (remaining_insert cs i _ _ Finished (handleShutdown c) Hi) as Hr. cbn [steps_left] in Hr. change (handler_steps [Handler i]) with 1%nat. lia.
  - pose proof (remaining_insert cs i _ _ st' c' Hi) as Hr. cbn [steps_left] in Hr. change (handler_steps [Handler i]) with 1%nat.
    assert (steps_left st' <= 1)%nat; [|lia].
    unfold finishPass in Hf. destruct (handleRequest errorText fuel s c) as [[[o s1] c1]|]; [|done]. cbn in Hf.
    destruct o as [[|]|]; [..|done]; injection Hf as <- _ _; cbn; lia.
  - pose proof (remaining_insert cs i _ _ st (mkConn (inbox c ++ more) peer (deadline c) (outbox c) (writeFaults c) (connOpen c)) Hi).
    change (handler_steps [FromClient i]) with 0%nat. lia.
Qed.

Lemma closing_run es s cs s' cs' :
  run es (s, cs) (s', cs') -> world_ok (s, cs) -> shutdown s = true -> (handler_steps es + remaining cs' <= remaining cs)%nat.
Proof.
  intros Hrun. remember (s, cs) as w eqn:Hw. remember (s', cs') as w' eqn:Hw'. revert s cs Hw s' cs' Hw'.
  induction Hrun as [w|e es w1 [s2 cs2] w3 Hst Hrun IH]; intros s cs -> s' cs' Heq Hok Hsh; [by injection Heq as <- <-|].
  destruct (server_step_closing _ _ _ _ _ Hst Hok Hsh) as [Hsh2 _]. pose proof (closing_step _ _ _ _ _ Hst Hok Hsh) as H1.
  pose proof (IH s2 cs2 eq_refl s' cs' Heq (server_step_ok _ _ _ Hst Hok) Hsh2) as H2. unfold handler_steps in *.
  change (e :: es) with ([e] ++ es). rewrite list.filter_app, length_app. lia.
Qed.

(** One after the other, clients that are in no request come to their end. *)
Lemma drain s cs :
  shutdown s = true -> (forall i c, cs !! i = Some (Reading, c) -> idle c) ->
  exists es cs', run es (s, cs) (s, cs') /\ length cs' = length cs /\ (forall i st c, cs' !! i = Some (st, c) -> st = Finished) /\
    Forall is_handler es.
Proof.
  intros Hsh Hidle.
  assert (forall n, (n <= length cs)%nat -> exists es cs', (run es (s, cs) (s, cs') /\ Forall is_handler es) /\ length cs' = length cs /\
    (forall i st c, (i < n)%nat -> cs' !! i = Some (st, c) -> st = Finished) /\ (forall i, (n <= i)%nat -> cs' !! i = cs !! i)) as Hn.
  { induction n as [|n IH]; intros Hle.
    { exists [], cs. split; [split; constructor|split; [done|split; [intros; lia|done]]]. }
    destruct (IH ltac:(lia)) as (es & cs1 & [Hr Hall] & Hlen & Hfin & Hrest).
    destruct (lookup_lt_is_Some_2 cs n ltac:(lia)) as [[st c] Hc].
    destruct (client_ends s cs1 n st c Hsh) as (es2 & c' & Hr2 & Hall2); [by rewrite Hrest|intros ->; by eapply Hidle|].
    exists (es ++ es2), (<[n := (Finished, c')]> cs1). split; [split; [by eapply run_app|by apply Forall_app]|]. rewrite length_insert. split; [done|]. split.
    - intros i st' d Hi. destruct (decide (i = n)) as [->|Hne].
      + rewrite list_lookup_insert_eq by lia. by intros [= <- _].
      + rewrite list_lookup_insert_ne by done. apply Hfin. lia.
    - intros i Hi. rewrite list_lookup_insert_ne by lia. apply Hrest. lia. }
  destruct (Hn (length cs) ltac:(lia)) as (es & cs' & [Hr Hall] & Hlen & Hfin & _). exists es, cs'. split; [done|split; [done|split; [|done]]].
  intros i st c Hi. eapply Hfin; [|exact Hi]. rewrite <- Hlen. by eapply lookup_lt_Some.
Qed.

(** C33: After a shutdown the server drains.  In every interleaving the goroutines
    make at most two more steps for a client that waits for a request and one for
    a client between requests, so none of them goes on for ever; and when no
    client is in the middle of a request there is always a way on to the end of
    all of them, where [Run] returns. *)
Theorem shutdown_drains s cs :
  world_ok (s, cs) -> shutdown s = true ->
  (forall es s' cs', run es (s, cs) (s', cs') -> (handler_steps es + remaining cs' <= remaining cs)%nat) /\
  ((forall i c, cs !! i = Some (Reading, c) -> idle c) ->
   exists es cs', run es (s, cs) (s, cs') /\ length cs' = length cs /\ forall i st c, cs' !! i = Some (st, c) -> st = Finished).
Proof. intros Hok Hsh. split; [intros es s' cs' Hr; by eapply closing_run|intros Hi].
  destruct (drain s cs Hsh Hi) as (es & cs' & Hr & Hlen & Hfin & _). by exists es, cs'.
Qed.

(** *** What the goroutines do after a shutdown when nothing more arrives *)

(** A client after the shutdown: it has been sent nothing more but perhaps, at its
    end, the message that the server shuts down. *)
Definition closing_client (x x' : ClientState * Conn) : Prop :=
  (x'.1 = Reading -> idle x'.2) /\ (x'.1 <> Finished -> outbox x'.2 = outbox x.2) /\
  (outbox x'.2 = outbox x.2 \/ outbox x'.2 = outbox x.2 ++ encodeShutdownMessage).

Definition closing_clients (cs cs' : list (ClientState * Conn)) : Prop := Forall2 closing_client cs cs'.

Lemma closing_clients_refl cs : (forall i c, cs !! i = Some (Reading, c) -> idle c) -> closing_clients cs cs.
Proof.
  intros Hidle. apply Forall2_same_length_lookup. split; [done|]. intros i x x' Hi Hi'. rewrite Hi in Hi'. injection Hi' as <-.
  split; [|split; [done|by left]]. destruct x as [st c]. cbn. intros ->. by eapply Hidle.
Qed.

Lemma closing_quiet_step e s cs0 cs s' cs' :
  server_step e (s, cs) (s', cs') -> world_ok (s, cs) -> shutdown s = true -> (forall i, e <> FromClient i) ->
  closing_clients cs0 cs -> s' = s /\ closing_clients cs0 cs' /\ is_handler e = true.
Proof.
  intros Hst [Hfl _] Hsh Hno Hcl. rewrite Hsh in Hfl. cbn in Hfl.
  assert (forall i x x', cs !! i = Some x -> (forall x0, closing_client x0 x -> closing_client x0 x') -> closing_clients cs0 (<[i := x']> cs)) as Hins.
  { intros i x x' Hi Hx. destruct (Forall2_lookup_r _ _ _ _ _ Hcl Hi) as (x0 & Hi0 & Hx0).
    rewrite <- (list_insert_id cs0 i x0 Hi0). apply Forall2_insert; [done|by apply Hx]. }
  inversion Hst as [? ? c Hl|? ? i c Hi|? ? i c st' ? c' Hi Hf|? ? i st c more peer Hi Ha]; subst.
  - congruence.
  - split; [done|]. split; [|done]. apply (Hins i _ _ Hi). intros x0 (_ & Ho & _). specialize (Ho ltac:(done)). cbn in Ho.
    unfold checkShutdown. rewrite Hsh. split; [done|]. split; [done|]. cbn. rewrite <- Ho. unfold connWrite.
    destruct (writeFaults c) as [|[] fs]; cbn; by auto.
  - destruct (Forall2_lookup_r _ _ _ _ _ Hcl Hi) as (x0 & Hi0 & Hx0). destruct (idle_pass s c (proj1 Hx0 eq_refl)) as (st1 & c1 & Hf1 & Hst1 & Ho1).
    rewrite Hf in Hf1. injection Hf1 as -> -> ->. split; [done|]. split; [|done]. apply (Hins i _ _ Hi).
    intros y (_ & Ho & _). specialize (Ho ltac:(done)). cbn in Ho. split; [by destruct Hst1 as [-> | ->]|]. cbn. rewrite Ho1, Ho. by auto.
  - by destruct (Hno i).
Qed.

(** The server is not touched any more, and there is a bound on the steps. *)
Lemma closing_quiet es s cs0 cs s' cs' :
  run es (s, cs) (s', cs') -> world_ok (s, cs) -> shutdown s = true -> (forall i, FromClient i ∉ es) -> closing_clients cs0 cs ->
  s' = s /\ closing_clients cs0 cs' /\ Forall is_handler es.
Proof.
  intros Hrun. remember (s, cs) as w eqn:Hw. remember (s', cs') as w' eqn:Hw'. revert s cs Hw s' cs' Hw'.
  induction Hrun as [w|e es w1 [s2 cs2] w3 Hst Hrun IH]; intros s cs -> s' cs' Heq Hok Hsh Hno Hcl; [by injection Heq as <- <-|].
  assert (forall i, e <> FromClient i) as Hne by (intros i ->; apply (Hno i); by left).
  destruct (closing_quiet_step _ _ cs0 _ _ _ Hst Hok Hsh Hne Hcl) as (-> & Hcl2 & He).
  destruct (IH s cs2 eq_refl s' cs' Heq (server_step_ok _ _ _ Hst Hok) Hsh) as (-> & Hcl' & Hes); [|done|].
  { intros i Hi. apply (Hno i). by right. }
  split; [done|]. split; [done|]. constructor; [by rewrite He|done].
Qed.

Lemma handler_steps_all es : Forall is_handler es -> handler_steps es = length es.
Proof.
  intros Hall. unfold handler_steps. induction Hall as [|e es He _ IH]; [done|].
  rewrite list.filter_cons, decide_True by done. cbn [length]. by rewrite IH.
Qed.

(** The op code of a request with a body, and fewer than four bytes of length. *)
Definition stalled c : Prop :=
  exists op part, has_body op /\ len part < 4 /\ inbox c = op :: part /\ afterwards c = Silent /\ connOpen c = true.

Lemma stalled_waits s c : stalled c -> finishPass errorText fuel s c = Some None.
Proof.
  intros (op & part & Hop & Hlen & Hi & Ha & Ho). unfold finishPass, handleRequest, readRequest.
  erewrite (readNBytes_ready c 1 [op] part) by done. cbn [nth]. unfold SetReadDeadline. cbn [connOpen set_inbox]. rewrite Ho.
  rewrite bool_decide_eq_false_2 by done. unfold readUInt32, readNBytes. cbn [inbox set_deadline set_inbox afterwards deadline].
  rewrite (proj2 (Z.leb_gt _ _) Hlen), Ha. done.
Qed.

(** A client that sends the start of a request and then nothing keeps its
    goroutine for ever, shutdown or not: the deadline is cleared after the op
    code.  [Run] waits for it, so the pool is never flushed. *)
Theorem stalled_client_never_ends es s cs s' cs' i c :
  run es (s, cs) (s', cs') -> cs !! i = Some (Reading, c) -> stalled c -> FromClient i ∉ es -> cs' !! i = Some (Reading, c).
Proof.
  intros Hrun. remember (s, cs) as w eqn:Hw. remember (s', cs') as w' eqn:Hw'. revert s cs Hw s' cs' Hw'.
  induction Hrun as [w|e es w1 [s2 cs2] w3 Hst Hrun IH]; intros s cs -> s' cs' Heq Hi Hstall Hni; [by injection Heq as <- <-|].
  apply not_elem_of_cons in Hni as [Hne Hni]. apply (IH s2 cs2 eq_refl s' cs' Heq); [|done|done].
  inversion Hst as [? ? c1 Hl|? ? j c1 Hj|? ? j c1 st' ? c' Hj Hf|? ? j st c1 more peer Hj Ha]; subst.
  - by apply lookup_app_l_Some.
  - rewrite list_lookup_insert_ne; [done|]. intros ->. congruence.
  - rewrite list_lookup_insert_ne; [done|]. intros ->. rewrite Hi in Hj. injection Hj as <-. by rewrite stalled_waits in Hf.
  - rewrite list_lookup_insert_ne; [done|]. by intros ->.
Qed.

(** A request whose body is shorter than the length field it should start
    with makes the handler panic, and with it the whole server: any client can
    stop it with six bytes. *)
Theorem malformed_request_panics s c op bs rest :
  op ∈ [x49; x44; x47] -> len bs < 4 -> connOpen c = true -> inbox c = wire op bs ++ rest -> handleRequest errorText fuel s c = None.
Proof.
  intros Hop Hlen Ho Hi.
  assert (readUint 4 bs 0 = None) as Hr by (unfold readUint; by rewrite (proj2 (Z.leb_gt (0 + Z.of_nat 4) (len bs)) Hlen)).
  assert (has_body op) as Hb.
  { apply (bool_decide_eq_true_1 (op ∉ noBodyOpCodes)). repeat (apply elem_of_cons in Hop as [->|Hop]; [done|]). by apply elem_of_nil in Hop. }
  unfold handleRequest. rewrite (readRequest_wire c op bs rest Ho Hb ltac:(unfold fits; lia) Hi). cbn [opCode body].
  repeat (apply elem_of_cons in Hop as [->|Hop];
    [cbn; unfold decodeInsertRequestBody, decodeDeleteRequestBody, decodeGetRequestBody; by rewrite Hr|]).
  by apply elem_of_nil in Hop.
Qed.
End runs.
