(* ===== verification/ServerLinear.v ===== *)
(** * Concurrent clients see one map

    Any number of clients connect and send requests in whatever pieces the
    network makes of them, while the goroutines interleave.  [reach] are the runs
    of the server, with the bytes that each connection brought; the theorem puts
    the requests they served into one sequence, in which every client got the
    answers of a finite map. *)

From S2P Require Export ServerRuns.

(** A request that was served: at which step, whose, and what. *)
Record Served := mkServed { atStep : nat; client : nat; command : Command }.

Section linear.
Context {B W : Type} `{PL : PageStoreLaws B} `{!WAL W} (errorText : error -> list byte) (fuel : nat).
Implicit Types (s : Server B W) (c : Conn) (m : kvmap) (i : nat) (hist : list Served) (tr : list (nat * list byte)).
Abbreviation server_step := (server_step errorText fuel).
Abbreviation answer := (answer errorText).
Abbreviation serves := (serves fuel).

(** The bytes that a step brings in. *)
Definition input (e : Event) (w w' : World B W) : list (nat * list byte) :=
  match e with
  | Accepted => match list.last w'.2 with Some (_, c) => [(length w.2, inbox c)] | None => [] end
  | FromClient i => match w.2 !! i, w'.2 !! i with
                    | Some (_, c), Some (_, c') => [(i, drop (length (inbox c)) (inbox c'))]
                    | _, _ => []
                    end
  | Handler _ => []
  end.

(** All that connection [i] sent. *)
Definition received i tr : list byte := concat ((filter (fun x => x.1 = i) tr).*2).

(** A new connection, on which no write will fail. *)
Definition fresh_conn (e : Event) (w' : World B W) : Prop :=
  match e with
  | Accepted => forall st c, list.last w'.2 = Some (st, c) -> outbox c = [] /\ writeFaults c = []
  | _ => True
  end.

(** The tree has room for what a goroutine is about to put into it. *)
Definition puts_fit (w : World B W) : Prop :=
  forall i c key value rest, w.2 !! i = Some (Reading, c) -> inbox c = encode (Put key value) ++ rest ->
    encodable (Put key value) -> exists m, serves w.1 m /\ can_run fuel w.1 m (Put key value).

Inductive reach (w0 : World B W) : list Event -> list (nat * list byte) -> World B W -> Prop :=
  | reach_init : reach w0 [] [] w0
  | reach_step es tr w e w' :
      reach w0 es tr w -> server_step e w w' -> fresh_conn e w' -> puts_fit w -> reach w0 (es ++ [e]) (tr ++ input e w w') w'.

(** ** The sequence of served requests *)

Definition commands hist : list Command := command <$> hist.
Definition commands_of i hist : list Command := commands (filter (fun h => client h = i) hist).

(** What client [i] gets when the commands run on the map one after the other. *)
Fixpoint replies i hist m : list byte :=
  match hist with
  | [] => []
  | h :: hist => (if decide (client h = i) then answer (command h) m else []) ++ replies i hist (effect (command h) m)
  end.

Lemma replies_snoc i hist h : forall m,
  replies i (hist ++ [h]) m = replies i hist m ++ (if decide (client h = i) then answer (command h) (effects (commands hist) m) else []).
Proof.
  induction hist as [|h' hist IH]; intros m; cbn; [by rewrite app_nil_r|]. by rewrite IH, app_assoc.
Qed.

Lemma commands_snoc hist h m : effects (commands (hist ++ [h])) m = effect (command h) (effects (commands hist) m).
Proof. unfold commands, effects. by rewrite fmap_app, foldl_app. Qed.

Lemma commands_of_snoc i hist h :
  commands_of i (hist ++ [h]) = commands_of i hist ++ (if decide (client h = i) then [command h] else []).
Proof.
  unfold commands_of, commands. rewrite list.filter_app, fmap_app. f_equal. cbn. by case_decide.
Qed.

Lemma received_snoc i tr tr' : received i (tr ++ tr') = received i tr ++ received i tr'.
Proof. unfold received. by rewrite list.filter_app, fmap_app, concat_app. Qed.

Lemma received_one i j bs : received i [(j, bs)] = if decide (j = i) then bs else [].
Proof. unfold received. cbn. case_decide; cbn; [by rewrite app_nil_r|done]. Qed.

(** The requests on the wire can be told apart. *)
Lemma encode_put_inj k v r k' v' r' : encodable (Put k v) -> encodable (Put k' v') ->
  encode (Put k v) ++ r = encode (Put k' v') ++ r' -> k = k' /\ v = v'.
Proof.
  cbn [encode encodable]. intros He He' Heq. set (c := mkConn (wire x49 (insert_body k v) ++ r) Silent false [] [] true).
  assert (has_body x49) as Hb by exact (bool_decide_eq_true_1 (x49 ∉ noBodyOpCodes) eq_refl).
  pose proof (readRequest_wire c x49 _ r eq_refl Hb He eq_refl) as Hr. rewrite (readRequest_wire c x49 _ r' eq_refl Hb He' Heq) in Hr.
  apply (f_equal (fun q => match q.1 with Done (Ok q) => decodeInsertRequestBody (body q) | _ => None end)) in Hr. cbn [fst body] in Hr.
  unfold fits, insert_body in He, He'. rewrite len_app, !len_field in He, He'.
  pose proof (len_nonneg k). pose proof (len_nonneg v). pose proof (len_nonneg k'). pose proof (len_nonneg v').
  rewrite !decode_insert_body in Hr by (unfold fits; lia). by injection Hr as -> ->.
Qed.

(** The tree determines the map it holds: lookups tell. *)
Lemma serves_functional s m m' : serves s m -> serves s m' -> m = m'.
Proof.
  intros (h & ps & Hdb & Hcap & Hf) (h' & ps' & Hdb' & Hcap' & Hf'). destruct s as [[b w t] li sh]. cbn [bPlusTree pool] in *.
  apply map_eq. intros key.
  destruct (Get_run exact_leaf b w t h m ps fuel key exact_leaf_slack Hdb) as (b1 & Hr & _); [lia|done|].
  destruct (Get_run exact_leaf b w t h' m' ps' fuel key exact_leaf_slack Hdb') as (b2 & Hr' & _); [lia|done|].
  rewrite Hr in Hr'. unfold lookup_result in Hr'. destruct (m !! key), (m' !! key); congruence.
Qed.

(** ** Reading a request that is not all there *)

Lemma readNBytes_quiet c N : let '(o, c1) := readNBytes c N in
  outbox c1 = outbox c /\ writeFaults c1 = writeFaults c /\ connOpen c1 = connOpen c /\ deadline c1 = deadline c /\
  (o = Done (Error ErrTimeout) -> deadline c = true /\ len (inbox c) < N /\ inbox c1 = []).
Proof.
  unfold readNBytes. destruct (N <=? len (inbox c)) eqn:Hl; [by split_and!|].
  destruct (afterwards c); [destruct (deadline c) eqn:Hd|]; (do 4 (split; [done|])); intros [=]; try done.
  - split_and!; [done|lia|done].
  - by destruct (len (inbox c) =? 0).
Qed.

Lemma readRequest_quiet c : let '(o, c1) := readRequest c in
  outbox c1 = outbox c /\ writeFaults c1 = writeFaults c /\ (o = Done (Error ErrTimeout) -> inbox c = [] /\ inbox c1 = []).
Proof.
  unfold readRequest, readUInt32, SetReadDeadline. pose proof (readNBytes_quiet c 1) as H1.
  destruct (readNBytes c 1) as [[[d|e]|] c1]; destruct H1 as (Ho1 & Hw1 & Hc1 & Hd1 & Ht1); cbn.
  2: { split_and!; [done..|]. intros [= ->]. destruct (Ht1 eq_refl) as (_ & Hl & ->). split; [|done]. destruct (inbox c); [done|]. unfold len in Hl. cbn in Hl. lia. }
  2: done.
  destruct (connOpen c1); [|done]. case_bool_decide; [done|].
  pose proof (readNBytes_quiet (set_deadline c1 false) 4) as H2. destruct (readNBytes (set_deadline c1 false) 4) as [[[d2|e]|] c2];
    destruct H2 as (Ho2 & Hw2 & Hc2 & Hd2 & Ht2); cbn in Ho2, Hw2, Hd2, Ht2 |- *.
  2: { split_and!; [congruence..|]. intros [= ->]. by destruct (Ht2 eq_refl) as [? _]. }
  2: split_and!; [congruence..|done].
  pose proof (readNBytes_quiet c2 (unle d2)) as H3. destruct (readNBytes c2 (unle d2)) as [[[d3|e]|] c3];
    destruct H3 as (Ho3 & Hw3 & Hc3 & Hd3 & Ht3); cbn in Ht3 |- *; (split_and!; [congruence..|]); try done.
  intros [= ->]. destruct (Ht3 eq_refl) as [? _]. congruence.
Qed.

Lemma readNBytes_short c N bs c1 : len (inbox c) < N -> readNBytes c N <> (Done (Ok bs), c1).
Proof. intros Hl. unfold readNBytes. rewrite (proj2 (Z.leb_gt _ _) Hl). repeat case_match; congruence. Qed.

Definition unread c : Prop := forall r c1, readRequest c <> (Done (Ok r), c1).

Lemma empty_unread c : inbox c = [] -> unread c.
Proof.
  intros Hi r c1. unfold readRequest. destruct (readNBytes c 1) as [[[d|e]|] c2] eqn:Hr; [|done..].
  exfalso. eapply readNBytes_short; [|exact Hr]. rewrite Hi. unfold len. cbn. lia.
Qed.

Lemma wire_unread c op bs : has_body op -> fits bs -> inbox c `prefix_of` wire op bs -> inbox c <> wire op bs -> unread c.
Proof.
  intros Hop Hf Hp Hne. destruct (inbox c) as [|b part] eqn:Hi; [by apply empty_unread|].
  intros r c1. unfold wire in *. pose proof (prefix_cons_inv_1 _ _ _ _ Hp) as ->. apply prefix_cons_inv_2 in Hp as [more Hmore].
  unfold readRequest. erewrite (readNBytes_ready c 1 [op] part) by done. cbn [nth]. unfold SetReadDeadline.
  destruct (connOpen (set_inbox c part)); [|done]. rewrite bool_decide_eq_false_2 by done. unfold readUInt32.
  assert (len part < 4 + len bs) as Hshort.
  { rewrite <- len_field, Hmore, len_app. destruct more; [by rewrite app_nil_r in Hmore; rewrite Hmore in Hne|]. unfold len. cbn. lia. }
  destruct (decide (len part < 4)) as [Hl|Hl].
  { destruct (readNBytes _ 4) as [[[d|e]|] c2] eqn:Hr; [|done..]. exfalso. by eapply readNBytes_short; [|exact Hr]. }
  assert (part = le 4 (len bs) ++ drop 4 part) as Hpart.
  { rewrite <- (take_drop 4 part) at 1. f_equal. apply (f_equal (take 4)) in Hmore. unfold field in Hmore.
    rewrite take_app_le in Hmore by (rewrite length_le; lia). rewrite take_app_le in Hmore by (unfold len in Hl; lia).
    rewrite <- Hmore, take_ge; [done|]. rewrite length_le. lia. }
  erewrite (readNBytes_ready _ 4 (le 4 (len bs)) (drop 4 part)) by (rewrite ?len_le; done). rewrite unle_le.
  change (256 ^ Z.of_nat 4) with (2 ^ 32). pose proof (len_nonneg bs). unfold fits in Hf. rewrite Z.mod_small by lia.
  destruct (readNBytes _ (len bs)) as [[[d|e]|] c2] eqn:Hr; [|done..]. exfalso. eapply readNBytes_short; [|exact Hr].
  cbn. unfold len in *. rewrite length_drop. lia.
Qed.

Lemma partial_unread c cmd : encodable cmd -> inbox c `prefix_of` encode cmd -> inbox c <> encode cmd -> unread c.
Proof.
  intros He Hp Hne. destruct cmd as [key value|key|key|]; cbn [encode encodable] in *.
  1-3: eapply wire_unread; [|done..]; by apply (bool_decide_eq_true_1 (_ ∉ noBodyOpCodes)).
  apply empty_unread. destruct (inbox c) as [|b l]; [done|]. pose proof (prefix_cons_inv_1 _ _ _ _ Hp) as ->.
  apply prefix_cons_inv_2, prefix_nil_inv in Hp as ->. done.
Qed.

Lemma unread_pass s c st' s' c' : unread c -> finishPass errorText fuel s c = Some (Some (st', s', c')) ->
  s' = s /\ outbox c' = outbox c /\ writeFaults c' = writeFaults c /\ (st' = Finished \/ st' = AtLoop /\ inbox c' = inbox c /\ connOpen c' = connOpen c).
Proof.
  intros Hu. unfold finishPass, handleRequest. pose proof (readRequest_quiet c) as Hq. pose proof (readRequest_same c) as Hsame.
  destruct (readRequest c) as [[[r|e]|] c1] eqn:Hr; [by destruct (Hu r c1)| |done]. destruct Hq as (Ho & Hw & Ht).
  case_decide as He; cbn; intros [= <- <- <-].
  - subst e. destruct (Ht eq_refl) as [Hi Hi1]. split_and!; [done..|]. right. split_and!; [done|congruence|apply Hsame].
  - split_and!; [done..|by left].
Qed.

(** ** The invariant *)

(** Client [i] has been served the first commands of its script, got the
    answers, and the rest of what it sent is still to be read. *)
Record client_inv (script : list Command) tr hist m i st c : Prop := {
  ci_faults : writeFaults c = [];
  ci_out : outbox c = replies i hist m;
  ci_script : exists k, commands_of i hist = take k script /\
    (st <> Finished -> connOpen c = true /\ received i tr = concat (encode <$> take k script) ++ inbox c)
}.

Record lin_inv (script : nat -> list Command) m (es : list Event) tr (w : World B W) hist : Prop := {
  li_serves : serves w.1 (effects (commands hist) m);
  li_up : shutdown w.1 = false;
  li_clients i st c : w.2 !! i = Some (st, c) -> client_inv (script i) tr hist m i st c;
  li_new i : (length w.2 <= i)%nat -> received i tr = [] /\ commands_of i hist = [] /\ replies i hist m = [];
  li_sorted : StronglySorted lt (atStep <$> hist);
  li_steps : Forall (fun h => es !! atStep h = Some (Handler (client h))) hist
}.

Lemma steps_snoc es e hist :
  Forall (fun h => es !! atStep h = Some (Handler (client h))) hist ->
  Forall (fun h => (es ++ [e]) !! atStep h = Some (Handler (client h))) hist.
Proof. apply Forall_impl. cbn. intros h Hh. by apply lookup_app_l_Some. Qed.

Lemma client_inv_input script tr j bs hist m i st c : i <> j ->
  client_inv script tr hist m i st c -> client_inv script (tr ++ [(j, bs)]) hist m i st c.
Proof.
  intros Hne [Hf Ho (k & Hk & Hr)]. constructor; [done..|]. exists k. split; [done|].
  rewrite received_snoc, received_one, decide_False, app_nil_r by (cbn; congruence). done.
Qed.

Lemma client_inv_served script tr t j cmd hist m i st c : i <> j ->
  client_inv script tr hist m i st c -> client_inv script tr (hist ++ [mkServed t j cmd]) m i st c.
Proof.
  intros Hne [Hf Ho (k & Hk & Hr)]. constructor; [done| |].
  - rewrite replies_snoc, decide_False, app_nil_r by (cbn; congruence). done.
  - exists k. rewrite commands_of_snoc, decide_False, app_nil_r by (cbn; congruence). done.
Qed.

Section steps.
Context (Hlog : log_reliable W) (script : nat -> list Command) (m : kvmap).
Hypothesis scripts_encodable : forall i, Forall encodable (script i).

Lemma accept_inv es tr s cs hist c :
  lin_inv script m es tr (s, cs) hist -> connOpen c = true -> outbox c = [] -> writeFaults c = [] ->
  lin_inv script m (es ++ [Accepted]) (tr ++ [(length cs, inbox c)]) (s, cs ++ [(AtLoop, c)]) hist.
Proof.
  intros [Hs Hup Hcl Hnew Hsort Hst] Ho Hout Hf. constructor; cbn [fst snd] in *; [done|done| | |done|by apply steps_snoc].
  - intros i st c' [Hi|[Hle Hi]]%lookup_app_Some.
    + apply client_inv_input; [|by apply Hcl]. apply lookup_lt_Some in Hi. lia.
    + destruct (i - length cs)%nat eqn:Hd; [|done]. injection Hi as <- <-. assert (i = length cs) as -> by lia.
      destruct (Hnew (length cs) ltac:(lia)) as (Hr & Hcm & Hre). constructor; [done|congruence|]. exists 0%nat. rewrite take_0. split; [done|].
      intros _. rewrite received_snoc, received_one, decide_True, Hr by done. done.
  - intros i Hi. rewrite length_app in Hi. cbn in Hi. rewrite received_snoc, received_one, decide_False, app_nil_r by lia. apply Hnew. lia.
Qed.

Lemma arrive_inv es tr s cs hist i st c more peer :
  lin_inv script m es tr (s, cs) hist -> cs !! i = Some (st, c) ->
  lin_inv script m (es ++ [FromClient i]) (tr ++ [(i, more)])
    (s, <[i := (st, mkConn (inbox c ++ more) peer (deadline c) (outbox c) (writeFaults c) (connOpen c))]> cs) hist.
Proof.
  intros [Hs Hup Hcl Hnew Hsort Hst] Hi. constructor; cbn [fst snd] in *; [done|done| | |done|by apply steps_snoc].
  - intros j st' c' [(<- & [= <- <-] & _)|[Hne Hj]]%list_lookup_insert_Some; [|apply client_inv_input; [done|by apply Hcl]].
    destruct (Hcl i st c Hi) as [Hf Ho (k & Hk & Hr)]. constructor; [done..|]. exists k. split; [done|]. intros Hn.
    destruct (Hr Hn) as [Hop Hrec]. split; [done|]. rewrite received_snoc, received_one, decide_True, Hrec by done. by rewrite <- app_assoc.
  - intros j Hj. rewrite length_insert in Hj. pose proof (lookup_lt_Some _ _ _ Hi).
    rewrite received_snoc, received_one, decide_False, app_nil_r by lia. by apply Hnew.
Qed.

(** A goroutine's step that serves nothing. *)
Lemma quiet_inv es tr s cs hist i st c st' c' :
  lin_inv script m es tr (s, cs) hist -> cs !! i = Some (st, c) -> outbox c' = outbox c -> writeFaults c' = writeFaults c ->
  (st' = Finished \/ st <> Finished /\ inbox c' = inbox c /\ connOpen c' = connOpen c) ->
  lin_inv script m (es ++ [Handler i]) tr (s, <[i := (st', c')]> cs) hist.
Proof.
  intros [Hs Hup Hcl Hnew Hsort Hst] Hi Hout Hw Hcase. constructor; cbn [fst snd] in *; [done|done| | |done|by apply steps_snoc].
  - intros j st2 c2 [(<- & [= <- <-] & _)|[Hne Hj]]%list_lookup_insert_Some; [|by apply Hcl].
    destruct (Hcl i st c Hi) as [Hf Ho (k & Hk & Hr)]. constructor; [congruence..|]. exists k. split; [done|]. intros Hn.
    destruct Hcase as [->|(Hn' & -> & ->)]; [done|by apply Hr].
  - intros j Hj. rewrite length_insert in Hj. by apply Hnew.
Qed.

(** A goroutine's step that serves a command. *)
Lemma serve_inv es tr s s' cs hist i c c' k cmd rest rem :
  lin_inv script m es tr (s, cs) hist -> cs !! i = Some (Reading, c) -> drop k (script i) = cmd :: rem ->
  commands_of i hist = take k (script i) -> received i tr = concat (encode <$> take k (script i)) ++ inbox c -> connOpen c = true ->
  inbox c = encode cmd ++ rest -> c' = after c rest (answer cmd (effects (commands hist) m)) ->
  serves s' (effect cmd (effects (commands hist) m)) -> shutdown s' = false ->
  lin_inv script m (es ++ [Handler i]) tr (s', <[i := (AtLoop, c')]> cs) (hist ++ [mkServed (length es) i cmd]).
Proof.
  intros [Hs Hup Hcl Hnew Hsort Hst] Hi Hdrop Hcm Hrec Hop Hin -> Hs' Hup'.
  assert (take (S k) (script i) = take k (script i) ++ [cmd]) as Htake.
  { apply take_S_r. rewrite <- (Nat.add_0_r k), <- lookup_drop, Hdrop. done. }
  constructor; cbn [fst snd] in *; [by rewrite commands_snoc|done| | | |].
  - intros j st2 c2 [(<- & [= <- <-] & _)|[Hne Hj]]%list_lookup_insert_Some; [|apply client_inv_served; [done|by apply Hcl]].
    destruct (Hcl i _ c Hi) as [Hf Ho _]. constructor; [done| |].
    + rewrite replies_snoc, decide_True by done. cbn. by rewrite Ho.
    + exists (S k). rewrite commands_of_snoc, decide_True by done. cbn [command]. rewrite Hcm, Htake. split; [done|]. intros _. split; [done|].
      rewrite Hrec, Hin, fmap_app, concat_app. cbn. by rewrite app_nil_r, <- app_assoc.
  - intros j Hj. rewrite length_insert in Hj. pose proof (lookup_lt_Some _ _ _ Hi). destruct (Hnew j Hj) as (Hr & Hc & Hre).
    rewrite commands_of_snoc, replies_snoc, !decide_False by (cbn; lia). by rewrite Hc, Hre.
  - rewrite fmap_app. apply StronglySorted_app_intro; [done|repeat constructor|]. cbn. intros x y Hx ->%list_elem_of_singleton.
    apply list_elem_of_fmap in Hx as (h & -> & Hh). eapply lookup_lt_Some. exact (proj1 (Forall_forall _ _) Hst h ltac:(by apply list_elem_of_In)).
  - apply Forall_app. split; [by apply steps_snoc|]. repeat constructor. cbn. by apply list_lookup_middle.
Qed.

(** The command at the front can run. *)
Lemma front_can_run s cs i c cmd rest mm :
  puts_fit (s, cs) -> cs !! i = Some (Reading, c) -> inbox c = encode cmd ++ rest -> encodable cmd -> serves s mm -> can_run fuel s mm cmd.
Proof.
  intros Hfit Hi Hin He Hs. destruct cmd as [key value|key|key|]; [|done..].
  destruct (Hfit i c key value rest Hi Hin He) as (m' & Hs' & Hrun). by rewrite (serves_functional s mm m' Hs Hs').
Qed.

(** A goroutine handles what it can read. *)
Lemma request_inv es tr s cs hist i c st' s' c' :
  lin_inv script m es tr (s, cs) hist -> puts_fit (s, cs) -> received i tr `prefix_of` concat (encode <$> script i) ->
  cs !! i = Some (Reading, c) -> finishPass errorText fuel s c = Some (Some (st', s', c')) ->
  exists hist', lin_inv script m (es ++ [Handler i]) tr (s', <[i := (st', c')]> cs) hist'.
Proof.
  intros Hinv Hfit Hpre Hi Hpass. destruct (ci_script _ _ _ _ _ _ _ (li_clients _ _ _ _ _ _ Hinv i _ c Hi)) as (k & Hcm & Hr).
  destruct (Hr ltac:(done)) as [Hop Hrec].
  assert (unread c -> exists hist', lin_inv script m (es ++ [Handler i]) tr (s', <[i := (st', c')]> cs) hist') as Hquiet.
  { intros Hu. destruct (unread_pass s c st' s' c' Hu Hpass) as (-> & Ho & Hw & Hcase). exists hist.
    eapply quiet_inv; [exact Hinv|exact Hi|done..|]. destruct Hcase as [->|(-> & Hin & Hc)]; [by left|by right]. }
  assert (inbox c `prefix_of` concat (encode <$> drop k (script i))) as Hin.
  { rewrite Hrec in Hpre. rewrite <- (take_drop k (script i)) in Hpre at 2. rewrite fmap_app, concat_app in Hpre.
    by apply prefix_app_inv in Hpre. }
  destruct (drop k (script i)) as [|cmd rem] eqn:Hdrop; [apply Hquiet, empty_unread; by apply prefix_nil_inv in Hin|].
  cbn [fmap list_fmap concat] in Hin.
  assert (encodable cmd) as Henc.
  { pose proof (scripts_encodable i) as He. rewrite <- (take_drop k (script i)), Hdrop in He.
    apply Forall_app in He as [_ He]. by inversion He. }
  destruct (decide (encode cmd `prefix_of` inbox c)) as [[rest Hrest]|Hnp].
  - destruct (handle_command errorText fuel Hlog s c (effects (commands hist) m) cmd rest) as (s1 & Hh & Hs1 & _ & Hup1);
      [apply (li_serves _ _ _ _ _ _ Hinv)|by eapply front_can_run; [..|apply (li_serves _ _ _ _ _ _ Hinv)]|done|done|
       apply (ci_faults _ _ _ _ _ _ _ (li_clients _ _ _ _ _ _ Hinv i _ c Hi))|done|].
    unfold finishPass in Hpass. rewrite Hh in Hpass. cbn in Hpass. injection Hpass as <- <- <-. eexists.
    eapply serve_inv; [exact Hinv|exact Hi|exact Hdrop|done..|]. rewrite Hup1. apply (li_up _ _ _ _ _ _ Hinv).
  - apply Hquiet, (partial_unread c cmd Henc); [|intros Heq; apply Hnp; by rewrite Heq].
    destruct (prefix_weak_total (inbox c) (encode cmd) _ Hin ltac:(by apply prefix_app_r)); [done|by destruct Hnp].
Qed.

Lemma reach_inv s es tr w' :
  serves s m -> shutdown s = false -> reach (s, []) es tr w' -> (forall i, received i tr `prefix_of` concat (encode <$> script i)) ->
  exists hist, lin_inv script m es tr w' hist.
Proof.
  intros Hs Hup. induction 1 as [|es tr w e w' _ IH Hst Hfresh Hfit]; intros Hpre.
  { exists []. constructor; cbn; [done|done|by intros|done|constructor|constructor]. }
  destruct IH as [hist Hinv].
  { intros i. etrans; [|apply Hpre]. rewrite received_snoc. by apply prefix_app_r. }
  destruct Hst as [s1 cs c Hl Ho|s1 cs i c Hi|s1 cs i c st' s2 c' Hi Hf|s1 cs i st c more peer Hi Ha]; cbn [fst snd input fresh_conn] in *.
  - rewrite last_snoc in Hfresh |- *. destruct (Hfresh _ _ eq_refl). exists hist. by apply accept_inv.
  - rewrite app_nil_r. exists hist. unfold checkShutdown, SetReadDeadline. rewrite (li_up _ _ _ _ _ _ Hinv : shutdown s1 = false).
    destruct (connOpen c) eqn:Hc; (eapply quiet_inv; [exact Hinv|exact Hi|done..|]); [by right|by left].
  - rewrite app_nil_r in Hpre |- *. by eapply request_inv.
  - rewrite Hi, list_lookup_insert_eq by (by eapply lookup_lt_Some). cbn [inbox]. rewrite drop_app_length.
    exists hist. by apply arrive_inv.
Qed.
End steps.

(** C7: The server is linearizable, for clients whose requests the tree can serve.
    The server starts with a tree that holds a map on one page or more and fits the
    pool; clients send well-formed puts, lookups, removals and pings, whose bytes
    arrive in any pieces, and hang up when they like; at every put that a goroutine
    is about to handle the tree can take the pair (as in [tree_Insert_correct]);
    the log takes every record, no disk error is to come, and writes to clients do
    not fail.  A request is one step of its client's goroutine: two lookups do not
    overlap (see [concurrent_gets_correct] for lookups that do).  Then, in every
    interleaving of the goroutines, the requests that were served form one
    sequence, each at a step of its client's goroutine and in the order of those
    steps, such that every client has been sent exactly the answers of a finite map
    on which the sequence runs, to the first commands of what it asked for, in its
    order; the rest of what it sent is still unread, and the tree holds the map
    after the sequence. *)
Theorem server_linearizable (Hlog : log_reliable W) script s m es tr s' cs' :
  serves s m -> shutdown s = false -> reach (s, []) es tr (s', cs') ->
  (forall i, Forall encodable (script i)) -> (forall i, received i tr `prefix_of` concat (encode <$> script i)) ->
  exists hist, serves s' (effects (commands hist) m) /\
    StronglySorted lt (atStep <$> hist) /\ Forall (fun h => es !! atStep h = Some (Handler (client h))) hist /\
    forall i st c, cs' !! i = Some (st, c) -> outbox c = replies i hist m /\
      exists k, commands_of i hist = take k (script i) /\
        (st <> Finished -> received i tr = concat (encode <$> take k (script i)) ++ inbox c).
Proof.
  intros Hs Hup Hreach Henc Hpre. destruct (reach_inv Hlog script m Henc s es tr _ Hs Hup Hreach Hpre) as [hist [Hs' _ Hcl _ Hsort Hst]].
  exists hist. do 3 (split; [done|]). intros i st c Hi. destruct (Hcl i st c Hi) as [_ Ho (k & Hk & Hr)]. split; [done|].
  exists k. split; [done|]. intros Hn. by destruct (Hr Hn).
Qed.
End linear.
