(* ===== verification/Main.v ===== *)
(** * Starting and stopping the database (src/main.go)

    [main] opens the file, puts a pool of five frames over it, takes the tree's
    root from the metadata and serves until the clients are gone; then it
    flushes the pool and writes the metadata page.  A panic is [None].  The
    order of the iterations over Go maps, opening a file and unlocking memory
    are parameters. *)

From S2P Require Export PoolSession ServerSpec.

(** The metadata that [Close] leaves in the shared record. *)
Definition closed_metadata {B W} `{!BufferPoolManager B} (st : Db B W) : MetaData :=
  let md := bpm_metadata (pool st) in
  mkMetaData (MetaLSN md) (CurrBPlusTreeId md) (<[BPlusTreeId (tree st) := rootNodePageId (tree st)]> (RootPages md))
    (MaxAllocatedPageId md) (DeallocatedPageIdList md)
    (<[BPlusTreeId (tree st) := firstLeafNodePageId (tree st)]> (FirstLeafNodePages md)).

Section main.
Context {W : Type} `{!WAL W} (openFile : option File -> result File) (order : gmap Z Z -> list (Z * Z))
  (munlock : list byte -> result unit).
Implicit Types (st : Db DbPool W) (s : Server DbPool W).

(** The part of [main] before [server.Run]. *)
Definition start (existing : option File) (w : W) : option (Db DbPool W) :=
  r ← NewDirectIODiskManager openFile order existing;
  match r with
  | Error _ => None
  | Ok (d, _) => Some (mkDb (NewSimpleBufferPoolManager 5 NewLRUReplacer d) w (NewBPlusTree 0 (metadata d)))
  end.

(** The part after it: the file that is left. *)
Definition stop (st : Db DbPool W) (pages : list (Z * Z)) (buffers : list Z) : option File :=
  '(r, s) ← PoolClose munlock (pool st) pages buffers;
  match r with
  | Error _ => None
  | Ok _ => Some (file (disk s))
  end.

Lemma Close_run Lf st h m ps :
  tree_db Lf st h m ps ->
  exists st', BPlusTree_Close st = Some (Done (Ok tt), st') /\ tree_db Lf st' h m ps /\ tree st' = tree st /\
    pool st' = set_disk (pool st) (with_metadata (disk (pool st)) (closed_metadata st)).
Proof.
  intros [Hs Ht Hu Hb]. destruct st as [b w t]. cbn [pool tree wal] in *.
  assert (same_alloc (bpm_metadata b) (closed_metadata (mkDb b w t))) as Hsame by done.
  destruct (metadata_law b ∅ _ Hs Hsame) as (Hs' & Hpg & _ & Hm & _). eexists. split; [done|]. split; [|done].
  constructor; cbn [pool tree]; [exact Hs'| | |].
  - eapply tree_at_ext; [|exact Ht]. intros q _. apply Hpg.
  - intros q Hq. by apply (same_alloc_in_use _ _ q Hsame), Hu.
  - intros q bytes Hq Hn. apply Hb; [by rewrite <- Hpg|]. intros Hin. by apply Hn, (same_alloc_in_use _ _ q Hsame).
Qed.

Lemma flush_rangeOrder pages : forall (p : DbPool) r p',
  flush_loop p pages = Some (r, p') -> rangeOrder (disk p') = rangeOrder (disk p).
Proof.
  assert (forall d off bytes r d', DiskManager.write d off bytes = (r, d') -> rangeOrder d' = rangeOrder d) as Hwr.
  { intros d off bytes r d'. unfold DiskManager.write. destruct (WriteAt (file d) bytes off) as [[n|e] f']; [case_match|]; by intros [= <- <-]. }
  induction pages as [|[pid f] pages IH]; intros p r p'; cbn [flush_loop]; [by intros [= <- <-]|].
  destruct (frames p !! f) as [fr|]; cbn [mbind option_bind]; [|done]. destruct (dirty fr); [|apply IH].
  destruct (disk_write _ _ _) as [[[]|e] d'] eqn:Hw; apply Hwr in Hw; [|by intros [= <- <-]]. by intros ->%IH.
Qed.

Lemma release_ok (fs : gmap Z Frame) buffers : (forall bytes, munlock bytes = Ok tt) ->
  foldl (fun acc f => match acc with
                      | Ok _ => match fs !! f with Some fr => munlock (data fr) | None => acc end
                      | Error _ => acc
                      end) (Ok tt) buffers = Ok tt.
Proof. intros Hm. induction buffers as [|x l IH]; [done|]. cbn. destruct (fs !! x); rewrite ?Hm; apply IH. Qed.

(** Closing the pool and opening the file again. *)
Lemma reopen_pool (p : DbPool) pages buffers :
  open_spec openFile -> (forall bytes, munlock bytes = Ok tt) -> order_spec (rangeOrder (disk p)) ->
  pool_session p ∅ -> order_of (pageTable p) pages -> meta_ok (metadata (disk p)) -> meta_size (metadata (disk p)) <= 4096 ->
  exists p1 d, PoolClose munlock p pages buffers = Some (Ok tt, p1) /\
    NewDirectIODiskManager openFile order (Some (file (disk p1))) = Some (Ok (d, false)) /\
    metadata d = metadata (disk p) /\ alloc_ok d /\ no_faults (file d) /\
    forall q, q <> 0 -> file_page (file d) q = pool_page p q.
Proof.
  intros Hopen Hmu Hord Hs Hpages Hok Hsz.
  destruct (flush_session p ∅ pages Hs Hpages) as (d1 & Hfl & Hs1 & _ & (Hal & Hm & Hhe & _) & Hpg). cbn in Hm.
  assert (rangeOrder d1 = rangeOrder (disk p)) as Hro by exact (flush_rangeOrder pages p _ _ Hfl).
  destruct (close_reopen openFile order d1) as (d2 & d3 & Hc & Hn & Hm3 & Hal3 & Hnf3 & Hpg3);
    [done|by rewrite Hro|done|done|by rewrite Hm|by rewrite Hm|].
  exists (set_disk (set_disk p d1) d2), d3. split_and!; [|exact Hn|congruence|done|done|].
  - unfold PoolClose. rewrite Hfl. cbn [mbind option_bind set_disk disk frames]. rewrite release_ok by done.
    change (disk_close d1) with (close d1). rewrite Hc. done.
  - intros q Hq. rewrite Hpg3 by done. rewrite <- Hpg. cbn. by rewrite direct_page_ok by apply Hal.
Qed.

Lemma direct_pages (d : DirectIODiskManager) q :
  alloc_ok d -> pool_page (NewSimpleBufferPoolManager 5 NewLRUReplacer d) q = file_page (file d) q.
Proof.
  intros Hal. rewrite <- direct_page_ok by apply Hal. exact (proj2 (new_pool_ok (R := LRUReplacer) 5 d (alloc_file _ Hal)) q).
Qed.

(** What the database holds survives a restart: when a shutdown is followed
    by the flush and the next start opens the file, the new tree holds the same
    map on the same pages, with its root restored from the metadata page,
    whatever the order in which Go iterates its maps. *)
Theorem restart_keeps_map s h m ps pages buffers w :
  open_spec openFile -> (forall bytes, munlock bytes = Ok tt) -> order_spec (rangeOrder (disk (pool (bPlusTree s)))) ->
  tree_db exact_leaf (bPlusTree s) h m ps -> shutdown s = false -> BPlusTreeId (tree (bPlusTree s)) = 0 ->
  order_of (pageTable (pool (bPlusTree s))) pages ->
  meta_ok (closed_metadata (bPlusTree s)) -> meta_size (closed_metadata (bPlusTree s)) <= 4096 ->
  exists s1 f st2, Shutdown s = Some (Done (Ok tt), s1) /\ stop (bPlusTree s1) pages buffers = Some f /\
    start (Some f) w = Some st2 /\ tree_db exact_leaf st2 h m ps.
Proof.
  intros Hopen Hmu Hord Hdb Hsh Hid Hpages Hok Hsz. destruct s as [st li sh]. cbn [bPlusTree shutdown] in *.
  destruct (Close_run _ _ _ _ _ Hdb) as (st1 & Hc & [Hs1 Ht1 Hu1 Hb1] & Htr & Hp1).
  assert (metadata (disk (pool st1)) = closed_metadata st) as Hm1 by (by rewrite Hp1).
  destruct (reopen_pool (pool st1) pages buffers Hopen Hmu) as (p2 & d & Hcl & Hnew & Hmd & Hal & Hnf & Hpg);
    [by rewrite Hp1|exact Hs1|by rewrite Hp1|by rewrite Hm1|by rewrite Hm1|].
  exists (mkServer st1 false true), (file (disk p2)), (mkDb (NewSimpleBufferPoolManager 5 NewLRUReplacer d) w (NewBPlusTree 0 (metadata d))).
  split; [|split; [|split]].
  - unfold Shutdown. cbn [shutdown bPlusTree]. by rewrite Hsh, Hc.
  - unfold stop. cbn [bPlusTree]. by rewrite Hcl.
  - unfold start. by rewrite Hnew.
  - assert (forall q, q <> 0 -> store_page (NewSimpleBufferPoolManager 5 NewLRUReplacer d) q = store_page (pool st1) q) as Hq.
    { intros q Hq. cbn. by rewrite direct_pages, Hpg by done. }
    constructor; cbn [pool tree].
    + exact (new_pool_session (R := LRUReplacer) 5 d Hal Hnf).
    + unfold NewBPlusTree. cbn [rootNodePageId]. rewrite Hmd, Hm1. unfold closed_metadata. cbn [RootPages]. rewrite <- Hid, lookup_insert_eq.
      cbn [default]. rewrite <- Htr. eapply tree_at_ext; [|exact Ht1]. intros q Hin. apply Hq. intros ->. destruct (Hu1 _ Hin) as [[? _] _]. lia.
    + intros q Hin. apply Hu1 in Hin. cbn in *. by rewrite Hmd.
    + intros q bytes. cbn. rewrite direct_pages by done. intros Hb Hn Hz. rewrite Hpg in Hb by done.
      apply (Hb1 q bytes Hb); [cbn|done]. by rewrite <- Hmd.
Qed.

(** ** A new database *)

Lemma new_disk :
  openFile None = Ok (mkFile [] []) -> order_spec order ->
  exists d, NewDirectIODiskManager openFile order None = Some (Ok (d, true)) /\ metadata d = newMetaData /\
    file_pages (file d) = 1 /\ alloc_ok d /\ no_faults (file d).
Proof.
  intros Hopen Hord. unfold NewDirectIODiskManager. rewrite Hopen. unfold encodeMetadata. cbn [metadata rangeOrder].
  destruct (EncodeMetaDataPage_written newMetaData (order (RootPages newMetaData)) (order (FirstLeafNodePages newMetaData))
    (Hord _) (Hord _)) as (page & -> & Hlen & _); [vm_compute; congruence|]. cbn [mbind option_bind].
  destruct (WriteAt_content (mkFile [] []) page 0) as (r & f' & Heq & _ & Hn & Hnf); [done|].
  destruct (Hnf ltac:(constructor)) as [Hnf' ->]. destruct (Hn _ eq_refl) as [_ Hc].
  unfold DiskManager.write. change (METADATA_PAGE_ID * PAGE_SIZE) with 0. cbn [file]. rewrite Heq, Z.eqb_refl. cbn [negb].
  assert (content f' = page) as Hpage.
  { rewrite Hc. cbn [content]. unfold GoBytes.write. by rewrite take_nil, drop_nil, app_nil_r. }
  assert (file_pages f' = 1) as Hp1 by (unfold file_pages; by rewrite Hpage, Hlen).
  eexists. split; [done|]. split_and!; [done|done| |done]. constructor; cbn; [|by rewrite Hp1|constructor|constructor].
  split; [by rewrite Hp1, Hpage, Hlen|]. rewrite Hp1. lia.
Qed.

Lemma start_new w :
  openFile None = Ok (mkFile [] []) -> order_spec order ->
  exists st, start None w = Some st /\ tree st = mkBPlusTree 0 0 0 /\ wal st = w /\ session (pool st) ∅ /\ tidy (pool st) ∅ /\
    capacity (pool st) = 5%nat /\ forall n, 1 + 16 * Z.of_nat n <= 2 ^ 51 -> room (pool st) n.
Proof.
  intros Hopen Hord. destruct (new_disk Hopen Hord) as (d & Hnew & Hmd & Hp & Hal & Hnf). unfold start. rewrite Hnew. cbn [mbind option_bind].
  rewrite Hmd. eexists. split; [done|]. split; [done|]. split; [done|]. cbn [pool].
  split; [exact (new_pool_session (R := LRUReplacer) 5 d Hal Hnf)|]. split; [|split; [done|]].
  - split; [intros q [x Hx]; by rewrite lookup_empty in Hx|]. cbn. intros q bytes. rewrite direct_pages by done.
    unfold file_page. rewrite Hp. case_decide; [|done]. lia.
  - intros n Hr. cbn. unfold direct_room. rewrite Hp. lia.
Qed.

(** C13: From nothing to a database: started without a file, the program makes
    one, and the first insertion of a pair that fits in a page succeeds and
    leaves a tree that holds exactly that pair. *)
Theorem first_insert_after_start (Hlog : log_reliable W) w fuel key value :
  openFile None = Ok (mkFile [] []) -> order_spec order -> leaf_need key value <= 4064 -> (0 < fuel)%nat ->
  exists st st' rid, start None w = Some st /\ BPlusTree_Insert fuel key value st = Some (Done (Ok tt), st') /\
    tree st' = mkBPlusTree 0 rid rid /\ tree_db exact_leaf st' 0 {[key := value]} {[rid]}.
Proof.
  intros Hopen Hord Hneed Hfuel. destruct (start_new w Hopen Hord) as (st & Hst & Ht & _ & Hs & Htidy & Hcap & Hroom).
  destruct (Insert_first_run Hlog st fuel key value) as (st' & rid & Hr & Htr & Hdb); try done;
    [by rewrite Ht|apply Hroom; lia|rewrite Hcap; lia|].
  exists st, st', rid. split; [done|split; [done|split; [by rewrite Htr, Ht|done]]].
Qed.
End main.
