(* ===== verification/Session.v ===== *)
(** * The program from start to exit (src/main.go)

    [main] starts the database, serves until a shutdown and the end of all
    clients, and stops; a next start finds what the clients left.  This file puts
    the server's runs, the restart and the linearization together. *)

From S2P Require Export Main ServerLinear.

Section session.
Context {W : Type} `{!WAL W} (openFile : option File -> result File) (order : gmap Z Z -> list (Z * Z))
  (munlock : list byte -> result unit) (walClose : W -> result unit) (errorText : error -> list byte) (fuel : nat).
Implicit Types (st : Db DbPool W) (s : Server DbPool W) (cs : list (ClientState * Conn)).
Abbreviation run := (run errorText fuel).
Abbreviation reach := (reach errorText fuel).

(** [net.Listen] gives a listener or an error. *)
Definition NewServer (listen : result unit) st : result (Server DbPool W) :=
  match listen with
  | Error e => Error e
  | Ok _ => Ok (mkServer st true false)
  end.

(** [Run] has returned: the loop that accepts clients ended at the closed
    listener, and the goroutine of every client it let in has ended. *)
Definition Run s (es : list Event) (w : World DbPool W) : Prop :=
  run es (s, []) w /\ listening w.1 = false /\ Forall (fun x => x.1 = Finished) w.2.

(** [main] exits without a panic, leaving the file [f]. *)
Definition main (existing : option File) (w : W) (listen : result unit) (es : list Event) (pages : list (Z * Z)) (buffers : list Z)
    (world : World DbPool W) (f : File) : Prop :=
  exists st s, start openFile order existing w = Some st /\ NewServer listen st = Ok s /\ Run s es world /\
    stop munlock (bPlusTree world.1) pages buffers = Some f /\ walClose (wal (bPlusTree world.1)) = Ok tt.

Lemma reach_run w0 es tr w : reach w0 es tr w -> run es w0 w.
Proof.
  induction 1 as [|es tr w e w' _ IH Hst _ _]; [constructor|]. eapply run_app; [exact IH|]. econstructor; [exact Hst|constructor].
Qed.

Lemma reach_ok w0 es tr w : reach w0 es tr w -> world_ok w0 -> world_ok w.
Proof. intros Hr Hok. induction Hr as [|es tr w e w' _ IH Hst _ _]; [done|]. by eapply server_step_ok. Qed.

(** A client that connects and asks for the shutdown. *)
Definition stop_conn : Conn := mkConn [x53] Silent false [] [] true.
Definition stop_events (n : nat) : list Event := [Accepted; Handler n; Handler n].
Definition with_stopper cs : list (ClientState * Conn) := cs ++ [(AtLoop, set_inbox stop_conn [])].

Lemma shutdown_steps s cs s' :
  listening s = true -> shutdown s = false -> Shutdown s = Some (Done (Ok tt), s') ->
  run (stop_events (length cs)) (s, cs) (s', with_stopper cs).
Proof.
  intros Hl Hsh Hs.
  econstructor; [by apply (step_accept _ _ s cs stop_conn)|].
  econstructor; [apply (step_check _ _ s _ (length cs) stop_conn); by apply list_lookup_middle|].
  unfold checkShutdown. rewrite Hsh. cbn [SetReadDeadline stop_conn connOpen]. rewrite insert_app_r_alt, Nat.sub_diag by lia. cbn [insert list_insert].
  econstructor; [apply (step_request _ _ s _ (length cs) (set_deadline stop_conn true) AtLoop s' (set_inbox stop_conn []))|].
  - by apply list_lookup_middle.
  - unfold finishPass, handleRequest. rewrite (readRequest_bare _ x53 []) by
      (done || exact (bool_decide_eq_true_1 (x53 ∈ noBodyOpCodes) eq_refl)). cbn [opCode]. by rewrite Hs.
  - rewrite insert_app_r_alt, Nat.sub_diag by lia. constructor.
Qed.

Lemma stopper_idle cs : (forall i c, cs !! i = Some (Reading, c) -> idle c) -> forall i c, with_stopper cs !! i = Some (Reading, c) -> idle c.
Proof.
  intros Hidle i c [Hi|[_ Hi]]%lookup_app_Some; [by eapply Hidle|]. by destruct (i - length cs)%nat as [|n].
Qed.

Lemma run_ok es w1 w2 : run es w1 w2 -> world_ok w1 -> world_ok w2.
Proof. induction 1 as [|e es w1 w2 w3 Hst _ IH]; [done|]. intros Hok. by eapply IH, server_step_ok. Qed.

(** After the shutdown, with nothing more from the clients, every run leaves the
    server as it is, has boundedly many steps, and can go on to the end of all
    goroutines. *)
Lemma closing_runs s cs es s' cs' :
  world_ok (s, cs) -> shutdown s = true -> (forall i c, cs !! i = Some (Reading, c) -> idle c) ->
  (forall i, FromClient i ∉ es) -> run es (s, cs) (s', cs') ->
  s' = s /\ (length es <= remaining cs)%nat /\ closing_clients cs cs' /\
  exists es2 cs2, (forall i, FromClient i ∉ es2) /\ run es2 (s, cs') (s, cs2) /\ Forall (fun x => x.1 = Finished) cs2.
Proof.
  intros Hok Hsh Hidle Hno Hrun.
  destruct (closing_quiet errorText fuel es s cs cs s' cs' Hrun Hok Hsh Hno (closing_clients_refl cs Hidle)) as (-> & Hcl & Hh).
  split; [done|]. split; [|split; [done|]].
  - pose proof (closing_run errorText fuel es s cs s cs' Hrun Hok Hsh) as Hle. rewrite handler_steps_all in Hle by done. lia.
  - destruct (drain errorText fuel s cs' Hsh) as (es2 & cs2 & Hr & _ & Hfin & Hh2).
    { intros i c Hi. destruct (Forall2_lookup_r _ _ _ _ _ Hcl Hi) as (x0 & _ & Hx & _). by apply Hx. }
    exists es2, cs2. split; [|split; [done|apply Forall_lookup; intros i [x c] Hi; by eapply Hfin]].
    intros i Hi. rewrite Forall_forall in Hh2. by destruct (Hh2 _ (proj1 (list_elem_of_In _ _) Hi)).
Qed.

Lemma Shutdown_flags s o s' : shutdown s = false -> Shutdown s = Some (o, s') -> listening s' = false /\ shutdown s' = true.
Proof.
  unfold Shutdown. intros ->. destruct (BPlusTree_Close (bPlusTree s)) as [[? db]|]; cbn [mbind option_bind]; [|done]. by intros [= _ <-].
Qed.

(** C8: What clients are told survives the restart.  The program starts with a
    tree that holds [m] on one page or more, and serves any number of clients in
    any interleaving as in [server_linearizable]: well-formed puts, lookups,
    removals and pings, each a single step of its goroutine, every put one that
    the tree can take, a reliable log, no disk error and no failing write to a
    client.  Then, while no client is in the middle of a request, another client
    asks for the shutdown, after which no client sends anything more.  However the
    goroutines go on from there, they make a bounded number of steps, none of
    which touches the tree, send at most the shutdown message, and can go on to the
    end of all goroutines; and whenever all have ended, [main] exits without a
    panic with the same file, in which the next start finds the tree with the map
    after all the requests that were answered, every client having got the answers
    of that map.  (A request that is still under way at the shutdown can be
    answered and lost: see [shutdown_loses_late_insert].) *)
Theorem session_survives_restart (Hlog : log_reliable W) script existing w st m es tr s1 cs1 pages buffers w2 :
  open_spec openFile -> (forall bytes, munlock bytes = Ok tt) -> (forall w, walClose w = Ok tt) ->
  start openFile order existing w = Some st -> serves fuel (mkServer st true false) m ->
  reach (mkServer st true false, []) es tr (s1, cs1) ->
  (forall i, Forall encodable (script i)) -> (forall i, received i tr `prefix_of` concat (encode <$> script i)) ->
  (forall i c, cs1 !! i = Some (Reading, c) -> idle c) ->
  order_spec (rangeOrder (disk (pool (bPlusTree s1)))) -> BPlusTreeId (tree (bPlusTree s1)) = 0 ->
  order_of (pageTable (pool (bPlusTree s1))) pages ->
  meta_ok (closed_metadata (bPlusTree s1)) -> meta_size (closed_metadata (bPlusTree s1)) <= 4096 ->
  exists s2 f st2 hist h ps,
    run (stop_events (length cs1)) (s1, cs1) (s2, with_stopper cs1) /\
    start openFile order (Some f) w2 = Some st2 /\ tree_db exact_leaf st2 h (effects (commands hist) m) ps /\
    (forall i state c, cs1 !! i = Some (state, c) ->
       outbox c = replies errorText i hist m /\ exists k, commands_of i hist = take k (script i)) /\
    forall es3 s3 cs3, (forall i, FromClient i ∉ es3) -> run es3 (s2, with_stopper cs1) (s3, cs3) ->
      (length es3 <= remaining (with_stopper cs1))%nat /\ closing_clients (with_stopper cs1) cs3 /\
      (Forall (fun x => x.1 = Finished) cs3 -> main existing w (Ok tt) (es ++ stop_events (length cs1) ++ es3) pages buffers (s3, cs3) f) /\
      exists es4 s4 cs4, (forall i, FromClient i ∉ es4) /\ run es4 (s3, cs3) (s4, cs4) /\ Forall (fun x => x.1 = Finished) cs4.
Proof.
  intros Hopen Hmu Hwc Hst Hserves Hreach Henc Hpre Hidle Hord Hid Hpages Hok Hsz.
  destruct (reach_inv errorText fuel Hlog script m Henc _ es tr _ Hserves eq_refl Hreach Hpre) as [hist [Hs1 Hup Hcl _ _ _]]. cbn [fst snd] in *.
  destruct Hs1 as (h & ps & Hdb & _).
  destruct (restart_keeps_map openFile order munlock s1 h _ ps pages buffers w2 Hopen Hmu Hord Hdb Hup Hid Hpages Hok Hsz)
    as (s2 & f & st2 & Hsh & Hstop & Hstart & Hdb2).
  destruct (Shutdown_flags _ _ _ Hup Hsh) as [Hl2 Hsh2].
  assert (world_ok (s1, cs1)) as Hwok.
  { eapply reach_ok; [exact Hreach|]. split; [done|]. intros i x c Hi. by rewrite lookup_nil in Hi. }
  pose proof Hwok as [Hl _]. rewrite Hup in Hl. pose proof (shutdown_steps s1 cs1 s2 Hl Hup Hsh) as Hsteps.
  exists s2, f, st2, hist, h, ps. do 3 (split; [done|]). split.
  { intros i x c Hi. destruct (Hcl i x c Hi) as [_ Ho (k & Hk & _)]. split; [done|by exists k]. }
  intros es3 s3 cs3 Hno Hr3.
  destruct (closing_runs s2 (with_stopper cs1) es3 s3 cs3 (run_ok _ _ _ Hsteps Hwok) Hsh2 (stopper_idle _ Hidle) Hno Hr3)
    as (-> & Hlen & Hclosing & es4 & cs4 & Hno4 & Hr4 & Hfin). do 2 (split; [done|]). split; [|by exists es4, s2, cs4].
  intros Hfin3. exists st, (mkServer st true false). do 2 (split; [done|]). split; [|by split]. split; [|by split].
  eapply run_app; [by eapply reach_run|]. by eapply run_app.
Qed.
End session.
