(* ===== verification/Engine.v ===== *)
(** * The storage engine (src/storageengine/storage_engine.go)

    The engine hands out tree ids and keeps the open trees in a map behind a
    mutex, which in Go is not reentrant: locking it twice waits for ever.  All
    trees share the pool, its metadata and the log. *)

From S2P Require Export Iterator Recovery RecoverySpec Main.

Section engine.
Context {B W : Type} `{!BufferPoolManager B} `{!WAL W}.

Record Engine := mkEngine {
  currBPlusTreeId : Z;
  mutexLocked : bool;                 (* openBPlusTreesMutex *)
  openBPlusTrees : gmap Z BPlusTree;
  enginePool : B;
  engineWal : W
}.
Implicit Types e : Engine.

Definition set_trees e (ts : gmap Z BPlusTree) : Engine :=
  mkEngine (currBPlusTreeId e) (mutexLocked e) ts (enginePool e) (engineWal e).
Definition set_locked e (l : bool) : Engine :=
  mkEngine (currBPlusTreeId e) l (openBPlusTrees e) (enginePool e) (engineWal e).

(** Running code on the tree [t]. *)
Definition runOn {A} e (t : BPlusTree) (m : M B W A) : option (outcome A * BPlusTree * Engine) :=
  '(o, st) ← m (mkDb (enginePool e) (engineWal e) t);
  Some (o, tree st, mkEngine (currBPlusTreeId e) (mutexLocked e) (openBPlusTrees e) (pool st) (wal st)).

(** Code on an open tree, through the pointer that [OpenBPlusTree] returned. *)
Definition onTree {A} e (id : Z) (m : M B W A) : option (outcome A * Engine) :=
  t ← openBPlusTrees e !! id;
  '(o, t, e) ← runOn e t m;
  Some (o, set_trees e (<[id := t]> (openBPlusTrees e))).

(** [atomic.AddUint64] *)
Definition Engine_NewBPlusTree e : Z * Engine :=
  let id := u64 (currBPlusTreeId e + 1) in
  (id, mkEngine id (mutexLocked e) (openBPlusTrees e) (enginePool e) (engineWal e)).

(** The body of [OpenBPlusTree], under the mutex. *)
Definition openLocked e (id : Z) : BPlusTree * Engine :=
  match openBPlusTrees e !! id with
  | Some t => (t, e)
  | None =>
      let t := NewBPlusTree id (bpm_metadata (enginePool e)) in
      (t, set_trees e (<[id := t]> (openBPlusTrees e)))
  end.

Definition OpenBPlusTree e (id : Z) : outcome BPlusTree * Engine :=
  if mutexLocked e then (Blocked, e)
  else let '(t, e) := openLocked e id in (Done (Ok t), e).

Definition CloseBPlusTree e (id : Z) : option (outcome unit * Engine) :=
  if mutexLocked e then Some (Blocked, e)
  else match openBPlusTrees e !! id with
       | None => Some (Done (Error ErrNotOpen), e)
       | Some t => '(o, _, e) ← runOn e t BPlusTree_Close; Some (o, set_trees e (delete id (openBPlusTrees e)))
       end.

(** The [range] over the open trees, in some order. *)
Fixpoint closeTrees e (order : list (Z * BPlusTree)) : option (outcome unit * Engine) :=
  match order with
  | [] => Some (Done (Ok tt), e)
  | (_, t) :: order =>
      '(o, _, e) ← runOn e t BPlusTree_Close;
      match o with
      | Done _ => closeTrees e order
      | Blocked => Some (Blocked, e)
      end
  end.

(** [engine.metadata.CurrBPlusTreeId = engine.currBPlusTreeId], then the trees;
    the pool is closed by [closePool]. *)
Definition Engine_Close (closePool : B -> option (result unit * B)) e (order : list (Z * BPlusTree)) : option (outcome unit * Engine) :=
  let md := bpm_metadata (enginePool e) in
  let e := mkEngine (currBPlusTreeId e) (mutexLocked e) (openBPlusTrees e)
             (bpm_setMetadata (enginePool e) (mkMetaData (MetaLSN md) (currBPlusTreeId e) (RootPages md) (MaxAllocatedPageId md)
                (DeallocatedPageIdList md) (FirstLeafNodePages md))) (engineWal e) in
  '(o, e) ← closeTrees e order;
  match o with
  | Blocked => Some (Blocked, e)
  | Done _ =>
      '(r, b) ← closePool (enginePool e);
      Some (Done r, mkEngine (currBPlusTreeId e) (mutexLocked e) (openBPlusTrees e) b (engineWal e))
  end.

(** The mutex is locked for the whole call, also while [OpenBPlusTree] is called
    on a tree that is not open. *)
Definition NewBPlusTreeIterator e (id : Z) : option (outcome IterativeCursor * Engine) :=
  if mutexLocked e then Some (Blocked, e)
  else
    let e := set_locked e true in
    match openBPlusTrees e !! id with
    | Some t => '(o, _, e) ← runOn e t NewBPlusIterator; Some (o, set_locked e false)
    | None =>
        match OpenBPlusTree e id with
        | (Blocked, e) => Some (Blocked, e)
        | (Done _, e) => None     (* the outer variable is still nil *)
        end
    end.

(** [Recover] looks at no tree. *)
Definition Engine_Recover e (order : B -> list (Z * Z)) (iterator : result (list (result WALRecord))) : option (outcome unit * Engine) :=
  '(o, _, e) ← runOn e (mkBPlusTree 0 0 0) (Recover order iterator); Some (o, e).
End engine.

#[global] Arguments Engine B W : clear implicits.

(** The engine over the pool of this repository; the result says whether the
    database is new. *)
Definition NewStorageEngine {W : Type} (openFile : option File -> result File) (order : gmap Z Z -> list (Z * Z))
    (existing : option File) (openWal : result W) : option (result (Engine DbPool W * bool)) :=
  r ← NewDirectIODiskManager openFile order existing;
  match r with
  | Error er => Some (Error er)
  | Ok (d, isNew) =>
      match openWal with
      | Error er => Some (Error er)
      | Ok w => Some (Ok (mkEngine (CurrBPlusTreeId (metadata d)) false ∅ (NewSimpleBufferPoolManager 5 NewLRUReplacer d) w, isNew))
      end
  end.

(** ** What the engine promises *)

Section spec.
Context {B W : Type} `{!BufferPoolManager B} `{!WAL W}.
Implicit Types e : Engine B W.

(** [NewBPlusTreeIterator] on a tree that is not open never returns: it calls
    [OpenBPlusTree] while it holds the mutex, and from then on every call that
    needs the mutex waits too. *)
Theorem iterator_on_closed_tree_deadlocks e id :
  mutexLocked e = false -> openBPlusTrees e !! id = None ->
  exists e', NewBPlusTreeIterator e id = Some (Blocked, e') /\
    forall id', OpenBPlusTree e' id' = (Blocked, e') /\ CloseBPlusTree e' id' = Some (Blocked, e') /\
      NewBPlusTreeIterator e' id' = Some (Blocked, e').
Proof.
  intros Hl Hid. exists (set_locked e true). unfold NewBPlusTreeIterator. rewrite Hl. cbn. rewrite Hid. done.
Qed.
End spec.

Section sessions.
Context {B W : Type} `{PL : PageStoreLaws B} `{!WAL W}.
Implicit Types (e : Engine B W) (t : BPlusTree).

Lemma runOn_Close e t H :
  session (enginePool e) H ->
  exists e', runOn e t BPlusTree_Close = Some (Done (Ok tt), t, e') /\ session (enginePool e') H /\
    (forall q, store_page (enginePool e') q = store_page (enginePool e) q) /\
    openBPlusTrees e' = openBPlusTrees e /\ mutexLocked e' = mutexLocked e /\ currBPlusTreeId e' = currBPlusTreeId e /\
    bpm_metadata (enginePool e') = closed_metadata (mkDb (enginePool e) (engineWal e) t).
Proof.
  intros Hs. destruct (metadata_law (enginePool e) H (closed_metadata (mkDb (enginePool e) (engineWal e) t)) Hs) as (Hs' & Hpg & _ & Hm & _); [done|].
  eexists. split; [done|]. done.
Qed.

(** A tree that is closed and opened again has its root back, with the pages
    as they were, but not its first leaf: the reopened tree has 0 there, and
    closing it once more writes that 0 over the id in the metadata. *)
Theorem reopen_loses_first_leaf e id t :
  session (enginePool e) ∅ -> mutexLocked e = false -> openBPlusTrees e !! id = Some t -> BPlusTreeId t = id ->
  exists e1 e2 e3, CloseBPlusTree e id = Some (Done (Ok tt), e1) /\
    OpenBPlusTree e1 id = (Done (Ok (mkBPlusTree id (rootNodePageId t) 0)), e2) /\
    (forall q, store_page (enginePool e2) q = store_page (enginePool e) q) /\
    FirstLeafNodePages (bpm_metadata (enginePool e2)) !! id = Some (firstLeafNodePageId t) /\
    CloseBPlusTree e2 id = Some (Done (Ok tt), e3) /\ FirstLeafNodePages (bpm_metadata (enginePool e3)) !! id = Some 0.
Proof.
  intros Hs Hl Ho Hid. destruct (runOn_Close e t ∅ Hs) as (e1 & Hc & Hs1 & Hpg1 & Ht1 & Hl1 & _ & Hm1).
  set (e1' := set_trees e1 (delete id (openBPlusTrees e1))).
  set (t2 := mkBPlusTree id (rootNodePageId t) 0). set (e2 := set_trees e1' (<[id := t2]> (openBPlusTrees e1'))).
  destruct (runOn_Close e2 t2 ∅) as (e3 & Hc3 & _ & _ & _ & _ & _ & Hm3); [exact Hs1|].
  exists e1', e2, (set_trees e3 (delete id (openBPlusTrees e3))).
  assert (forall e0 t0, mutexLocked e0 = false -> openBPlusTrees e0 !! id = Some t0 -> CloseBPlusTree e0 id =
    ('(o, _, e) ← runOn e0 t0 BPlusTree_Close; Some (o, set_trees e (delete id (openBPlusTrees e))))) as Hclose.
  { intros e0 t0 H0 H1. unfold CloseBPlusTree. by rewrite H0, H1. }
  split_and!.
  - rewrite (Hclose e t) by done. by rewrite Hc.
  - unfold OpenBPlusTree, openLocked. cbn [mutexLocked set_trees openBPlusTrees e1']. rewrite Hl1, Hl, lookup_delete_eq.
    unfold NewBPlusTree. change (enginePool e1') with (enginePool e1). rewrite Hm1. cbn [closed_metadata RootPages tree]. by rewrite Hid, lookup_insert_eq.
  - exact Hpg1.
  - cbn [e2 e1' enginePool set_trees]. rewrite Hm1. cbn [closed_metadata FirstLeafNodePages tree]. by rewrite Hid, lookup_insert_eq.
  - rewrite (Hclose e2 t2); [by rewrite Hc3| |]; cbn; [by rewrite Hl1|by rewrite lookup_insert_eq].
  - cbn [enginePool set_trees]. rewrite Hm3. cbn [closed_metadata FirstLeafNodePages tree BPlusTreeId firstLeafNodePageId t2]. by rewrite lookup_insert_eq.
Qed.
End sessions.

(** ** Closing the engine and starting again *)

Section restart.
Context {W : Type} `{!WAL W} (openFile : option File -> result File) (order : gmap Z Z -> list (Z * Z))
  (munlock : list byte -> result unit).
Implicit Types (e : Engine DbPool W) (trees : list (Z * BPlusTree)).

(** The metadata after closing the trees, and after [Close]. *)
Definition close_metadata (md : MetaData) trees : MetaData :=
  mkMetaData (MetaLSN md) (CurrBPlusTreeId md)
    (foldl (fun m x => <[BPlusTreeId x.2 := rootNodePageId x.2]> m) (RootPages md) trees)
    (MaxAllocatedPageId md) (DeallocatedPageIdList md)
    (foldl (fun m x => <[BPlusTreeId x.2 := firstLeafNodePageId x.2]> m) (FirstLeafNodePages md) trees).

Definition engine_metadata e trees : MetaData :=
  let md := bpm_metadata (enginePool e) in
  close_metadata (mkMetaData (MetaLSN md) (currBPlusTreeId e) (RootPages md) (MaxAllocatedPageId md) (DeallocatedPageIdList md)
    (FirstLeafNodePages md)) trees.

Definition with_engine_metadata e (md : MetaData) : Engine DbPool W :=
  mkEngine (currBPlusTreeId e) (mutexLocked e) (openBPlusTrees e)
    (set_disk (enginePool e) (with_metadata (disk (enginePool e)) md)) (engineWal e).

Lemma closeTrees_run trees : forall e,
  closeTrees e trees = Some (Done (Ok tt), with_engine_metadata e (close_metadata (bpm_metadata (enginePool e)) trees)).
Proof.
  induction trees as [|[id t] trees IH]; intros e.
  - cbn [closeTrees]. do 2 f_equal. destruct e as [c l o [r [f md ro] pt fs ff al] w], md. done.
  - cbn [closeTrees]. exact (IH (with_engine_metadata e (closed_metadata (mkDb (enginePool e) (engineWal e) t)))).
Qed.

Lemma lookup_closed (f : BPlusTree -> Z) trees : forall (m : gmap Z Z) id t,
  NoDup trees.*1 -> (forall x, x ∈ trees -> BPlusTreeId x.2 = x.1) -> (id, t) ∈ trees ->
  foldl (fun m x => <[BPlusTreeId x.2 := f x.2]> m) m trees !! id = Some (f t).
Proof.
  induction trees as [|[id0 t0] trees IH]; intros m id t Hnd Hid Hin; [by apply elem_of_nil in Hin|].
  apply list.NoDup_cons in Hnd as [Hni Hnd]. cbn [foldl snd]. apply elem_of_cons in Hin as [[= -> ->]|Hin].
  - assert (BPlusTreeId t0 = id0) as -> by (apply (Hid (id0, t0)); by left).
    assert (forall (ts : list (Z * BPlusTree)) (m : gmap Z Z), id0 ∉ ts.*1 -> (forall x, x ∈ ts -> BPlusTreeId x.2 = x.1) ->
      foldl (fun m x => <[BPlusTreeId x.2 := f x.2]> m) m ts !! id0 = m !! id0) as Hother.
    { clear. induction ts as [|[i u] ts IH]; intros m Hn Hid; [done|]. cbn [foldl snd]. apply not_elem_of_cons in Hn as [Hne Hn].
      rewrite IH by (done || intros x Hx; apply Hid; by right).
      assert (BPlusTreeId u = i) as -> by (apply (Hid (i, u)); by left). by rewrite lookup_insert_ne. }
    rewrite Hother; [by rewrite lookup_insert_eq|done|]. intros x Hx. apply Hid. by right.
  - apply IH; [done|intros x Hx; apply Hid; by right|done].
Qed.

(** C9: An engine that is closed and started again has every tree that was open:
    ids go on from where they were, opening a tree finds its root, and all its
    pages are as they were, so that it holds the same map, in whatever order
    the maps of the engine, the metadata and the pool are iterated. *)
Theorem engine_restart_keeps_trees e trees pages buffers w :
  open_spec openFile -> (forall bytes, munlock bytes = Ok tt) -> order_spec (rangeOrder (disk (enginePool e))) ->
  session (enginePool e) ∅ -> trees ≡ₚ map_to_list (openBPlusTrees e) ->
  (forall id t, openBPlusTrees e !! id = Some t -> BPlusTreeId t = id) -> order_of (pageTable (enginePool e)) pages ->
  meta_ok (engine_metadata e trees) -> meta_size (engine_metadata e trees) <= 4096 ->
  exists e1 e2, Engine_Close (fun p => PoolClose munlock p pages buffers) e trees = Some (Done (Ok tt), e1) /\
    NewStorageEngine openFile order (Some (file (disk (enginePool e1)))) (Ok w) = Some (Ok (e2, false)) /\
    currBPlusTreeId e2 = currBPlusTreeId e /\ session (enginePool e2) ∅ /\
    forall id t, openBPlusTrees e !! id = Some t ->
      fst (OpenBPlusTree e2 id) = Done (Ok (mkBPlusTree id (rootNodePageId t) 0)) /\
      forall Lf h m ps, 0 ∉ ps -> tree_at Lf (store_page (enginePool e)) h (rootNodePageId t) m ps ->
        tree_at Lf (store_page (enginePool e2)) h (rootNodePageId t) m ps.
Proof.
  intros Hopen Hmu Hord Hs Htrees Hids Hpages Hok Hsz. set (md := engine_metadata e trees) in *.
  set (p1 := set_disk (enginePool e) (with_metadata (disk (enginePool e)) md)).
  destruct (metadata_law (enginePool e) ∅ md Hs) as (Hs1 & Hpg1 & _); [done|].
  destruct (reopen_pool openFile order munlock p1 pages buffers Hopen Hmu) as (p2 & d & Hcl & Hnew & Hmd & Hal & Hnf & Hpg);
    [exact Hord|exact Hs1|exact Hpages|exact Hok|exact Hsz|].
  exists (mkEngine (currBPlusTreeId e) (mutexLocked e) (openBPlusTrees e) p2 (engineWal e)),
    (mkEngine (CurrBPlusTreeId (metadata d)) false ∅ (NewSimpleBufferPoolManager 5 NewLRUReplacer d) w).
  split; [|split; [|split; [|split]]].
  - unfold Engine_Close. rewrite closeTrees_run. cbn [mbind option_bind]. 
    change (enginePool (with_engine_metadata _ _)) with p1. by rewrite Hcl.
  - unfold NewStorageEngine. cbn [enginePool]. by rewrite Hnew.
  - cbn. by rewrite Hmd.
  - exact (new_pool_session (R := LRUReplacer) 5 d Hal Hnf).
  - intros id t Hid. split.
    + unfold OpenBPlusTree, openLocked. cbn [mutexLocked openBPlusTrees]. rewrite lookup_empty. cbn [fst]. unfold NewBPlusTree.
      change (bpm_metadata (enginePool _)) with (metadata d). rewrite Hmd. change (metadata (disk p1)) with md.
      unfold md, engine_metadata, close_metadata. cbn [RootPages].
      rewrite (lookup_closed rootNodePageId trees _ id t); [done| | |].
      * rewrite Htrees. apply NoDup_fst_map_to_list.
      * intros [i u] Hx. rewrite Htrees in Hx. apply elem_of_map_to_list in Hx. by apply Hids.
      * rewrite Htrees. by apply elem_of_map_to_list.
    + intros Lf h m ps H0 Ht. eapply tree_at_ext; [|exact Ht]. intros q Hq. cbn [enginePool].
      change (store_page _ q) with (pool_page (NewSimpleBufferPoolManager 5 NewLRUReplacer d) q) at 1.
      rewrite direct_pages by done. rewrite Hpg by (by intros ->). apply Hpg1.
Qed.
End restart.
