(* ===== verification/PoolRuns.v ===== *)
(** * Guards of many goroutines (src/bufferpoolmanager)

    Goroutines open and close guards on one pool.  A guard's life has five
    critical sections: the lookup under the shared lock, on a miss the load under
    the exclusive lock, which looks again; the page's latch; and for [Done] the
    unpin and then the release of the latch.  Between any two of them other
    goroutines run: this file follows every interleaving.  A step is the model's
    own code for that section; a panic is no step.  Page ids are those of files
    that can exist, below 2^51. *)

From S2P Require Export PoolSession.

(** Where a goroutine is: outside, after a lookup that missed, with the page
    pinned, with the latch too, or with the latch but no pin. *)
Inductive Phase :=
  | Idle
  | Missed (pid : Z) (excl : bool)
  | Pinned (pid f : Z) (excl : bool)
  | Holding (pid f : Z) (excl : bool)
  | Unpinned (f : Z) (excl : bool).

#[export] Instance Phase_eq_decision : EqDecision Phase.
Proof. solve_decision. Defined.

(** The guard that a goroutine with frame [f] has. *)
Abbreviation guardOn f := (mkGuard true (Some f) true).

Section steps.
Context {R D : Type} `{!Replacer R} `{!DiskManager D}.
Implicit Types (s : Pool R D) (ts : list Phase) (i : nat).

(** [Lock] and [RLock] when they do not wait. *)
Definition takeLatch s (f : Z) (excl : bool) : option (Pool R D) :=
  frame ← frames s !! f;
  if excl
  then if latch frame =? 0 then Some (set_frame s f (with_latch frame (-1))) else None
  else if 0 <=? latch frame then Some (set_frame s f (with_latch frame (latch frame + 1))) else None.

Definition dropLatch s (f : Z) (excl : bool) : option (Pool R D) := if excl then unlock s f else runlock s f.

(** [SetDirtyFlag], then writes into the slice that [GetPageData] gave out. *)
Definition writeThrough s (f : Z) (bytes : list byte) : option (Pool R D) :=
  '(_, s) ← SetDirtyFlag s (guardOn f);
  writePageData s (guardOn f) bytes.

Inductive pool_step : nat -> Pool R D * list Phase -> Pool R D * list Phase -> Prop :=
  | step_hit i s ts pid f excl s' :
      ts !! i = Some Idle -> pageTable s !! pid = Some f -> pinFrame s f = Some (Done (Ok f), s') ->
      pool_step i (s, ts) (s', <[i := Pinned pid f excl]> ts)
  | step_miss i s ts pid excl :
      ts !! i = Some Idle -> pageTable s !! pid = None -> 0 <= pid < 2 ^ 51 ->
      pool_step i (s, ts) (s, <[i := Missed pid excl]> ts)
  | step_load i s ts pid excl r s' :
      ts !! i = Some (Missed pid excl) -> fetchPageLocked s pid = Some (Done r, s') ->
      pool_step i (s, ts) (s', <[i := match r with Ok f => Pinned pid f excl | Error _ => Idle end]> ts)
  | step_latch i s ts pid f excl s' :
      ts !! i = Some (Pinned pid f excl) -> takeLatch s f excl = Some s' ->
      pool_step i (s, ts) (s', <[i := Holding pid f excl]> ts)
  | step_write i s ts pid f bytes s' :
      ts !! i = Some (Holding pid f true) -> len bytes = 4096 -> writeThrough s f bytes = Some s' ->
      pool_step i (s, ts) (s', ts)
  | step_unpin i s ts pid f excl fr b s' :
      ts !! i = Some (Holding pid f excl) -> frames s !! f = Some fr -> unpinPage s (pageId fr) = Some (b, s') ->
      pool_step i (s, ts) (s', <[i := Unpinned f excl]> ts)
  | step_delete i s ts pid f fr (ok : bool) s' :
      ts !! i = Some (Holding pid f true) -> frames s !! f = Some fr ->
      deletePage s (pageId fr) = Some (Done (Ok ok), s') ->
      pool_step i (s, ts) (s', <[i := if ok then Unpinned f true else Holding pid f true]> ts)
  | step_release i s ts f excl s' :
      ts !! i = Some (Unpinned f excl) -> dropLatch s f excl = Some s' ->
      pool_step i (s, ts) (s', <[i := Idle]> ts).

(** A run, with the goroutine of each step. *)
Inductive pool_run : list nat -> Pool R D * list Phase -> Pool R D * list Phase -> Prop :=
  | pool_run_nil w : pool_run [] w w
  | pool_run_cons i js w1 w2 w3 : pool_step i w1 w2 -> pool_run js w2 w3 -> pool_run (i :: js) w1 w3.
End steps.

(** ** Counting goroutines *)

Definition count (P : Phase -> bool) (ts : list Phase) : Z := Z.of_nat (length (filter P ts)).

Lemma count_nonneg P ts : 0 <= count P ts.
Proof. unfold count. lia. Qed.

Lemma count_cons P t ts : count P (t :: ts) = Z.b2z (P t) + count P ts.
Proof.
  unfold count. rewrite list.filter_cons. destruct (P t); cbn [Z.b2z].
  - rewrite decide_True by done. cbn [length]. lia.
  - rewrite decide_False by (by intros []). lia.
Qed.

Lemma count_insert P ts i t t' : ts !! i = Some t ->
  count P (<[i := t']> ts) = count P ts - Z.b2z (P t) + Z.b2z (P t').
Proof.
  revert i. induction ts as [|u ts IH]; intros [|i] Hi; [done|done| |].
  - injection Hi as ->. change (<[0%nat := t']> (t :: ts)) with (t' :: ts). rewrite !count_cons. lia.
  - change (<[S i := t']> (u :: ts)) with (u :: <[i := t']> ts). rewrite !count_cons. rewrite (IH i) by done. lia.
Qed.

Lemma count_pos P ts i t : ts !! i = Some t -> P t = true -> 0 < count P ts.
Proof.
  revert i. induction ts as [|u ts IH]; intros [|i] Hi HP; [done|done| |]; rewrite count_cons.
  - injection Hi as ->. rewrite HP. pose proof (count_nonneg P ts). cbn. lia.
  - specialize (IH i Hi HP). destruct (P u); cbn; lia.
Qed.

Lemma count_two P ts i j t u : i <> j -> ts !! i = Some t -> ts !! j = Some u -> P t = true -> P u = true -> 2 <= count P ts.
Proof.
  revert i j. induction ts as [|v ts IH]; intros [|i] [|j] Hne Hi Hj HP HQ; try done; rewrite count_cons.
  - injection Hi as ->. rewrite HP. pose proof (count_pos P ts j u Hj HQ). cbn. lia.
  - injection Hj as ->. rewrite HQ. pose proof (count_pos P ts i t Hi HP). cbn. lia.
  - assert (2 <= count P ts) by (eapply (IH i j); [congruence|done..]). destruct (P v); cbn; lia.
Qed.

Lemma count_zero P ts : (forall i t, ts !! i = Some t -> P t = false) -> count P ts = 0.
Proof.
  induction ts as [|t ts IH]; intros Hall; [done|]. rewrite count_cons, (Hall 0%nat t eq_refl).
  rewrite IH; [done|]. intros i u Hi. by apply (Hall (S i)).
Qed.

(** Which goroutines have a pin on frame [f], and which its latch. *)
Definition pins_on (f : Z) (t : Phase) : bool :=
  match t with Pinned _ g _ | Holding _ g _ => g =? f | _ => false end.
Definition latches_on (f : Z) (e : bool) (t : Phase) : bool :=
  match t with Holding _ g e' | Unpinned g e' => (g =? f) && eqb e e' | _ => false end.

(** The page and the frame of a goroutine that has a pin. *)
Definition at_page (t : Phase) (pid f : Z) : Prop := exists excl, t = Pinned pid f excl \/ t = Holding pid f excl.

Lemma at_page_pins t pid f : at_page t pid f -> pins_on f t = true.
Proof. intros [excl [-> | ->]]; apply Z.eqb_refl. Qed.

Lemma pins_at_page f t : pins_on f t = true -> exists pid, at_page t pid f.
Proof. destruct t; cbn; try done; intros ->%Z.eqb_eq; eexists; eexists; eauto. Qed.

Section invariant.
Context {R D : Type} `{RL : ReplacerLaws R} `{AL : AllocLaws D}.
Implicit Types (s : Pool R D) (ts : list Phase) (t : Phase) (f : Z).

(** A latch with [n] readers and [w] writers. *)
Definition latch_counts (l n w : Z) : Prop := (l = n /\ w = 0) \/ (l = -1 /\ n = 0 /\ w = 1).

Record runs_ok s ts : Prop := {
  ro_pool : pool_ok s;
  ro_healthy : healthy (disk s);
  ro_at i t pid f : ts !! i = Some t -> at_page t pid f -> pageTable s !! pid = Some f;
  ro_pins pid f fr : pageTable s !! pid = Some f -> frames s !! f = Some fr -> pinCount fr = count (pins_on f) ts;
  ro_latch f fr : frames s !! f = Some fr ->
    latch_counts (latch fr) (count (latches_on f false) ts) (count (latches_on f true) ts);
  ro_missed i pid excl : ts !! i = Some (Missed pid excl) -> 0 <= pid < 2 ^ 51;
  ro_frame i f excl : ts !! i = Some (Unpinned f excl) -> is_Some (frames s !! f)
}.

(** A phase that concerns no frame but [f]. *)
Definition about f t : Prop :=
  match t with Idle | Missed _ _ => True | Pinned _ g _ | Holding _ g _ | Unpinned g _ => g = f end.

Lemma about_other f g t : about f t -> g <> f -> pins_on g t = false /\ forall e, latches_on g e t = false.
Proof. destruct t; cbn; try done; intros -> Hne; rewrite (proj2 (Z.eqb_neq f g)) by done; done. Qed.

(** One goroutine moves, and the pool changes at its frame only. *)
Lemma runs_update s ts s' i t t' f :
  runs_ok s ts -> ts !! i = Some t -> about f t -> about f t' -> pool_ok s' -> healthy (disk s') ->
  (forall g, g <> f -> frames s' !! g = frames s !! g) -> (is_Some (frames s !! f) -> is_Some (frames s' !! f)) ->
  (forall q g, g <> f -> pageTable s' !! q = Some g <-> pageTable s !! q = Some g) ->
  (forall q fr, pageTable s' !! q = Some f -> frames s' !! f = Some fr -> pinCount fr = count (pins_on f) (<[i := t']> ts)) ->
  (forall fr, frames s' !! f = Some fr ->
     latch_counts (latch fr) (count (latches_on f false) (<[i := t']> ts)) (count (latches_on f true) (<[i := t']> ts))) ->
  (forall j u pid, <[i := t']> ts !! j = Some u -> at_page u pid f -> pageTable s' !! pid = Some f) ->
  (forall pid excl, t' = Missed pid excl -> 0 <= pid < 2 ^ 51) -> (forall excl, t' = Unpinned f excl -> is_Some (frames s !! f)) ->
  runs_ok s' (<[i := t']> ts).
Proof.
  intros [Hok Hhe Hat Hpins Hla Hmi Hfr] Hi Hab Hab' Hok' Hhe' Hother Hdom Htab Hp Hl Hat' Hm' Hf'.
  assert (forall P, P t = false -> P t' = false -> count P (<[i := t']> ts) = count P ts) as Hsame.
  { intros P H1 H2. rewrite (count_insert P ts i t t' Hi), H1, H2. cbn. lia. }
  assert (forall j u, <[i := t']> ts !! j = Some u -> (j = i /\ u = t') \/ ts !! j = Some u) as Hins.
  { intros j u. destruct (decide (j = i)) as [->|Hne]; [|rewrite list_lookup_insert_ne by done; by right].
    rewrite list_lookup_insert_eq by (by eapply lookup_lt_Some). intros [= <-]. by left. }
  constructor; [done|done|..].
  - intros j u pid g Hj Hu. destruct (decide (g = f)) as [->|Hne]; [by eapply Hat'|]. apply Htab; [done|].
    destruct (Hins j u Hj) as [[-> ->]|Hj']; [|by eapply Hat]. apply at_page_pins in Hu.
    by rewrite (proj1 (about_other f g t' Hab' Hne)) in Hu.
  - intros pid g fr Ht Hg. destruct (decide (g = f)) as [->|Hne]; [by eapply Hp|].
    rewrite Hother in Hg by done. rewrite Htab in Ht by done. rewrite (Hpins _ _ _ Ht Hg). symmetry.
    apply Hsame; by eapply about_other.
  - intros g fr Hg. destruct (decide (g = f)) as [->|Hne]; [by apply Hl|]. rewrite Hother in Hg by done.
    rewrite !Hsame by (by eapply about_other). by apply Hla.
  - intros j pid excl Hj. destruct (Hins _ _ Hj) as [[_ Heq]|Hj']; [by eapply Hm'|by eapply Hmi].
  - intros j g excl Hj. assert (is_Some (frames s !! g)) as Hs.
    { destruct (Hins _ _ Hj) as [[_ Heq]|Hj']; [|by eapply Hfr]. subst t'. cbn in Hab'. subst g. by eapply Hf'. }
    destruct (decide (g = f)) as [->|Hne]; [by apply Hdom|by rewrite Hother].
Qed.

(** ** The steps keep it *)

(** Latches do not matter to the pool, whoever owns the frame. *)
Lemma pool_ok_any_latch s f fr n :
  pool_ok s -> frames s !! f = Some fr ->
  pool_ok (set_frame s f (with_latch fr n)) /\ forall q, pool_page (set_frame s f (with_latch fr n)) q = pool_page s q.
Proof.
  intros [Hd Hro Hlk Hda Htab Hfr Hff Hca] Hf.
  assert (forall g, exists h, frames s !! g = h /\ <[f := with_latch fr n]> (frames s) !! g =
    (if decide (g = f) then Some (with_latch fr n) else h)) as Hlk'.
  { intros g. eexists. split; [done|]. case_decide; [subst; by rewrite lookup_insert_eq|by rewrite lookup_insert_ne]. }
  split.
  - constructor; cbn; try done.
    + intros g gr. destruct (Hlk' g) as (h & Hh & ->). case_decide; [|subst; by apply Hda].
      intros [= <-]. exact (Hda f fr Hf).
    + intros q g Hq. destruct (Htab q g Hq) as (gr & Hgr & Hh). destruct (Hlk' g) as (h & Hh' & ->).
      case_decide; [subst g|exists gr; split; [congruence|done]]. exists (with_latch fr n).
      split; [done|]. assert (gr = fr) as -> by congruence. exact Hh.
    + intros g Hg. destruct (Hff g Hg) as [Hs Hn]. split; [|done]. destruct (Hlk' g) as (h & Hh' & ->). case_decide; [done|by subst].
    + intros g. rewrite Hca. split; intros (q & gr & Hq & Hgr & Hz); destruct (Hlk' g) as (h & Hh' & Heq).
      * exists q. rewrite Heq. case_decide; [|exists gr; by subst]. exists (with_latch fr n). split_and!; [done|done|]. cbn. congruence.
      * exists q. rewrite Heq in Hgr. case_decide; [|exists gr; by subst]. injection Hgr as <-. exists fr. subst. done.
  - intros q. unfold pool_page. cbn. destruct (pageTable s !! q) as [g|]; [|done]. destruct (Hlk' g) as (h & Hh' & ->).
    case_decide; [|by subst]. subst. by rewrite Hf.
Qed.

Lemma pinned_page s ts i t pid f :
  runs_ok s ts -> ts !! i = Some t -> at_page t pid f ->
  exists fr, pageTable s !! pid = Some f /\ frames s !! f = Some fr /\ frame_holds (disk s) pid fr /\ 0 < pinCount fr.
Proof.
  intros Hr Hi Hat. pose proof (ro_at _ _ Hr _ _ _ _ Hi Hat) as Ht. destruct (ok_table _ (ro_pool _ _ Hr) _ _ Ht) as (fr & Hf & Hh).
  exists fr. split_and!; [done..|]. rewrite (ro_pins _ _ Hr _ _ _ Ht Hf). eapply count_pos; [exact Hi|by eapply at_page_pins].
Qed.

(** The pages stay as they are. *)
Definition same_pages s s' : Prop := forall q, pool_page s' q = pool_page s q.

Lemma fetch_keeps s ts i t pid f excl s' :
  runs_ok s ts -> ts !! i = Some t -> (t = Idle \/ t = Missed pid excl) -> 0 <= pid < 2 ^ 51 ->
  fetchPage s pid = Some (Done (Ok f), s') -> runs_ok s' (<[i := Pinned pid f excl]> ts) /\ same_pages s s'.
Proof.
  intros Hr Hi Ht Hpid Heq. pose proof Hr as [Hok Hhe Hat Hpins Hla Hmi Hfr].
  pose proof (fetch_effect_of s pid f s' Hok Hhe Hpid Heq) as [Hother (fr & fr' & Hf & Hf' & Hl) Hwas Htab Hkeep Hfree Hhe' _].
  pose proof (fetch_spec s pid Hok Hpid) as Hsp. rewrite Heq in Hsp. destruct Hsp as (Hok' & Hpg & Hkp & fr1 & Ht1 & Hf1 & _ & Hpin).
  rewrite Hf' in Hf1. injection Hf1 as <-. split; [|exact Hpg].
  assert (forall P, P t = false -> P (Pinned pid f excl) = false -> count P (<[i := Pinned pid f excl]> ts) = count P ts) as Hsame.
  { intros P H1 H2. rewrite (count_insert P ts i t _ Hi), H1, H2. cbn. lia. }
  assert (pins s pid = count (pins_on f) ts) as Hcount.
  { unfold pins. destruct (pageTable s !! pid) as [g|] eqn:Htp.
    - assert (g = f) as ->; [|rewrite Hf; by eapply Hpins]. destruct (fetch_effect_hit s pid g Hok Hhe Htp) as (s0 & Hpf & _).
      unfold fetchPage in Heq. rewrite Htp, Hpf in Heq. by injection Heq.
    - destruct Hwas as [?|[Hin|(v & fr2 & Hv & Hf2 & Hz)]]; [congruence| |].
      + symmetry. apply count_zero. intros j u Hj. destruct (pins_on f u) eqn:Hu; [|done].
        destruct (pins_at_page _ _ Hu) as [q Hq]. destruct (ok_free_frames _ Hok _ Hin) as [_ Hn]. by destruct (Hn q (Hat _ _ _ _ Hj Hq)).
      + rewrite <- (Hpins _ _ _ Hv Hf2). done. }
  eapply (runs_update s ts s' i t _ f Hr Hi); try done.
  - by destruct Ht as [-> | ->].
  - intros q g Hne. split; [intros Hq; by destruct (Htab q g Hq) as [[_ ?]|(_ & ? & _)]|intros Hq; by apply Hkeep].
  - intros q fr2 _ Hf2. assert (fr2 = fr') as -> by congruence. rewrite Hpin, Hcount, (count_insert _ _ _ _ _ Hi).
    cbn. rewrite Z.eqb_refl. destruct Ht as [-> | ->]; cbn; lia.
  - intros fr2 Hf2. assert (fr2 = fr') as -> by congruence. rewrite Hl, !Hsame by (destruct Ht as [-> | ->]; done). by apply Hla.
  - intros j u q Hj Hu. destruct (decide (j = i)) as [->|Hne].
    + rewrite list_lookup_insert_eq in Hj by (by eapply lookup_lt_Some). injection Hj as <-.
      destruct Hu as [e [[= -> _]|Hu]]; [done|done].
    + rewrite list_lookup_insert_ne in Hj by done. destruct (pinned_page s ts j u q f Hr Hj Hu) as (fr2 & Hq & Hf2 & _ & Hp2).
      eapply Hkp; [done|done|lia].
Qed.

Lemma fetchPageLocked_eq s pid : fetchPageLocked s pid = fetchPage s pid.
Proof. unfold fetchPage, fetchPageLocked. by destruct (pageTable s !! pid). Qed.

(** A fetch that fails on a healthy disk has only read. *)
Lemma fetch_error s pid e s' :
  pool_ok s -> healthy (disk s) -> 0 <= pid < 2 ^ 51 -> fetchPageLocked s pid = Some (Done (Error e), s') ->
  exists d, s' = set_disk s d /\ disk_ok d /\ healthy d /\ disk_page d = disk_page (disk s).
Proof.
  intros Hok Hhe Hpid. unfold fetchPageLocked. destruct (pageTable s !! pid) as [f|] eqn:Ht.
  { destruct (fetch_hit s pid f Hok Ht) as (s0 & -> & _). done. }
  rewrite offset_exact by done. change PAGE_SIZE with 4096.
  destruct (read_law (disk s) pid (ok_disk _ Hok) Hpid) as (r & d & -> & Hdok & Hpg & _ & Hhe').
  destruct (Hhe' Hhe) as [Hhe1 _]. destruct r as [bytes|e0].
  - cbn [allocLocked set_disk]. rewrite (ok_lock _ Hok). destruct (pool_ok_disk s d Hok Hdok Hpg) as [Hok1 _].
    pose proof (allocateFrame_spec _ Hok1) as Hsp.
    destruct (allocateFrame (set_disk s d)) as [[[[f1|e1]|] s2]|]; cbn [mbind option_bind]; try done.
    + destruct (frames s2 !! f1); done.
    + by destruct Hsp as [? _].
  - intros [= <- <-]. by exists d.
Qed.

(** A step at the latch of frame [f]. *)
Lemma latch_keeps s ts i t t' f fr n :
  runs_ok s ts -> ts !! i = Some t -> about f t -> about f t' -> frames s !! f = Some fr ->
  pins_on f t' = pins_on f t -> (forall pid, at_page t' pid f -> at_page t pid f) -> (forall pid excl, t' <> Missed pid excl) ->
  latch_counts n (count (latches_on f false) (<[i := t']> ts)) (count (latches_on f true) (<[i := t']> ts)) ->
  runs_ok (set_frame s f (with_latch fr n)) (<[i := t']> ts) /\ same_pages s (set_frame s f (with_latch fr n)).
Proof.
  intros Hr Hi Hab Hab' Hf Hpin Hat Hmi Hn. pose proof Hr as [Hok Hhe Hat0 Hpins Hla Hmi0 Hfr].
  destruct (pool_ok_any_latch s f fr n Hok Hf) as [Hok' Hpg]. split; [|exact Hpg].
  eapply (runs_update s ts _ i t t' f Hr Hi); try done; cbn.
  - intros g Hne. by rewrite lookup_insert_ne.
  - by rewrite lookup_insert_eq.
  - intros q fr'. rewrite lookup_insert_eq. intros Hq [= <-]. cbn. rewrite (Hpins _ _ _ Hq Hf), (count_insert _ _ _ _ _ Hi), Hpin. lia.
  - intros fr'. rewrite lookup_insert_eq. by intros [= <-].
  - intros j u pid Hj Hu. destruct (decide (j = i)) as [->|Hne].
    + rewrite list_lookup_insert_eq in Hj by (by eapply lookup_lt_Some). injection Hj as <-. eapply Hat0; [exact Hi|by apply Hat].
    + rewrite list_lookup_insert_ne in Hj by done. by eapply Hat0.
  - intros pid excl ->. by destruct (Hmi pid excl).
Qed.

Lemma latches_on_held pid f excl e : latches_on f e (Holding pid f excl) = eqb e excl /\ latches_on f e (Unpinned f excl) = eqb e excl.
Proof. cbn. by rewrite Z.eqb_refl. Qed.

(** [Done], second part. *)
Lemma release_keeps s ts i f excl s' :
  runs_ok s ts -> ts !! i = Some (Unpinned f excl) -> dropLatch s f excl = Some s' ->
  runs_ok s' (<[i := Idle]> ts) /\ same_pages s s'.
Proof.
  intros Hr Hi Hd. assert (exists fr n, frames s !! f = Some fr /\ s' = set_frame s f (with_latch fr n) /\
    n = if excl then 0 else latch fr - 1) as (fr & n & Hf & -> & Hn).
  { unfold dropLatch, unlock, runlock in Hd. destruct excl; (destruct (frames s !! f) as [fr|]; [|done]); cbn [mbind option_bind] in Hd;
      (case_match; [|done]); injection Hd as <-; by eexists _, _. }
  eapply latch_keeps; try done; [by intros q [e [?|?]]|]. rewrite !(count_insert _ _ _ _ _ Hi).
  destruct (latches_on_held 0 f excl false) as [_ ->]. destruct (latches_on_held 0 f excl true) as [_ ->].
  pose proof (ro_latch _ _ Hr _ _ Hf) as Hl. pose proof (count_nonneg (latches_on f false) ts). pose proof (count_nonneg (latches_on f true) ts).
  assert (0 < count (latches_on f excl) ts) as Hc by (eapply count_pos; [exact Hi|destruct (latches_on_held 0 f excl excl) as [_ ->]; by destruct excl]).
  unfold latch_counts in *. destruct excl; subst n; cbn [eqb Z.b2z latches_on]; lia.
Qed.

(** Taking the latch. *)
Lemma latch_step_keeps s ts i pid f excl s' :
  runs_ok s ts -> ts !! i = Some (Pinned pid f excl) -> takeLatch s f excl = Some s' ->
  runs_ok s' (<[i := Holding pid f excl]> ts) /\ same_pages s s'.
Proof.
  intros Hr Hi Hd. assert (exists fr, frames s !! f = Some fr /\
    s' = set_frame s f (with_latch fr (if excl then -1 else latch fr + 1)) /\
    if excl then latch fr = 0 else 0 <= latch fr) as (fr & Hf & -> & Hl0).
  { unfold takeLatch in Hd. destruct (frames s !! f) as [fr|]; [|done]. cbn [mbind option_bind] in Hd. exists fr. split; [done|].
    destruct excl; (case_match; [|done]); injection Hd as <-; (split; [done|lia]). }
  eapply latch_keeps; try done.
  - intros q [e [Hq|Hq]]; [done|]. injection Hq as <- <-. exists excl. by left.
  - rewrite !(count_insert _ _ _ _ _ Hi). destruct (latches_on_held pid f excl false) as [-> _].
    destruct (latches_on_held pid f excl true) as [-> _]. pose proof (ro_latch _ _ Hr _ _ Hf) as Hl.
    pose proof (count_nonneg (latches_on f false) ts). pose proof (count_nonneg (latches_on f true) ts).
    unfold latch_counts in *. destruct excl; cbn [eqb Z.b2z latches_on]; lia.
Qed.

(** Writing through an exclusive guard. *)
Lemma write_step_keeps s ts i pid f bytes s' :
  runs_ok s ts -> ts !! i = Some (Holding pid f true) -> len bytes = 4096 -> writeThrough s f bytes = Some s' ->
  runs_ok s' ts /\ forall q, pool_page s' q = if decide (q = pid) then Some bytes else pool_page s q.
Proof.
  intros Hr Hi Hlen. assert (at_page (Holding pid f true) pid f) as Hat by (exists true; by right).
  destruct (pinned_page s ts i _ pid f Hr Hi Hat) as (fr & Ht & Hf & _). unfold writeThrough, SetDirtyFlag, writePageData, guardFrame.
  cbn [active negb g_page mbind option_bind]. rewrite Hf. cbn [mbind option_bind set_frame frames]. rewrite lookup_insert_eq.
  cbn [mbind option_bind]. intros Hs'. assert (s' = write_frame s f fr bytes) as ->.
  { injection Hs' as <-. unfold write_frame, set_frame. cbn. by rewrite insert_insert_eq. }
  destruct (write_frame_spec s pid f fr bytes (ro_pool _ _ Hr) Ht Hf Hlen) as [Hok' Hpg]. split; [|exact Hpg].
  rewrite <- (list_insert_id ts i _ Hi). pose proof Hr as [Hok Hhe Hat0 Hpins Hla Hmi Hfr].
  eapply (runs_update s ts _ i _ _ f Hr Hi); try done; cbn; rewrite ?list_insert_id by done.
  - intros g Hne. by rewrite lookup_insert_ne.
  - by rewrite lookup_insert_eq.
  - intros q fr' Hq. rewrite lookup_insert_eq. intros [= <-]. by apply (Hpins _ _ _ Hq Hf).
  - intros fr'. rewrite lookup_insert_eq. intros [= <-]. by apply (Hla f fr).
  - intros j u q Hj Hu. by eapply Hat0.
Qed.

(** Dropping the pin: by [unpinPage], or with the page. *)
Lemma drop_pin_keeps s ts i pid f excl fr s' :
  runs_ok s ts -> ts !! i = Some (Holding pid f excl) -> frames s !! f = Some fr -> pool_ok s' -> healthy (disk s') ->
  (forall g, g <> f -> frames s' !! g = frames s !! g) ->
  (exists fr', frames s' !! f = Some fr' /\ latch fr' = latch fr /\ pinCount fr' = pinCount fr - 1) ->
  (forall q g, g <> f -> pageTable s' !! q = Some g <-> pageTable s !! q = Some g) ->
  (pageTable s' !! pid = Some f \/ (pinCount fr = 1 /\ pageTable s' !! pid = None)) ->
  runs_ok s' (<[i := Unpinned f excl]> ts).
Proof.
  intros Hr Hi Hf Hok' Hhe' Hother (fr' & Hf' & Hl & Hp) Htab Hpt. pose proof Hr as [Hok Hhe Hat Hpins Hla Hmi Hfr].
  assert (at_page (Holding pid f excl) pid f) as Hhold by (exists excl; by right). pose proof (Hat _ _ _ _ Hi Hhold) as Ht.
  pose proof (Hpins _ _ _ Ht Hf) as Hpin.
  eapply (runs_update s ts s' i _ _ f Hr Hi); try done.
  - intros q fr2 Hq Hf2. assert (fr2 = fr') as -> by congruence. rewrite Hp, Hpin, (count_insert _ _ _ _ _ Hi).
    rewrite (at_page_pins _ _ _ Hhold). cbn. lia.
  - intros fr2 Hf2. assert (fr2 = fr') as -> by congruence. rewrite Hl, !(count_insert _ _ _ _ _ Hi).
    destruct (latches_on_held pid f excl false) as [-> ->]. destruct (latches_on_held pid f excl true) as [-> ->].
    rewrite !Z.sub_add. by apply Hla.
  - intros j u q Hj Hu. destruct (decide (j = i)) as [->|Hne].
    + rewrite list_lookup_insert_eq in Hj by (by eapply lookup_lt_Some). injection Hj as <-. by destruct Hu as [? [|]].
    + rewrite list_lookup_insert_ne in Hj by done. pose proof (Hat _ _ _ _ Hj Hu) as Hq.
      rewrite (table_inj s q pid f Hok Hq Ht). destruct Hpt as [?|[H1 _]]; [done|].
      pose proof (count_two (pins_on f) ts i j _ _ (not_eq_sym Hne) Hi Hj (at_page_pins _ _ _ Hhold) (at_page_pins _ _ _ Hu)). lia.
Qed.

Lemma unpin_keeps s ts i pid f excl fr b s' :
  runs_ok s ts -> ts !! i = Some (Holding pid f excl) -> frames s !! f = Some fr -> unpinPage s (pageId fr) = Some (b, s') ->
  runs_ok s' (<[i := Unpinned f excl]> ts) /\ same_pages s s'.
Proof.
  intros Hr Hi Hf Hu. assert (at_page (Holding pid f excl) pid f) as Hhold by (exists excl; by right).
  destruct (pinned_page s ts i _ pid f Hr Hi Hhold) as (fr0 & Ht & Hf0 & (Hpid & _) & Hpos). rewrite Hf in Hf0. injection Hf0 as <-.
  rewrite Hpid in Hu. destruct (unpin_spec s pid f fr (ro_pool _ _ Hr) Ht Hf Hpos) as (s1 & Hu1 & Hok1 & Hpg & _ & _ & Ht1 & Hf1).
  rewrite Hu in Hu1. injection Hu1 as -> <-. split; [|exact Hpg].
  assert ((forall g, g <> f -> frames s' !! g = frames s !! g) /\ disk s' = disk s) as [Hother Hd].
  { unfold unpinPage in Hu. rewrite Ht, Hf in Hu. cbn [mbind option_bind] in Hu. case_match; injection Hu as <-; cbn;
      (split; [intros g Hne; by rewrite lookup_insert_ne|done]). }
  eapply drop_pin_keeps; [done..|rewrite Hd; apply Hr|done| | |].
  - eexists. split; [exact Hf1|]. done.
  - intros q g _. by rewrite Ht1.
  - left. by rewrite Ht1.
Qed.

Lemma delete_keeps s ts i pid f fr (ok : bool) s' :
  runs_ok s ts -> ts !! i = Some (Holding pid f true) -> frames s !! f = Some fr ->
  deletePage s (pageId fr) = Some (Done (Ok ok), s') ->
  runs_ok s' (<[i := if ok then Unpinned f true else Holding pid f true]> ts) /\
  forall q, q <> pid -> pool_page s' q = pool_page s q.
Proof.
  intros Hr Hi Hf Hdel. assert (at_page (Holding pid f true) pid f) as Hhold by (exists true; by right).
  destruct (pinned_page s ts i _ pid f Hr Hi Hhold) as (fr0 & Ht & Hf0 & (Hpid & _ & _ & [data Hdp] & _) & Hpos).
  rewrite Hf in Hf0. injection Hf0 as <-. rewrite Hpid in Hdel. destruct (disk_page_len _ _ _ Hdp) as [_ Hrange].
  destruct (pool_delete s pid (ro_pool _ _ Hr) Hrange) as (b & s1 & Hdel' & Hone & Hno & Hyes).
  rewrite Hdel in Hdel'. injection Hdel' as <- <-. destruct ok.
  2:{ rewrite (Hno eq_refl). rewrite list_insert_id by done. done. }
  destruct (Hyes eq_refl) as (Hok' & Hd & Ht' & _ & Hpg). split; [|exact Hpg].
  assert (pinCount fr = 1) as H1. { rewrite <- (proj1 Hone eq_refl). unfold pins. by rewrite Ht, Hf. }
  assert (frames s' = <[f := mkFrame 0 (BufferPool.data fr) 0 (dirty fr) (latch fr)]> (frames s)) as Hfs.
  { unfold deletePage in Hdel. rewrite Ht, Hf in Hdel. cbn [mbind option_bind] in Hdel. rewrite H1 in Hdel. cbn in Hdel.
    rewrite (ok_lock _ (ro_pool _ _ Hr)) in Hdel. by injection Hdel as <-. }
  eapply drop_pin_keeps; [done..| | | | |].
  - rewrite Hd. by apply deallocate_law; [apply Hr| |apply Hr].
  - intros g Hne. by rewrite Hfs, lookup_insert_ne.
  - eexists. rewrite Hfs, lookup_insert_eq. split; [done|]. cbn. split; [done|lia].
  - intros q g Hne. rewrite Ht', lookup_delete_Some. split; [by intros [_ ?]|]. intros Hq. split; [|done]. intros <-. congruence.
  - right. rewrite Ht'. by rewrite lookup_delete_eq.
Qed.

(** A goroutine without a frame moves to another phase without one. *)
Lemma frameless_keeps s ts s' i t t' :
  runs_ok s ts -> ts !! i = Some t -> (forall f, about f t) -> (forall f, about f t') -> pool_ok s' -> healthy (disk s') ->
  frames s' = frames s -> pageTable s' = pageTable s -> (forall pid excl, t' = Missed pid excl -> 0 <= pid < 2 ^ 51) ->
  runs_ok s' (<[i := t']> ts).
Proof.
  intros Hr Hi Hab Hab' Hok' Hhe' Hfs Hpt Hmi.
  assert (forall u : Phase, (forall f, about f u) -> (forall f, pins_on f u = false) /\ forall f e, latches_on f e u = false) as Hnone.
  { intros u Hu. split; intros f; apply (about_other (f + 1) f u); (apply Hu || lia). }
  destruct (Hnone t Hab) as [Hp1 Hl1]. destruct (Hnone t' Hab') as [Hp2 Hl2].
  eapply (runs_update s ts s' i t t' 0 Hr Hi); rewrite ?Hfs, ?Hpt; try done.
  - intros q fr Hq Hf. rewrite (count_insert _ _ _ _ _ Hi), Hp1, Hp2. cbn. rewrite Z.sub_0_r, Z.add_0_r. by eapply (ro_pins _ _ Hr).
  - intros fr Hf. rewrite !(count_insert _ _ _ _ _ Hi), !Hl1, !Hl2. cbn. rewrite !Z.sub_0_r, !Z.add_0_r. by apply (ro_latch _ _ Hr).
  - intros j u q Hj Hu. destruct (decide (j = i)) as [->|Hne].
    + rewrite list_lookup_insert_eq in Hj by (by eapply lookup_lt_Some). injection Hj as <-. apply at_page_pins in Hu. by rewrite Hp2 in Hu.
    + rewrite list_lookup_insert_ne in Hj by done. by eapply (ro_at _ _ Hr).
  - intros excl ->. specialize (Hab' 1). done.
Qed.

(** Every step keeps the invariant, and changes at most the page that its
    goroutine holds exclusively. *)
Lemma pool_step_ok i s ts s' ts' :
  pool_step i (s, ts) (s', ts') -> runs_ok s ts ->
  runs_ok s' ts' /\ forall q, (forall f, ts !! i <> Some (Holding q f true)) -> pool_page s' q = pool_page s q.
Proof.
  intros Hst Hr. inversion Hst as [? ? ? pid f excl ? Hi Ht Hp|? ? ? pid excl Hi Ht Hpid|? ? ? pid excl r ? Hi Hl|? ? ? pid f excl ? Hi Hl
    |? ? ? pid f bytes ? Hi Hlen Hw|? ? ? pid f excl fr b ? Hi Hf Hu|? ? ? pid f fr ok ? Hi Hf Hd|? ? ? f excl ? Hi Hd]; subst.
  - destruct (ok_table _ (ro_pool _ _ Hr) _ _ Ht) as (fr & _ & _ & _ & _ & [data Hdp] & _).
    destruct (disk_page_len _ _ _ Hdp) as [_ Hpid].
    destruct (fetch_keeps s ts i Idle pid f excl s' Hr Hi ltac:(by left) Hpid) as [Hr' Hpg]; [|split; [done|intros q _; apply Hpg]].
    unfold fetchPage. by rewrite Ht.
  - split; [|done]. eapply (frameless_keeps s' ts s' i Idle); try done; [apply Hr|apply Hr|]. by intros q e [= <- _].
  - pose proof (ro_missed _ _ Hr _ _ _ Hi) as Hpid. destruct r as [f|e].
    + rewrite fetchPageLocked_eq in Hl. destruct (fetch_keeps s ts i _ pid f excl s' Hr Hi ltac:(by right) Hpid Hl) as [Hr' Hpg].
      split; [done|intros q _; apply Hpg].
    + destruct (fetch_error s pid e s' (ro_pool _ _ Hr) (ro_healthy _ _ Hr) Hpid Hl) as (d & -> & Hdok & Hhe & Hpg).
      destruct (pool_ok_disk s d (ro_pool _ _ Hr) Hdok Hpg) as [Hok' Hpg']. split; [|intros q _; apply Hpg'].
      by eapply (frameless_keeps s ts _ i _ _ Hr Hi).
  - destruct (latch_step_keeps s ts i pid f excl s' Hr Hi Hl) as [Hr' Hpg]. split; [done|intros q _; apply Hpg].
  - destruct (write_step_keeps s ts' i pid f bytes s' Hr Hi Hlen Hw) as [Hr' Hpg]. split; [done|]. intros q Hq. rewrite Hpg.
    rewrite decide_False; [done|]. intros ->. by destruct (Hq f).
  - destruct (unpin_keeps s ts i pid f excl fr b s' Hr Hi Hf Hu) as [Hr' Hpg]. split; [done|intros q _; apply Hpg].
  - destruct (delete_keeps s ts i pid f fr ok s' Hr Hi Hf Hd) as [Hr' Hpg]. split; [done|]. intros q Hq. apply Hpg.
    intros ->. by destruct (Hq f).
  - destruct (release_keeps s ts i f excl s' Hr Hi Hd) as [Hr' Hpg]. split; [done|intros q _; apply Hpg].
Qed.

Lemma pool_run_ok js s ts s' ts' : pool_run js (s, ts) (s', ts') -> runs_ok s ts -> runs_ok s' ts'.
Proof.
  intros Hrun. remember (s, ts) as w eqn:Hw. remember (s', ts') as w' eqn:Hw'. revert s ts Hw s' ts' Hw'.
  induction Hrun as [w|i js w1 [s2 ts2] w3 Hst Hrun IH]; intros s ts -> s' ts' Heq Hok; [by injection Heq as <- <-|].
  apply (IH s2 ts2 eq_refl s' ts' Heq). by eapply pool_step_ok.
Qed.

(** Two goroutines that hold one page hold it in one frame, and share it. *)
Lemma holders_share s ts i j pid f f' e e' :
  runs_ok s ts -> i <> j -> ts !! i = Some (Holding pid f e) -> ts !! j = Some (Holding pid f' e') -> f' = f /\ e = false /\ e' = false.
Proof.
  intros Hr Hne Hi Hj. pose proof (ro_at _ _ Hr _ _ pid f Hi ltac:(exists e; by right)) as Ht.
  pose proof (ro_at _ _ Hr _ _ pid f' Hj ltac:(exists e'; by right)) as Ht'. assert (f' = f) as -> by congruence. split; [done|].
  destruct (ok_table _ (ro_pool _ _ Hr) _ _ Ht) as (fr & Hf & _). pose proof (ro_latch _ _ Hr _ _ Hf) as Hl. unfold latch_counts in Hl.
  assert (latches_on f e (Holding pid f e) = true /\ latches_on f e' (Holding pid f e') = true) as [Hle Hle'].
  { cbn. rewrite Z.eqb_refl. by destruct e, e'. }
  pose proof (count_pos _ _ _ _ Hi Hle). pose proof (count_pos _ _ _ _ Hj Hle').
  destruct e, e'; [|lia|lia|done]. pose proof (count_two _ _ _ _ _ _ Hne Hi Hj Hle Hle'). lia.
Qed.

(** Guards can be given back: [Done] does not panic. *)
Lemma held_can_finish s ts i pid f e :
  runs_ok s ts -> ts !! i = Some (Holding pid f e) -> exists s', pool_step i (s, ts) (s', <[i := Unpinned f e]> ts).
Proof.
  intros Hr Hi. destruct (pinned_page s ts i _ pid f Hr Hi ltac:(exists e; by right)) as (fr & Ht & Hf & (Hpid & _) & Hpos).
  destruct (unpin_spec s pid f fr (ro_pool _ _ Hr) Ht Hf Hpos) as (s' & Hu & _). exists s'. eapply step_unpin; [done..|]. by rewrite Hpid.
Qed.

Lemma unpinned_can_drop s ts i f e : runs_ok s ts -> ts !! i = Some (Unpinned f e) -> is_Some (dropLatch s f e).
Proof.
  intros Hr Hi. destruct (ro_frame _ _ Hr _ _ _ Hi) as [fr Hf]. pose proof (ro_latch _ _ Hr _ _ Hf) as Hl. unfold latch_counts in Hl.
  assert (0 < count (latches_on f e) ts) as Hc by (eapply count_pos; [exact Hi|cbn; rewrite Z.eqb_refl; by destruct e]).
  unfold dropLatch, unlock, runlock. pose proof (count_nonneg (latches_on f true) ts).
  destruct e; rewrite Hf; cbn [mbind option_bind]; (case_match; [done|lia]).
Qed.

Lemma unpinned_can_release s ts i f e :
  runs_ok s ts -> ts !! i = Some (Unpinned f e) -> exists s', pool_step i (s, ts) (s', <[i := Idle]> ts).
Proof. intros Hr Hi. destruct (unpinned_can_drop s ts i f e Hr Hi) as [s' Hd]. exists s'. by eapply step_release. Qed.

(** C23: However the goroutines' guards interleave, starting from a pool that
    nobody uses: a page is in one frame, the one of every goroutine that holds
    it; a goroutine that holds it exclusively holds it alone; the frame is not
    taken for another page while it is held, and shows the page's bytes; and a
    guard can always be given back.  The load's second lookup is what keeps two
    goroutines that miss the same page from loading it twice. *)
Theorem guards_exclude js s0 n s ts :
  runs_ok s0 (replicate n Idle) -> pool_run js (s0, replicate n Idle) (s, ts) ->
  (forall i j pid f f' e e', i <> j -> ts !! i = Some (Holding pid f e) -> ts !! j = Some (Holding pid f' e') ->
     f' = f /\ e = false /\ e' = false) /\
  (forall i pid f e, ts !! i = Some (Holding pid f e) ->
     GetPageId s (guardOn f) = Some pid /\ GetPageData s (guardOn f) = Some (pool_page s pid) /\
     exists s', pool_step i (s, ts) (s', <[i := Unpinned f e]> ts)) /\
  (forall i f e, ts !! i = Some (Unpinned f e) -> exists s', pool_step i (s, ts) (s', <[i := Idle]> ts)).
Proof.
  intros Hr0 Hrun. pose proof (pool_run_ok _ _ _ _ _ Hrun Hr0) as Hr. split_and!.
  - intros i j pid f f' e e' Hne Hi Hj. by eapply holders_share.
  - intros i pid f e Hi. destruct (pinned_page s ts i _ pid f Hr Hi ltac:(exists e; by right)) as (fr & Ht & Hf & (Hpid & _) & _).
    unfold GetPageId, GetPageData, guardFrame, pool_page. cbn. rewrite Ht, Hf. cbn. split_and!; [by rewrite Hpid|done|].
    by eapply held_can_finish.
  - intros i f e Hi. by eapply unpinned_can_release.
Qed.

(** C24: While a goroutine holds a page, shared or exclusively, nothing that the
    others do changes the page it sees or moves it to another frame: every run
    in which the goroutine itself does not move leaves the page's bytes and the
    guard as they were. *)
Theorem held_page_stable js s ts s' ts' i pid f e :
  runs_ok s ts -> pool_run js (s, ts) (s', ts') -> ts !! i = Some (Holding pid f e) -> i ∉ js ->
  ts' !! i = Some (Holding pid f e) /\ pool_page s' pid = pool_page s pid /\
  GetPageData s' (guardOn f) = GetPageData s (guardOn f).
Proof.
  intros Hr Hrun Hi Hni.
  assert (runs_ok s' ts' /\ ts' !! i = Some (Holding pid f e) /\ pool_page s' pid = pool_page s pid) as (Hr' & Hi' & Hpg).
  { remember (s, ts) as w eqn:Hw. remember (s', ts') as w' eqn:Hw'. revert s ts Hw s' ts' Hw' Hr Hi.
    induction Hrun as [w|j js w1 [s2 ts2] w3 Hst Hrun IH]; intros s ts -> s' ts' Heq Hr Hi; [by injection Heq as <- <-|].
    apply not_elem_of_cons in Hni as [Hne Hni]. destruct (pool_step_ok _ _ _ _ _ Hst Hr) as [Hr2 Hpg2].
    assert (ts2 !! i = Some (Holding pid f e)) as Hi2.
    { inversion Hst; subst; rewrite ?list_lookup_insert_ne by done; done. }
    destruct (IH Hni s2 ts2 eq_refl s' ts' Heq Hr2 Hi2) as (Hr' & Hi' & Hpg'). split_and!; [done..|]. rewrite Hpg'. apply Hpg2.
    intros f' Hj. by destruct (holders_share _ _ _ _ _ _ _ _ _ Hr Hne Hi Hj) as (_ & _ & ?). }
  split_and!; [done..|]. assert (at_page (Holding pid f e) pid f) as Hat by (exists e; by right).
  destruct (pinned_page s ts i _ pid f Hr Hi Hat) as (fr & Ht & Hf & _).
  destruct (pinned_page s' ts' i _ pid f Hr' Hi' Hat) as (fr' & Ht' & Hf' & _).
  unfold pool_page in Hpg. rewrite Ht, Ht', Hf, Hf' in Hpg. unfold GetPageData, guardFrame. cbn. rewrite Hf, Hf'. cbn.
  injection Hpg as ->. done.
Qed.

(** A pool without guards, such as a new one, is a start. *)
Lemma idle_pool_ok s n :
  pool_ok s -> healthy (disk s) -> (forall pid f fr, pageTable s !! pid = Some f -> frames s !! f = Some fr -> pinCount fr = 0) ->
  (forall f fr, frames s !! f = Some fr -> latch fr = 0) -> runs_ok s (replicate n Idle).
Proof.
  intros Hok Hhe Hpin Hla.
  assert (forall i t, replicate n Idle !! i = Some t -> t = Idle) as Hidle by (intros i t Ht; by apply lookup_replicate in Ht as [-> _]).
  assert (forall P, P Idle = false -> count P (replicate n Idle) = 0) as Hz.
  { intros P HP. apply count_zero. intros i t ->%Hidle. done. }
  constructor; [done|done|..].
  - intros i t pid f ->%Hidle Hat. by apply at_page_pins in Hat.
  - intros pid f fr Ht Hf. rewrite Hz by done. by eapply Hpin.
  - intros f fr Hf. rewrite !Hz by done. left. split; [by eapply Hla|done].
  - intros i pid excl Hi. by apply Hidle in Hi.
  - intros i f excl Hi. by apply Hidle in Hi.
Qed.

(** ** The methods of the guards are runs of one goroutine *)

Lemma NewWriteGuard_run s pid g s' ts i :
  0 <= pid < 2 ^ 51 -> ts !! i = Some Idle -> NewWriteGuard s pid = Some (Done (Ok g), s') ->
  exists f js, g = guardOn f /\ pool_run js (s, ts) (s', <[i := Holding pid f true]> ts) /\ Forall (eq i) js.
Proof.
  intros Hpid Hi. unfold NewWriteGuard. destruct (fetchPage s pid) as [[[[f|]|] s1]|] eqn:Hfe; cbn [mbind option_bind]; try done.
  destruct (frames s1 !! f) as [fr|] eqn:Hf; cbn [mbind option_bind]; [|done]. destruct (latch fr =? 0) eqn:Hl; [|done]. intros [= <- <-].
  assert (forall x, <[i := Pinned pid f true]> (<[i := x]> ts) !! i = Some (Pinned pid f true)) as Hp.
  { intros x. rewrite list_lookup_insert_eq; [done|]. rewrite length_insert. by eapply lookup_lt_Some. }
  assert (takeLatch s1 f true = Some (set_frame s1 f (with_latch fr (-1)))) as Htake by (unfold takeLatch; rewrite Hf; cbn; by rewrite Hl).
  unfold fetchPage in Hfe. destruct (pageTable s !! pid) as [f0|] eqn:Ht.
  - assert (f0 = f) as ->.
    { unfold pinFrame in Hfe. destruct (frames s !! f0) as [fr0|]; [|done]. cbn [mbind option_bind] in Hfe.
      case_match; [|by injection Hfe]. destruct (replacer_remove _ _) as [r|]; cbn [mbind option_bind] in Hfe; [|done]. by injection Hfe. }
    exists f, [i; i]. split; [done|split; [|by repeat constructor]]. econstructor; [by eapply (step_hit i s ts pid f true)|].
    econstructor; [|constructor]. specialize (Hp Idle). rewrite (list_insert_id ts i Idle Hi) in Hp.
    pose proof (step_latch i s1 _ pid f true _ Hp Htake) as Hst. by rewrite list_insert_insert_eq in Hst.
  - exists f, [i; i; i]. split; [done|split; [|by repeat constructor]]. econstructor; [by eapply (step_miss i s ts pid true)|].
    econstructor; [eapply (step_load i s _ pid true (Ok f)); [rewrite list_lookup_insert_eq; [done|by eapply lookup_lt_Some]|exact Hfe]|].
    econstructor; [|constructor]. pose proof (step_latch i s1 _ pid f true _ (Hp (Missed pid true)) Htake) as Hst.
    rewrite !list_insert_insert_eq in Hst. cbv iota. rewrite list_insert_insert_eq. exact Hst.
Qed.

Lemma WriteGuardDone_run s ts i pid f s' b g' :
  ts !! i = Some (Holding pid f true) -> WriteGuardDone s (guardOn f) = Some (b, g', s') ->
  pool_run [i; i] (s, ts) (s', <[i := Idle]> ts).
Proof.
  intros Hi. unfold WriteGuardDone, guardFrame. cbn [active negb g_page g_pool mbind option_bind].
  destruct (frames s !! f) as [fr|] eqn:Hf; cbn [mbind option_bind]; [|done].
  destruct (unpinPage s (pageId fr)) as [[b1 s1]|] eqn:Hu; cbn [mbind option_bind]; [|done].
  destruct (unlock s1 f) as [s2|] eqn:Hd; cbn [mbind option_bind]; [|done]. intros [= _ _ <-].
  econstructor; [by eapply step_unpin|]. econstructor; [|constructor].
  assert (<[i := Unpinned f true]> ts !! i = Some (Unpinned f true)) as Hi'.
  { rewrite list_lookup_insert_eq; [done|by eapply lookup_lt_Some]. }
  pose proof (step_release i s1 _ f true s2 Hi' Hd) as Hst. by rewrite list_insert_insert_eq in Hst.
Qed.
End invariant.
