(* ===== verification/ReadRuns.v ===== *)
(** * Concurrent searches (src/bplustree/b_plus_tree.go, Get and readTraversal)

    [Get] holds the tree's mutex shared, so any number of them run together,
    without a writer.  Here each is cut at every critical section it passes: the
    lookup of a page under the pool's shared lock, the load under the exclusive
    one, the page's latch, each call of the node codec, the unpin and the release
    of the latch in the deferred [Done]s, which run from the leaf to the root.
    Between any two of them the other searches run.  The sections are the model's
    own code for them, and a search that runs alone does what [BPlusTree_Get]
    does. *)

From S2P Require Export PoolRuns TreeSearch.

(** Where a search is. *)
Inductive GetPc :=
  | Opening (pid : Z)
  | Loading (pid : Z)
  | Latching (pid f : Z)
  | AtNode
  | AtLeaf
  | AtInternal
  | Returning (r : result (list byte))
  | Releasing (f : Z) (r : result (list byte)).

(** A running [Get]: its argument, its open guards, deepest first, each a page
    and its frame, and its position. *)
Record Getter := mkGetter { g_key : list byte; g_guards : list (Z * Z); g_pc : GetPc }.

Inductive move (S : Type) :=
  | Moves (s : S) (g : Getter)
  | Returned (r : result (list byte))
  | Waits
  | Panics.
#[global] Arguments Moves {S} _ _.
#[global] Arguments Returned {S} _.
#[global] Arguments Waits {S}.
#[global] Arguments Panics {S}.

Definition with_pc (g : Getter) (pc : GetPc) : Getter := mkGetter (g_key g) (g_guards g) pc.

(** [Get] begins with a guard on the root. *)
Definition newGet (root : Z) (key : list byte) : Getter := mkGetter key [] (Opening root).

Section steps.
Context {R D : Type} `{!Replacer R} `{!DiskManager D}.
Implicit Types (s : Pool R D) (g : Getter).

(** A codec call on the page of the deepest guard. *)
Definition readNode {A} s g (codec : list byte -> option A) : option A :=
  '(_, f) ← head (g_guards g);
  data ← GetPageData s (guardOn f);
  codec (default [] data).

Definition get_step s g : move (Pool R D) :=
  match g_pc g with
  | Opening pid =>
      match pageTable s !! pid with
      | None => Moves s (with_pc g (Loading pid))
      | Some f =>
          match pinFrame s f with
          | Some (_, s) => Moves s (with_pc g (Latching pid f))
          | None => Panics
          end
      end
  | Loading pid =>
      match fetchPageLocked s pid with
      | Some (Done (Ok f), s) => Moves s (with_pc g (Latching pid f))
      | Some (Done (Error e), s) => Moves s (with_pc g (Returning (Error e)))
      | Some (Blocked, _) => Waits
      | None => Panics
      end
  | Latching pid f =>
      match takeLatch s f false with
      | Some s => Moves s (mkGetter (g_key g) ((pid, f) :: g_guards g) AtNode)
      | None => Waits
      end
  | AtNode =>
      match readNode s g IsLeafNode with
      | Some true => Moves s (with_pc g AtLeaf)
      | Some false => Moves s (with_pc g AtInternal)
      | None => Panics
      end
  | AtLeaf =>
      match readNode s g leafGetAllSlotsAndElements, readNode s g (fun p => FindValue p (g_key g)) with
      | Some _, Some (Some value) => Moves s (with_pc g (Returning (Ok value)))
      | Some _, Some None => Moves s (with_pc g (Returning (Error ErrKeyNotFound)))
      | _, _ => Panics
      end
  | AtInternal =>
      match readNode s g internalGetAllSlotsAndElements, readNode s g (fun p => FindNextChildNodePageId p (g_key g)) with
      | Some _, Some child => Moves s (with_pc g (Opening child))
      | _, _ => Panics
      end
  | Returning r =>
      match g_guards g with
      | [] => Returned r
      | (_, f) :: rest =>
          match frame ← frames s !! f; unpinPage s (pageId frame) with
          | Some (_, s) => Moves s (mkGetter (g_key g) rest (Releasing f r))
          | None => Panics
          end
      end
  | Releasing f r =>
      match runlock s f with
      | Some s => Moves s (with_pc g (Returning r))
      | None => Panics
      end
  end.

(** The searches [rs] take the steps of the schedule [js]. *)
Fixpoint run_gets (js : list nat) s (rs : list Getter) : option (Pool R D * list Getter) :=
  match js with
  | [] => Some (s, rs)
  | j :: js =>
      g ← rs !! j;
      match get_step s g with
      | Moves s g => run_gets js s (<[j := g]> rs)
      | _ => None
      end
  end.
End steps.

(** ** A search that runs alone *)

Section alone.
Context {R D W : Type} `{!Replacer R} `{!DiskManager D} `{!MetadataStore D} `{!WAL W}.
Implicit Types (s : Pool R D) (st : Db (Pool R D) W).

Definition reaches s g s' g' : Prop := exists js, run_gets js s [g] = Some (s', [g']).

Lemma reaches_refl s g : reaches s g s g.
Proof. by exists []. Qed.

Lemma reaches_step s g s1 g1 s' g' : get_step s g = Moves s1 g1 -> reaches s1 g1 s' g' -> reaches s g s' g'.
Proof. intros Hst [js Hjs]. exists (0%nat :: js). cbn. by rewrite Hst. Qed.

Lemma reaches_trans s1 g1 s2 g2 s3 g3 : reaches s1 g1 s2 g2 -> reaches s2 g2 s3 g3 -> reaches s1 g1 s3 g3.
Proof.
  intros [js Hjs] H2. revert s1 g1 Hjs. induction js as [|j js IH]; intros s1 g1; [by intros [= -> ->]|].
  cbn. destruct j as [|j]; [|done]. cbn. destruct (get_step s1 g1) as [s g| | |] eqn:Hst; try done. intros Hjs.
  eapply reaches_step; [exact Hst|]. by apply IH.
Qed.

Lemma alone_open key gs pid st o st' :
  NewReadGuardM pid st = Some (Done o, st') ->
  match o with
  | Ok g => exists f, g = guardOn f /\ reaches (pool st) (mkGetter key gs (Opening pid)) (pool st') (mkGetter key ((pid, f) :: gs) AtNode)
  | Error e => reaches (pool st) (mkGetter key gs (Opening pid)) (pool st') (mkGetter key gs (Returning (Error e)))
  end.
Proof.
  unfold NewReadGuardM, onPool. cbn [bpm_NewReadGuard Pool_BufferPoolManager]. unfold NewReadGuard.
  destruct (fetchPage (pool st) pid) as [[[[f|e]|] s1]|] eqn:Hfe; cbn [mbind option_bind]; try done.
  - destruct (frames s1 !! f) as [fr|] eqn:Hf; cbn [mbind option_bind]; [|done]. destruct (0 <=? latch fr) eqn:Hl; [|done].
    intros [= <- <-]. exists f. split; [done|]. cbn [pool with_pool].
    assert (reaches s1 (mkGetter key gs (Latching pid f)) (set_frame s1 f (with_latch fr (latch fr + 1))) (mkGetter key ((pid, f) :: gs) AtNode)) as Hlat.
    { eapply reaches_step; [|apply reaches_refl]. unfold get_step, takeLatch. cbn. rewrite Hf. cbn. by rewrite Hl. }
    unfold fetchPage in Hfe. destruct (pageTable (pool st) !! pid) as [f0|] eqn:Ht.
    + eapply reaches_step; [|exact Hlat]. unfold get_step. cbn. rewrite Ht, Hfe. unfold pinFrame in Hfe.
      destruct (frames (pool st) !! f0); [|done]. cbn in Hfe. case_match; [destruct (replacer_remove _ _); [|done]; cbn in Hfe|]; by injection Hfe as <- _.
    + eapply reaches_step; [unfold get_step; cbn; by rewrite Ht|]. eapply reaches_step; [|exact Hlat]. unfold get_step. cbn. by rewrite Hfe.
  - intros [= <- <-]. cbn [pool with_pool]. unfold fetchPage in Hfe. destruct (pageTable (pool st) !! pid) as [f0|] eqn:Ht.
    + exfalso. unfold pinFrame in Hfe. destruct (frames (pool st) !! f0); [|done]. cbn in Hfe. case_match; [destruct (replacer_remove _ _)|]; done.
    + eapply reaches_step; [unfold get_step; cbn; by rewrite Ht|]. eapply reaches_step; [|apply reaches_refl]. unfold get_step. cbn. by rewrite Hfe.
Qed.

Lemma alone_done key gs pid f st o st' r :
  doneRead (guardOn f) st = Some (Done o, st') ->
  reaches (pool st) (mkGetter key ((pid, f) :: gs) (Returning r)) (pool st') (mkGetter key gs (Returning r)).
Proof.
  unfold doneRead, onPool. cbn [guard_ReadDone Pool_BufferPoolManager]. unfold ReadGuardDone, guardFrame.
  cbn [active negb g_page g_pool mbind option_bind]. destruct (frames (pool st) !! f) as [fr|] eqn:Hf; cbn [mbind option_bind]; [|done].
  destruct (unpinPage (pool st) (pageId fr)) as [[b s1]|] eqn:Hu; cbn [mbind option_bind]; [|done].
  destruct (runlock s1 f) as [s2|] eqn:Hl; cbn [mbind option_bind]; [|done]. intros [= _ <-]. cbn [pool with_pool].
  eapply reaches_step; [unfold get_step; cbn; rewrite Hf; cbn; by rewrite Hu|].
  eapply reaches_step; [unfold get_step; cbn; by rewrite Hl|]. apply reaches_refl.
Qed.

(** A codec call of the model in the monad is the search's. *)
Lemma alone_read {A} key gs pid f pc st (codec : list byte -> option A) o st' :
  codecRead (guardOn f) codec st = Some (o, st') ->
  exists a, o = Done (Ok a) /\ st' = st /\ readNode (pool st) (mkGetter key ((pid, f) :: gs) pc) codec = Some a.
Proof.
  unfold codecRead, bind, pageData, onPool, lift, readNode. cbn [guard_GetPageData Pool_BufferPoolManager g_guards head mbind option_bind].
  destruct (GetPageData (pool st) (guardOn f)) as [d|]; cbn [mbind option_bind]; [|done].
  destruct (codec (default [] d)) as [a|]; cbn [mbind option_bind]; [|done]. intros [= <- <-]. exists a. by destruct st.
Qed.

Lemma alone_traversal key : forall fuel pid f gs st r st',
  readTraversal fuel key (guardOn f) st = Some (Done r, st') ->
  reaches (pool st) (mkGetter key ((pid, f) :: gs) AtNode) (pool st') (mkGetter key ((pid, f) :: gs) (Returning r)).
Proof.
  induction fuel as [|fuel IH]; intros pid f gs st r st'; [done|]. cbn [readTraversal]. unfold Cursor_IsLeafNode, bind at 1.
  destruct (codecRead (guardOn f) IsLeafNode st) as [[o st1]|] eqn:H1; [|done].
  destruct (alone_read key gs pid f AtNode st _ _ _ H1) as ([|] & -> & -> & Hl).
  - unfold LeafReader_PrintElements, LeafReader_FindValue. unfold bind at 1. unfold bind at 1.
    destruct (codecRead (guardOn f) leafGetAllSlotsAndElements st) as [[o st1]|] eqn:H2; [|done].
    destruct (alone_read key gs pid f AtLeaf st _ _ _ H2) as (x & -> & -> & Hp). cbn [ret]. unfold bind at 1.
    destruct (codecRead (guardOn f) (fun p => FindValue p key) st) as [[o st1]|] eqn:H3; [|done].
    destruct (alone_read key gs pid f AtLeaf st _ _ _ H3) as (v & -> & -> & Hv). intros Hr.
    eapply reaches_step; [unfold get_step; cbn [g_pc]; by rewrite Hl|]. eapply reaches_step; [|apply reaches_refl].
    unfold get_step, with_pc. cbn [g_pc g_key g_guards]. rewrite Hp, Hv. destruct v; injection Hr as <- <-; done.
  - unfold InternalReader_PrintElements, InternalReader_FindNextChildNodePageId. unfold bind at 1. unfold bind at 1.
    destruct (codecRead (guardOn f) internalGetAllSlotsAndElements st) as [[o st1]|] eqn:H2; [|done].
    destruct (alone_read key gs pid f AtInternal st _ _ _ H2) as (x & -> & -> & Hp). cbn [ret]. unfold bind at 1.
    destruct (codecRead (guardOn f) (fun p => FindNextChildNodePageId p key) st) as [[o st1]|] eqn:H3; [|done].
    destruct (alone_read key gs pid f AtInternal st _ _ _ H3) as (c & -> & -> & Hv).
    assert (reaches (pool st) (mkGetter key ((pid, f) :: gs) AtNode) (pool st) (mkGetter key ((pid, f) :: gs) (Opening c))) as Hstart.
    { eapply reaches_step; [unfold get_step; cbn [g_pc]; by rewrite Hl|]. eapply reaches_step; [|apply reaches_refl].
      unfold get_step, with_pc. cbn [g_pc g_key g_guards]. by rewrite Hp, Hv. }
    unfold bind at 1. destruct (NewReadGuardM c st) as [[[o|] st1]|] eqn:H4; try done.
    pose proof (alone_open key ((pid, f) :: gs) c st o st1 H4) as Ho. destruct o as [g|e].
    + destruct Ho as (fc & -> & Ho). unfold defer. destruct (readTraversal fuel key (guardOn fc) st1) as [[[r1|] st2]|] eqn:H5; try done.
      destruct (doneRead (guardOn fc) st2) as [[[d|] st3]|] eqn:H6; try done. intros [= <- <-].
      do 2 (eapply reaches_trans; [done|]). eapply reaches_trans; [by eapply IH|]. by eapply alone_done.
    + intros [= <- <-]. by eapply reaches_trans.
Qed.

(** [BPlusTree_Get] is the run of one search from its beginning to its end. *)
Lemma Get_alone key fuel st r st' :
  BPlusTree_Get fuel key st = Some (Done r, st') ->
  exists js, run_gets js (pool st) [newGet (rootNodePageId (tree st)) key] = Some (pool st', [mkGetter key [] (Returning r)]).
Proof.
  unfold BPlusTree_Get, getTree. unfold bind at 1, bind at 1, get. cbn [ret]. unfold bind at 1.
  destruct (NewReadGuardM (rootNodePageId (tree st)) st) as [[[o|] st1]|] eqn:H1; try done.
  pose proof (alone_open key [] (rootNodePageId (tree st)) st o st1 H1) as Ho. destruct o as [g|e].
  - destruct Ho as (f & -> & Ho). unfold defer. destruct (readTraversal fuel key (guardOn f) st1) as [[[r1|] st2]|] eqn:H2; try done.
    destruct (doneRead (guardOn f) st2) as [[[d|] st3]|] eqn:H3; try done. intros [= <- <-].
    eapply reaches_trans; [exact Ho|]. eapply reaches_trans; [by eapply alone_traversal|]. by eapply alone_done.
  - intros [= <- <-]. exact Ho.
Qed.
End alone.

(** ** The guards of the searches *)

Definition holdingOf (pf : Z * Z) : Phase := Holding pf.1 pf.2 false.

Definition pc_phase (pc : GetPc) : list Phase :=
  match pc with
  | Opening _ => [Idle]
  | Loading pid => [Missed pid false]
  | Latching pid f => [Pinned pid f false]
  | Releasing f _ => [Unpinned f false]
  | _ => []
  end.

Definition phases (g : Getter) : list Phase := pc_phase (g_pc g) ++ (holdingOf <$> g_guards g).
Definition all_phases (rs : list Getter) : list Phase := concat (phases <$> rs).

Lemma all_phases_split rs j g : rs !! j = Some g -> exists X, all_phases rs ≡ₚ phases g ++ X /\
  forall g', all_phases (<[j := g']> rs) ≡ₚ phases g' ++ X.
Proof.
  intros Hj. exists (concat (phases <$> take j rs) ++ concat (phases <$> drop (S j) rs)). unfold all_phases. split.
  - rewrite <- (take_drop_middle rs j g Hj) at 1. rewrite fmap_app, concat_app. cbn. solve_Permutation.
  - intros g'. rewrite insert_take_drop by (by eapply lookup_lt_Some). rewrite fmap_app, concat_app. cbn. solve_Permutation.
Qed.

(** Every guard of a search is shared. *)
Lemma phases_shared rs t f : t ∈ all_phases rs -> latches_on f true t = false.
Proof.
  unfold all_phases. rewrite list_elem_of_In, in_concat. intros (l & (g & <- & _)%in_map_iff & Ht).
  apply list_elem_of_In in Ht. unfold phases in Ht. apply elem_of_app in Ht as [Ht|Ht].
  - destruct (g_pc g); cbn in Ht; try (by apply elem_of_nil in Ht); apply list_elem_of_singleton in Ht as ->; cbn; by rewrite ?andb_false_r.
  - apply list_elem_of_fmap in Ht as ([pid f'] & -> & _). cbn. by rewrite andb_false_r.
Qed.

Lemma count_perm P ts ts' : ts ≡ₚ ts' -> count P ts = count P ts'.
Proof. unfold count. by intros ->. Qed.

Section invariant.
Context {R D : Type} `{RL : ReplacerLaws R} `{AL : AllocLaws D}.
Implicit Types (s : Pool R D) (ts : list Phase) (g : Getter) (rs : list Getter).

(** The order of the goroutines does not matter, nor do those outside. *)
Lemma runs_ok_ext s ts ts' :
  (forall t, t <> Idle -> t ∈ ts' -> t ∈ ts) -> (forall P, P Idle = false -> count P ts' = count P ts) ->
  runs_ok s ts -> runs_ok s ts'.
Proof.
  intros Hin Hcount [Hok Hhe Hat Hpins Hla Hmi Hfr].
  assert (forall i t, t <> Idle -> ts' !! i = Some t -> exists j, ts !! j = Some t) as Hlk.
  { intros i t Hne Hi. apply list_elem_of_lookup, Hin; [done|]. by eapply list_elem_of_lookup_2. }
  constructor; [done|done|..].
  - intros i t pid f Hi Ht. destruct (Hlk i t) as [j Hj]; [by intros ->; destruct Ht as [? [|]]|done|]. by eapply Hat.
  - intros pid f fr Ht Hf. rewrite Hcount by done. by eapply Hpins.
  - intros f fr Hf. rewrite !Hcount by done. by apply Hla.
  - intros i pid excl Hi. destruct (Hlk i (Missed pid excl) ltac:(done) Hi) as [j Hj]. by eapply Hmi.
  - intros i f excl Hi. destruct (Hlk i (Unpinned f excl) ltac:(done) Hi) as [j Hj]. by eapply Hfr.
Qed.

Lemma runs_ok_perm s ts ts' : ts ≡ₚ ts' -> runs_ok s ts -> runs_ok s ts'.
Proof. intros Hp. apply runs_ok_ext; [intros t _; by rewrite Hp|intros P _; by apply count_perm]. Qed.

Lemma runs_ok_idle s ts : runs_ok s (Idle :: ts) <-> runs_ok s ts.
Proof.
  assert (forall P, P Idle = false -> count P (Idle :: ts) = count P ts) as Hc by (intros P HP; rewrite count_cons, HP; cbn; lia).
  split; apply runs_ok_ext; [by right| |by intros t Hne [->|?]%elem_of_cons|done]. intros P HP. by rewrite Hc.
Qed.

(** Every frame is free or has a page. *)
Definition covered s : Prop := forall f, is_Some (frames s !! f) -> f ∈ freeFrames s \/ exists pid, pageTable s !! pid = Some f.

(** What the steps of searches leave alone. *)
Definition frames_kept s s' : Prop :=
  size (frames s') = size (frames s) /\ (covered s -> covered s') /\ (alloc_inv (disk s) -> alloc_inv (disk s')).

Lemma fetch_frames_kept s pid f s' :
  pool_ok s -> healthy (disk s) -> 0 <= pid < 2 ^ 51 -> fetchPage s pid = Some (Done (Ok f), s') -> frames_kept s s'.
Proof.
  intros Hok Hhe Hpid Heq. pose proof (fetch_effect_of s pid f s' Hok Hhe Hpid Heq) as He.
  split; [by eapply effect_size|]. split; [|intros Hal; by apply (fe_disk _ _ _ _ He Hal)].
  pose proof (fetch_spec s pid Hok Hpid) as Hsp. rewrite Heq in Hsp. destruct Hsp as (_ & _ & _ & fr1 & Ht1 & _).
  destruct He as [Hother _ _ _ Hkeep Hfree _ _]. intros Hcov g. destruct (decide (g = f)) as [->|Hne]; [intros _; right; by exists pid|].
  rewrite Hother by done. intros [Hin|[q Hq]]%Hcov; [left; by apply Hfree|right; exists q; by apply Hkeep].
Qed.

Lemma set_frame_kept s f fr fr' : frames s !! f = Some fr -> frames_kept s (set_frame s f fr').
Proof.
  intros Hf. split; [|split; [|done]]; cbn.
  - by rewrite <- !size_dom, dom_insert_lookup_L.
  - intros Hcov g Hg. apply Hcov. cbn in Hg. destruct (decide (g = f)) as [->|Hne]; [by eexists|by rewrite lookup_insert_ne in Hg].
Qed.

Lemma unpin_frames_kept s pid b s' : unpinPage s pid = Some (b, s') -> frames_kept s s'.
Proof.
  unfold unpinPage. destruct (pageTable s !! pid) as [f|]; [|by intros [= _ <-]].
  destruct (frames s !! f) as [fr|] eqn:Hf; cbn [mbind option_bind]; [|done].
  case_match; intros [= _ <-]; exact (set_frame_kept s f fr _ Hf).
Qed.

(** One step of a search among other guards [X]. *)
Lemma get_step_keeps s g s' g' X :
  get_step s g = Moves s' g' -> runs_ok s (phases g ++ X) -> (forall pid, g_pc g = Opening pid \/ g_pc g = Loading pid -> is_Some (pool_page s pid)) ->
  runs_ok s' (phases g' ++ X) /\ same_pages s s' /\ frames_kept s s' /\ g_key g' = g_key g.
Proof.
  intros Hst Hr Hpid.
  assert (forall t t' Y, pool_step 0 (s, t :: Y) (s', t' :: Y) -> (forall q f, t <> Holding q f true) -> runs_ok s (t :: Y) ->
    runs_ok s' (t' :: Y) /\ same_pages s s') as Hlocal.
  { intros t t' Y Hs Hne Hrt. destruct (pool_step_ok _ _ _ _ _ Hs Hrt) as [Hr' Hpg]. split; [done|].
    intros q. apply Hpg. intros f [= ->]. by eapply Hne. }
  assert (frames_kept s s) as Hrefl by (by split).
  destruct g as [key gs [pid|pid|pid f| | | |r|f r]]; unfold get_step in Hst; cbn [g_pc g_guards g_key with_pc] in Hst; unfold phases in *; cbn in Hr.
  - pose proof (pool_page_range s pid (ro_pool _ _ Hr) (Hpid pid (or_introl eq_refl))) as Hrange. destruct (pageTable s !! pid) as [f|] eqn:Ht; [|injection Hst as <- <-; split_and!; [|done..]].
    + destruct (ok_table _ (ro_pool _ _ Hr) _ _ Ht) as (fr & Hf & _).
      destruct (fetch_effect_hit s pid f (ro_pool _ _ Hr) (ro_healthy _ _ Hr) Ht) as (s1 & Hpin & _). rewrite Hpin in Hst. injection Hst as <- <-.
      assert (fetchPage s pid = Some (Done (Ok f), s1)) as Hfe by (unfold fetchPage; by rewrite Ht).
      pose proof (step_hit 0 s (Idle :: (holdingOf <$> gs) ++ X) pid f false s1 eq_refl Ht Hpin) as Hs.
      destruct (Hlocal _ _ _ Hs ltac:(done) Hr) as [? ?].
      split_and!; try done; by apply (fetch_frames_kept s pid f s1 (ro_pool _ _ Hr) (ro_healthy _ _ Hr)).
    + pose proof (step_miss 0 s (Idle :: (holdingOf <$> gs) ++ X) pid false eq_refl Ht Hrange) as Hs.
      by destruct (Hlocal _ _ _ Hs ltac:(done) Hr).
  - pose proof (ro_missed _ _ Hr 0%nat pid false eq_refl) as Hrange. destruct (fetchPageLocked s pid) as [[[[f|e]|] s1]|] eqn:Hl; try done.
    + injection Hst as <- <-. pose proof (step_load 0 s (Missed pid false :: (holdingOf <$> gs) ++ X) pid false (Ok f) s1 eq_refl Hl) as Hs.
      destruct (Hlocal _ _ _ Hs ltac:(done) Hr) as [? ?]. rewrite fetchPageLocked_eq in Hl.
      split_and!; try done; by apply (fetch_frames_kept s pid f s1 (ro_pool _ _ Hr) (ro_healthy _ _ Hr)).
    + exfalso. pose proof (fetch_spec s pid (ro_pool _ _ Hr) Hrange) as Hsp. rewrite <- fetchPageLocked_eq, Hl in Hsp.
      destruct (Hpid pid (or_intror eq_refl)). destruct Hsp as [[Hn|Hn] _]; [by apply Hn, Hr|congruence].
  - destruct (takeLatch s f false) as [s1|] eqn:Hl; [|done]. injection Hst as <- <-.
    pose proof (step_latch 0 s (Pinned pid f false :: (holdingOf <$> gs) ++ X) pid f false s1 eq_refl Hl) as Hs.
    destruct (Hlocal _ _ _ Hs ltac:(done) Hr) as [? ?]. split_and!; try done;
      unfold takeLatch in Hl; (destruct (frames s !! f) as [fr|] eqn:Hf; [|done]); cbn [mbind option_bind] in Hl;
      (case_match; [|done]); injection Hl as <-; by eapply set_frame_kept.
  - destruct (readNode _ _ _) as [[]|]; try done; injection Hst as <- <-; by split_and!.
  - destruct (readNode _ _ _); [|done]. destruct (readNode _ _ _) as [[]|]; try done; injection Hst as <- <-; by split_and!.
  - destruct (readNode _ _ _); [|done]. destruct (readNode _ _ _); [|done]. injection Hst as <- <-. split_and!; try done. by apply (proj2 (runs_ok_idle _ _)).
  - destruct gs as [|[pid f] gs]; [done|]. destruct (frames s !! f) as [fr|] eqn:Hf; cbn [mbind option_bind] in Hst; [|done].
    destruct (unpinPage s (pageId fr)) as [[b s1]|] eqn:Hu; [|done]. injection Hst as <- <-.
    pose proof (step_unpin 0 s (Holding pid f false :: (holdingOf <$> gs) ++ X) pid f false fr b s1 eq_refl Hf Hu) as Hs.
    destruct (Hlocal _ _ _ Hs ltac:(done) Hr) as [? ?]. split_and!; try done; by eapply unpin_frames_kept.
  - destruct (runlock s f) as [s1|] eqn:Hl; [|done]. injection Hst as <- <-.
    pose proof (step_release 0 s (Unpinned f false :: (holdingOf <$> gs) ++ X) f false s1 eq_refl Hl) as Hs.
    destruct (Hlocal _ _ _ Hs ltac:(done) Hr) as [?%(proj1 (runs_ok_idle _ _)) ?]. split_and!; try done;
      unfold runlock in Hl; (destruct (frames s !! f) as [fr|] eqn:Hf; [|done]); cbn [mbind option_bind] in Hl;
      (case_match; [|done]); injection Hl as <-; by eapply set_frame_kept.
Qed.
End invariant.

(** ** One search on a tree *)

Section search.
Context {R D : Type} `{RL : ReplacerLaws R} `{AL : AllocLaws D}.
Context (Lf : list byte -> kvmap -> Prop) (HL : forall p m, Lf p m -> leaf_page_slack p m).
Context (pg : Z -> option (list byte)) (h : nat) (m : kvmap).
Implicit Types (s : Pool R D) (g : Getter) (rs : list Getter) (X : list Phase).

(** Page [pid] is the root of a subtree of height [k] that decides about [key]. *)
Definition decides (key : list byte) (pid : Z) (k : nat) : Prop :=
  exists m' ps, tree_at Lf pg k pid m' ps /\ m' !! key = m !! key.

Definition at_top (g : Getter) (pid : Z) : Prop := exists f rest, g_guards g = (pid, f) :: rest.

(** A search has a guard on every page from the root down to where it is. *)
Definition getter_ok (g : Getter) : Prop :=
  let n := length (g_guards g) in
  match g_pc g with
  | Opening pid | Loading pid | Latching pid _ => exists k, (n + k = h)%nat /\ decides (g_key g) pid k
  | AtNode => exists pid k, at_top g pid /\ (n + k = S h)%nat /\ decides (g_key g) pid k
  | AtLeaf => exists pid, at_top g pid /\ n = S h /\ decides (g_key g) pid 0
  | AtInternal => exists pid k, at_top g pid /\ (n + S k = S h)%nat /\ decides (g_key g) pid (S k)
  | Returning r => r = lookup_result (m !! g_key g) /\ (n <= S h)%nat
  | Releasing _ r => r = lookup_result (m !! g_key g) /\ (n <= h)%nat
  end.

(** The most steps that a search has left. *)
Definition steps_left (g : Getter) : nat :=
  let n := length (g_guards g) in
  match g_pc g with
  | Opening _ => 5 * (h - n) + 5 + 2 * S h
  | Loading _ => 5 * (h - n) + 4 + 2 * S h
  | Latching _ _ => 5 * (h - n) + 3 + 2 * S h
  | AtNode => 5 * (S h - n) + 2 + 2 * S h
  | AtLeaf | AtInternal => 5 * (S h - n) + 1 + 2 * S h
  | Returning _ => 2 * n
  | Releasing _ _ => 2 * n + 1
  end.

Lemma decides_page key pid k : decides key pid k -> is_Some (pg pid).
Proof. intros (m' & ps & Ht & _). by destruct (tree_at_root _ _ _ _ _ _ Ht). Qed.

(** The codec sees the page of the deepest guard. *)
Lemma readNode_page {A} s g X pid (codec : list byte -> option A) :
  runs_ok s (phases g ++ X) -> (forall q, pool_page s q = pg q) -> at_top g pid ->
  readNode s g codec = p ← pg pid; codec p.
Proof.
  intros Hr Hpg (f & rest & Hg). unfold readNode. rewrite Hg. cbn [head mbind option_bind].
  destruct (proj1 (list_elem_of_lookup (phases g ++ X) (Holding pid f false))) as [i Hi].
  { unfold phases. rewrite Hg. apply elem_of_app. left. apply elem_of_app. right. by left. }
  destruct (pinned_page s _ i _ pid f Hr Hi ltac:(exists false; by right)) as (fr & Ht & Hf & _).
  unfold GetPageData, guardFrame. cbn. rewrite Hf. cbn. rewrite <- Hpg. unfold pool_page. by rewrite Ht, Hf.
Qed.

Definition shared X : Prop := forall t f, t ∈ X -> latches_on f true t = false.

(** Waiting for the latch of a page that others only read is over at once. *)
Lemma shared_latch_free s g X pid f :
  runs_ok s (phases g ++ X) -> shared (phases g ++ X) -> g_pc g = Latching pid f -> is_Some (takeLatch s f false).
Proof.
  intros Hr Hsh Hpc. assert ((phases g ++ X) !! 0%nat = Some (Pinned pid f false)) as Hi by (unfold phases; by rewrite Hpc).
  destruct (pinned_page s _ 0 _ pid f Hr Hi ltac:(exists false; by left)) as (fr & Ht & Hf & _).
  unfold takeLatch. rewrite Hf. cbn [mbind option_bind]. pose proof (ro_latch _ _ Hr _ _ Hf) as Hl.
  rewrite (count_zero (latches_on f true)) in Hl by (intros i t Hit; apply Hsh; by eapply list_elem_of_lookup_2).
  pose proof (count_nonneg (latches_on f false) (phases g ++ X)). unfold latch_counts in Hl. case_match; [done|lia].
Qed.

(** Closing the deepest guard. *)
Lemma closing_moves s g X :
  runs_ok s (phases g ++ X) -> getter_ok g ->
  match g_pc g with
  | Returning r => g_guards g = [] \/ exists s' g', get_step s g = Moves s' g' /\ getter_ok g' /\ (steps_left g' < steps_left g)%nat
  | Releasing _ r => exists s' g', get_step s g = Moves s' g' /\ getter_ok g' /\ (steps_left g' < steps_left g)%nat
  | _ => True
  end.
Proof.
  intros Hr Hg. destruct g as [key gs [pid|pid|pid f| | | |r|f r]]; try done; unfold get_step, getter_ok, phases in *; cbn in *.
  - destruct gs as [|[pid f] gs]; [by left|right]. cbn in Hr, Hg.
    destruct (pinned_page s _ 0 _ pid f Hr eq_refl ltac:(exists false; by right)) as (fr & Ht & Hf & (Hpid & _) & Hpos).
    rewrite Hf. cbn [mbind option_bind]. rewrite Hpid. destruct (unpin_spec s pid f fr (ro_pool _ _ Hr) Ht Hf Hpos) as (s' & -> & _).
    eexists _, _. split; [done|]. cbn. split; [split; [apply Hg|lia]|lia].
  - destruct (unpinned_can_drop s _ 0 f false Hr eq_refl) as [s' Hs]. cbn [dropLatch] in Hs. rewrite Hs.
    eexists _, _. split; [done|]. cbn. split; [split; [apply Hg|lia]|lia].
Qed.

(** Reading the node of the deepest guard. *)
Lemma reading_moves s g X :
  runs_ok s (phases g ++ X) -> (forall q, pool_page s q = pg q) -> getter_ok g ->
  match g_pc g with
  | AtNode | AtLeaf | AtInternal => exists g', get_step s g = Moves s g' /\ getter_ok g' /\ (steps_left g' < steps_left g)%nat
  | _ => True
  end.
Proof.
  intros Hr Hpg Hg. pose proof (fun A pid => readNode_page (A := A) s g X pid) as Hread.
  destruct g as [key gs [pid|pid|pid f| | | |r|f r]]; try done; unfold getter_ok, get_step in *; cbn [g_pc g_guards g_key] in *.
  - destruct Hg as (pid & k & Htop & Hk & Hd). pose proof Hd as (m' & ps & Ht & Hm). erewrite Hread by done.
    destruct (tree_at_root _ _ _ _ _ _ Ht) as [_ [p Hp]]. rewrite Hp. cbn [mbind option_bind]. destruct k as [|k].
    + destruct Ht as (p' & Hp' & Hleaf & Hty & _). rewrite Hp in Hp'. injection Hp' as <-. rewrite (leaf_is_leaf _ _ (HL _ _ Hleaf) Hty).
      eexists. split; [done|]. cbn. split; [exists pid; split_and!; try done; lia|lia].
    + destruct (tree_child _ _ _ _ _ _ key p Ht Hp) as (l & free & gb & c & A & _ & _ & _ & -> & _).
      eexists. split; [done|]. cbn. split; [exists pid, k; split_and!; try done; lia|lia].
  - destruct Hg as (pid & Htop & Hk & (m' & ps & (p & Hp & Hleaf%HL & _) & Hm)). erewrite !Hread by done. rewrite Hp. cbn [mbind option_bind].
    destruct (leaf_elements _ _ Hleaf) as [x ->]. rewrite (leaf_find _ _ key Hleaf), Hm.
    exists (mkGetter key gs (Returning (lookup_result (m !! key)))). split; [by destruct (m !! key)|]. cbn. split; [split; [done|lia]|lia].
  - destruct Hg as (pid & k & Htop & Hk & (m' & ps & Ht & Hm)). erewrite !Hread by done.
    destruct (tree_at_root _ _ _ _ _ _ Ht) as [_ [p Hp]]. rewrite Hp. cbn [mbind option_bind].
    destruct (tree_child _ _ _ _ _ _ key p Ht Hp) as (l & free & gb & c & A & _ & _ & _ & _ & [x ->] & -> & _ & Hch & _).
    eexists. split; [done|]. cbn. split; [|lia]. exists k. split; [lia|]. exists (submap l (part key l) m'), A. by rewrite submap_part.
Qed.

(** A step of a search on the tree: it moves on, or has returned the lookup, or
    has found no frame for the page it needs. *)
Lemma get_step_total s g X :
  runs_ok s (phases g ++ X) -> shared (phases g ++ X) -> (forall q, pool_page s q = pg q) -> getter_ok g ->
  match get_step s g with
  | Moves _ g' => getter_ok g' /\ (steps_left g' < steps_left g)%nat
  | Returned r => r = lookup_result (m !! g_key g) /\ g_guards g = []
  | Waits => False
  | Panics => exists pid, g_pc g = Loading pid /\ freeFrames s = [] /\ candidates (replacer s) = []
  end.
Proof.
  intros Hr Hsh Hpg Hg. pose proof (closing_moves s g X Hr Hg) as Hclose. pose proof (reading_moves s g X Hr Hpg Hg) as Hread.
  destruct (g_pc g) as [pid|pid|pid f| | | |r|f r] eqn:Hpc; try (by destruct Hread as (g' & -> & ?)).
  - unfold get_step, getter_ok in *. rewrite Hpc in *. destruct Hg as (k & Hk & Hd). unfold steps_left. rewrite Hpc.
    destruct (pageTable s !! pid) as [f|] eqn:Ht; [|split; cbn; [by exists k|lia]].
    destruct (fetch_effect_hit s pid f (ro_pool _ _ Hr) (ro_healthy _ _ Hr) Ht) as (s1 & -> & _). split; cbn; [by exists k|lia].
  - unfold get_step, getter_ok in *. rewrite Hpc in *. destruct Hg as (k & Hk & Hd). unfold steps_left. rewrite Hpc.
    assert ((phases g ++ X) !! 0%nat = Some (Missed pid false)) as Hi by (unfold phases; by rewrite Hpc).
    pose proof (fetch_spec s pid (ro_pool _ _ Hr) (ro_missed _ _ Hr _ _ _ Hi)) as Hsp. rewrite <- fetchPageLocked_eq in Hsp.
    destruct (fetchPageLocked s pid) as [[[[f|e]|] s1]|].
    + split; cbn; [by exists k|lia].
    + exfalso. destruct Hsp as [[Hn|Hn] _]; [by apply Hn, Hr|]. rewrite Hpg in Hn. destruct (decides_page _ _ _ Hd). congruence.
    + done.
    + exists pid. by split_and!; [|apply Hsp..].
  - destruct (shared_latch_free s g X pid f Hr Hsh Hpc) as [s1 Hl]. unfold get_step, getter_ok in *. rewrite Hpc in *. rewrite Hl.
    destruct Hg as (k & Hk & Hd). unfold steps_left. rewrite Hpc. cbn. split; [|lia].
    exists pid, k. split_and!; [by eexists _, _|lia|done].
  - destruct Hclose as [Hnil|(s' & g' & -> & ?)]; [|done]. unfold get_step. rewrite Hpc, Hnil.
    unfold getter_ok in Hg. rewrite Hpc in Hg. split; [apply Hg|done].
  - by destruct Hclose as (s' & g' & -> & ?).
Qed.

(** ** All the searches *)

Record gets_ok (keys : list (list byte)) (n : nat) s rs : Prop := {
  go_runs : runs_ok s (all_phases rs);
  go_pages q : pool_page s q = pg q;
  go_each j g : rs !! j = Some g -> getter_ok g;
  go_keys : g_key <$> rs = keys;
  go_covered : covered s;
  go_alloc : alloc_inv (disk s);
  go_frames : size (frames s) = n
}.

Definition total_left rs : nat := sum_list (steps_left <$> rs).

Lemma total_left_insert rs j g g' : rs !! j = Some g -> (total_left (<[j := g']> rs) + steps_left g = total_left rs + steps_left g')%nat.
Proof.
  assert (forall x l, total_left (x :: l) = steps_left x + total_left l)%nat as Hcons by done.
  revert j. induction rs as [|x rs IH]; intros [|j] Hj; try done.
  - injection Hj as ->. change (<[0%nat := g']> (g :: rs)) with (g' :: rs). rewrite !Hcons. lia.
  - change (<[S j := g']> (x :: rs)) with (x :: <[j := g']> rs). specialize (IH j Hj). rewrite !Hcons. lia.
Qed.

Lemma getter_split keys n s rs j g : gets_ok keys n s rs -> rs !! j = Some g ->
  exists X, runs_ok s (phases g ++ X) /\ shared (phases g ++ X) /\ forall g', all_phases (<[j := g']> rs) ≡ₚ phases g' ++ X.
Proof.
  intros Hok Hj. destruct (all_phases_split rs j g Hj) as (X & HX & Hins). exists X. split_and!; [|intros t f|done].
  - eapply runs_ok_perm; [exact HX|apply Hok].
  - rewrite <- HX. apply phases_shared.
Qed.

Lemma gets_step keys n s rs j g s' g' :
  gets_ok keys n s rs -> rs !! j = Some g -> get_step s g = Moves s' g' ->
  gets_ok keys n s' (<[j := g']> rs) /\ (total_left (<[j := g']> rs) < total_left rs)%nat.
Proof.
  intros Hok Hj Hst. destruct (getter_split _ _ _ _ _ _ Hok Hj) as (X & Hr & Hsh & Hins). pose proof Hok as [_ Hpg Heach Hkeys Hcov Hal Hn].
  pose proof (get_step_total s g X Hr Hsh Hpg (Heach _ _ Hj)) as Ht. rewrite Hst in Ht. destruct Ht as [Hg' Hlt].
  destruct (get_step_keeps s g s' g' X Hst Hr) as (Hr' & Hpg' & (Hsz & Hcv & Hal') & Hkey).
  { intros pid Hpc. rewrite Hpg. pose proof (Heach _ _ Hj) as Hg. unfold getter_ok in Hg.
    destruct Hpc as [Hpc|Hpc]; rewrite Hpc in Hg; destruct Hg as (k & _ & Hd); by eapply decides_page. }
  split; [|pose proof (total_left_insert rs j g g' Hj); lia]. constructor.
  - eapply runs_ok_perm; [symmetry; apply Hins|done].
  - intros q. by rewrite Hpg', Hpg.
  - intros i x. destruct (decide (i = j)) as [->|Hne]; [|rewrite list_lookup_insert_ne by done; apply Heach].
    rewrite list_lookup_insert_eq by (by eapply lookup_lt_Some). by intros [= <-].
  - rewrite list_fmap_insert, Hkey, list_insert_id; [done|]. by rewrite list_lookup_fmap, Hj.
  - by apply Hcv.
  - by apply Hal'.
  - congruence.
Qed.

Lemma gets_run keys n js : forall s rs s' rs',
  gets_ok keys n s rs -> run_gets js s rs = Some (s', rs') ->
  gets_ok keys n s' rs' /\ (length js + total_left rs' <= total_left rs)%nat.
Proof.
  induction js as [|j js IH]; intros s rs s' rs' Hok; cbn [run_gets].
  { intros [= <- <-]. split; [done|cbn; lia]. }
  destruct (rs !! j) as [g|] eqn:Hj; cbn [mbind option_bind]; [|done]. destruct (get_step s g) as [s1 g1| | |] eqn:Hst; try done.
  intros Hrun. destruct (gets_step _ _ _ _ _ _ _ _ Hok Hj Hst) as [Hok1 Hlt]. destruct (IH _ _ _ _ Hok1 Hrun) as [Hok' Hle].
  split; [done|cbn; lia].
Qed.

(** *** Frames *)

Definition frame_of (t : Phase) : option Z := match t with Pinned _ f _ | Holding _ f _ => Some f | _ => None end.

Lemma pinned_bound rs : (forall g, g ∈ rs -> getter_ok g) -> (length (omap frame_of (all_phases rs)) <= length rs * S h)%nat.
Proof.
  assert (forall gs, length (omap frame_of (holdingOf <$> gs)) = length gs) as Hlen.
  { induction gs as [|[pid f] gs IH]; [done|]. cbn. by rewrite IH. }
  unfold all_phases. induction rs as [|g rs IH]; intros Hall; [done|]. cbn [fmap list_fmap concat]. rewrite omap_app, length_app.
  specialize (IH ltac:(intros x Hx; apply Hall; by right)). specialize (Hall g ltac:(by left)). 
  change (phases g) with (pc_phase (g_pc g) ++ (holdingOf <$> g_guards g)). rewrite omap_app, length_app, Hlen.
  cbn [length]. unfold getter_ok in Hall. destruct (g_pc g); cbn in *;
    repeat match goal with H : _ /\ _ |- _ => destruct H | H : exists _, _ |- _ => destruct H end; lia.
Qed.

(** A page that finds no frame: all of them are pinned, by the guards of searches. *)
Lemma no_frame_pinned keys n s rs :
  gets_ok keys n s rs -> freeFrames s = [] -> candidates (replacer s) = [] ->
  (forall f fr, frames s !! f = Some fr -> 0 < pinCount fr) /\ (n <= length (omap frame_of (all_phases rs)))%nat.
Proof.
  intros [Hr _ _ _ Hcov _ Hn] Hfree Hcand.
  assert (forall f fr, frames s !! f = Some fr -> 0 < pinCount fr /\ exists t, t ∈ all_phases rs /\ frame_of t = Some f) as Hpin.
  { intros f fr Hf. destruct (Hcov f ltac:(by eexists)) as [Hin|[pid Ht]]; [rewrite Hfree in Hin; by apply elem_of_nil in Hin|].
    pose proof (ro_pins _ _ Hr _ _ _ Ht Hf) as Hp. pose proof (count_nonneg (pins_on f) (all_phases rs)) as Hge.
    assert (pinCount fr <> 0) as Hnz.
    { intros Hz. assert (f ∈ candidates (replacer s)) as Hin by (apply (ok_cand _ (ro_pool _ _ Hr)); by exists pid, fr).
      rewrite Hcand in Hin. by apply elem_of_nil in Hin. }
    split; [lia|]. destruct (existsb (pins_on f) (all_phases rs)) eqn:He.
    - apply existsb_exists in He as (t & Ht'%list_elem_of_In & Hon). exists t. split; [done|].
      destruct t; cbn in *; try done; by apply Z.eqb_eq in Hon as ->.
    - exfalso. assert (count (pins_on f) (all_phases rs) = 0); [|lia]. apply count_zero. intros i t Hi.
      destruct (pins_on f t) eqn:Hon; [|done]. rewrite <- He. symmetry. apply existsb_exists. exists t. split; [|done].
      apply list_elem_of_In. by eapply list_elem_of_lookup_2. }
  split; [intros f fr Hf; by eapply Hpin|].
  assert (elements (dom (frames s)) ⊆ omap frame_of (all_phases rs)) as Hsub.
  { intros f [fr Hf]%elem_of_elements%elem_of_dom. apply list_elem_of_omap. by destruct (Hpin f fr Hf) as [_ ?]. }
  apply NoDup_submseteq, submseteq_length in Hsub; [|apply NoDup_elements].
  assert (length (elements (dom (frames s))) = size (frames s)) as Hsf by (rewrite <- (size_dom (frames s)); done). lia.
Qed.

Lemma gets_panic_bound keys n s rs j g pid :
  gets_ok keys n s rs -> rs !! j = Some g -> g_pc g = Loading pid -> freeFrames s = [] -> candidates (replacer s) = [] ->
  (n < length keys * S h)%nat.
Proof.
  intros Hok Hj Hpc Hfree Hcand. destruct (no_frame_pinned _ _ _ _ Hok Hfree Hcand) as [_ Hle]. pose proof Hok as [_ _ Heach Hkeys _ _ _].
  assert (length rs = length keys) as <- by (by rewrite <- Hkeys, length_fmap).
  set (g' := with_pc g (Latching pid 0)). destruct (all_phases_split rs j g Hj) as (X & HX & Hins). specialize (Hins g').
  pose proof (pinned_bound (<[j := g']> rs)) as Hb. rewrite length_insert, Hins in Hb. rewrite HX in Hle.
  unfold phases in Hb, Hle. rewrite Hpc in Hle. cbn in Hb, Hle. enough (forall x, x ∈ <[j := g']> rs -> getter_ok x) as Hall by (specialize (Hb Hall); lia).
  intros x [i Hi]%list_elem_of_lookup. destruct (decide (i = j)) as [->|Hne].
  - rewrite list_lookup_insert_eq in Hi by (by eapply lookup_lt_Some). injection Hi as <-. pose proof (Heach _ _ Hj) as Hg.
    unfold getter_ok in *. by rewrite Hpc in Hg.
  - rewrite list_lookup_insert_ne in Hi by done. by eapply Heach.
Qed.
End search.

Section theorems.
Context {R D : Type} `{RL : ReplacerLaws R} `{AL : AllocLaws D}.
Implicit Types (s : Pool R D) (g : Getter) (rs : list Getter).

Lemma newGets_idle root keys : all_phases (newGet root <$> keys) = replicate (length keys) Idle.
Proof. unfold all_phases. induction keys as [|key keys IH]; [done|]. cbn. by f_equal. Qed.

Lemma newGets_ok Lf s h m ps root keys :
  pool_session s ∅ -> tree_at Lf (pool_page s) h root m ps ->
  gets_ok Lf (pool_page s) h m keys (size (frames s)) s (newGet root <$> keys).
Proof.
  intros [Hok Hhe Hal Hcov Hfr Hfree _] Ht. constructor; try done.
  - rewrite newGets_idle. apply idle_pool_ok; [done..| |].
    + intros pid f fr Hp Hf. specialize (Hfr _ _ _ Hp Hf). by rewrite lookup_empty in Hfr; destruct Hfr.
    + intros f fr Hf. destruct (Hcov f ltac:(by eexists)) as [Hin|[pid Hp]]; [by eapply Hfree|].
      specialize (Hfr _ _ _ Hp Hf). by rewrite lookup_empty in Hfr; destruct Hfr.
  - intros j g. rewrite list_lookup_fmap. destruct (keys !! j) as [key|]; [|done]. intros [= <-]. exists h. split; [done|].
    by exists m, ps.
  - rewrite <- list_fmap_compose. apply list_fmap_id.
Qed.

(** Without guards, the pool is a session without guards. *)
Lemma gets_quiet Lf pg h m keys n s rs :
  gets_ok Lf pg h m keys n s rs -> (forall j g, rs !! j = Some g -> exists r, get_step s g = Returned r) -> pool_session s ∅.
Proof.
  intros [Hr _ _ _ Hcov Hal _] Hfin. assert (all_phases rs = []) as Hnil.
  { clear -Hfin. unfold all_phases. induction rs as [|g rs IH]; [done|]. destruct (Hfin 0%nat g eq_refl) as [r Hg].
    cbn. rewrite IH by (intros j x Hj; by apply (Hfin (S j))). rewrite app_nil_r. unfold get_step in Hg. unfold phases.
    destruct g as [key gs pc]; cbn in *. destruct pc; repeat case_match; by subst. }
  rewrite Hnil in Hr. pose proof Hr as [Hok Hhe _ Hpins Hla _ _]. constructor; try done.
  - intros pid f fr Ht Hf. rewrite lookup_empty. split; [by apply (Hpins _ _ _ Ht Hf)|].
    destruct (Hla _ _ Hf) as [[-> _]|(_ & _ & ?)]; done.
  - intros f fr _ Hf. destruct (Hla _ _ Hf) as [[-> _]|(_ & _ & ?)]; done.
  - intros pid [? Hp]. by rewrite lookup_empty in Hp.
Qed.

(** C4: Any number of [Get]s run together on a tree, in every interleaving of
    their critical sections, with no writer and no disk error to come, from a
    pool without open guards.  They change no page, take at most seven steps per
    level each, and never wait for each other for ever: a [Get] can always take
    its next step, has returned the lookup of its key in the tree's map (the
    value, or "key not found"), or panics because it has to load a page while
    every frame of the pool is pinned.  The panic cannot happen when the pool has
    a frame for every level and every [Get]; once all have returned, no guard is
    open. *)
Theorem concurrent_gets_correct Lf js s0 h m ps root keys s rs :
  (forall p m, Lf p m -> leaf_page_slack p m) -> pool_session s0 ∅ -> tree_at Lf (pool_page s0) h root m ps ->
  run_gets js s0 (newGet root <$> keys) = Some (s, rs) ->
  (forall q, pool_page s q = pool_page s0 q) /\ (length js <= length keys * (7 * S h))%nat /\
  (forall j key, keys !! j = Some key -> exists g, rs !! j = Some g /\
     match get_step s g with
     | Moves _ _ => True
     | Returned r => r = lookup_result (m !! key)
     | Waits => False
     | Panics => (exists pid, g_pc g = Loading pid) /\ (forall f fr, frames s !! f = Some fr -> 0 < pinCount fr) /\
         (size (frames s0) < length keys * S h)%nat
     end) /\
  ((forall j g, rs !! j = Some g -> exists r, get_step s g = Returned r) -> pool_session s ∅).
Proof.
  intros HL Hs Ht Hrun. pose proof (newGets_ok Lf s0 h m ps root keys Hs Ht) as Hok0.
  destruct (gets_run Lf HL _ _ _ _ _ js _ _ _ _ Hok0 Hrun) as [Hok Hlen]. pose proof Hok as [_ Hpg Heach Hkeys _ _ _].
  split; [done|split; [|split; [|by eapply gets_quiet]]].
  - assert (forall l, total_left h (newGet root <$> l) = length l * (7 * S h))%nat as Htot; [|rewrite Htot in Hlen; lia].
    induction l as [|key l IH]; [done|]. unfold total_left in *. cbn [fmap list_fmap sum_list sum_list_with].
    change (length (key :: l)) with (S (length l)). cbn in IH |- *. lia.
  - intros j key Hj. assert (exists g, rs !! j = Some g /\ g_key g = key) as (g & Hg & <-).
    { rewrite <- Hkeys, list_lookup_fmap in Hj. destruct (rs !! j) as [g|]; [|done]. injection Hj as <-. by exists g. }
    exists g. split; [done|]. destruct (getter_split Lf _ h m _ _ _ _ _ _ Hok Hg) as (X & Hr & Hsh & _).
    pose proof (get_step_total Lf HL _ h m s g X Hr Hsh Hpg (Heach _ _ Hg)) as Hst. destruct (get_step s g); try done; [by apply Hst|].
    destruct Hst as (pid & Hpc & Hfree & Hcand). split; [by exists pid|split; [by eapply no_frame_pinned|by eapply gets_panic_bound]].
Qed.
End theorems.
