(* ===== verification/PoolSamples.v ===== *)
(** * The buffer pool on the LRU replacer and the direct-I/O disk

    The pool's theorems are stated over the interfaces; here they are applied to
    the implementations the program uses, on concrete states. *)

From S2P Require Export PoolSession PoolRuns.


(** The pool after an operation that succeeds. *)
Definition after_fetch (s : DbPool) (pid : Z) : DbPool :=
  match fetchPage s pid with Some (_, s') => s' | None => s end.

Definition sample_pool : DbPool := NewSimpleBufferPoolManager 2 NewLRUReplacer sample_disk.
Definition pinned_pool : DbPool := after_fetch sample_pool 1.

Lemma sample_pool_ok : pool_ok sample_pool.
Proof. exact (proj1 (new_pool_ok (R := LRUReplacer) 2 sample_disk (alloc_file _ sample_disk_ok))). Qed.

Lemma sample_fetch : exists s', fetchPage sample_pool 1 = Some (Done (Ok 0), s') /\ fetched sample_pool s' 1 0.
Proof.
  pose proof (fetchPageLocked_spec sample_pool 1 sample_pool_ok ltac:(lia)) as Hf.
  assert (pageTable sample_pool !! 1 = None) as Ht by (apply lookup_empty).
  assert (fetchPage sample_pool 1 = fetchPageLocked sample_pool 1) as Heq by (unfold fetchPage; by rewrite Ht). rewrite Heq.
  assert (fst <$> fetchPageLocked sample_pool 1 = Some (Done (Ok 0))) as Hv by (vm_compute; reflexivity).
  destruct (fetchPageLocked sample_pool 1) as [[o s']|]; [|done]. cbn in Hv. injection Hv as ->. exists s'. split; [reflexivity|exact Hf].
Qed.

Lemma pinned_pool_ok :
  pool_ok pinned_pool /\ pageTable pinned_pool !! 1 = Some 0 /\
  exists fr, frames pinned_pool !! 0 = Some fr /\ pinCount fr = 1.
Proof.
  destruct sample_fetch as (s' & Heq & Hok & _ & _ & fr & Ht & Hf & _ & Hp).
  unfold pinned_pool, after_fetch. rewrite Heq. split_and!; [exact Hok|exact Ht|]. exists fr. split; [exact Hf|]. rewrite Hp. unfold pins.
  assert (pageTable sample_pool !! 1 = None) as -> by (apply lookup_empty). reflexivity.
Qed.

Lemma pool_fetch_transparent_witness :
  exists f s', fetchPage sample_pool 1 = Some (Done (Ok f), s') /\ fetched sample_pool s' 1 f.
Proof.
  pose proof (pool_fetch_transparent sample_pool 1 sample_pool_ok ltac:(lia)) as Hf.
  assert (fst <$> fetchPage sample_pool 1 = Some (Done (Ok 0))) as Hv by (vm_compute; reflexivity).
  destruct (fetchPage sample_pool 1) as [[o s']|]; [|discriminate]. cbn in Hv. injection Hv as ->.
  exists 0, s'. split; [reflexivity|exact Hf].
Defined.

Lemma pool_unpin_witness : exists s', unpinPage pinned_pool 1 = Some (true, s') /\ pool_ok s'.
Proof.
  destruct pinned_pool_ok as (Hok & Ht & fr & Hf & Hp).
  destruct (pool_unpin pinned_pool 1 0 fr Hok Ht Hf) as (s' & Heq & Hok' & _); [lia|]. exists s'. auto.
Defined.

Lemma pool_flush_durable_witness :
  exists s', FlushAllPages pinned_pool (map_to_list (pageTable pinned_pool)) = Some (Ok tt, s') /\
    forall q, disk_page (disk s') q = pool_page pinned_pool q.
Proof.
  destruct pinned_pool_ok as (Hok & _).
  destruct (pool_flush_durable pinned_pool (map_to_list (pageTable pinned_pool)) Hok)
    as (r & s' & Heq & _ & _ & Hh & Hr); [apply Permutation_refl|].
  assert (r = Ok tt) as -> by (apply Hh; vm_compute; constructor). exists s'. auto.
Defined.

Lemma pool_delete_witness : exists s', deletePage pinned_pool 1 = Some (Done (Ok true), s') /\ pool_ok s'.
Proof.
  destruct pinned_pool_ok as (Hok & Ht & fr & Hf & Hp).
  destruct (pool_delete pinned_pool 1 Hok) as (b & s' & Heq & Hb & _ & Hr); [lia|].
  assert (b = true) as -> by (apply Hb; unfold pins; rewrite Ht, Hf; exact Hp). exists s'. destruct (Hr eq_refl). auto.
Defined.

Lemma write_session_witness :
  exists g s1 s2 s3 s4, NewWriteGuard sample_pool 1 = Some (Done (Ok g), s1) /\
    writePageData s1 g (replicate 4096 x41) = Some s2 /\ SetDirtyFlag s2 g = Some (true, s3) /\
    WriteGuardDone s3 g = Some (true, mkGuard false None false, s4) /\
    pool_page s4 1 = Some (replicate 4096 x41) /\ pool_page s4 3 = pool_page sample_pool 3.
Proof.
  assert (fst <$> NewWriteGuard sample_pool 1 = Some (Done (Ok (mkGuard true (Some 0) true)))) as Hv
    by (vm_compute; reflexivity).
  destruct (NewWriteGuard sample_pool 1) as [[o s1]|] eqn:Hg; [|discriminate]. cbn in Hv. injection Hv as ->.
  destruct (write_session sample_pool 1 (mkGuard true (Some 0) true) s1 (replicate 4096 x41) sample_pool_ok)
    as (s2 & s3 & s4 & H2 & H3 & H4 & _ & Hpp & _); [lia|exact Hg|reflexivity|].
  exists (mkGuard true (Some 0) true), s1, s2, s3, s4. split_and!; [reflexivity|exact H2|exact H3|exact H4| |];
    rewrite Hpp; reflexivity.
Defined.

Lemma read_guard_done_twice_witness :
  exists g s g1 s1, ReadGuardDone s g = Some (true, g1, s1) /\ ReadGuardDone (R := LRUReplacer) (D := DirectIODiskManager) s1 g1 = None.
Proof.
  assert (match NewReadGuard sample_pool 1 with
          | Some (Done (Ok g), s) => fst <$> ReadGuardDone s g
          | _ => None end = Some (true, mkGuard true None false)) as Hv by (vm_compute; reflexivity).
  destruct (NewReadGuard sample_pool 1) as [[[[g|]|] s]|]; try discriminate.
  destruct (ReadGuardDone s g) as [[[b g1] s1]|] eqn:Hd; [|discriminate]. cbn in Hv. injection Hv as -> ->.
  exists g, s, (mkGuard true None false), s1. split; [exact Hd|].
  destruct (read_guard_done_twice s g (mkGuard true None false) s1 Hd) as [_ Hn]. exact Hn.
Defined.

Lemma delete_page_reports_false_witness :
  exists g s b g1 s1, DeletePage (R := LRUReplacer) (D := DirectIODiskManager) s g = Some (Done (Ok b), g1, s1) /\
    active g1 = false /\ b = false.
Proof.
  assert (match NewWriteGuard sample_pool 1 with
          | Some (Done (Ok g), s) => fst <$> DeletePage s g
          | _ => None end = Some (Done (Ok false), mkGuard false None false)) as Hv by (vm_compute; reflexivity).
  destruct (NewWriteGuard sample_pool 1) as [[[[g|]|] s]|]; try discriminate.
  destruct (DeletePage s g) as [[[o g1] s1]|] eqn:Hd; [|discriminate]. cbn in Hv. injection Hv as -> ->.
  exists g, s, false, (mkGuard false None false), s1. split_and!; [exact Hd|reflexivity|].
  apply (delete_page_reports_false s g false (mkGuard false None false) s1 Hd).
Defined.

(** ** A pool of one frame whose page is dirty and unpinned, over a disk whose
    next write fails *)

Definition failing_disk : DirectIODiskManager :=
  mkDisk (mkFile (replicate (4 * 4096) x00) [false; true]) (metadata sample_disk) map_to_list.

Definition dirty_frame : Frame := mkFrame 1 (replicate 4096 x41) 0 true 0.

Definition failing_pool : DbPool :=
  mkPool (lru_insert NewLRUReplacer 0) failing_disk {[1 := 0]} {[0 := dirty_frame]} [] false.

Lemma failing_pool_ok : pool_ok failing_pool.
Proof.
  assert (lru_ok (lru_insert NewLRUReplacer 0)) as Hl.
  { apply lru_insert_ok; [exact (proj1 (new_ok (R := LRUReplacer)))|apply not_elem_of_nil]. }
  assert (file_ok (file failing_disk)) as Hf by (split; vm_compute; congruence).
  constructor; cbn; try done.
  - intros f fr [_ <-]%lookup_singleton_Some. done.
  - intros pid f [<- <-]%lookup_singleton_Some. exists dirty_frame. rewrite lookup_singleton_eq. split; [done|].
    split_and!; done.
  - constructor.
  - intros f []%elem_of_nil.
  - intros f. split.
    + intros [->|[]%elem_of_nil]%elem_of_cons. exists 1, dirty_frame. rewrite !lookup_singleton_eq. done.
    + intros (pid & fr & [_ <-]%lookup_singleton_Some & _). by left.
Qed.

Lemma pool_failed_writeback_witness :
  exists s', fetchPage failing_pool 3 = Some (Done (Error ErrOS), s') /\ pageTable s' !! 1 = None.
Proof.
  destruct (pool_failed_writeback failing_pool 3 0 dirty_frame
    (mkLRU [] (delete 0 {[0 := 0%nat]}) 1) ErrOS
    (with_file failing_disk (mkFile (replicate (4 * 4096) x00) [true]))
    (with_file failing_disk (mkFile (replicate (4 * 4096) x00) []))
    (sub (replicate (4 * 4096) x00) (3 * 4096) 4096) failing_pool_ok) as (s' & Heq & Ht & _);
    [lia|reflexivity|reflexivity|vm_compute; reflexivity..|cbn; lia|vm_compute; reflexivity|].
  exists s'. auto.
Defined.

(** ** Goroutines *)

Definition after {A} (s : DbPool) (o : option (A * DbPool)) : DbPool := match o with Some (_, s') => s' | None => s end.
Definition latched (s : DbPool) (f : Z) (e : bool) : DbPool := default s (takeLatch s f e).

(** Two goroutines miss page 1 before either of them loads it; both end up
    reading it in frame 0. *)
Definition loaded_once : DbPool := after sample_pool (fetchPageLocked sample_pool 1).
Definition loaded_twice : DbPool := after loaded_once (fetchPageLocked loaded_once 1).
Definition both_reading : DbPool := latched (latched loaded_twice 0 false) 0 false.

Lemma both_miss_run :
  pool_run [0; 1; 0; 1; 0; 1]%nat (sample_pool, replicate 2 Idle) (both_reading, [Holding 1 0 false; Holding 1 0 false]).
Proof.
  econstructor; [apply (step_miss 0 sample_pool [Idle; Idle] 1 false); [reflexivity|reflexivity|lia]|].
  econstructor; [apply (step_miss 1 sample_pool [Missed 1 false; Idle] 1 false); [reflexivity|reflexivity|lia]|].
  econstructor; [apply (step_load 0 sample_pool [Missed 1 false; Missed 1 false] 1 false (Ok 0) loaded_once); [reflexivity|vm_compute; reflexivity]|].
  econstructor; [apply (step_load 1 loaded_once [Pinned 1 0 false; Missed 1 false] 1 false (Ok 0) loaded_twice); [reflexivity|vm_compute; reflexivity]|].
  econstructor; [apply (step_latch 0 loaded_twice [Pinned 1 0 false; Pinned 1 0 false] 1 0 false (latched loaded_twice 0 false)); [reflexivity|vm_compute; reflexivity]|].
  econstructor; [apply (step_latch 1 (latched loaded_twice 0 false) [Holding 1 0 false; Pinned 1 0 false] 1 0 false both_reading); [reflexivity|vm_compute; reflexivity]|].
  constructor.
Qed.

Lemma sample_pool_idle n : runs_ok sample_pool (replicate n Idle).
Proof.
  apply idle_pool_ok; [exact sample_pool_ok|vm_compute; constructor| |].
  - intros pid f fr Ht. change (pageTable sample_pool) with (∅ : gmap Z Z) in Ht. by rewrite lookup_empty in Ht.
  - intros f fr Hf. cbn in Hf. rewrite !lookup_insert_Some in Hf. destruct Hf as [[_ <-]|[_ [[_ <-]|[_ Hf]]]]; [done|done|].
    by rewrite lookup_empty in Hf.
Qed.

Lemma guards_exclude_witness :
  GetPageId both_reading (guardOn 0) = Some 1 /\ GetPageData both_reading (guardOn 0) = Some (pool_page both_reading 1).
Proof.
  destruct (guards_exclude [0; 1; 0; 1; 0; 1]%nat sample_pool 2 both_reading _ (sample_pool_idle 2) both_miss_run) as (_ & Hh & _).
  destruct (Hh 0%nat 1 0 false eq_refl) as (H1 & H2 & _). split; [exact H1|exact H2].
Defined.

Lemma held_page_stable_witness :
  exists s', pool_run [1; 1]%nat (both_reading, [Holding 1 0 false; Holding 1 0 false]) (s', [Holding 1 0 false; Idle]) /\
    pool_page s' 1 = pool_page both_reading 1.
Proof.
  pose proof (pool_run_ok _ _ _ _ _ both_miss_run (sample_pool_idle 2)) as Hr.
  destruct (held_can_finish both_reading _ 1 1 0 false Hr eq_refl) as [s1 Hst1].
  destruct (pool_step_ok _ _ _ _ _ Hst1 Hr) as [Hr1 _].
  destruct (unpinned_can_release s1 _ 1 0 false Hr1 eq_refl) as [s2 Hst2].
  assert (pool_run [1; 1]%nat (both_reading, [Holding 1 0 false; Holding 1 0 false]) (s2, [Holding 1 0 false; Idle])) as Hrun
    by (econstructor; [exact Hst1|econstructor; [exact Hst2|constructor]]).
  exists s2. split; [exact Hrun|].
  apply (held_page_stable [1; 1]%nat both_reading [Holding 1 0 false; Holding 1 0 false] s2 [Holding 1 0 false; Idle] 0 1 0 false Hr Hrun eq_refl).
  vm_compute. intros Hin. repeat (apply elem_of_cons in Hin as [Hin|Hin]; [discriminate|]). by apply elem_of_nil in Hin.
Defined.
