(* ===== verification/TreeSamples.v ===== *)
(** * The tree on the LRU replacer and the direct-I/O disk

    The theorems on the tree are stated over the pool's interface and any log
    that takes every record; here they are applied to the implementations the
    program uses, on a database file of four pages: the metadata page, a full
    leaf, a second leaf, and a root above them. *)

From S2P Require Export PoolSession PoolSamples TreeMap TreeTermination.

(** ** A log that keeps every record *)

#[export] Instance list_WAL : WAL (list LogOperation) := fun w op => (Ok (len w + 1), w ++ [op]).

Lemma list_log_reliable : log_reliable (list LogOperation).
Proof. intros w op. by eexists _, _. Qed.

(** ** The pages *)

Definition big_value (b : byte) : list byte := replicate 440 b.
Definition full_keys : list byte := [x01; x02; x03; x04; x05; x06; x07; x08; x0a].

(** Nine pairs of 449 bytes with their slots leave 23 bytes. *)
Definition full_leaf : list byte := foldl (fun p k => put p [k] (big_value k)) zero_page full_keys.
Definition full_map : kvmap := foldl (fun m k => <[[k] := big_value k]> m) ∅ full_keys.

Lemma put_page p m free k v :
  leaf_page p m (free + leaf_need k v) 0 -> m !! k = None -> 0 <= free -> leaf_page (put p k v) (<[k := v]> m) free 0.
Proof.
  intros Hp Hk Hf. replace free with (free + leaf_need k v - leaf_need k v) by lia. apply leaf_page_put; [done|done|lia].
Qed.

Lemma full_leaf_page : leaf_page full_leaf full_map 23 0.
Proof.
  unfold full_leaf, full_map, full_keys. cbn [foldl].
  do 9 (apply put_page; [|vm_compute; reflexivity|vm_compute; discriminate]). exact leaf_page_zero.
Qed.

Definition right_leaf : list byte := put zero_page [x50] (big_value x50).
Definition right_map : kvmap := {[[x50] := big_value x50]}.

Lemma right_leaf_page : leaf_page right_leaf right_map 3615 0.
Proof. apply put_page; [exact leaf_page_zero|vm_compute; reflexivity|lia]. Qed.

Definition sample_sep : list byte := [x40].
Definition root_page : list byte := write (putSeparator (replicate 4096 x00) sample_sep 1 2) 4 [x01].

Lemma root_page_node : internal_page root_page [mkInternal sample_sep 1 2] 4041 0 /\ node_type root_page = 1.
Proof.
  assert (internal_page (putSeparator (replicate 4096 x00) sample_sep 1 2) [mkInternal sample_sep 1 2] 4041 0) as Hi.
  { apply (internal_page_put _ [] 4064 0 sample_sep 1 2 internal_page_zero); [intros a []%elem_of_nil|vm_compute; discriminate|lia|lia]. }
  destruct (internal_type_page _ _ _ _ Hi) as (p' & Hset & Hp' & Hty & _).
  assert (internalSetNodeType (putSeparator (replicate 4096 x00) sample_sep 1 2) = Some root_page) as Heq by (vm_compute; reflexivity).
  rewrite Heq in Hset. apply (inj Some) in Hset. rewrite Hset. split; [exact Hp'|exact Hty].
Qed.

#[local] Opaque full_leaf right_leaf root_page.

(** ** The databases *)

Definition tree_disk : DirectIODiskManager :=
  mkDisk (mkFile (zero_page ++ full_leaf ++ right_leaf ++ root_page) []) (mkMetaData 0 1 ∅ 3 [] ∅) map_to_list.

Lemma tree_disk_ok : alloc_ok tree_disk.
Proof.
  constructor; [split; vm_compute; congruence|vm_compute; split; congruence|constructor..].
Qed.

Definition tree_pool : DbPool := NewSimpleBufferPoolManager 5 NewLRUReplacer tree_disk.

(** The tree of two levels, the tree that is the full leaf, and an empty tree,
    all in the same file. *)
Definition two_level_db : Db DbPool (list LogOperation) := mkDb tree_pool [] (mkBPlusTree 0 3 1).
Definition leaf_db : Db DbPool (list LogOperation) := mkDb tree_pool [] (mkBPlusTree 0 1 1).
Definition empty_db : Db DbPool (list LogOperation) := mkDb tree_pool [] (mkBPlusTree 0 0 0).

Lemma tree_pool_session : session tree_pool ∅.
Proof.
  assert (healthy tree_disk) as Hh by constructor. exact (new_pool_session (R := LRUReplacer) 5 tree_disk tree_disk_ok Hh).
Qed.

Lemma tree_pool_pages :
  store_page tree_pool 1 = Some full_leaf /\ store_page tree_pool 2 = Some right_leaf /\ store_page tree_pool 3 = Some root_page.
Proof. vm_compute. auto. Qed.

Lemma tree_pool_used q : 1 <= q <= 3 -> md_in_use (bpm_metadata tree_pool) q.
Proof. intros Hq. split; [exact Hq|apply not_elem_of_nil]. Qed.

Lemma tree_pool_blank q data :
  store_page tree_pool q = Some data -> ~ md_in_use (bpm_metadata tree_pool) q -> q <> 0 -> data = blank_page.
Proof.
  intros Hq Hn Hz. destruct Hn. apply tree_pool_used. revert Hq.
  assert (store_page tree_pool q = direct_page tree_disk q) as ->
    by exact (proj2 (new_pool_ok (R := LRUReplacer) 5 tree_disk (alloc_file _ tree_disk_ok)) q).
  rewrite direct_page_ok by apply tree_disk_ok.
  unfold file_page. assert (file_pages (file tree_disk) = 4) as -> by (vm_compute; reflexivity). case_decide; [lia|done].
Qed.

Definition two_level_map : kvmap := full_map ∪ right_map.

Lemma two_level_parts : lower sample_sep two_level_map = full_map /\ upper sample_sep two_level_map = right_map.
Proof.
  apply cut_union.
  - assert (map_Forall (fun k _ => bytesCompare k sample_sep = -1) full_map) as Hm
      by (refine (bool_decide_eq_true_1 _ _); vm_compute; reflexivity).
    intros k [v Hv]. exact (Hm k v Hv).
  - intros k [v Hv]. unfold right_map in Hv. apply lookup_singleton_Some in Hv as [<- _]. vm_compute. discriminate.
Qed.

Lemma full_exact : exact_leaf full_leaf full_map.
Proof. eexists _, _. exact full_leaf_page. Qed.

Lemma right_exact : exact_leaf right_leaf right_map.
Proof. eexists _, _. exact right_leaf_page. Qed.

Lemma leaf_types : node_type full_leaf = 0 /\ node_type right_leaf = 0.
Proof. vm_compute. split; reflexivity. Qed.

Lemma two_level_tree : tree_db exact_leaf two_level_db 1 two_level_map {[3; 1; 2]}.
Proof.
  destruct tree_pool_pages as (H1 & H2 & H3). destruct root_page_node as [Hi Hty].
  constructor; cbn [pool tree two_level_db rootNodePageId]; [exact tree_pool_session| |..|exact tree_pool_blank].
  - eapply (two_leaf_tree (store_page tree_pool) 3 1 2 sample_sep); [exact H3|exact Hi|lia|lia|lia|lia|..].
    + rewrite (proj1 two_level_parts). exact (ex_intro _ full_leaf (conj H1 (conj full_exact (conj (proj1 leaf_types) eq_refl)))).
    + rewrite (proj2 two_level_parts). exact (ex_intro _ right_leaf (conj H2 (conj right_exact (conj (proj2 leaf_types) eq_refl)))).
  - intros q Hq. apply tree_pool_used. rewrite !elem_of_union, !elem_of_singleton in Hq. lia.
Qed.

Lemma leaf_tree : tree_db exact_leaf leaf_db 0 full_map {[1]}.
Proof.
  destruct tree_pool_pages as (H1 & _ & _).
  constructor; cbn [pool tree leaf_db rootNodePageId]; [exact tree_pool_session| |..|exact tree_pool_blank].
  - exact (ex_intro _ full_leaf (conj H1 (conj full_exact (conj (proj1 leaf_types) eq_refl)))).
  - intros q ->%elem_of_singleton. apply tree_pool_used. lia.
Qed.

Lemma tree_pool_capacity : capacity tree_pool = 5%nat.
Proof. vm_compute. reflexivity. Qed.

Lemma tree_pool_room n : (n <= 2)%nat -> room tree_pool n.
Proof.
  intros Hn. change (file_pages (file tree_disk) + 16 * Z.of_nat n <= 2 ^ 51).
  assert (file_pages (file tree_disk) = 4) as -> by (vm_compute; reflexivity). lia.
Qed.

(** Map facts by evaluation. *)
Lemma full_map_at : full_map !! [x03] = Some (big_value x03) /\ full_map !! [x09] = None.
Proof. vm_compute. split; reflexivity. Qed.

Lemma two_level_map_at : two_level_map !! [x50] = Some (big_value x50) /\ two_level_map !! [x09] = None.
Proof. vm_compute. split; reflexivity. Qed.

Lemma full_small : small_elements full_map [x09] (big_value x09).
Proof.
  split; [vm_compute; discriminate|].
  assert (map_Forall (fun k v => leaf_size (mkLeaf k v) <= 500) full_map) as Hm
    by (refine (bool_decide_eq_true_1 _ _); vm_compute; reflexivity).
  exact Hm.
Qed.

Lemma full_is_full : leaf_full full_map 23 0 [x09] (big_value x09).
Proof. split_and!; [apply full_map_at| |exact full_small]. intros [H|H]; vm_compute in H; by apply H. Qed.

Lemma sample_route : FindNextChildNodePageId root_page [x09] = Some 1 /\ FindNextChildNodePageId root_page [x50] = Some 2.
Proof. vm_compute. split; reflexivity. Qed.

(** ** The theorems at these databases *)

Lemma tree_Get_correct_witness :
  exists st', BPlusTree_Get 2 [x50] two_level_db = Some (Done (Ok (big_value x50)), st').
Proof.
  destruct (tree_Get_correct exact_leaf two_level_db 1 two_level_map {[3; 1; 2]} 2 [x50]) as (st' & Hr & _);
    [exact exact_leaf_slack|exact two_level_tree|vm_compute; lia|lia|].
  rewrite (proj1 two_level_map_at) in Hr. exists st'. exact Hr.
Defined.

Lemma tree_Delete_correct_witness :
  exists st', BPlusTree_Delete 2 [x50] two_level_db = Some (Done (Ok tt), st') /\
    tree_db exact_leaf st' 1 (delete [x50] two_level_map) {[3; 1; 2]}.
Proof.
  destruct (tree_Delete_correct two_level_db 1 two_level_map {[3; 1; 2]} 2 [x50]) as (st' & Hr & Hdb & _);
    [exact two_level_tree|vm_compute; lia|lia|].
  rewrite (proj1 two_level_map_at), decide_True in Hr by (eexists; reflexivity). exists st'. split; [exact Hr|exact Hdb].
Defined.

Lemma two_level_leaf key c :
  FindNextChildNodePageId root_page key = Some c -> leaf_of (store_page tree_pool) 1 3 key c.
Proof. intros Hf. destruct tree_pool_pages as (_ & _ & H3). exists root_page, c. split_and!; [exact H3|exact Hf|reflexivity]. Qed.

Lemma tree_Insert_in_place_witness :
  exists st', BPlusTree_Insert 2 [x50] (big_value x51) two_level_db = Some (Done (Ok tt), st') /\
    tree_db exact_leaf st' 1 (<[[x50] := big_value x51]> two_level_map) {[3; 1; 2]}.
Proof.
  destruct (tree_Insert_in_place list_log_reliable two_level_db 1 two_level_map {[3; 1; 2]} 2 [x50] (big_value x51) 2 right_leaf
    right_map 3615 0) as (st' & Hr & _ & _ & Hdb);
    [exact two_level_tree|exact (two_level_leaf _ _ (proj2 sample_route))|exact (proj1 (proj2 tree_pool_pages))|exact right_leaf_page
    |split; [vm_compute; reflexivity|left; vm_compute; discriminate]|vm_compute; lia|lia|].
  exists st'. split; [exact Hr|]. apply Hdb. intros v Hv. rewrite (proj1 two_level_map_at) in Hv. injection Hv as <-. vm_compute. discriminate.
Defined.

Lemma tree_Insert_slot_gap_witness :
  exists st', BPlusTree_Insert 1 [x09] (replicate 16 x00) leaf_db = Some (Done (Ok tt), st') /\
    tree_db exact_leaf st' 0 full_map {[1]}.
Proof.
  destruct (tree_Insert_slot_gap list_log_reliable leaf_db 0 full_map {[1]} 1 [x09] (replicate 16 x00) 1 full_leaf full_map 23 0)
    as (st' & Hr & Hdb);
    [exact leaf_tree|reflexivity|exact (proj1 tree_pool_pages)|exact full_leaf_page|exact (proj2 full_map_at)
    |split; [split; vm_compute; [discriminate|reflexivity]|vm_compute; reflexivity]|vm_compute; lia|lia|].
  exists st'. split; [exact Hr|exact Hdb].
Defined.

Lemma two_level_split_ready : insert_ready two_level_db two_level_map [x09] (big_value x09) 1.
Proof.
  apply (ready_split _ _ _ _ 0 1); [|apply tree_pool_room; lia]. destruct tree_pool_pages as (H1 & _ & H3).
  exists 3, root_page, [mkInternal sample_sep 1 2], 4041, 0, full_leaf, full_map, 23, 0.
  split; [reflexivity|split; [exact H3|split; [exact (proj1 root_page_node)|split; [left; lia|split; [exact (proj1 sample_route)|]]]]].
  split; [exact H1|split; [exact full_leaf_page|exact full_is_full]].
Qed.

Lemma leaf_root_ready : insert_ready leaf_db full_map [x09] (big_value x09) 0.
Proof.
  apply (ready_root _ _ _ _ full_leaf 23 0); [exact (proj1 tree_pool_pages)|exact full_leaf_page|exact full_is_full|apply tree_pool_room; lia].
Qed.


(** One run would panic at the end of its fuel, the other never return. *)
Definition panics : OutOfFuel := fun B W A st => None.

Lemma tree_operations_terminate_witness :
  BPlusTree_Get (OF := panics) 9 [x09] two_level_db = BPlusTree_Get 2 [x09] two_level_db /\
  BPlusTree_Insert (OF := panics) 9 [x09] (big_value x09) two_level_db = BPlusTree_Insert 2 [x09] (big_value x09) two_level_db /\
  BPlusTree_Delete (OF := panics) 9 [x09] two_level_db = BPlusTree_Delete 2 [x09] two_level_db.
Proof.
  apply (tree_operations_terminate panics never_returns exact_leaf two_level_db 1 two_level_map {[3; 1; 2]} 9 2 [x09] (big_value x09));
    [exact exact_leaf_slack|exact two_level_tree|vm_compute; lia|lia|lia].
Defined.

Lemma empty_tidy : tidy tree_pool ∅.
Proof. split; [intros q []; by rewrite lookup_empty in *|exact tree_pool_blank]. Qed.

Lemma tree_Insert_first_witness :
  exists st' rid, BPlusTree_Insert 1 [x09] (big_value x09) empty_db = Some (Done (Ok tt), st') /\
    tree_db exact_leaf st' 0 {[[x09] := big_value x09]} {[rid]}.
Proof.
  destruct (tree_Insert_first list_log_reliable empty_db 1 [x09] (big_value x09)) as (st' & rid & Hr & _ & Hdb);
    [exact tree_pool_session|exact empty_tidy|reflexivity|vm_compute; discriminate|apply tree_pool_room; lia|vm_compute; lia|lia|].
  exists st', rid. split; [exact Hr|exact Hdb].
Defined.
