(* ===== verification/RecoverySamples.v ===== *)
(** * Recovery of the sample database *)

From S2P Require Export TreeSamples CrashRuns RedoSplit.

(** The order of the pages at a flush. *)
Definition table_order (p : DbPool) : list (Z * Z) := map_to_list (pageTable p).

Definition no_tree : BPlusTree := mkBPlusTree 0 0 0.
Definition no_log : list LogOperation := [].

(** Operations of two trees that overlap, the one that begins later committing
    first, and one that does not commit. *)
Definition other_update : committed :=
  mkCommitted 1 2 [mkRecord 3 (UpdateLeafNodeEntry 1 1 [x03] (big_value x51))] 5.

Definition late_update : committed := mkCommitted 0 1 [mkRecord 4 (UpdateLeafNodeEntry 0 2 [x50] (big_value x51))] 7.

Definition overlapping_trees : list WALRecord :=
  [mkRecord 1 (BeginOperation 0); mkRecord 2 (BeginOperation 1); mkRecord 3 (UpdateLeafNodeEntry 1 1 [x03] (big_value x51));
   mkRecord 4 (UpdateLeafNodeEntry 0 2 [x50] (big_value x51)); mkRecord 5 (CommitOperation 1); mkRecord 6 (BeginOperation 1);
   mkRecord 7 (CommitOperation 0)].

Definition left_open (id : Z) : list WALRecord := if decide (id = 1) then [mkRecord 6 (BeginOperation 1)] else [].

Lemma recover_redoes_committed_witness :
  Recover table_order (Ok (Ok <$> overlapping_trees)) (mkDb tree_pool no_log no_tree) =
  (do! redoAll [mkRecord 3 (UpdateLeafNodeEntry 1 1 [x03] (big_value x51)); mkRecord 4 (UpdateLeafNodeEntry 0 2 [x50] (big_value x51))];
   FlushM table_order) (mkDb tree_pool no_log no_tree).
Proof.
  apply (recover_redoes_committed table_order overlapping_trees [other_update; late_update] left_open).
  - repeat constructor.
  - intros id. unfold left_open. case_decide; [|by left]. right. exists 1, 6, []. split; [reflexivity|constructor].
  - intros id. unfold left_open. destruct (decide (id = 0)) as [->|H0]; [reflexivity|].
    destruct (decide (id = 1)) as [->|H1]; [reflexivity|].
    unfold records_of, ops_of, overlapping_trees, other_update, late_update. cbn [app].
    rewrite !list.filter_cons_False by (cbn; congruence). reflexivity.
  - reflexivity.
Defined.

(** The LSNs that the list gives. *)
Lemma list_logged_second (r0 r r1 : WALRecord) (w' : list LogOperation) : logged [] [r0; r; r1] w' -> recordLSN r = 2.
Proof.
  intros Hl. inversion Hl as [|? ? ? ? ? ? H1 Hl1]; subst. inversion Hl1 as [|? ? ? ? ? ? H2 Hl2]; subst.
  injection H1 as <- <-. injection H2 as <- <-. reflexivity.
Qed.

Lemma tree_pool_crashed b' : crashed tree_pool b' tree_pool.
Proof. constructor; [exact tree_pool_session|vm_compute; lia|by left|done]. Qed.

Lemma right_lsn : page_lsn right_leaf = 0.
Proof. vm_compute. reflexivity. Qed.

Lemma insert_survives_crash_witness :
  exists st' r0 r r1 b1, BPlusTree_Insert 2 [x50] (big_value x51) two_level_db = Some (Done (Ok tt), st') /\
    Recover table_order (Ok (Ok <$> [r0; r; r1])) (mkDb tree_pool no_log no_tree) = Some (Done (Ok tt), mkDb b1 no_log no_tree) /\
    tree_db exact_leaf (mkDb b1 no_log (tree two_level_db)) 1 (<[[x50] := big_value x51]> two_level_map) {[3; 1; 2]}.
Proof.
  destruct (insert_survives_crash list_log_reliable two_level_db 1 two_level_map {[3; 1; 2]} 2 [x50] (big_value x51) 2 right_leaf
    right_map 3615 0) as (st' & r0 & r & r1 & Hr & Hl & Hrec);
    [exact two_level_tree|exact (two_level_leaf _ _ (proj2 sample_route))|exact (proj1 (proj2 tree_pool_pages))|exact right_leaf_page
    |split; [vm_compute; reflexivity|left; vm_compute; discriminate]
    |split; [vm_compute; reflexivity|vm_compute; split; [discriminate|left; discriminate]]|vm_compute; lia|lia|].
  pose proof (list_logged_second r0 r r1 (wal st') Hl) as Hlsn.
  destruct (Hrec ltac:(rewrite Hlsn, right_lsn; lia) table_order tree_pool no_log no_tree (tree_pool_crashed _)) as [(b1 & Hb & Hdb) _];
    [intros b; apply Permutation_refl|].
  exists st', r0, r, r1, b1. split; [exact Hr|split; [exact Hb|exact Hdb]].
Defined.

(** Two insertions into the right leaf, of which nothing reached the disk. *)
Lemma list_logged_three (r0 r r1 : WALRecord) (w w' : list LogOperation) :
  logged w [r0; r; r1] w' -> recordLSN r = len w + 2 /\ len w' = len w + 3.
Proof.
  intros Hl. inversion Hl as [|? ? ? ? ? ? H1 Hl1]; subst. inversion Hl1 as [|? ? ? ? ? ? H2 Hl2]; subst.
  inversion Hl2 as [|? ? ? ? ? ? H3 Hl3]; subst. inversion Hl3; subst.
  injection H1 as <- <-. injection H2 as <- <-. injection H3 as <- <-. cbn [recordLSN]. rewrite !len_app. unfold len. cbn. lia.
Qed.

Lemma two_routes : FindNextChildNodePageId root_page [x51] = Some 2 /\ FindNextChildNodePageId root_page [x52] = Some 2.
Proof. vm_compute. split; reflexivity. Qed.

Lemma two_inserts_history : exists cs V st', inserts 1 2 two_level_db [([x51], [x01]); ([x52], [x02])] cs (tree_pool :: V) st'.
Proof.
  destruct tree_pool_pages as (_ & H2 & H3).
  destruct (insert_continues list_log_reliable 1 two_level_map {[3; 1; 2]} 2 two_level_db [x51] [x01] 2 right_leaf right_map 3615 0)
    as (st1 & p1 & l0 & l & l1 & [Hw1 Hss1] & Ht1 & (Hg1 & _ & Hlsn1) & Hdb1 & Hlog1 & Hnext1);
    [exact two_level_tree|vm_compute; lia|lia|exact (two_level_leaf _ _ (proj1 two_routes))|exact H2|exact right_leaf_page
    |split; [vm_compute; reflexivity|vm_compute; discriminate]|].
  destruct (list_logged_three _ _ _ _ _ Hlog1) as [Hl Hlen]. cbn [recordLSN] in Hl. change (len (wal two_level_db)) with 0 in *. subst l.
  destruct (insert_continues list_log_reliable 1 _ {[3; 1; 2]} 2 st1 [x52] [x02] 2 p1 (<[[x51] := [x01]]> right_map)
    (3615 - leaf_need [x51] [x01]) 0 Hdb1)
    as (st2 & p2 & k0 & k & k1 & _ & _ & _ & _ & Hlog2 & Hnext2);
    [destruct Hss1 as [-> _]; vm_compute; lia|lia| |by rewrite Hw1|exact Hg1|split; [vm_compute; reflexivity|vm_compute; discriminate]|].
  { rewrite Ht1. exists root_page, 2. split_and!; [by rewrite Hw1|exact (proj2 two_routes)|reflexivity]. }
  destruct (list_logged_three _ _ _ _ _ Hlog2) as [Hk _]. cbn [recordLSN] in Hk. rewrite Hlen in Hk. subst k.
  eexists _, _, st2. apply (Hnext1 ltac:(rewrite right_lsn; lia)), (Hnext2 ltac:(rewrite Hlsn1; change (u64 (0 + 2)) with 2; lia)). constructor.
Qed.



(** ** Two insertions at once *)

Definition first_work : list WALRecord :=
  [mkRecord 3 (CreatePage 0 4 0 1); mkRecord 4 (UpdateFirstLeafNodePageId 0 4); mkRecord 5 (UpdateRootNodePageId 0 4);
   mkRecord 6 (InsertLeafNodeEntry 0 4 [x61] [x62])].
Definition second_work : list WALRecord := [mkRecord 8 (InsertLeafNodeEntry 0 4 [x63] [x64])].

Lemma two_inserts_log :
  (fun r => (fst r, wal (snd r))) <$> two_inserts 0 1 [x61] [x62] [x63] [x64] empty_db =
    Some (Done (Ok tt), Operation <$> overlapping 0 first_work second_work 1 2 7 9).
Proof. vm_compute. reflexivity. Qed.

Lemma recover_overlapping_fails_witness :
  (exists st', two_inserts 0 1 [x61] [x62] [x63] [x64] empty_db = Some (Done (Ok tt), st') /\
     wal st' = Operation <$> overlapping 0 first_work second_work 1 2 7 9) /\
  fst <$> Recover table_order (Ok (Ok <$> (overlapping 0 first_work second_work 1 2 7 9 ++ []))) (mkDb tree_pool no_log no_tree) =
    Some (Done (Error ErrNoBegin)).
Proof.
  split.
  - pose proof two_inserts_log as Hl. destruct (two_inserts 0 1 [x61] [x62] [x63] [x64] empty_db) as [[o st']|]; [|discriminate].
    cbn in Hl. injection Hl as -> Hl. exists st'. split; [reflexivity|exact Hl].
  - rewrite (recover_overlapping_fails table_order 0 first_work second_work 1 2 7 9 []);
      [vm_compute; reflexivity|repeat constructor..|discriminate].
Defined.

(** ** An update that needs a compaction *)

(** A leaf with one pair of 1005 bytes, 2109 bytes of garbage and 946 bytes of
    free space. *)
Definition worn_leaf : list byte :=
  match leafDeleteElement (put (put zero_page [x61] (replicate 2100 x30)) [x62] (replicate 1000 x30)) [x61] with
  | Some (p, _) => p
  | None => []
  end.

Definition worn_disk : DirectIODiskManager :=
  mkDisk (mkFile (zero_page ++ worn_leaf) []) (mkMetaData 0 1 ∅ 1 [] ∅) map_to_list.
Definition worn_pool : DbPool := NewSimpleBufferPoolManager 5 NewLRUReplacer worn_disk.
Definition worn_db : Db DbPool (list LogOperation) := mkDb worn_pool [] (mkBPlusTree 0 1 1).
Definition long_update : LogOperation := UpdateLeafNodeEntry 0 1 [x62] (replicate 1500 x30).

(** C36: Recovery can panic on a committed update: [Insert] compacts the leaf to
    make room for the longer value, but redoing the record on the page as it is
    on disk calls [SetValue] without that compaction, and the new element does
    not fit below the end of the free space. *)
Theorem recovery_panics_on_compacted_update :
  (exists st', BPlusTree_Insert 1 [x62] (replicate 1500 x30) worn_db = Some (Done (Ok tt), st') /\
     wal st' = [BeginOperation 0; long_update; CommitOperation 0] /\
     fst <$> BPlusTree_Get 1 [x62] st' = Some (Done (Ok (replicate 1500 x30)))) /\
  Recover table_order (Ok (Ok <$> [mkRecord 1 (BeginOperation 0); mkRecord 2 long_update; mkRecord 3 (CommitOperation 0)]))
    (mkDb worn_pool no_log no_tree) = None.
Proof.
  split; [|vm_compute; reflexivity].
  assert ((fun r => (fst r, wal (snd r), fst <$> BPlusTree_Get 1 [x62] (snd r))) <$>
      BPlusTree_Insert 1 [x62] (replicate 1500 x30) worn_db =
    Some (Done (Ok tt), [BeginOperation 0; long_update; CommitOperation 0], Some (Done (Ok (replicate 1500 x30))))) as Heq
    by (vm_compute; reflexivity).
  destruct (BPlusTree_Insert 1 [x62] (replicate 1500 x30) worn_db) as [[o st']|]; [|discriminate].
  cbn [fmap option_fmap option_map fst snd] in Heq. injection Heq as -> Hw Hg. exists st'. split; [reflexivity|split; [exact Hw|exact Hg]].
Qed.
