(* ===== verification/ServerSamples.v ===== *)
(** * The server over the sample database *)

From S2P Require Export TreeSamples ServerLinear.

Definition no_text (e : error) : list byte := [].

Definition sample_server : Server DbPool (list LogOperation) := mkServer two_level_db true false.
Definition closed_server : Server DbPool (list LogOperation) := mkServer two_level_db false true.

Definition conn_with (bs : list byte) : Conn := mkConn bs Silent false [] [] true.

Lemma sample_serves : serves 5 sample_server two_level_map.
Proof. exists 1%nat, {[3; 1; 2]}. split; [exact two_level_tree|]. vm_compute. lia. Qed.

Lemma server_refines_map_witness :
  exists s', handleClient no_text 5 1 sample_server (conn_with (encode (Put [x09] (big_value x09)) ++ [x50])) =
      Some (Some (AtLoop, s', mkConn [x50] Silent false [x4f] [] true)) /\
    serves 5 s' (<[[x09] := big_value x09]> two_level_map).
Proof.
  destruct (server_refines_map no_text 5 list_log_reliable sample_server (conn_with (encode (Put [x09] (big_value x09)) ++ [x50]))
    two_level_map (Put [x09] (big_value x09)) [x50] sample_serves) as (s' & Hr & Hs);
    [|vm_compute; reflexivity|reflexivity|reflexivity|reflexivity|reflexivity|].
  - exists 1%nat, {[3; 1; 2]}. split; [exact two_level_tree|split; [exact two_level_split_ready|]]. vm_compute. lia.
  - exists s'. split; [exact Hr|exact Hs].
Defined.

Lemma server_session_witness :
  exists s' c', handleClient no_text 5 3 sample_server
      (conn_with (encode (Lookup [x50]) ++ encode (Remove [x50]) ++ encode (Lookup [x50]))) = Some (Some (AtLoop, s', c')) /\
    outbox c' = encodeGetResponse [x50] (big_value x50) ++ [x4f] ++ encodeErrorResponse [].
Proof.
  destruct (server_session no_text 5 list_log_reliable [Lookup [x50]; Remove [x50]; Lookup [x50]] sample_server
    (conn_with (encode (Lookup [x50]) ++ encode (Remove [x50]) ++ encode (Lookup [x50]))) two_level_map [] sample_serves)
    as (s' & c' & Hr & _ & _ & Ho); [|reflexivity|reflexivity|reflexivity|by rewrite app_nil_r|].
  - repeat constructor; vm_compute; reflexivity.
  - exists s', c'. split; [exact Hr|]. rewrite Ho. cbn [answers answer effect outbox conn_with app].
    rewrite (proj1 two_level_map_at), lookup_delete_eq, decide_True by (eexists; reflexivity). by rewrite app_nil_r.
Defined.

Lemma accept_run :
  run no_text 5 [Accepted; Handler 0] (sample_server, []) (sample_server, [(Reading, mkConn [] Silent true [] [] true)]).
Proof.
  econstructor; [apply (step_accept _ _ sample_server [] (conn_with [])); reflexivity|].
  econstructor; [|constructor]. apply (step_check no_text 5 sample_server [(AtLoop, conn_with [])] 0 (conn_with [])). reflexivity.
Qed.

Lemma server_invariant_witness : world_ok (sample_server, [(Reading, mkConn [] Silent true [] [] true)]).
Proof.
  apply (server_invariant no_text 5 [Accepted; Handler 0] sample_server [] sample_server _ accept_run).
  split; [reflexivity|]. intros i st c Hi. by rewrite lookup_nil in Hi.
Defined.

Definition closing_clients : list (ClientState * Conn) := [(AtLoop, conn_with [x50]); (Reading, mkConn [] Silent true [] [] true)].

Lemma shutdown_drains_witness :
  (forall es s' cs', run no_text 5 es (closed_server, closing_clients) (s', cs') -> (handler_steps es + remaining cs' <= 3)%nat) /\
  exists es cs', run no_text 5 es (closed_server, closing_clients) (closed_server, cs') /\
    length cs' = 2%nat /\ forall i st c, cs' !! i = Some (st, c) -> st = Finished.
Proof.
  destruct (shutdown_drains no_text 5 closed_server closing_clients) as [Hb Hd]; [|reflexivity|].
  { split; [reflexivity|]. intros [|[|i]] st c Hi; cbn in Hi; [injection Hi as <- <-; done|injection Hi as <- <-; done|discriminate]. }
  split; [exact Hb|]. apply Hd.
  intros [|[|i]] c Hi; cbn in Hi; [discriminate|injection Hi as <-; split; [reflexivity|left; reflexivity]|discriminate].
Defined.

Lemma one_ends :
  run no_text 5 [Handler 1] (closed_server, [(Reading, conn_with [x49]); (AtLoop, conn_with [])])
    (closed_server, [(Reading, conn_with [x49]); (Finished, handleShutdown (conn_with []))]).
Proof.
  econstructor; [|constructor].
  apply (step_check no_text 5 closed_server [(Reading, conn_with [x49]); (AtLoop, conn_with [])] 1 (conn_with [])). reflexivity.
Qed.

Lemma stalled_client_never_ends_witness :
  [(Reading, conn_with [x49]); (Finished, handleShutdown (conn_with []))] !! 0%nat = Some (Reading, conn_with [x49]).
Proof.
  apply (stalled_client_never_ends no_text 5 [Handler 1] closed_server [(Reading, conn_with [x49]); (AtLoop, conn_with [])] closed_server
    _ 0 (conn_with [x49]) one_ends); [reflexivity| |].
  - exists x49, []. split; [exact (bool_decide_eq_true_1 (x49 ∉ noBodyOpCodes) eq_refl)|]. split; [vm_compute; reflexivity|]. auto.
  - intros [Heq|Hin]%elem_of_cons; [discriminate|]. by apply elem_of_nil in Hin.
Defined.

Lemma malformed_request_panics_witness : handleRequest no_text 5 sample_server (conn_with (wire x47 [x61] ++ [])) = None.
Proof.
  apply (malformed_request_panics no_text 5 sample_server (conn_with (wire x47 [x61] ++ [])) x47 [x61] []);
    [exact (bool_decide_eq_true_1 (x47 ∈ [x49; x44; x47]) eq_refl)|vm_compute; reflexivity|reflexivity|reflexivity].
Defined.

(** Client 0 puts a pair while client 1 asks for another key in two pieces. *)
Definition put_cmd : Command := Put [x09] (big_value x09).
Definition ask_cmd : Command := Lookup [x50].
Definition two_scripts (i : nat) : list Command := match i with 0%nat => [put_cmd] | 1%nat => [ask_cmd] | _ => [] end.
Definition conn0 : Conn := conn_with (encode put_cmd).
Definition conn1 : Conn := conn_with (take 3 (encode ask_cmd)).
Definition two_input : list (nat * list byte) := [(0%nat, encode put_cmd); (1%nat, take 3 (encode ask_cmd)); (1%nat, drop 3 (encode ask_cmd))].

Lemma no_puts w : (forall i c, w.2 !! i = Some (Reading, c) -> exists b l, inbox c = b :: l /\ b <> x49) -> puts_fit (B := DbPool) (W := list LogOperation) 5 w.
Proof. intros H i c key value rest Hi Hin. destruct (H i c Hi) as (b & l & Heq & Hb). rewrite Heq in Hin. by injection Hin as -> _. Qed.

Lemma put_encodable : encodable put_cmd.
Proof. vm_compute. reflexivity. Qed.

Lemma put_can_run : can_run 5 sample_server two_level_map put_cmd.
Proof. exists 1%nat, {[3; 1; 2]}. split; [exact two_level_tree|split; [exact two_level_split_ready|]]. vm_compute. lia. Qed.

Lemma reach_next w0 es tr w e w' es' tr' :
  reach (B := DbPool) (W := list LogOperation) no_text 5 w0 es tr w -> server_step no_text 5 e w w' -> fresh_conn e w' -> puts_fit 5 w ->
  es' = es ++ [e] -> tr' = tr ++ input e w w' -> reach no_text 5 w0 es' tr' w'.
Proof. intros Hr Hs Hf Hp -> ->. by eapply reach_step. Qed.

Lemma two_clients_run :
  exists es s' cs', reach no_text 5 (sample_server, []) es two_input (s', cs') /\ length cs' = 2%nat.
Proof.
  set (c0 := set_deadline conn0 true). set (c1 := mkConn (encode ask_cmd) Silent false [] [] true). set (c1' := set_deadline c1 true).
  destruct (handle_command no_text 5 list_log_reliable sample_server c0 two_level_map put_cmd []
    sample_serves put_can_run put_encodable) as (s1 & Hh & Hs1 & _ & Hup1); [done|done|by rewrite app_nil_r|].
  destruct (handle_command no_text 5 list_log_reliable s1 c1' (effect put_cmd two_level_map) ask_cmd []) as (s2 & Hh2 & Hs2 & _ & _);
    [done|done|vm_compute; reflexivity|done|done|by rewrite app_nil_r|].
  set (d0 := after c0 [] (answer no_text put_cmd two_level_map)) in *.
  set (d1 := after c1' [] (answer no_text ask_cmd (effect put_cmd two_level_map))) in *.
  exists [Accepted; Accepted; Handler 0; Handler 0; FromClient 1; Handler 1; Handler 1], s2, [(AtLoop, d0); (AtLoop, d1)].
  split; [|done].
  assert (forall c, puts_fit (B := DbPool) (W := list LogOperation) 5 (s1, [(AtLoop, d0); (AtLoop, c)])) as Hq.
  { intros c. apply no_puts. intros [|[|i]] c' [=]. }
  apply (reach_next _ [Accepted; Accepted; Handler 0; Handler 0; FromClient 1; Handler 1] two_input (s1, [(AtLoop, d0); (Reading, c1')]) (Handler 1));
    [|apply (step_request no_text 5 s1 [(AtLoop, d0); (Reading, c1')] 1 c1'); [done|unfold finishPass; by rewrite Hh2]|done
     |apply no_puts; intros [|[|i]] c' [=<-]; eexists _, _; by split|reflexivity|reflexivity].
  apply (reach_next _ [Accepted; Accepted; Handler 0; Handler 0; FromClient 1] two_input (s1, [(AtLoop, d0); (AtLoop, c1)]) (Handler 1));
    [|pose proof (step_check no_text 5 s1 [(AtLoop, d0); (AtLoop, c1)] 1 c1 eq_refl) as Hst; unfold checkShutdown in Hst; by rewrite Hup1 in Hst|done|apply Hq|reflexivity|reflexivity].
  apply (reach_next _ [Accepted; Accepted; Handler 0; Handler 0] (take 2 two_input) (s1, [(AtLoop, d0); (AtLoop, conn1)]) (FromClient 1));
    [|exact (step_arrive no_text 5 s1 [(AtLoop, d0); (AtLoop, conn1)] 1 AtLoop conn1 (drop 3 (encode ask_cmd)) Silent eq_refl eq_refl)|done|apply Hq|reflexivity|reflexivity].
  apply (reach_next _ [Accepted; Accepted; Handler 0] (take 2 two_input) (sample_server, [(Reading, c0); (AtLoop, conn1)]) (Handler 0));
    [|apply (step_request no_text 5 sample_server [(Reading, c0); (AtLoop, conn1)] 0 c0); [done|unfold finishPass; by rewrite Hh]|done| |reflexivity|reflexivity].
  2: { intros [|[|i]] c key value rest [=<-] Hin He. rewrite <- (app_nil_r (inbox c0)) in Hin.
       destruct (encode_put_inj _ _ _ _ _ _ put_encodable He Hin) as [<- <-]. exists two_level_map. split; [exact sample_serves|exact put_can_run]. }
  apply (reach_next _ [Accepted; Accepted] (take 2 two_input) (sample_server, [(AtLoop, conn0); (AtLoop, conn1)]) (Handler 0));
    [|exact (step_check no_text 5 sample_server [(AtLoop, conn0); (AtLoop, conn1)] 0 conn0 eq_refl)|done|apply no_puts; intros [|[|i]] c' [=]|reflexivity|reflexivity].
  apply (reach_next _ [Accepted] (take 1 two_input) (sample_server, [(AtLoop, conn0)]) Accepted);
    [|exact (step_accept no_text 5 sample_server [(AtLoop, conn0)] conn1 eq_refl eq_refl)|intros st c Heq; injection Heq as <- <-; split; reflexivity|apply no_puts; intros [|i] c' [=]|reflexivity|reflexivity].
  apply (reach_next _ [] [] (sample_server, []) Accepted);
    [apply reach_init|exact (step_accept no_text 5 sample_server [] conn0 eq_refl eq_refl)|intros st c Heq; injection Heq as <- <-; split; reflexivity|apply no_puts; intros i c' [=]|reflexivity|reflexivity].
Qed.

Lemma server_linearizable_witness :
  exists es s' cs' hist, reach no_text 5 (sample_server, []) es two_input (s', cs') /\ length cs' = 2%nat /\
    serves 5 s' (effects (commands hist) two_level_map) /\
    forall st c, cs' !! 1%nat = Some (st, c) -> outbox c = replies no_text 1 hist two_level_map.
Proof.
  destruct two_clients_run as (es & s' & cs' & Hr & Hlen).
  destruct (server_linearizable no_text 5 list_log_reliable two_scripts sample_server two_level_map es two_input s' cs' sample_serves eq_refl Hr)
    as (hist & Hs & _ & _ & Hcl).
  - intros [|[|i]]; repeat constructor; vm_compute; reflexivity.
  - intros [|[|i]]; exists []; vm_compute; reflexivity.
  - exists es, s', cs', hist. split; [exact Hr|split; [exact Hlen|split; [exact Hs|]]]. intros st c Hc. exact (proj1 (Hcl 1%nat st c Hc)).
Defined.
