(* ===== verification/MainSamples.v ===== *)
(** * Restarts of the sample database

    The restart theorems on concrete files, and a shutdown that loses an
    acknowledged insertion. *)

From S2P Require Export ServerSamples Session.

Definition open_any (o : option File) : result File := Ok (default (mkFile [] []) o).
Definition unlock_any (bytes : list byte) : result unit := Ok tt.

Lemma open_any_spec : open_spec open_any.
Proof. intros f. reflexivity. Qed.

Lemma list_order : order_spec map_to_list.
Proof. intros m. apply Permutation_refl. Qed.

Lemma restart_keeps_map_witness :
  exists s1 f st2, Shutdown sample_server = Some (Done (Ok tt), s1) /\
    stop unlock_any (bPlusTree s1) (map_to_list (pageTable tree_pool)) [] = Some f /\
    start open_any map_to_list (Some f) ([] : list LogOperation) = Some st2 /\ tree_db exact_leaf st2 1 two_level_map {[3; 1; 2]}.
Proof.
  apply (restart_keeps_map open_any map_to_list unlock_any sample_server 1 two_level_map {[3; 1; 2]}
    (map_to_list (pageTable tree_pool)) [] []).
  - exact open_any_spec.
  - reflexivity.
  - exact list_order.
  - exact two_level_tree.
  - reflexivity.
  - reflexivity.
  - apply Permutation_refl.
  - assert (map_u64 {[0 := 3]} /\ map_u64 {[0 := 1]}) as [H1 H2]
      by (split; apply map_Forall_singleton; unfold is_u64; lia).
    constructor; cbn; [unfold is_u64; lia..|exact H1|unfold is_u64; lia|constructor|exact H2].
  - vm_compute. discriminate.
Defined.

Lemma first_insert_after_start_witness :
  exists st st' rid, start open_any map_to_list None ([] : list LogOperation) = Some st /\
    BPlusTree_Insert 1 [x61] [x62] st = Some (Done (Ok tt), st') /\
    tree st' = mkBPlusTree 0 rid rid /\ tree_db exact_leaf st' 0 {[ [x61] := [x62] ]} {[rid]}.
Proof.
  apply (first_insert_after_start open_any map_to_list list_log_reliable [] 1 [x61] [x62]).
  - reflexivity.
  - exact list_order.
  - vm_compute. discriminate.
  - lia.
Defined.

(** ** A session on the sample file *)

Definition saved : option (File * Db DbPool (list LogOperation)) :=
  '(_, s1) ← Shutdown sample_server;
  f ← stop unlock_any (bPlusTree s1) (map_to_list (pageTable tree_pool)) [];
  st ← start open_any map_to_list (Some f) ([] : list LogOperation);
  Some (f, st).

(** The first leaf is not restored. *)
Definition reopened_metadata : MetaData := mkMetaData 0 1 {[0 := 3]} 3 [] {[0 := 0]}.

Lemma sample_db_meta_ok : meta_ok (closed_metadata two_level_db) /\ meta_ok reopened_metadata.
Proof.
  assert (map_u64 {[0 := 3]} /\ map_u64 {[0 := 1]} /\ map_u64 {[0 := 0]}) as (H1 & H2 & H3)
    by (split_and!; apply map_Forall_singleton; unfold is_u64; lia).
  split; constructor; cbn; first [unfold is_u64; lia|exact H1|exact H2|exact H3|constructor].
Qed.

(** A database just started: tree 0 over an empty pool of five frames. *)
Lemma start_shape {W} `{!WAL W} openFile order existing (w : W) st :
  start openFile order existing w = Some st -> BPlusTreeId (tree st) = 0 /\ pageTable (pool st) = ∅ /\ capacity (pool st) = 5%nat.
Proof.
  unfold start. destruct (NewDirectIODiskManager openFile order existing) as [[[d b]|e]|]; cbn [mbind option_bind]; [|done..].
  intros [= <-]. done.
Qed.

(** The sample file, opened: its tree and its metadata. *)
Lemma saved_tree : exists f st, start open_any map_to_list (Some f) ([] : list LogOperation) = Some st /\
  serves 5 (mkServer st true false) two_level_map /\ BPlusTreeId (tree st) = 0 /\ pageTable (pool st) = ∅ /\
  rangeOrder (disk (pool st)) = map_to_list /\ closed_metadata st = reopened_metadata.
Proof.
  destruct (restart_keeps_map open_any map_to_list unlock_any sample_server 1 two_level_map {[3; 1; 2]}
    (map_to_list (pageTable tree_pool)) [] [] open_any_spec (fun _ => eq_refl) list_order two_level_tree eq_refl eq_refl
    (Permutation_refl _) (proj1 sample_db_meta_ok) ltac:(vm_compute; discriminate)) as (s1 & f & st & Hsh & Hstop & Hstart & Hdb).
  exists f, st. split; [done|].
  assert (saved = Some (f, st)) as Hsaved by (unfold saved; rewrite Hsh; cbn [mbind option_bind]; rewrite Hstop; cbn [mbind option_bind]; by rewrite Hstart).
  assert (option_map (fun x => closed_metadata x.2) saved = Some reopened_metadata) as Hm by (vm_compute; reflexivity).
  assert (option_map (fun x => rangeOrder (disk (pool x.2))) saved = Some map_to_list) as Ho by (vm_compute; reflexivity).
  rewrite Hsaved in Hm, Ho. apply (inj Some) in Hm, Ho. cbn [snd] in Hm, Ho.
  assert (BPlusTreeId (tree st) = 0 /\ pageTable (pool st) = ∅ /\ capacity (pool st) = 5%nat) as (Hid & Hpt & Hcap)
    by exact (start_shape _ _ _ _ _ Hstart).
  split; [|split; [exact Hid|split; [exact Hpt|split; [exact Ho|exact Hm]]]].
  exists 1%nat, {[3; 1; 2]}. split; [exact Hdb|]. cbn [bPlusTree]. rewrite Hcap. lia.
Qed.

Lemma session_survives_restart_witness :
  exists f0 es3 world f st2 hist h ps,
    main open_any map_to_list unlock_any (fun _ => Ok tt) no_text 5 (Some f0) [] (Ok tt)
      ([Accepted; Handler 0; Handler 0] ++ stop_events 1 ++ es3) [] [] world f /\
    start open_any map_to_list (Some f) ([] : list LogOperation) = Some st2 /\ tree_db exact_leaf st2 h (effects (commands hist) two_level_map) ps.
Proof.
  destruct saved_tree as (f0 & st & Hst & Hserves & Hid & Hpt & Hro & Hm). set (s := mkServer st true false) in *.
  assert (reach no_text 5 (s, []) [Accepted; Handler 0; Handler 0] [(0%nat, [x50])] (s, [(AtLoop, mkConn [] Silent false [x4f] [] true)])) as Hr.
  { apply (reach_next _ [Accepted; Handler 0] [(0%nat, [x50])] (s, [(Reading, mkConn [x50] Silent true [] [] true)]) (Handler 0));
      [|apply (step_request no_text 5 s [(Reading, mkConn [x50] Silent true [] [] true)] 0 (mkConn [x50] Silent true [] [] true)); reflexivity|done
       |apply no_puts; intros [|i] c [=<-]; eexists _, _; by split|reflexivity|reflexivity].
    apply (reach_next _ [Accepted] [(0%nat, [x50])] (s, [(AtLoop, conn_with [x50])]) (Handler 0));
      [|exact (step_check no_text 5 s [(AtLoop, conn_with [x50])] 0 (conn_with [x50]) eq_refl)|done
       |apply no_puts; intros [|i] c [=]|reflexivity|reflexivity].
    apply (reach_next _ [] [] (s, []) Accepted);
      [apply reach_init|exact (step_accept no_text 5 s [] (conn_with [x50]) eq_refl eq_refl)
       |intros state c Heq; injection Heq as <- <-; split; reflexivity|apply no_puts; intros i c [=]|reflexivity|reflexivity]. }
  destruct (session_survives_restart open_any map_to_list unlock_any (fun _ => Ok tt) no_text 5 list_log_reliable
    (fun i => match i with 0%nat => [Ping] | _ => [] end) (Some f0) [] st two_level_map _ _ s _ [] [] [] open_any_spec (fun _ => eq_refl)
    (fun _ => eq_refl) Hst Hserves Hr) as (s2 & f & st2 & hist & h & ps & Hstop & Hst2 & Hdb & _ & Hruns).
  - intros [|i]; repeat constructor.
  - intros [|i]; exists []; reflexivity.
  - intros [|i] c [=].
  - cbn [bPlusTree s]. rewrite Hro. exact list_order.
  - exact Hid.
  - unfold s. cbn [bPlusTree]. rewrite Hpt. apply Permutation_refl.
  - unfold s. cbn [bPlusTree]. rewrite Hm. exact (proj2 sample_db_meta_ok).
  - unfold s. cbn [bPlusTree]. rewrite Hm. vm_compute. discriminate.
  - destruct (Hruns [] s2 _ ltac:(intros i; apply not_elem_of_nil) (run_nil _ _ _)) as (_ & _ & _ & es4 & s4 & cs4 & Hno & Hr4 & Hfin).
    destruct (Hruns es4 s4 cs4 Hno Hr4) as (_ & _ & Hmain & _).
    exists f0, es4, (s4, cs4), f, st2, hist, h, ps. split; [exact (Hmain Hfin)|split; [exact Hst2|exact Hdb]].
Defined.

(** ** An insertion that arrives with the shutdown *)

Section late.
Context {B W : Type} `{!BufferPoolManager B} `{!WAL W}.

(** Two clients, both past the check of the shutdown channel; the first one's
    request runs first. *)
Lemma two_requests_run text fuel (s s1 s2 : Server B W) c0 c1 c0' c1' :
  shutdown s = false -> connOpen c0 = true -> connOpen c1 = true ->
  finishPass text fuel s (set_deadline c0 true) = Some (Some (AtLoop, s1, c0')) ->
  finishPass text fuel s1 (set_deadline c1 true) = Some (Some (AtLoop, s2, c1')) -> shutdown s2 = true ->
  run text fuel [Handler 0; Handler 1; Handler 0; Handler 1; Handler 0; Handler 1] (s, [(AtLoop, c0); (AtLoop, c1)])
    (s2, [(Finished, handleShutdown c0'); (Finished, handleShutdown c1')]).
Proof.
  intros Hs Ho0 Ho1 H0 H1 Hs2.
  assert (forall c, connOpen c = true -> checkShutdown s c = (Reading, set_deadline c true)) as Hr.
  { intros c Hc. unfold checkShutdown, SetReadDeadline. by rewrite Hs, Hc. }
  assert (forall c, checkShutdown s2 c = (Finished, handleShutdown c)) as Hf by (intros c; unfold checkShutdown; by rewrite Hs2).
  econstructor; [by apply (step_check _ _ _ _ 0 c0)|]. rewrite Hr by done. cbn [insert list_insert].
  econstructor; [by apply (step_check _ _ _ _ 1 c1)|]. rewrite Hr by done. cbn [insert list_insert].
  econstructor; [by eapply (step_request _ _ _ _ 0)|]. cbn [insert list_insert].
  econstructor; [by eapply (step_request _ _ _ _ 1)|]. cbn [insert list_insert].
  econstructor; [by apply (step_check _ _ _ _ 0 c0')|]. rewrite Hf. cbn [insert list_insert].
  econstructor; [by apply (step_check _ _ _ _ 1 c1')|]. rewrite Hf. constructor.
Qed.
End late.

Definition late_text : error -> list byte := no_text.
Definition late_server (st : Db DbPool (list LogOperation)) : Server DbPool (list LogOperation) := mkServer st true false.
Definition shutdown_client : Conn := conn_with [x53].
Definition insert_client : Conn := conn_with (encode (Put [x61] [x62])).

(** The second client's answer, the root then and the root after the restart. *)
Definition late_insert : option (list byte * Z * Z) :=
  st ← start open_any map_to_list None [];
  r1 ← finishPass late_text 1 (late_server st) (set_deadline shutdown_client true);
  match r1 with
  | Some (AtLoop, s1, c0) =>
      r2 ← finishPass late_text 1 s1 (set_deadline insert_client true);
      match r2 with
      | Some (AtLoop, s2, c1) =>
          if negb (shutdown s2) then None else
          f ← stop unlock_any (bPlusTree s2) (map_to_list (pageTable (pool (bPlusTree s2)))) [];
          st2 ← start open_any map_to_list (Some f) ([] : list LogOperation);
          Some (outbox c1, rootNodePageId (tree (bPlusTree s2)), rootNodePageId (tree st2))
      | _ => None
      end
  | _ => None
  end.

Lemma late_insert_eq : late_insert = Some ([x4f], 1, 0).
Proof. vm_compute. reflexivity. Qed.

(** C35: A shutdown can lose an acknowledged insertion: [Shutdown] stores the
    tree's root in the metadata before the other clients are done, so when a
    client that is already past the check of the channel inserts the first pair
    it gets an OK, every client ends, the flush succeeds, and the next start
    finds a tree without a root. *)
Theorem shutdown_loses_late_insert :
  exists st s2 c0 c1 f st2, start open_any map_to_list None [] = Some st /\
    run late_text 1 [Handler 0; Handler 1; Handler 0; Handler 1; Handler 0; Handler 1]
      (late_server st, [(AtLoop, shutdown_client); (AtLoop, insert_client)])
      (s2, [(Finished, handleShutdown c0); (Finished, handleShutdown c1)]) /\
    outbox c1 = encodeOKResponse /\ rootNodePageId (tree (bPlusTree s2)) = 1 /\
    stop unlock_any (bPlusTree s2) (map_to_list (pageTable (pool (bPlusTree s2)))) [] = Some f /\
    start open_any map_to_list (Some f) ([] : list LogOperation) = Some st2 /\ rootNodePageId (tree st2) = 0.
Proof.
  pose proof late_insert_eq as Heq. unfold late_insert in Heq.
  destruct (start open_any map_to_list None []) as [st|]; [|discriminate]. cbn [mbind option_bind] in Heq.
  destruct (finishPass late_text 1 (late_server st) _) as [[[[[] s1] c0]|]|] eqn:H0; try discriminate. cbn [mbind option_bind] in Heq.
  destruct (finishPass late_text 1 s1 _) as [[[[[] s2] c1]|]|] eqn:H1; try discriminate. cbn [mbind option_bind] in Heq.
  destruct (shutdown s2) eqn:Hsh; [|discriminate]. cbn [negb] in Heq.
  destruct (stop _ _ _ _) as [f|] eqn:Hf; [|discriminate]. cbn [mbind option_bind] in Heq.
  destruct (start open_any map_to_list (Some f) _) as [st2|] eqn:Hst2; [|discriminate]. cbn [mbind option_bind] in Heq.
  injection Heq as Ho Hr1 Hr2. exists st, s2, c0, c1, f, st2.
  split; [reflexivity|split; [by eapply two_requests_run|by split_and!]].
Qed.

(** ** Insertions one after the other *)

Fixpoint insert_pairs (st : Db DbPool (list LogOperation)) (kvs : list (list byte * list byte)) : option (Db DbPool (list LogOperation)) :=
  match kvs with
  | [] => Some st
  | (k, v) :: kvs =>
      '(o, st) ← BPlusTree_Insert 5 k v st;
      match o with Done (Ok _) => insert_pairs st kvs | _ => None end
  end.
