(* ===== verification/ReadSamples.v ===== *)
(** * Searches that run together, on the pool of five frames that main makes *)

From S2P Require Export MainSamples ReadRuns.

(** Two searches of the sample tree, one step each in turn, until both have
    returned. *)
Definition alternate (n : nat) : list nat := concat (replicate n [0; 1]%nat).

Definition both_returned : option (DbPool * list Getter) := run_gets (alternate 14) tree_pool (newGet 3 <$> [[x50]; [x09]]).

Lemma both_returned_moves : (fun sr : DbPool * list Getter => get_step sr.1 <$> sr.2) <$> both_returned =
  Some [Returned (Ok (big_value x50)); Returned (Error ErrKeyNotFound)].
Proof. vm_compute. reflexivity. Qed.

Lemma concurrent_gets_correct_witness :
  exists s rs, run_gets (alternate 14) tree_pool (newGet 3 <$> [[x50]; [x09]]) = Some (s, rs) /\
    get_step s <$> rs = [Returned (Ok (big_value x50)); Returned (Error ErrKeyNotFound)] /\
    (forall q, pool_page s q = pool_page tree_pool q) /\ pool_session s ∅.
Proof.
  pose proof both_returned_moves as Hm. destruct both_returned as [[s rs]|] eqn:Hrun; [|discriminate].
  cbn [fmap option_fmap option_map fst snd] in Hm. apply (inj Some) in Hm.
  destruct (concurrent_gets_correct exact_leaf (alternate 14) tree_pool 1 two_level_map {[3; 1; 2]} 3 [[x50]; [x09]] s rs)
    as (Hpg & _ & _ & Hquiet); [exact exact_leaf_slack|exact tree_pool_session|exact (td_tree _ _ _ _ _ two_level_tree)|exact Hrun|].
  exists s, rs. split; [exact Hrun|split; [exact Hm|split; [exact Hpg|]]]. apply Hquiet. intros j g Hj.
  assert ((get_step s <$> rs) !! j = Some (get_step s g)) as Hg by (rewrite list_lookup_fmap, Hj; reflexivity).
  rewrite Hm in Hg. destruct j as [|[|j]]; cbn in Hg; [injection Hg as <-..|discriminate]; eexists; reflexivity.
Defined.

(** ** Five searches on five frames *)

(** Ten pairs of 1300-byte values make a root and five leaves of two pairs. *)
Definition wide_value : list byte := replicate 1300 x76.
Definition wide_pairs : list (list byte * list byte) := (fun k => ([k], wide_value)) <$> [x00; x01; x02; x03; x04; x05; x06; x07; x08; x09].
Definition wide_tree : option (Db DbPool (list LogOperation)) :=
  st ← start open_any map_to_list None [];
  insert_pairs st wide_pairs.

(** A key of every leaf. *)
Definition five_keys : list (list byte) := [[x00]; [x02]; [x04]; [x06]; [x08]].

(** Four searches stop with a leaf in hand; the fifth comes to its leaf. *)
Definition five_schedule : list nat :=
  replicate 7 0%nat ++ replicate 7 1%nat ++ replicate 7 2%nat ++ replicate 6 3%nat ++ replicate 5 4%nat.

Definition returned_value {A} (r : option (outcome (list byte) * A)) : option (list byte) :=
  match r with Some (Done (Ok v), _) => Some v | _ => None end.

Definition is_panic {A} (mv : move A) : bool := match mv with Panics => true | _ => false end.

Definition five_searches : option (list (option (list byte)) * bool) :=
  st ← wide_tree;
  '(s, rs) ← run_gets five_schedule (pool st) (newGet (rootNodePageId (tree st)) <$> five_keys);
  g ← rs !! 4%nat;
  Some ((fun k => returned_value (BPlusTree_Get 5 k st)) <$> five_keys, is_panic (get_step s g)).

Lemma five_searches_eq : five_searches = Some (replicate 5 (Some wide_value), true).
Proof. vm_compute. reflexivity. Qed.

(** Five [Get]s can crash the program: on a new database, with the pool of five
    frames that main makes, ten insertions succeed, and [Get] finds each of five
    keys when it runs alone; but run together, the first four hold the root and
    four leaves, which are all the frames, and the fifth finds no victim for the
    leaf it has to load and panics. *)
Theorem concurrent_gets_panic :
  exists st, wide_tree = Some st /\
    (forall k, k ∈ five_keys -> exists st', BPlusTree_Get 5 k st = Some (Done (Ok wide_value), st')) /\
    exists s rs g, run_gets five_schedule (pool st) (newGet (rootNodePageId (tree st)) <$> five_keys) = Some (s, rs) /\
      rs !! 4%nat = Some g /\ get_step s g = Panics.
Proof.
  pose proof five_searches_eq as Heq. unfold five_searches in Heq. destruct wide_tree as [st|]; [|discriminate].
  cbn [mbind option_bind] in Heq. destruct (run_gets _ _ _) as [[s rs]|] eqn:Hrun; [|discriminate]. cbn [mbind option_bind] in Heq.
  destruct (rs !! 4%nat) as [g|] eqn:Hg; [|discriminate]. cbn [mbind option_bind] in Heq. apply (inj Some), pair_equal_spec in Heq as [Hv Hp].
  exists st. split; [reflexivity|split].
  - intros k [j Hj]%list_elem_of_lookup.
    assert (returned_value (BPlusTree_Get 5 k st) = Some wide_value) as Hk.
    { assert (((fun k => returned_value (BPlusTree_Get 5 k st)) <$> five_keys) !! j = Some (returned_value (BPlusTree_Get 5 k st))) as Hl
        by (rewrite list_lookup_fmap, Hj; reflexivity).
      rewrite Hv in Hl. by apply (lookup_replicate 5 (Some wide_value)) in Hl as [-> _]. }
    unfold returned_value in Hk. destruct (BPlusTree_Get 5 k st) as [[[[v|]|] st']|]; try discriminate. injection Hk as ->. by exists st'.
  - exists s, rs, g. split; [exact Hrun|split; [exact Hg|]]. by destruct (get_step s g).
Qed.
