(* ===== verification/SpaceSamples.v ===== *)
(** * Garbage that is counted twice

    A value that is shortened in place leaves its slot as large as it was:
    [SetValue] counts the difference as garbage, and a later [DeleteElement]
    counts the whole slot.  The counter then promises more than a compaction
    frees. *)

From S2P Require Export MainSamples.

Definition key_of (b : byte) : list byte := [b].
Definition bytes_of (n : nat) : list byte := replicate n x76.

(** Put a with 2000 bytes, put a with 10, delete a, put b with 1900. *)
Definition shortened_tree : option (Db DbPool (list LogOperation)) :=
  st ← start open_any map_to_list None [];
  st ← insert_pairs st [(key_of x61, bytes_of 2000); (key_of x61, bytes_of 10)];
  '(o, st) ← BPlusTree_Delete 5 (key_of x61) st;
  match o with
  | Done (Ok _) => insert_pairs st [(key_of x62, bytes_of 1900)]
  | _ => None
  end.

(** The free space that the header of a leaf describes. *)
Definition free_of (p : list byte) : Z := fld 2 p 10 - fld 2 p 8.

Definition put_and_get (st : Db DbPool (list LogOperation)) (key value : list byte) : option (outcome unit * outcome (list byte)) :=
  '(o, st) ← BPlusTree_Insert 5 key value st;
  '(a, _) ← BPlusTree_Get 5 key st;
  Some (o, a).

(** The leaf's garbage counter, what a compaction frees, the codec's answers to
    a new pair of 2505 bytes, and what the tree does with it and with a value of
    2500 bytes for b. *)
Definition shortened_facts (st : Db DbPool (list LogOperation)) (p c : list byte) :=
  (fld 2 p 12, free_of c - free_of p,
   snd <$> HasEnoughSpaceToInsertElement p (key_of x63) (bytes_of 2500),
   InsertElement p (key_of x63) (bytes_of 2500),
   put_and_get st (key_of x63) (bytes_of 2500),
   fst <$> BPlusTree_Insert 5 (key_of x62) (bytes_of 2500) st).

Lemma shortened_facts_eq :
  (st ← shortened_tree; p ← pool_page (pool st) (rootNodePageId (tree st)); c ← leafCompact p; Some (shortened_facts st p c)) =
  Some (3999, 2009, Some true, None, Some (Done (Ok tt), Done (Error ErrKeyNotFound)), None).
Proof. vm_compute. reflexivity. Qed.

(** Shortening a value and deleting its key counts the freed bytes twice: put a
    with 2000 bytes, put a with 10, delete a and put b with 1900 on a new database
    leave a leaf whose garbage counter is 3999 although a compaction frees 2009
    bytes.  For a new pair of 2505 bytes [HasEnoughSpaceToInsertElement] then
    answers yes and [InsertElement] panics; [Insert] of that pair reports success
    and loses it, and an [Insert] that updates b to 2500 bytes panics. *)
Theorem garbage_counted_twice :
  exists st p c p1, shortened_tree = Some st /\ pool_page (pool st) (rootNodePageId (tree st)) = Some p /\
    leafCompact p = Some c /\ fld 2 p 12 = 3999 /\ free_of c = free_of p + 2009 /\
    HasEnoughSpaceToInsertElement p (key_of x63) (bytes_of 2500) = Some (p1, true) /\
    InsertElement p (key_of x63) (bytes_of 2500) = None /\
    put_and_get st (key_of x63) (bytes_of 2500) = Some (Done (Ok tt), Done (Error ErrKeyNotFound)) /\
    BPlusTree_Insert 5 (key_of x62) (bytes_of 2500) st = None.
Proof.
  pose proof shortened_facts_eq as Heq. destruct shortened_tree as [st|]; [|discriminate]. cbn [mbind option_bind] in Heq.
  destruct (pool_page (pool st) _) as [p|] eqn:Hp; [|discriminate]. cbn [mbind option_bind] in Heq.
  destruct (leafCompact p) as [c|] eqn:Hc; [|discriminate]. cbn [mbind option_bind] in Heq. unfold shortened_facts in Heq.
  destruct (HasEnoughSpaceToInsertElement p _ _) as [[p1 b]|] eqn:Hh; [|discriminate].
  destruct (BPlusTree_Insert 5 (key_of x62) _ st) as [[o st']|] eqn:Hi; [discriminate|].
  injection Heq as H1 H2 Hb H3 H4. cbn in Hb. subst b. exists st, p, c, p1. split_and!; try done. lia.
Qed.
