(* ===== verification/EngineSamples.v ===== *)
(** * The engine on the sample database *)

From S2P Require Export RecoverySamples MainSamples Engine.

Abbreviation DbEngine := (Engine DbPool (list LogOperation)).

(** An engine with the two-level tree of the sample file open under id 0. *)
Definition sample_tree : BPlusTree := mkBPlusTree 0 3 1.
Definition sample_engine : DbEngine := mkEngine 1 false {[0 := sample_tree]} tree_pool [].

Lemma iterator_on_closed_tree_deadlocks_witness :
  exists e', NewBPlusTreeIterator sample_engine 1 = Some (Blocked, e') /\ OpenBPlusTree e' 0 = (Blocked, e').
Proof.
  destruct (iterator_on_closed_tree_deadlocks sample_engine 1) as (e' & Hn & Hall); [reflexivity|reflexivity|].
  exists e'. split; [exact Hn|exact (proj1 (Hall 0))].
Defined.

Lemma reopen_loses_first_leaf_witness :
  exists e1 e2, CloseBPlusTree sample_engine 0 = Some (Done (Ok tt), e1) /\ OpenBPlusTree e1 0 = (Done (Ok (mkBPlusTree 0 3 0)), e2) /\
    FirstLeafNodePages (bpm_metadata (enginePool e2)) !! 0 = Some 1.
Proof.
  destruct (reopen_loses_first_leaf sample_engine 0 sample_tree) as (e1 & e2 & e3 & Hc & Ho & _ & Hf & _);
    [exact tree_pool_session|reflexivity|reflexivity|reflexivity|].
  exists e1, e2. split; [exact Hc|split; [exact Ho|exact Hf]].
Defined.

Lemma engine_restart_keeps_trees_witness :
  exists e1 e2, Engine_Close (fun p => PoolClose unlock_any p (map_to_list (pageTable tree_pool)) []) sample_engine [(0, sample_tree)] =
      Some (Done (Ok tt), e1) /\
    NewStorageEngine open_any map_to_list (Some (file (disk (enginePool e1)))) (Ok no_log) = Some (Ok (e2, false)) /\
    fst (OpenBPlusTree e2 0) = Done (Ok (mkBPlusTree 0 3 0)) /\
    tree_at exact_leaf (store_page (enginePool e2)) 1 3 two_level_map {[3; 1; 2]}.
Proof.
  destruct (engine_restart_keeps_trees open_any map_to_list unlock_any sample_engine [(0, sample_tree)]
    (map_to_list (pageTable tree_pool)) [] no_log) as (e1 & e2 & Hc & Hn & _ & _ & Ht).
  - exact open_any_spec.
  - reflexivity.
  - exact list_order.
  - exact tree_pool_session.
  - vm_compute. apply Permutation_refl.
  - intros id t Ht. cbn in Ht. apply lookup_singleton_Some in Ht as [<- <-]. reflexivity.
  - apply Permutation_refl.
  - assert (map_u64 {[0 := 3]} /\ map_u64 {[0 := 1]}) as [H1 H2] by (split; apply map_Forall_singleton; unfold is_u64; lia).
    constructor; cbn; [unfold is_u64; lia..|exact H1|unfold is_u64; lia|constructor|exact H2].
  - vm_compute. discriminate.
  - destruct (Ht 0 sample_tree eq_refl) as [Ho Hp]. exists e1, e2. split; [exact Hc|split; [exact Hn|split; [exact Ho|]]].
    apply Hp; [rewrite !elem_of_union, !elem_of_singleton; lia|exact (td_tree _ _ _ _ _ two_level_tree)].
Defined.

(** A guard on the full leaf, whose nine pairs are followed by no leaf. *)
Lemma iterator_skips_pairs_witness :
  exists b g dt, session b (<[1 := Hold g false dt]> ∅) /\
    Iterator_Next (mkCursor g 0) (mkDb b no_log no_tree) =
      Some (Done (Ok (Error ErrEndOfIterator, mkCursor g 0)), mkDb b no_log no_tree).
Proof.
  destruct (open_read_law tree_pool ∅ 1 tree_pool_session (lookup_empty _)) as (g & dt & b & Ho & Hs & Hpg & _);
    [rewrite (proj1 tree_pool_pages); by eexists|vm_compute; lia|].
  pose proof (iterator_skips_pairs b _ 1 g dt full_leaf full_map 0 no_log no_tree Hs) as Hit.
  rewrite decide_True in Hit by (vm_compute; reflexivity).
  destruct Hit as [Hend _]; [by rewrite lookup_insert_eq|rewrite Hpg; exact (proj1 tree_pool_pages)
    |exact (leaf_page_is_slack _ _ _ _ full_leaf_page)|lia|].
  exists b, g, dt. split; [exact Hs|]. apply Hend. vm_compute. reflexivity.
Defined.

(** ** Recovery of a whole database, as the repository tests it

    A new engine, a tree, insertions, a crash before anything is flushed, and a
    second engine that recovers from the log alone. *)

Definition numbered (ops : list LogOperation) : list WALRecord := imap (fun i op => mkRecord (Z.of_nat i + 1) op) ops.

Fixpoint insert_all (e : DbEngine) (id : Z) (kvs : list (list byte * list byte)) : option DbEngine :=
  match kvs with
  | [] => Some e
  | (k, v) :: kvs =>
      '(o, e) ← onTree e id (BPlusTree_Insert 5 k v);
      match o with Done (Ok _) => insert_all e id kvs | _ => None end
  end.

(** What the recovered tree answers for each key. *)
Definition recovered_values (kvs : list (list byte * list byte)) : option (list (outcome (list byte))) :=
  r ← NewStorageEngine open_any map_to_list None (Ok no_log);
  match r with
  | Ok (e, _) =>
      let '(id, e) := Engine_NewBPlusTree e in
      let '(_, e) := OpenBPlusTree e id in
      e ← insert_all e id kvs;
      r2 ← NewStorageEngine open_any map_to_list (Some (file (disk (enginePool e)))) (Ok no_log);
      match r2 with
      | Ok (e2, _) =>
          '(o, e2) ← Engine_Recover e2 table_order (Ok (Ok <$> numbered (engineWal e)));
          match o with
          | Done (Ok _) =>
              let '(_, e2) := OpenBPlusTree e2 id in
              Some (omap (fun kv => fst <$> onTree e2 id (BPlusTree_Get 5 kv.1)) kvs)
          | _ => None
          end
      | Error _ => None
      end
  | Error _ => None
  end.

Definition two_pairs : list (list byte * list byte) := [([x6b; x31], [x76; x31]); ([x6b; x32], [x76; x32])].

Example recovers_two_pairs : recovered_values two_pairs = Some ((fun kv => Done (Ok kv.2)) <$> two_pairs).
Proof. vm_compute. reflexivity. Qed.

(** Twelve pairs of 449 bytes split the root. *)
Definition twelve_pairs : list (list byte * list byte) := (fun b => ([b], big_value b)) <$>
  [x01; x02; x03; x04; x05; x06; x07; x08; x09; x0a; x0b; x0c].

Example recovers_splits : recovered_values twelve_pairs = Some ((fun kv => Done (Ok kv.2)) <$> twelve_pairs).
Proof. vm_compute. reflexivity. Qed.

(** ** A split of an internal root *)

(** Ten keys of 1321 bytes: three fit in a leaf, and three separators in the
    root. *)
Definition long_key (i : nat) : list byte := replicate 1320 x61 ++ [byte_of_Z (Z.of_nat i)].
Definition ten_pairs : list (list byte * list byte) := (fun i => (long_key i, [x76])) <$> seq 0 10.

Definition first_nine : option DbEngine :=
  r ← NewStorageEngine open_any map_to_list None (Ok no_log);
  match r with
  | Ok (e, _) =>
      let '(id, e) := Engine_NewBPlusTree e in
      let '(_, e) := OpenBPlusTree e id in
      insert_all e id (take 9 ten_pairs)
  | Error _ => None
  end.

Definition root_of (e : DbEngine) : option Z := rootNodePageId <$> openBPlusTrees e !! 1.
Definition get_key (e : DbEngine) (i : nat) : option (outcome (list byte)) := fst <$> onTree e 1 (BPlusTree_Get 5 (long_key i)).

(** The type of a page, where it routes the key number [i] as an internal node,
    and what it stores for it as a leaf. *)
Definition type_of (e : DbEngine) (pid : Z) : option Z := p ← store_page (enginePool e) pid; Some (node_type p).
Definition route (e : DbEngine) (pid : Z) (i : nat) : option Z := p ← store_page (enginePool e) pid; FindNextChildNodePageId p (long_key i).
Definition stored (e : DbEngine) (pid : Z) (i : nat) : option (option (list byte)) :=
  p ← store_page (enginePool e) pid; FindValue p (long_key i).

(** The tree before and after the tenth insertion. *)
Definition tenth_split : option (DbEngine * outcome unit * DbEngine) :=
  e ← first_nine;
  '(o, e') ← onTree e 1 (BPlusTree_Insert 5 (long_key 9) [x76]);
  Some (e, o, e').

Definition split_facts (x : DbEngine * outcome unit * DbEngine) :=
  let '(e, o, e') := x in
  (o, (root_of e, root_of e'), (type_of e 2, type_of e' 2, type_of e' 7, type_of e' 8), (route e' 7 0, route e' 7 9),
   (route e' 2 0, stored e' 1 0), (route e' 8 9, stored e' 6 9), (get_key e 0, get_key e' 0, get_key e' 9)).

Lemma split_facts_eq : option_map split_facts tenth_split =
  Some (Done (Ok tt), (Some 2, Some 7), (Some 1, Some 1, Some 0, Some 0), (Some 2, Some 8),
        (Some 1, Some (Some [x76])), (Some 6, Some (Some [x76])),
        (Some (Done (Ok [x76])), Some (Done (Error ErrKeyNotFound)), Some (Done (Error ErrKeyNotFound)))).
Proof. vm_compute. reflexivity. Qed.

(** C34: Splitting an internal root loses keys.  On a new database nine insertions
    of long keys make a tree whose root [r] is an internal node, and the first key
    is found.  The tenth insertion reports success and splits that root: the
    tree gets a new root [n] above [r] and a new right node [q].  [r] keeps its
    internal type, but neither [n] nor [q] is marked as internal: both have the
    type of a leaf.  The pages are otherwise right: [n] routes the first key to [r]
    and the tenth to [q], which route them to leaves that hold them.  But the new
    root is read as a leaf, and neither key is found. *)
Theorem internal_root_split_loses_keys :
  exists e e' r n q l0 l9, first_nine = Some e /\ root_of e = Some r /\ type_of e r = Some 1 /\ get_key e 0 = Some (Done (Ok [x76])) /\
    onTree e 1 (BPlusTree_Insert 5 (long_key 9) [x76]) = Some (Done (Ok tt), e') /\ root_of e' = Some n /\ n <> r /\ q <> r /\ q <> n /\
    type_of e' r = Some 1 /\ type_of e' n = Some 0 /\ type_of e' q = Some 0 /\
    route e' n 0 = Some r /\ route e' r 0 = Some l0 /\ stored e' l0 0 = Some (Some [x76]) /\
    route e' n 9 = Some q /\ route e' q 9 = Some l9 /\ stored e' l9 9 = Some (Some [x76]) /\
    get_key e' 0 = Some (Done (Error ErrKeyNotFound)) /\ get_key e' 9 = Some (Done (Error ErrKeyNotFound)).
Proof.
  pose proof split_facts_eq as Heq. destruct tenth_split as [x|] eqn:Hx; [|discriminate]. unfold tenth_split in Hx.
  destruct first_nine as [e|]; [|discriminate]. cbn [mbind option_bind] in Hx.
  destruct (onTree e 1 _) as [[o e']|] eqn:Hi; [|discriminate]. cbn [mbind option_bind] in Hx. injection Hx as <-.
  cbn [option_map split_facts] in Heq. injection Heq as -> ? ? ? ? ? ? ? ? ? ? ? ? ? ? ?.
  exists e, e', 2, 7, 8, 1, 6. split_and!; first [assumption | discriminate | reflexivity].
Qed.
